(** * Mahjong engine: hand model, winning-hand decomposition,
      decision arbitration and turn state machine.

    Shallow embedding of [mahjong/types.py], [mahjong/utils.py],
    [mahjong/algo.py] and [mahjong/flow.py], with the properties of the
    specification proved (or refuted) over it. *)

From Stdlib Require Import ZArith List Lia Bool Permutation Sorted.
From stdpp Require Import gmap strings list fin_maps.
Import ListNotations.

Local Open Scope Z_scope.

(** ** Python exceptions

    A computation either returns a value or raises; the payload is the
    name of the exception class. *)

Inductive Exc (A : Type) : Type :=
| Ret (a : A)
| Raise (e : string).
Arguments Ret {A} a.
Arguments Raise {A} e.

Definition ebind {A B : Type} (m : Exc A) (k : A -> Exc B) : Exc B :=
  match m with
  | Ret a => k a
  | Raise e => Raise e
  end.

Notation "x <~ m ; k" := (ebind m (fun x => k))
  (at level 20, m at level 100, k at level 200, only parsing).

(** ** Tiles ([types.Tile])

    All tile instances are created when the module is loaded
    ([_init_tile_class]) and the constructor is never called at run time,
    so the tiles are exactly the 42 catalogued ones. *)

Inductive Tile : Type :=
| CHAR1 | CHAR2 | CHAR3 | CHAR4 | CHAR5 | CHAR6 | CHAR7 | CHAR8 | CHAR9
| CIRCLE1 | CIRCLE2 | CIRCLE3 | CIRCLE4 | CIRCLE5 | CIRCLE6 | CIRCLE7
| CIRCLE8 | CIRCLE9
| BAMBOO1 | BAMBOO2 | BAMBOO3 | BAMBOO4 | BAMBOO5 | BAMBOO6 | BAMBOO7
| BAMBOO8 | BAMBOO9
| EAST | SOUTH | WEST | NORTH
| RED | GREEN | WHITE
| PLUM | ORCHID | BAMBOO | CHRYSANTH
| SPRING | SUMMER | AUTUMN | WINTER.

Definition tile_id (t : Tile) : Z :=
  match t with
  | CHAR1 => 0x0101 | CHAR2 => 0x0102 | CHAR3 => 0x0103
  | CHAR4 => 0x0104 | CHAR5 => 0x0105 | CHAR6 => 0x0106
  | CHAR7 => 0x0107 | CHAR8 => 0x0108 | CHAR9 => 0x0109
  | CIRCLE1 => 0x0201 | CIRCLE2 => 0x0202 | CIRCLE3 => 0x0203
  | CIRCLE4 => 0x0204 | CIRCLE5 => 0x0205 | CIRCLE6 => 0x0206
  | CIRCLE7 => 0x0207 | CIRCLE8 => 0x0208 | CIRCLE9 => 0x0209
  | BAMBOO1 => 0x0401 | BAMBOO2 => 0x0402 | BAMBOO3 => 0x0403
  | BAMBOO4 => 0x0404 | BAMBOO5 => 0x0405 | BAMBOO6 => 0x0406
  | BAMBOO7 => 0x0407 | BAMBOO8 => 0x0408 | BAMBOO9 => 0x0409
  | EAST => 0x1000 | SOUTH => 0x1002 | WEST => 0x1004 | NORTH => 0x1006
  | RED => 0x1800 | GREEN => 0x1802 | WHITE => 0x1804
  | PLUM => 0x4000 | ORCHID => 0x4002 | BAMBOO => 0x4004
  | CHRYSANTH => 0x4006
  | SPRING => 0x6000 | SUMMER => 0x6002 | AUTUMN => 0x6004
  | WINTER => 0x6006
  end.

(** Suit enumerations and masks. *)
Definition SUIT_CHAR : Z := 0x0100.
Definition SUIT_CIRCLE : Z := 0x0200.
Definition SUIT_BAMBOO : Z := 0x0400.
Definition SUIT_WIND : Z := 0x1000.
Definition SUIT_DRAGON : Z := 0x1800.
Definition SUIT_FLOWER : Z := 0x4000.
Definition SUIT_SEASON : Z := 0x6000.

Definition MASK_CHAR : Z := 0x0100.
Definition MASK_CIRCLE : Z := 0x0200.
Definition MASK_BAMBOO : Z := 0x0400.
Definition MASK_HONOR : Z := 0x1000.
Definition MASK_FLOWER : Z := 0x4000.
Definition MASK_DRAGON : Z := 0x0800.
Definition MASK_SEASON : Z := 0x2000.

(** Python truthiness of an integer. *)
Definition truthyZ (z : Z) : bool := negb (z =? 0).

(** The suit computed by [Tile.__init__]; [None] stands for the
    [ValueError] raised on an illegal id. *)
Definition suit_of_id (id : Z) : option Z :=
  if truthyZ (Z.land MASK_CHAR id) then Some SUIT_CHAR
  else if truthyZ (Z.land MASK_CIRCLE id) then Some SUIT_CIRCLE
  else if truthyZ (Z.land MASK_BAMBOO id) then Some SUIT_BAMBOO
  else if truthyZ (Z.land MASK_HONOR id) then
    if truthyZ (Z.land MASK_DRAGON id) then Some SUIT_DRAGON
    else Some SUIT_WIND
  else if truthyZ (Z.land MASK_FLOWER id) then
    if truthyZ (Z.land MASK_SEASON id) then Some SUIT_SEASON
    else Some SUIT_FLOWER
  else None.

Definition suit (t : Tile) : Z :=
  match suit_of_id (tile_id t) with
  | Some s => s
  | None => 0
  end.

(** [self.rank = tile_id % 16 if tile_id < 0x1000 else None] *)
Definition rank (t : Tile) : option Z :=
  if tile_id t <? 0x1000 then Some (tile_id t mod 16) else None.

(** [__eq__] and [__cmp__] compare tile ids. *)
Definition tile_eqb (a b : Tile) : bool := tile_id a =? tile_id b.
Definition tile_cmp (a b : Tile) : Z := tile_id a - tile_id b.
Definition tile_ltb (a b : Tile) : bool := tile_cmp a b <? 0.

Definition is_char (t : Tile) : bool := suit t =? SUIT_CHAR.
Definition is_circle (t : Tile) : bool := suit t =? SUIT_CIRCLE.
Definition is_bamboo (t : Tile) : bool := suit t =? SUIT_BAMBOO.
Definition is_honor (t : Tile) : bool :=
  (suit t =? SUIT_WIND) || (suit t =? SUIT_DRAGON).
Definition is_wind (t : Tile) : bool := suit t =? SUIT_WIND.
Definition is_dragon (t : Tile) : bool := suit t =? SUIT_DRAGON.
Definition is_general_flower (t : Tile) : bool :=
  (suit t =? SUIT_FLOWER) || (suit t =? SUIT_SEASON).

(** The fixed catalogue, in increasing id order. *)
Definition catalog : list Tile :=
  [ CHAR1; CHAR2; CHAR3; CHAR4; CHAR5; CHAR6; CHAR7; CHAR8; CHAR9;
    CIRCLE1; CIRCLE2; CIRCLE3; CIRCLE4; CIRCLE5; CIRCLE6; CIRCLE7;
    CIRCLE8; CIRCLE9;
    BAMBOO1; BAMBOO2; BAMBOO3; BAMBOO4; BAMBOO5; BAMBOO6; BAMBOO7;
    BAMBOO8; BAMBOO9;
    EAST; SOUTH; WEST; NORTH; RED; GREEN; WHITE;
    PLUM; ORCHID; BAMBOO; CHRYSANTH; SPRING; SUMMER; AUTUMN; WINTER ].

(** [Tile.ALL]: the dictionary from tile id to tile instance. A failed
    lookup ([KeyError]) is [None]. *)
Definition Tile_ALL (id : Z) : option Tile :=
  find (fun t => tile_id t =? id) catalog.


Scheme Equality for Tile.

(** ** Binary search ([bisect] and [utils.index])

    [bisect.bisect_left], [bisect.bisect_right] and [bisect.insort] are
    the loops of the standard library's [bisect.py]. Each iteration
    shrinks [hi - lo], so [length a] iterations are enough; the fuel
    argument only makes the recursion structural. *)

Fixpoint bisect_left_loop (fuel : nat) (a : list Tile) (x : Tile)
    (lo hi : nat) : nat :=
  match fuel with
  | O => lo
  | S fuel' =>
      if (lo <? hi)%nat then
        let mid := ((lo + hi) / 2)%nat in
        if tile_ltb (nth mid a x) x
        then bisect_left_loop fuel' a x (mid + 1)%nat hi
        else bisect_left_loop fuel' a x lo mid
      else lo
  end.

Definition bisect_left (a : list Tile) (x : Tile) : nat :=
  bisect_left_loop (length a) a x 0%nat (length a).

Fixpoint bisect_right_loop (fuel : nat) (a : list Tile) (x : Tile)
    (lo hi : nat) : nat :=
  match fuel with
  | O => lo
  | S fuel' =>
      if (lo <? hi)%nat then
        let mid := ((lo + hi) / 2)%nat in
        if tile_ltb x (nth mid a x)
        then bisect_right_loop fuel' a x lo mid
        else bisect_right_loop fuel' a x (mid + 1)%nat hi
      else lo
  end.

Definition bisect_right (a : list Tile) (x : Tile) : nat :=
  bisect_right_loop (length a) a x 0%nat (length a).

(** [a.insert(i, x)] *)
Definition list_insert_at {A : Type} (i : nat) (x : A) (a : list A)
  : list A :=
  firstn i a ++ x :: skipn i a.

(** [del a[i]] for an index within range. *)
Definition del_at {A : Type} (i : nat) (a : list A) : list A :=
  firstn i a ++ skipn (S i) a.

(** [bisect.insort(a, x)] (an alias of [insort_right]). *)
Definition insort (a : list Tile) (x : Tile) : list Tile :=
  list_insert_at (bisect_right a x) x a.

(** [utils.index]: leftmost position of a value equal to [x], or -1. *)
Definition index (a : list Tile) (x : Tile) : Z :=
  let i := bisect_left a x in
  if negb (i =? length a)%nat && tile_eqb (nth i a x) x
  then Z.of_nat i
  else -1.

(** The builtin [sorted]: a stable sort, modelled as stable insertion
    sort. Tiles with equal keys are equal, so the result is the unique
    non-decreasing arrangement of the input. *)
Definition py_sorted (l : list Tile) : list Tile :=
  fold_left insort l [].

(** ** Fixed groups ([types.TileGroup]) *)

Definition CHOW : Z := 0.
Definition PONG : Z := 1.
Definition KONG_EXPOSED : Z := 2.
Definition KONG_CONCEALED : Z := 3.

Record TileGroup : Type := mkTileGroup {
  tiles : list Tile;
  group_type : Z
}.

(** [TileGroup.__init__] *)
Definition TileGroup_init (ts : list Tile) (gt : Z) : Exc TileGroup :=
  let num_tiles := length ts in
  if negb (num_tiles =? 3)%nat && negb (num_tiles =? 4)%nat
  then Raise "ValueError"
  else if (gt <? CHOW) || (gt >? KONG_CONCEALED) then Raise "ValueError"
  else Ret (mkTileGroup (py_sorted ts) gt).

(** List equality through [Tile.__eq__]. *)
Fixpoint tiles_eqb (a b : list Tile) : bool :=
  match a, b with
  | [], [] => true
  | x :: a', y :: b' => tile_eqb x y && tiles_eqb a' b'
  | _, _ => false
  end.

(** [x == y] where either side may be [None]: [Tile.__eq__] answers
    [False] for an operand of another type. *)
Definition opt_tile_eqb (a b : option Tile) : bool :=
  match a, b with
  | Some x, Some y => tile_eqb x y
  | None, None => true
  | _, _ => false
  end.

(** [tile in tiles] *)
Definition tile_in (t : Tile) (l : list Tile) : bool :=
  existsb (fun x => tile_eqb x t) l.

(** [tiles.count(tile)] *)
Definition list_count (t : Tile) (l : list Tile) : Z :=
  Z.of_nat (length (List.filter (fun x => tile_eqb x t) l)).

(** ** Hands ([types.Hand]) *)

Record Hand : Type := mkHand {
  free_tiles : list Tile;
  fixed_groups : list TileGroup;
  flowers : list Tile;
  last_tile : option Tile
}.

Definition set_free_tiles (h : Hand) (ft : list Tile) : Hand :=
  mkHand ft (fixed_groups h) (flowers h) (last_tile h).
Definition set_fixed_groups (h : Hand) (g : list TileGroup) : Hand :=
  mkHand (free_tiles h) g (flowers h) (last_tile h).
Definition set_flowers (h : Hand) (fl : list Tile) : Hand :=
  mkHand (free_tiles h) (fixed_groups h) fl (last_tile h).
Definition set_last_tile (h : Hand) (t : option Tile) : Hand :=
  mkHand (free_tiles h) (fixed_groups h) (flowers h) t.

(** Mutating methods return the hand after the call. A method that may
    raise returns the outcome together with the hand as it stands at
    that point, since a partly executed method leaves its earlier
    updates in place. *)

(** [Hand.__init__] *)
Definition Hand_init (ts : option (list Tile)) : Hand :=
  let ft := match ts with
            | Some (x :: l) => x :: l
            | _ => []
            end in
  mkHand (py_sorted ft) [] [] None.

(** [Hand.clear] *)
Definition Hand_clear (h : Hand) : Hand := mkHand [] [] [] None.

Definition add_free_tile (h : Hand) (t : Tile) : Hand :=
  set_free_tiles h (insort (free_tiles h) t).

Definition add_free_tiles (h : Hand) (ts : list Tile) : Hand :=
  fold_left add_free_tile ts h.

Definition move_last_tile (h : Hand) : option Tile * Hand :=
  match last_tile h with
  | Some t => (Some t, set_last_tile (add_free_tile h t) None)
  | None => (None, h)
  end.

Definition remove_last_tile (h : Hand) : option Tile * Hand :=
  (last_tile h, set_last_tile h None).

Definition remove_free_tile (h : Hand) (t : Tile) : Exc unit * Hand :=
  let i := index (free_tiles h) t in
  if i <? 0 then (Raise "ValueError", h)
  else (Ret tt, set_free_tiles h (del_at (Z.to_nat i) (free_tiles h))).

(** The inner [while] of [Hand.count]: the run of entries equal to
    [tile] from position [idx] on. *)
Fixpoint count_run (l : list Tile) (tile : Tile) : Z :=
  match l with
  | x :: l' => if tile_eqb x tile then 1 + count_run l' tile else 0
  | [] => 0
  end.

Definition Hand_count (h : Hand) (tile : Tile)
    (use_last_tile use_free_tiles use_fixed_groups : bool) : Z :=
  let c0 := if use_last_tile && opt_tile_eqb (last_tile h) (Some tile)
            then 1 else 0 in
  let c1 := if use_free_tiles then
              let idx := index (free_tiles h) tile in
              if idx >=? 0
              then c0 + count_run (skipn (Z.to_nat idx) (free_tiles h)) tile
              else c0
            else c0 in
  if use_fixed_groups
  then fold_left (fun c g => c + list_count tile (tiles g)) (fixed_groups h) c1
  else c1.

Definition Hand_contains (h : Hand) (tile : Tile)
    (use_last_tile use_free_tiles use_fixed_groups use_flowers : bool)
  : bool :=
  if use_last_tile && opt_tile_eqb (last_tile h) (Some tile) then true
  else if use_free_tiles && (index (free_tiles h) tile >=? 0) then true
  else if use_fixed_groups
          && existsb (fun g => tile_in tile (tiles g)) (fixed_groups h)
       then true
  else if use_flowers && tile_in tile (flowers h) then true
  else false.

Definition add_flower (h : Hand) (t : Tile) : Hand :=
  set_flowers h (flowers h ++ [t]).

Definition move_flowers (h : Hand) : Hand :=
  let h1 := fold_left
              (fun acc t => if is_general_flower t then add_flower acc t
                            else acc)
              (free_tiles h) h in
  let h2 := set_free_tiles h1
              (List.filter (fun x => negb (is_general_flower x)) (free_tiles h1)) in
  match last_tile h2 with
  | Some t =>
      if is_general_flower t
      then set_last_tile (add_flower h2 t) None
      else h2
  | None => h2
  end.

(** [Hand.discard(tile=None)] *)
Definition Hand_discard (h : Hand) (tile : option Tile) : Exc unit * Hand :=
  let tile := match tile with Some t => Some t | None => last_tile h end in
  if opt_tile_eqb (last_tile h) tile then (Ret tt, set_last_tile h None)
  else
    match tile with
    | Some t =>
        match remove_free_tile h t with
        | (Ret _, h1) => (Ret tt, snd (move_last_tile h1))
        | (Raise e, h1) => (Raise e, h1)
        end
    | None => (Ret tt, h)
    end.

Definition num_kongs (h : Hand) (exposed concealed : bool) : Z :=
  fold_left
    (fun c g =>
       if exposed && (group_type g =? KONG_EXPOSED) then c + 1
       else if concealed && (group_type g =? KONG_CONCEALED) then c + 1
       else c)
    (fixed_groups h) 0.

Definition num_pongs (h : Hand) : Z :=
  fold_left (fun c g => if group_type g =? PONG then c + 1 else c)
            (fixed_groups h) 0.

Definition num_chows (h : Hand) : Z :=
  fold_left (fun c g => if group_type g =? CHOW then c + 1 else c)
            (fixed_groups h) 0.

(** The loop of [Hand._meld] that takes the melded tiles out of the free
    tiles; it stops at the first tile that is missing. *)
Fixpoint meld_remove (ft : list Tile) (to_remove : list Tile)
  : Exc unit * list Tile :=
  match to_remove with
  | [] => (Ret tt, ft)
  | t :: rest =>
      let idx := index ft t in
      if idx <? 0 then (Raise "ValueError", ft)
      else meld_remove (del_at (Z.to_nat idx) ft) rest
  end.

Definition _meld (h : Hand) (fts : list Tile) (incoming_tile : Tile)
    (gt : Z) : Exc TileGroup * Hand :=
  match meld_remove (free_tiles h) fts with
  | (Raise e, ft') => (Raise e, set_free_tiles h ft')
  | (Ret _, ft') =>
      let h1 := set_free_tiles h ft' in
      match TileGroup_init (py_sorted (fts ++ [incoming_tile])) gt with
      | Raise e => (Raise e, h1)
      | Ret group => (Ret group, set_fixed_groups h1 (fixed_groups h1 ++ [group]))
      end
  end.

Definition Hand_chow (h : Hand) (fts : list Tile) (incoming_tile : Tile)
  : Exc TileGroup * Hand :=
  _meld h fts incoming_tile CHOW.

Definition Hand_pong (h : Hand) (incoming_tile : Tile)
  : Exc TileGroup * Hand :=
  _meld h [incoming_tile; incoming_tile] incoming_tile PONG.

Definition kong_from_other (h : Hand) (incoming_tile : Tile)
  : Exc TileGroup * Hand :=
  _meld h [incoming_tile; incoming_tile; incoming_tile] incoming_tile
        KONG_EXPOSED.

Definition is_pong_of (tile : Tile) (g : TileGroup) : bool :=
  (group_type g =? PONG) && tiles_eqb (tiles g) [tile; tile; tile].

Definition _find_pong_group (h : Hand) (tile : Tile) : option TileGroup :=
  find (is_pong_of tile) (fixed_groups h).

(** The in-place update of the group found by [_find_pong_group]. *)
Fixpoint append_to_pong (gs : list TileGroup) (tile : Tile)
  : list TileGroup :=
  match gs with
  | [] => []
  | g :: gs' =>
      if is_pong_of tile g
      then mkTileGroup (tiles g ++ [tile]) KONG_EXPOSED :: gs'
      else g :: append_to_pong gs' tile
  end.

Definition kong_from_self (h : Hand) : Exc TileGroup * Hand :=
  match last_tile h with
  | Some lt =>
      match _find_pong_group h lt with
      | Some pong_group =>
          (Ret (mkTileGroup (tiles pong_group ++ [lt]) KONG_EXPOSED),
           set_last_tile
             (set_fixed_groups h (append_to_pong (fixed_groups h) lt)) None)
      | None =>
          match _meld h [lt; lt; lt] lt KONG_CONCEALED with
          | (Ret group, h1) => (Ret group, set_last_tile h1 None)
          | (Raise e, h1) => (Raise e, h1)
          end
      end
  | None => (Raise "ValueError", h)
  end.

(** [Tile.ALL[id]] *)
Definition ALL_get (id : Z) : Exc Tile :=
  match Tile_ALL id with
  | Some t => Ret t
  | None => Raise "KeyError"
  end.

Definition chow_comb (ft : list Tile) (id1 id2 : Z)
    (combs : list (Tile * Tile)) : Exc (list (Tile * Tile)) :=
  t1 <~ ALL_get id1;
  t2 <~ ALL_get id2;
  Ret (if (index ft t1 >=? 0) && (index ft t2 >=? 0)
       then combs ++ [(t1, t2)] else combs).

Definition get_chow_combs (h : Hand) (incoming_tile : Tile)
  : Exc (list (Tile * Tile)) :=
  let combs := [] in
  if is_honor incoming_tile || is_general_flower incoming_tile
  then Ret combs
  else
    let id := tile_id incoming_tile in
    let num := id mod 16 in
    combs <~ (if num >? 2
              then chow_comb (free_tiles h) (id - 2) (id - 1) combs
              else Ret combs);
    combs <~ (if (num >? 1) && (num <? 9)
              then chow_comb (free_tiles h) (id - 1) (id + 1) combs
              else Ret combs);
    combs <~ (if num <? 8
              then chow_comb (free_tiles h) (id + 1) (id + 2) combs
              else Ret combs);
    Ret combs.

Definition can_chow (h : Hand) (incoming_tile : Tile) : Exc bool :=
  combs <~ get_chow_combs h incoming_tile;
  Ret (match combs with [] => false | _ => true end).

Definition can_pong (h : Hand) (incoming_tile : Tile) : bool :=
  let ft := free_tiles h in
  let idx := index ft incoming_tile in
  (idx >=? 0) && (idx <? Z.of_nat (length ft) - 1)
  && tile_eqb (nth (Z.to_nat (idx + 1)) ft incoming_tile) incoming_tile.

Definition can_kong (h : Hand) (incoming_tile : Tile) : bool :=
  let ft := free_tiles h in
  let idx := index ft incoming_tile in
  (idx >=? 0) && (idx <? Z.of_nat (length ft) - 2)
  && tile_eqb (nth (Z.to_nat (idx + 1)) ft incoming_tile) incoming_tile
  && tile_eqb (nth (Z.to_nat (idx + 2)) ft incoming_tile) incoming_tile.

Definition can_appended_kong (h : Hand) : bool :=
  match last_tile h with
  | Some lt => match _find_pong_group h lt with Some _ => true | None => false end
  | None => false
  end.

Definition can_concealed_kong (h : Hand) : bool :=
  match last_tile h with
  | Some lt => can_kong h lt
  | None => false
  end.

Definition can_self_kong (h : Hand) : bool :=
  can_appended_kong h || can_concealed_kong h.

(** ** Winning-hand decomposition ([Hand.can_win])

    The table built by [_construct_hand_table] is a list of four rows of
    ten integers, each row created by [[0] * 10]. Rows are read and
    updated by index; every index the code uses lies between -1 and 9,
    so no access is out of range. A negative index counts from the end
    of the row, as in Python. *)

Definition py_pos (len : nat) (i : Z) : nat :=
  Z.to_nat (if i <? 0 then i + Z.of_nat len else i).

Definition row_get (row : list Z) (i : Z) : Z :=
  nth (py_pos (length row) i) row 0.

Fixpoint list_add (l : list Z) (k : nat) (d : Z) : list Z :=
  match l, k with
  | [], _ => []
  | x :: l', O => (x + d) :: l'
  | x :: l', S k' => x :: list_add l' k' d
  end.

(** [row[i] += d] *)
Definition row_add (row : list Z) (i : Z) (d : Z) : list Z :=
  list_add row (py_pos (length row) i) d.

Fixpoint table_upd (table : list (list Z)) (k : nat)
    (f : list Z -> list Z) : list (list Z) :=
  match table, k with
  | [], _ => []
  | r :: t', O => f r :: t'
  | r :: t', S k' => r :: table_upd t' k' f
  end.

(** [table[k][0] += 1; table[k][j] += 1] *)
Definition table_count (table : list (list Z)) (k : nat) (j : Z)
  : list (list Z) :=
  table_upd table k (fun row => row_add (row_add row 0 1) j 1).

(** The dictionary [honor_indices]. *)
Definition honor_indices (t : Tile) : option Z :=
  match t with
  | EAST => Some 1 | SOUTH => Some 2 | WEST => Some 3 | NORTH => Some 4
  | RED => Some 5 | GREEN => Some 6 | WHITE => Some 7
  | _ => None
  end.

Definition empty_table : list (list Z) :=
  repeat (repeat 0 10%nat) 4%nat.

(** One iteration of the loop of [_construct_hand_table]. Every honor
    tile is a key of [honor_indices], so its lookup never fails. *)
Definition table_step (table : list (list Z)) (tile : Tile)
  : list (list Z) :=
  if is_char tile then table_count table 0 (tile_id tile mod 16)
  else if is_circle tile then table_count table 1 (tile_id tile mod 16)
  else if is_bamboo tile then table_count table 2 (tile_id tile mod 16)
  else if is_honor tile then
    match honor_indices tile with
    | Some j => table_count table 3 j
    | None => table
    end
  else table.

Definition _construct_hand_table (ts : list Tile) : list (list Z) :=
  fold_left table_step ts empty_table.

(** The search for the first non-empty cell in [_can_group_as_3]:
    [idx] stays -1 when no cell is positive. *)
Fixpoint first_positive (row : list Z) (candidates : list Z) : Z :=
  match candidates with
  | [] => -1
  | i :: rest => if row_get row i >? 0 then i else first_positive row rest
  end.

(** [xrange(1, 10)] *)
Definition xrange_1_10 : list Z := [1; 2; 3; 4; 5; 6; 7; 8; 9].

(** [_can_group_as_3]. The method subtracts a group from the row, calls
    itself and adds the group back before returning, so the caller sees
    the row unchanged; the recursion is therefore on the updated copy.
    Each call removes three tiles from positive cells, which bounds the
    depth by the fuel. *)
Fixpoint can_group_as_3_fuel (fuel : nat) (row : list Z) (is_honor : bool)
  : bool :=
  match fuel with
  | O => false
  | S fuel' =>
      if row_get row 0 =? 0 then true
      else
        let idx := first_positive row xrange_1_10 in
        if row_get row idx >=? 3 then
          can_group_as_3_fuel fuel'
            (row_add (row_add row idx (-3)) 0 (-3)) is_honor
        else if negb is_honor && (idx <? 8)
                && (row_get row (idx + 1) >? 0)
                && (row_get row (idx + 2) >? 0) then
          can_group_as_3_fuel fuel'
            (row_add
               (row_add
                  (row_add (row_add row idx (-1)) (idx + 1) (-1))
                  (idx + 2) (-1))
               0 (-3))
            is_honor
        else false
  end.

(** Number of tiles in the positive cells 1..9 of a row. *)
Definition row_weight (row : list Z) : nat :=
  fold_right (fun i acc => (Z.to_nat (row_get row i) + acc)%nat) 0%nat
             xrange_1_10.

Definition _can_group_as_3 (row : list Z) (is_honor : bool) : bool :=
  can_group_as_3_fuel (S (row_weight row)) row is_honor.

(** [_can_group_as_pair_and_3]. A failed attempt restores the row, so
    every candidate pair is tried on the original row; the row of a
    successful attempt is not used again by [can_win]. *)
Definition _can_group_as_pair_and_3 (row : list Z) (is_honor : bool)
  : bool :=
  existsb
    (fun i =>
       (row_get row i >? 1)
       && _can_group_as_3 (row_add (row_add row i (-2)) 0 (-2)) is_honor)
    xrange_1_10.

(** The counting loop of [can_win]. *)
Definition count_remainders (table : list (list Z)) : Z * Z :=
  fold_left
    (fun '(num_3x, num_3x_plus_2) row =>
       let remainder := row_get row 0 mod 3 in
       if remainder =? 0 then (num_3x + 1, num_3x_plus_2)
       else if remainder =? 2 then (num_3x, num_3x_plus_2 + 1)
       else (num_3x, num_3x_plus_2))
    table (0, 0).

Definition check_row (table : list (list Z)) (i : nat) : bool :=
  let is_honor := (i =? 3)%nat in
  let row := nth i table [] in
  if row_get row 0 mod 3 =? 0
  then _can_group_as_3 row is_honor
  else _can_group_as_pair_and_3 row is_honor.

(** [Hand.can_win(incoming_tile=None)] *)
Definition can_win (h : Hand) (incoming_tile : option Tile) : bool :=
  let incoming_tile :=
    match incoming_tile with Some t => Some t | None => last_tile h end in
  let ts := match incoming_tile with
            | Some t => insort (free_tiles h) t
            | None => free_tiles h
            end in
  let table := _construct_hand_table ts in
  let '(num_3x, num_3x_plus_2) := count_remainders table in
  if negb (num_3x =? 3) || negb (num_3x_plus_2 =? 1) then false
  else forallb (check_row table) [0; 1; 2; 3]%nat.

(** [Hand.ready] and [Hand.waiting_tiles] iterate over
    [Tile.ALL.itervalues()], whose order is that of the dictionary's hash
    table; [all_values] is that enumeration. *)
Definition Hand_ready (all_values : list Tile) (h : Hand) : bool :=
  existsb (fun tile => can_win h (Some tile)) all_values.

Definition Hand_waiting_tiles (all_values : list Tile) (h : Hand)
  : list Tile :=
  fold_left (fun acc tile => if can_win h (Some tile) then insort acc tile
                             else acc)
            all_values [].

(** ** Winning shapes in the words of the specification

    A meld is a triplet of one tile identity or a run of three
    consecutive ranks within a single numeric suit. *)

Definition numeric (t : Tile) : bool :=
  is_char t || is_circle t || is_bamboo t.

Definition is_triplet (m : list Tile) : Prop :=
  exists t, m = [t; t; t].

Definition is_run (m : list Tile) : Prop :=
  exists a b c ra,
    m = [a; b; c] /\ numeric a = true /\
    suit b = suit a /\ suit c = suit a /\
    rank a = Some ra /\ rank b = Some (ra + 1) /\ rank c = Some (ra + 2).

Definition is_meld (m : list Tile) : Prop := is_triplet m \/ is_run m.

Definition is_pair (p : list Tile) : Prop := exists t, p = [t; t].

(** [ts] splits into [n] melds and one pair. *)
Definition melds_and_pair (n : nat) (ts : list Tile) : Prop :=
  exists (ms : list (list Tile)) (p : list Tile),
    length ms = n /\ Forall is_meld ms /\ is_pair p /\
    Permutation ts (concat ms ++ p).

(** The shape of the specification: four melds and one pair. *)
Definition four_melds_and_pair (ts : list Tile) : Prop :=
  melds_and_pair 4 ts.

(** The tiles that take part in the decomposition. *)
Definition non_flowers (ts : list Tile) : list Tile :=
  List.filter (fun t => negb (is_general_flower t)) ts.

(** ** Decisions and Python list indexing *)

(** A player's decision: an action name, a tile to discard, or a pair of
    tiles chosen for a chow. *)
Inductive Decision : Type :=
| DStr (s : string)
| DTile (t : Tile)
| DComb (c : Tile * Tile).

(** [decision == name] for an action name. *)
Definition dec_is (d : option Decision) (name : string) : bool :=
  match d with
  | Some (DStr s) => String.eqb s name
  | _ => false
  end.

(** [name in names] *)
Definition str_in (name : string) (names : list string) : bool :=
  existsb (String.eqb name) names.

(** [decision in names] for a list of action names; [None], tiles and
    tile pairs are equal to no string. *)
Definition dec_in (d : option Decision) (names : list string) : bool :=
  match d with
  | Some (DStr s) => str_in s names
  | _ => false
  end.

(** [l[i]] with Python's negative indices; out of range raises. *)
Definition py_index {A : Type} (l : list A) (i : Z) : Exc A :=
  let n := Z.of_nat (length l) in
  let j := if i <? 0 then i + n else i in
  if (j <? 0) || (j >=? n) then Raise "IndexError"
  else match nth_error l (Z.to_nat j) with
       | Some x => Ret x
       | None => Raise "IndexError"
       end.

Fixpoint list_set {A : Type} (l : list A) (k : nat) (x : A) : list A :=
  match l, k with
  | [], _ => []
  | _ :: l', O => x :: l'
  | y :: l', S k' => y :: list_set l' k' x
  end.

(** [l[i] = x] *)
Definition py_set {A : Type} (l : list A) (i : Z) (x : A) : Exc (list A) :=
  let n := Z.of_nat (length l) in
  let j := if i <? 0 then i + n else i in
  if (j <? 0) || (j >=? n) then Raise "IndexError"
  else Ret (list_set l (Z.to_nat j) x).

(** ** Decision arbitration ([algo.select_melders]) *)

(** [player_viable and name in player_viable] *)
Definition viable_has (player_viable : option (list string))
    (name : string) : bool :=
  match player_viable with
  | Some l => str_in name l
  | None => false
  end.

(** [player_decision not in player_viable], evaluated where
    [player_viable] is a non-empty list. *)
Definition not_in_viable (d : option Decision)
    (player_viable : option (list string)) : bool :=
  match player_viable with
  | Some l => negb (dec_in d l)
  | None => true
  end.

Definition Melders : Type := list (Z * option string).

(** The seats in the order the loops visit them:
    [(base_offset + i) % num_players] for [i] in [xrange(0, num_players)]. *)
Definition rotation (base_offset : Z) (num_players : nat) : list Z :=
  map (fun i => (base_offset + Z.of_nat i) mod Z.of_nat num_players)
      (seq 0 num_players).

(** The first loop: [inl r] is the early [return r], [inr result] the
    list of winners when the loop runs to its end. *)
Fixpoint win_loop (viable_decisions : list (option (list string)))
    (player_decisions : list (option Decision)) (seats : list Z)
    (result : Melders) : Exc (Melders + Melders) :=
  match seats with
  | [] => Ret (inr result)
  | player_idx :: rest =>
      player_viable <~ py_index viable_decisions player_idx;
      if viable_has player_viable "win" then
        player_decision <~ py_index player_decisions player_idx;
        if dec_is player_decision "win" then
          win_loop viable_decisions player_decisions rest
                   (result ++ [(player_idx, Some "win")])
        else if not_in_viable player_decision player_viable then
          Ret (inl [(player_idx, None)])
        else win_loop viable_decisions player_decisions rest result
      else win_loop viable_decisions player_decisions rest result
  end.

(** The inner loop for one of 'kong', 'pong', 'chow': [Some r] is the
    [return r], [None] means the loop ran to its end. *)
Fixpoint meld_loop (viable_decisions : list (option (list string)))
    (player_decisions : list (option Decision)) (decision : string)
    (seats : list Z) : Exc (option Melders) :=
  match seats with
  | [] => Ret None
  | player_idx :: rest =>
      player_viable <~ py_index viable_decisions player_idx;
      if viable_has player_viable decision then
        player_decision <~ py_index player_decisions player_idx;
        if not_in_viable player_decision player_viable then
          Ret (Some [(player_idx, None)])
        else if dec_is player_decision decision then
          Ret (Some [(player_idx, Some decision)])
        else meld_loop viable_decisions player_decisions decision rest
      else meld_loop viable_decisions player_decisions decision rest
  end.

Fixpoint meld_loops (viable_decisions : list (option (list string)))
    (player_decisions : list (option Decision)) (decisions : list string)
    (seats : list Z) : Exc (option Melders) :=
  match decisions with
  | [] => Ret None
  | decision :: rest =>
      r <~ meld_loop viable_decisions player_decisions decision seats;
      match r with
      | Some m => Ret (Some m)
      | None => meld_loops viable_decisions player_decisions rest seats
      end
  end.

Definition select_melders (viable_decisions : list (option (list string)))
    (player_decisions : list (option Decision)) (base_offset : Z)
  : Exc (option Melders) :=
  let num_players := length player_decisions in
  let seats := rotation base_offset num_players in
  r <~ win_loop viable_decisions player_decisions seats [];
  match r with
  | inl early => Ret (Some early)
  | inr [] =>
      meld_loops viable_decisions player_decisions ["kong"; "pong"; "chow"]
                 seats
  | inr result => Ret (Some result)
  end.

(** *** Arbitration in the words of the specification

    A seat claims an action when the action is viable for it and is the
    action it chose. Win beats kong beats pong beats chow; every seat
    claiming win is returned; for the other actions the claimant nearest
    the origin in rotation order is returned. *)

Definition claims (viable_decisions : list (option (list string)))
    (player_decisions : list (option Decision)) (name : string) (seat : Z)
  : bool :=
  match nth_error viable_decisions (Z.to_nat seat),
        nth_error player_decisions (Z.to_nat seat) with
  | Some v, Some d => viable_has v name && dec_is d name
  | _, _ => false
  end.

(** The seat has nothing to answer, or has answered with a viable
    action. *)
Definition answered (viable_decisions : list (option (list string)))
    (player_decisions : list (option Decision)) (seat : nat) : Prop :=
  match nth_error viable_decisions seat, nth_error player_decisions seat with
  | Some (Some (x :: l)), Some d => dec_in d (x :: l) = true
  | _, _ => True
  end.

Fixpoint first_claim (viable_decisions : list (option (list string)))
    (player_decisions : list (option Decision)) (names : list string)
    (seats : list Z) : option Melders :=
  match names with
  | [] => None
  | name :: rest =>
      match find (claims viable_decisions player_decisions name) seats with
      | Some seat => Some [(seat, Some name)]
      | None => first_claim viable_decisions player_decisions rest seats
      end
  end.

Definition resolve (viable_decisions : list (option (list string)))
    (player_decisions : list (option Decision)) (origin : Z)
  : option Melders :=
  let seats := rotation origin (length player_decisions) in
  match List.filter (claims viable_decisions player_decisions "win") seats with
  | w :: ws => Some (map (fun seat => (seat, Some "win")) (w :: ws))
  | [] => first_claim viable_decisions player_decisions
                      ["kong"; "pong"; "chow"] seats
  end.

(** *** Arbitration with seats that have not answered

    A seat is awaited for an action when the action is viable for it
    and the decision recorded for it is not one of its viable ones.
    Win is considered first: an awaited seat stops the arbitration and
    is returned alone, paired with [None]; otherwise every seat claiming
    win is returned. Kong, pong and chow follow in this order: for each,
    the seat nearest the origin that is awaited for it or claims it
    settles the arbitration. *)




(** ** Players, settings and the game context *)

(** Values stored in the [extra] dictionaries. *)
Inductive PyVal : Type :=
| VNone
| VBool (b : bool)
| VInt (z : Z)
| VStr (s : string)
| VStrs (l : list string)
| VTiles (l : list Tile)
| VCombs (l : list (Tile * Tile))
| VInts (l : list Z)
| VMelders (l : list (Z * option string)).

(** Truthiness of the result of [dict.get]. *)
Definition truthy (v : option PyVal) : bool :=
  match v with
  | None | Some VNone => false
  | Some (VBool b) => b
  | Some (VInt z) => negb (z =? 0)
  | Some (VStr s) => negb (String.eqb s "")
  | Some (VStrs l) => match l with [] => false | _ => true end
  | Some (VTiles l) => match l with [] => false | _ => true end
  | Some (VCombs l) => match l with [] => false | _ => true end
  | Some (VInts l) => match l with [] => false | _ => true end
  | Some (VMelders l) => match l with [] => false | _ => true end
  end.

(** [v is not None] for the result of [dict.get]. *)
Definition is_not_none (v : option PyVal) : bool :=
  match v with
  | None | Some VNone => false
  | _ => true
  end.

Record Player : Type := mkPlayer {
  hand : Hand;
  discarded : list Tile;
  decision : option Decision;
  extra : gmap string PyVal
}.

Definition set_hand (p : Player) (h : Hand) : Player :=
  mkPlayer h (discarded p) (decision p) (extra p).
Definition set_discarded (p : Player) (d : list Tile) : Player :=
  mkPlayer (hand p) d (decision p) (extra p).
Definition set_decision (p : Player) (d : option Decision) : Player :=
  mkPlayer (hand p) (discarded p) d (extra p).
Definition set_extra (p : Player) (e : gmap string PyVal) : Player :=
  mkPlayer (hand p) (discarded p) (decision p) e.

(** [Player.reset] *)
Definition Player_reset (p : Player) : Player :=
  mkPlayer (Hand_clear (hand p)) [] None ∅.

(** The settings read by the modelled code ([types.GameSettings]). A
    disabled [tie_on_winds] is the empty string. *)
Record GameSettings : Type := mkSettings {
  declarable : bool;
  max_dealer_defended : Z;
  multi_winners : bool;
  num_hand_tiles : Z;
  tie_on_4_kongs : bool;
  tie_on_4_waiting : bool;
  tie_on_winds : string;
  tie_wall : Z;
  tie_wall_per_kong : Z;
  water : bool;
  patterns_win : list string;
  patterns_win_filter : list string
}.

(** [GameSettings.__init__] *)
Definition default_settings : GameSettings :=
  mkSettings true 999 false 16 true false "all" 16 1 true
             ["seven-flowers"; "eight-flowers"] [].

Record GameContext : Type := mkContext {
  state : string;
  wall : option (list Tile);
  players : list Player;
  discarded_pool : list Tile;
  cur_player_idx : option Z;
  last_player_idx : option Z;
  round : Z;
  match_ : Z;
  dealer : Z;
  dealer_defended : Z;
  winners : option (list Z);
  settings : GameSettings;
  cextra : gmap string PyVal
}.

Definition set_state (c : GameContext) (s : string) : GameContext :=
  mkContext s (wall c) (players c) (discarded_pool c) (cur_player_idx c)
            (last_player_idx c) (round c) (match_ c) (dealer c)
            (dealer_defended c) (winners c) (settings c) (cextra c).
Definition set_wall (c : GameContext) (w : option (list Tile))
  : GameContext :=
  mkContext (state c) w (players c) (discarded_pool c) (cur_player_idx c)
            (last_player_idx c) (round c) (match_ c) (dealer c)
            (dealer_defended c) (winners c) (settings c) (cextra c).
Definition set_players (c : GameContext) (ps : list Player) : GameContext :=
  mkContext (state c) (wall c) ps (discarded_pool c) (cur_player_idx c)
            (last_player_idx c) (round c) (match_ c) (dealer c)
            (dealer_defended c) (winners c) (settings c) (cextra c).
Definition set_discarded_pool (c : GameContext) (d : list Tile)
  : GameContext :=
  mkContext (state c) (wall c) (players c) d (cur_player_idx c)
            (last_player_idx c) (round c) (match_ c) (dealer c)
            (dealer_defended c) (winners c) (settings c) (cextra c).
Definition set_turn_fields (c : GameContext) (cur last : option Z)
  : GameContext :=
  mkContext (state c) (wall c) (players c) (discarded_pool c) cur last
            (round c) (match_ c) (dealer c) (dealer_defended c)
            (winners c) (settings c) (cextra c).
Definition set_round_match (c : GameContext) (r m : Z) : GameContext :=
  mkContext (state c) (wall c) (players c) (discarded_pool c)
            (cur_player_idx c) (last_player_idx c) r m (dealer c)
            (dealer_defended c) (winners c) (settings c) (cextra c).
Definition set_dealer (c : GameContext) (d dd : Z) : GameContext :=
  mkContext (state c) (wall c) (players c) (discarded_pool c)
            (cur_player_idx c) (last_player_idx c) (round c) (match_ c)
            d dd (winners c) (settings c) (cextra c).
Definition set_winners (c : GameContext) (w : option (list Z))
  : GameContext :=
  mkContext (state c) (wall c) (players c) (discarded_pool c)
            (cur_player_idx c) (last_player_idx c) (round c) (match_ c)
            (dealer c) (dealer_defended c) w (settings c) (cextra c).
Definition set_cextra (c : GameContext) (e : gmap string PyVal)
  : GameContext :=
  mkContext (state c) (wall c) (players c) (discarded_pool c)
            (cur_player_idx c) (last_player_idx c) (round c) (match_ c)
            (dealer c) (dealer_defended c) (winners c) (settings c) e.

(** [GameContext.__init__] *)
Definition new_player : Player := mkPlayer (Hand_init None) [] None ∅.

Definition new_context (s : GameSettings) : GameContext :=
  mkContext "start" None [new_player; new_player; new_player; new_player]
            [] (Some 0) None 0 0 0 0 None s ∅.

(** [context.players[i]] and the update of that player in place. *)
Definition get_player (c : GameContext) (i : Z) : Exc Player :=
  py_index (players c) i.

Definition put_player (c : GameContext) (i : Z) (p : Player)
  : Exc GameContext :=
  ps <~ py_set (players c) i p;
  Ret (set_players c ps).

(** [GameContext.player(offset)]: [None] without a current player. *)
Definition player_idx_at (c : GameContext) (offset : Z) : option Z :=
  match cur_player_idx c with
  | None => None
  | Some cur => Some ((cur + offset) mod 4)
  end.

(** The current player where the code goes on to read an attribute of
    [context.player()]: without a current player that is an
    [AttributeError] on [None]. *)
Definition cur_player (c : GameContext) : Exc (Z * Player) :=
  match player_idx_at c 0 with
  | None => Raise "AttributeError"
  | Some i => p <~ get_player c i; Ret (i, p)
  end.

(** [GameContext.last_discarded] *)
Definition last_discarded (c : GameContext) : option Tile :=
  last (discarded_pool c).

(** [GameContext.set_turn] and [GameContext.next_turn] *)
Definition set_turn (c : GameContext) (player_idx : Z) : GameContext :=
  set_turn_fields c (Some player_idx) (cur_player_idx c).

Definition next_turn (c : GameContext) : GameContext :=
  match cur_player_idx c with
  | None => set_turn_fields c (Some 0) None
  | Some cur => set_turn c ((cur + 1) mod 4)
  end.

(** [Wall.draw]: pops the last tile, [None] when the wall is empty. *)
Definition Wall_draw (w : list Tile) : option Tile * list Tile :=
  match rev w with
  | [] => (None, w)
  | t :: r => (Some t, rev r)
  end.

(** ** Tie conditions ([GameContext.is_tie]) *)

Definition declared_ready (p : Player) : bool :=
  truthy (extra p !! "declared_ready").

Definition total_kongs (c : GameContext) : Z :=
  fold_left (fun total p => total + num_kongs (hand p) true true)
            (players c) 0.

(** [p.discarded[0] if p.discarded else None] *)
Definition first_discarded (p : Player) : option Tile :=
  hd_error (discarded p).

Definition is_tie (c : GameContext)
    (cur_state four_waiting four_kongs wall_tie four_winds : bool)
  : Exc bool :=
  if cur_state && String.eqb (state c) "end"
     && negb (match winners c with Some (_ :: _) => true | _ => false end)
  then Ret true
  else if four_waiting && tie_on_4_waiting (settings c)
          && (3 <? length (List.filter declared_ready (players c)))%nat
  then Ret true
  else
    let total_kongs := total_kongs c in
    if four_kongs && tie_on_4_kongs (settings c) && (total_kongs >? 3)
    then Ret true
    else
      wall_hit <~ (if wall_tie then
                     match wall c with
                     | None => Raise "AttributeError"
                     | Some w =>
                         let min_num_tiles :=
                           tie_wall (settings c)
                           + total_kongs * tie_wall_per_kong (settings c) in
                         Ret (Z.of_nat (length w) <=? min_num_tiles)
                     end
                   else Ret false);
      if wall_hit then Ret true
      else if four_winds
              && negb (String.eqb (tie_on_winds (settings c)) "")
      then
        let discarded := map first_discarded (players c) in
        if String.eqb (tie_on_winds (settings c)) "west" then
          Ret ((length (List.filter
                          (fun x => opt_tile_eqb x (Some WEST)) discarded)
                =? 4)%nat)
        else
          d0 <~ py_index discarded 0;
          match d0 with
          | Some t0 =>
              if is_wind t0 then
                d1 <~ py_index discarded 1;
                if opt_tile_eqb d0 d1 then
                  d2 <~ py_index discarded 2;
                  if opt_tile_eqb d1 d2 then
                    d3 <~ py_index discarded 3;
                    Ret (opt_tile_eqb d2 d3)
                  else Ret false
                else Ret false
              else Ret false
          | None => Ret false
          end
      else Ret false.

(** ** Collaborators outside the core

    The pattern catalogue ([patterns.match]) is consulted through its
    truth value only, and [Tile.ALL.itervalues()] enumerates the
    catalogue in the order of the dictionary's hash table. *)
Record Collab : Type := mkCollab {
  ALL_values : list Tile;
  patterns_match : string -> GameContext -> Z -> Tile -> bool
}.

(** ** [algo]: decisions and winning checks on a context *)

(** The value stored under ['viable_decisions'], read as a list of
    action names ([None] and a missing key give nothing). The handlers
    store only such lists, or [None], under this key. *)
Definition extra_viable (v : option PyVal) : option (list string) :=
  match v with
  | Some (VStrs l) => Some l
  | _ => None
  end.

(** [waiting_tiles and incoming_tile in waiting_tiles] for the lists of
    tiles stored under ['waiting_tiles'] and ['water']. *)
Definition val_has_tile (v : option PyVal) (t : Tile) : bool :=
  match v with
  | Some (VTiles l) => tile_in t l
  | _ => false
  end.

(** [viable_decisions or player.extra.get('viable_decisions')] *)
Definition viable_or_extra (viable_decisions : option (list string))
    (p : Player) : option (list string) :=
  match viable_decisions with
  | Some (x :: l) => Some (x :: l)
  | _ => extra_viable (extra p !! "viable_decisions")
  end.

Definition nonempty {A : Type} (l : option (list A)) : bool :=
  match l with
  | Some (_ :: _) => true
  | _ => false
  end.

(** [bots.DumbBot.make_decision] *)
Definition make_decision (c : GameContext) (player_idx : Z)
    (viable_decisions : option (list string)) : Exc (option Decision) :=
  player <~ get_player c player_idx;
  if String.eqb (state c) "discarding"
  then Ret (option_map DTile (last_tile (hand player)))
  else
    let viable :=
      match viable_or_extra viable_decisions player with
      | Some l => l
      | None => []
      end in
    if str_in "win" viable then Ret (Some (DStr "win"))
    else if str_in "skip" viable then Ret (Some (DStr "skip"))
    else Ret None.

(** [algo.get_decision(context, player_idx, viable_decisions)] for a
    given seat. *)
Definition get_decision (c : GameContext) (player_idx : Z)
    (viable_decisions : option (list string)) : Exc (option Decision) :=
  player <~ get_player c player_idx;
  let viable := viable_or_extra viable_decisions player in
  if nonempty viable then
    if truthy (extra player !! "bot")
    then make_decision c player_idx viable
    else if truthy (extra player !! "declared_ready") then
      if String.eqb (state c) "discarding"
      then Ret (option_map DTile (last_tile (hand player)))
      else if viable_has viable "win" then Ret (Some (DStr "win"))
      else Ret (Some (DStr "skip"))
    else if match viable with
            | Some l => dec_in (decision player) l
            | None => false
            end
         then Ret (decision player)
    else Ret None
  else Ret None.

(** [algo.get_decision(context, viable_decisions=...)]: the seat
    defaults to the current player; without one, indexing the player
    list with [None] is a [TypeError]. *)
Definition get_decision_cur (c : GameContext)
    (viable_decisions : option (list string)) : Exc (option Decision) :=
  match cur_player_idx c with
  | None => Raise "TypeError"
  | Some i => get_decision c i viable_decisions
  end.

(** The loop over [patterns_win_filter] in [algo.can_win]. *)
Fixpoint all_filters_match (E : Collab) (c : GameContext) (player_idx : Z)
    (incoming_tile : Tile) (names : list string) : bool :=
  match names with
  | [] => true
  | name :: rest =>
      if patterns_match E name c player_idx incoming_tile
      then all_filters_match E c player_idx incoming_tile rest
      else false
  end.

(** [algo.can_win(context, player_idx, incoming_tile)] *)
Definition algo_can_win (E : Collab) (c : GameContext)
    (player_idx : option Z) (incoming_tile : option Tile) : Exc bool :=
  player_idx <~ match player_idx with
                | Some i => Ret i
                | None => match cur_player_idx c with
                          | Some i => Ret i
                          | None => Raise "ValueError"
                          end
                end;
  player0 <~ get_player c player_idx;
  incoming_tile <~ match incoming_tile with
                   | Some t => Ret t
                   | None =>
                       match last_tile (hand player0) with
                       | Some t => Ret t
                       | None => match last_discarded c with
                                 | Some t => Ret t
                                 | None => Raise "ValueError"
                                 end
                       end
                   end;
  player <~ get_player c player_idx;
  if truthy (extra player !! "declared_ready")
     && val_has_tile (extra player !! "waiting_tiles") incoming_tile
  then Ret true
  else if water (settings c)
          && val_has_tile (extra player !! "water") incoming_tile
  then Ret false
  else if can_win (hand player) (Some incoming_tile)
          && all_filters_match E c player_idx incoming_tile
               (patterns_win_filter (settings c))
  then Ret true
  else Ret (existsb
              (fun name => patterns_match E name c player_idx incoming_tile)
              (patterns_win (settings c))).

(** The loop of [algo.ready]: stops at the first tile that wins. *)
Fixpoint ready_loop (E : Collab) (c : GameContext) (player_idx : option Z)
    (ts : list Tile) : Exc bool :=
  match ts with
  | [] => Ret false
  | tile :: rest =>
      w <~ algo_can_win E c player_idx (Some tile);
      if w then Ret true else ready_loop E c player_idx rest
  end.

Definition algo_ready (E : Collab) (c : GameContext)
    (player_idx : option Z) : Exc bool :=
  ready_loop E c player_idx (ALL_values E).

Fixpoint waiting_loop (E : Collab) (c : GameContext) (player_idx : Z)
    (ts : list Tile) (acc : list Tile) : Exc (list Tile) :=
  match ts with
  | [] => Ret acc
  | tile :: rest =>
      w <~ algo_can_win E c (Some player_idx) (Some tile);
      waiting_loop E c player_idx rest (if w then insort acc tile else acc)
  end.

(** [algo.waiting_tiles(context, player_idx)] *)
Definition algo_waiting_tiles (E : Collab) (c : GameContext)
    (player_idx : option Z) : Exc PyVal :=
  player_idx <~ match player_idx with
                | Some i => Ret i
                | None => match cur_player_idx c with
                          | Some i => Ret i
                          | None => Raise "TypeError"
                          end
                end;
  player <~ get_player c player_idx;
  if truthy (extra player !! "declared_ready")
     && is_not_none (extra player !! "waiting_tiles")
  then Ret (default VNone (extra player !! "waiting_tiles"))
  else
    ts <~ waiting_loop E c player_idx (ALL_values E) [];
    Ret (VTiles ts).

(** [algo.can_4_kong_win] *)
Definition can_4_kong_win (E : Collab) (c : GameContext) (player_idx : Z)
    (tile : Tile) : bool :=
  str_in "four-kongs" (patterns_win (settings c))
  && patterns_match E "four-kongs" c player_idx tile.

(** ** Results of a step ([flow.FlowResult]) *)

Record FlowResult : Type := mkFlowResult {
  success : bool;
  reason : option string;
  viable_decisions : option (list (option (list string)))
}.

Definition Success : FlowResult := mkFlowResult true None None.
Definition bad_context : FlowResult :=
  mkFlowResult false (Some "bad-context") None.

(** [FlowResult(False, 'decisions-needed')] followed by
    [set_viable_decisions(player_idx, viable)]. *)
Definition decisions_needed_for (player_idx : Z) (viable : list string)
  : Exc FlowResult :=
  v <~ py_set [None; None; None; None] player_idx (Some viable);
  Ret (mkFlowResult false (Some "decisions-needed") (Some v)).

(** Updates of one player's [extra] and [decision] inside the context. *)
Definition player_extra_set (c : GameContext) (i : Z) (k : string)
    (v : PyVal) : Exc GameContext :=
  p <~ get_player c i;
  put_player c i (set_extra p (<[k := v]> (extra p))).

Definition player_extra_pop (c : GameContext) (i : Z) (k : string)
  : Exc GameContext :=
  p <~ get_player c i;
  put_player c i (set_extra p (delete k (extra p))).

Definition clear_decisions (c : GameContext) : GameContext :=
  set_players c (map (fun p => set_decision p None) (players c)).

(** ** The turn state machine ([flow])

    A handler's [validate] and [next] update the context in place; here
    they return the context after the call. *)

(** [Handler.handle] *)
Definition handle
    (validate : GameContext -> Exc (FlowResult * GameContext))
    (next : GameContext -> Exc GameContext)
    (c : GameContext) : Exc (FlowResult * GameContext) :=
  r <~ validate c;
  let '(result, c1) := r in
  if negb (success result) then Ret (result, c1)
  else
    c2 <~ next c1;
    Ret (result, c2).

(** *** [DrawingHandler] *)

Definition opt_int (v : option PyVal) : option Z :=
  match v with
  | Some (VInt z) => Some z
  | _ => None
  end.

(** The two search loops of [_player_who_can_flower_win]. *)
Fixpoint find_seat (c : GameContext) (cur : Z) (test : Player -> bool)
    (offsets : list Z) : Exc (option Z) :=
  match offsets with
  | [] => Ret None
  | i :: rest =>
      let player_idx := (cur + i) mod 4 in
      p <~ get_player c player_idx;
      if test p then Ret (Some player_idx) else find_seat c cur test rest
  end.

Definition _player_who_can_flower_win (c : GameContext)
  : Exc (option Z * option Z) :=
  if str_in "seven-flowers" (patterns_win (settings c)) then
    cp <~ cur_player c;
    let player := snd cp in
    cur <~ match cur_player_idx c with
           | Some i => Ret i
           | None => Raise "AttributeError"
           end;
    let num_flowers := length (flowers (hand player)) in
    r1 <~ (if (num_flowers =? 1)%nat
           then find_seat c cur
                  (fun p => (length (flowers (hand p)) =? 7)%nat) [1; 2; 3]
           else Ret None);
    match r1 with
    | Some robber => Ret (Some robber, Some cur)
    | None =>
        r2 <~ (if (num_flowers =? 7)%nat
               then find_seat c cur
                      (fun p => match flowers (hand p) with
                                | [] => false | _ => true end) [1; 2; 3]
               else Ret None);
        match r2 with
        | Some chucker => Ret (Some cur, Some chucker)
        | None => Ret (None, None)
        end
    end
  else Ret (None, None).

Definition DrawingHandler_validate (c : GameContext)
  : Exc (FlowResult * GameContext) :=
  cp <~ cur_player c;
  let '(cur, player) := cp in
  let hand := hand player in
  match last_tile hand with
  | Some _ => Ret (bad_context, c)
  | None =>
      if truthy (extra player !! "flowered") then
        match flowers hand with
        | [] => Ret (bad_context, c)
        | _ :: _ =>
            rc <~ _player_who_can_flower_win c;
            match rc with
            | (Some robber_idx, Some chucker_idx) =>
                let viable := ["win"; "skip"] in
                robber <~ get_player c robber_idx;
                d <~ get_decision c robber_idx (Some viable);
                match d with
                | None =>
                    result <~ decisions_needed_for robber_idx viable;
                    Ret (result, c)
                | Some _ =>
                    let c1 := set_cextra c
                                (<["flower_chucker" := VInt chucker_idx]>
                                   (<["flower_winner" := VInt robber_idx]>
                                      (cextra c))) in
                    c2 <~ player_extra_set c1 robber_idx "viable_decisions"
                            (VStrs viable);
                    Ret (Success, c2)
                end
            | _ => Ret (Success, c)
            end
        end
      else Ret (Success, c)
  end.

Definition _player_who_wants_to_flower_win (c : GameContext)
  : Exc (option Z * option Z) :=
  cp <~ cur_player c;
  let '(cur, player) := cp in
  if truthy (extra player !! "flowered") then
    if is_not_none (cextra c !! "flower_winner")
       && is_not_none (cextra c !! "flower_chucker")
    then
      match opt_int (cextra c !! "flower_winner"),
            opt_int (cextra c !! "flower_chucker") with
      | Some robber_idx, Some chucker_idx =>
          d <~ get_decision c robber_idx None;
          if dec_is d "win" then Ret (Some robber_idx, Some chucker_idx)
          else Ret (None, None)
      | _, _ => Raise "TypeError"
      end
    else Ret (None, None)
  else Ret (None, None).

Definition DrawingHandler_cleanup (c : GameContext) : Exc GameContext :=
  let flower_winner := cextra c !! "flower_winner" in
  let c1 := set_cextra c (delete "flower_winner" (cextra c)) in
  if is_not_none flower_winner then
    match opt_int flower_winner with
    | Some i => player_extra_pop c1 i "viable_decisions"
    | None => Raise "TypeError"
    end
  else Ret c1.

Definition DrawingHandler_next (c : GameContext) : Exc GameContext :=
  tie <~ is_tie c true false false true false;
  if tie then
    let c1 := set_winners c None in
    let c2 := set_state c1 "end" in
    let c3 := set_cextra c2 (<["tie_type" := VStr "wall"]> (cextra c2)) in
    DrawingHandler_cleanup c3
  else
    rc <~ _player_who_wants_to_flower_win c;
    c1 <~ match rc with
          | (Some robber_idx, Some chucker_idx) =>
              robber0 <~ get_player c robber_idx;
              chucker <~ get_player c chucker_idx;
              match rev (flowers (hand chucker)) with
              | [] => Raise "IndexError"
              | flower :: rest =>
                  ca <~ put_player c chucker_idx
                          (set_hand chucker
                                    (set_flowers (hand chucker) (rev rest)));
                  robber <~ get_player ca robber_idx;
                  cb <~ put_player ca robber_idx
                          (set_extra
                             (set_hand robber (add_flower (hand robber) flower))
                             (<["flowered" := VBool true]> (extra robber)));
                  cc <~ player_extra_pop cb chucker_idx "flowered";
                  Ret (if negb (match cur_player_idx cc with
                                | Some cur => cur =? robber_idx
                                | None => false
                                end)
                       then set_turn cc robber_idx else cc)
              end
          | _ => Ret c
          end;
    match wall c1 with
    | None => Raise "AttributeError"
    | Some w =>
        let '(drawn, w') := Wall_draw w in
        let c2 := set_wall c1 (Some w') in
        cp <~ cur_player c2;
        let '(cur, player) := cp in
        c3 <~ put_player c2 cur
                (set_hand player (set_last_tile (hand player) drawn));
        DrawingHandler_cleanup (set_state c3 "drawn")
    end.

(** *** [DiscardedHandler] *)

Definition DiscardedHandler_validate (E : Collab) (c : GameContext)
  : Exc (FlowResult * GameContext) :=
  match cur_player_idx c, player_idx_at c 0 with
  | None, _ | _, None => Ret (bad_context, c)
  | Some seat, Some cur =>
      player <~ get_player c cur;
      match last_discarded c with
      | None => Ret (bad_context, c)
      | Some _ =>
          tie <~ is_tie c true true false false true;
          if tie then
            Ret (Success, set_cextra c (<["tie" := VBool true]> (cextra c)))
          else
            ask <~ (if declarable (settings c)
                       && negb (truthy (extra player !! "asked"))
                    then algo_ready E c None
                    else Ret false);
            if ask then
              c1 <~ player_extra_set c cur "ready" (VBool true);
              let viable := ["declare"; "skip"] in
              d <~ get_decision_cur c1 (Some viable);
              match d with
              | None =>
                  result <~ decisions_needed_for seat viable;
                  Ret (result, c1)
              | Some _ =>
                  p1 <~ get_player c1 cur;
                  c2 <~ put_player c1 cur (set_decision p1 d);
                  Ret (Success, c2)
              end
            else Ret (Success, c)
      end
  end.

Definition DiscardedHandler_tie (c : GameContext) : GameContext :=
  let c1 := set_winners (set_state c "end") None in
  let ready_players := List.filter declared_ready (players c1) in
  if (length ready_players <? 4)%nat
  then set_cextra c1 (<["tie_type" := VStr "4-wind"]> (cextra c1))
  else set_cextra c1 (<["tie_type" := VStr "4-waiting"]> (cextra c1)).

Definition DiscardedHandler_cleanup (c : GameContext) : Exc GameContext :=
  cp <~ cur_player c;
  let '(cur, player) := cp in
  c1 <~ put_player c cur
          (set_extra player (delete "asked" (delete "ready" (extra player))));
  let c2 := set_cextra c1 (delete "tie" (cextra c1)) in
  Ret (clear_decisions c2).

Definition DiscardedHandler_declare_ready (E : Collab) (c : GameContext)
  : Exc GameContext :=
  cp <~ cur_player c;
  let '(cur, player) := cp in
  wt <~ algo_waiting_tiles E c None;
  let e1 := <["waiting_tiles" := wt]>
              (<["declared_ready" := VBool true]> (extra player)) in
  let e2 := if (length (discarded player) =? 1)%nat
            then <["immediate_ready" := VBool true]> e1 else e1 in
  put_player c cur (set_extra player e2).

(** [_get_other_viable_decisions] of [DiscardedHandler]. With an empty
    discard pool the tile is [None]: [algo.can_win] then falls back on
    the seat's last tile, [can_kong(None)] and [can_pong(None)] search
    the free tiles for [None] (false on an empty list, [AttributeError]
    from [Tile.__cmp__] otherwise), and [can_chow(None)] reads
    [None.is_honor]. The current seat is read only for the chow test. *)
Definition _get_other_viable_decisions (E : Collab) (c : GameContext)
    (player_idx : Z) : Exc (list string) :=
  player <~ get_player c player_idx;
  let tile := last_discarded c in
  w <~ algo_can_win E c (Some player_idx) tile;
  let d1 := if w then ["win"] else [] in
  d2 <~ (if negb (truthy (extra player !! "declared_ready")) then
           match tile with
           | Some tile =>
               let da := if can_kong (hand player) tile
                            && negb (can_4_kong_win E c player_idx tile)
                         then d1 ++ ["kong"] else d1 in
               let db := if can_pong (hand player) tile
                         then da ++ ["pong"] else da in
               match cur_player_idx c with
               | None => Raise "TypeError"
               | Some cur =>
                   if (cur + 1) mod 4 =? player_idx then
                     ch <~ can_chow (hand player) tile;
                     Ret (if ch then db ++ ["chow"] else db)
                   else Ret db
               end
           | None =>
               match free_tiles (hand player) with
               | _ :: _ => Raise "AttributeError"
               | [] =>
                   match cur_player_idx c with
                   | None => Raise "TypeError"
                   | Some cur =>
                       if (cur + 1) mod 4 =? player_idx
                       then Raise "AttributeError"
                       else Ret d1
                   end
               end
           end
         else Ret d1);
  Ret (match d2 with [] => [] | _ => d2 ++ ["skip"] end).

Fixpoint DiscardedHandler_viable_loop (E : Collab) (c : GameContext)
    (cur : Z) (offsets : list Z) (decisions : list (option (list string)))
  : Exc (list (option (list string))) :=
  match offsets with
  | [] => Ret decisions
  | i :: rest =>
      let player_idx := (cur + i) mod 4 in
      v <~ _get_other_viable_decisions E c player_idx;
      decisions' <~ py_set decisions player_idx (Some v);
      DiscardedHandler_viable_loop E c cur rest decisions'
  end.

Definition DiscardedHandler_get_viable_decisions (E : Collab)
    (c : GameContext) : Exc (list (option (list string))) :=
  match cur_player_idx c with
  | None => Raise "TypeError"
  | Some cur =>
      DiscardedHandler_viable_loop E c cur [1; 2; 3] [None; None; None; None]
  end.

Fixpoint store_viable (c : GameContext) (seats : list Z)
    (viable : list (option (list string))) : Exc GameContext :=
  match seats with
  | [] => Ret c
  | i :: rest =>
      v <~ py_index viable i;
      match v with
      | Some (x :: l) =>
          c1 <~ player_extra_set c i "viable_decisions" (VStrs (x :: l));
          store_viable c1 rest viable
      | _ => store_viable c rest viable
      end
  end.

Definition DiscardedHandler_next (E : Collab) (c : GameContext)
  : Exc GameContext :=
  cp <~ cur_player c;
  let '(cur, player) := cp in
  if truthy (cextra c !! "tie") then
    DiscardedHandler_cleanup (DiscardedHandler_tie c)
  else if truthy (extra player !! "ready")
          && negb (truthy (extra player !! "asked")) then
    c1 <~ (if dec_is (decision player) "declare"
           then DiscardedHandler_declare_ready E c else Ret c);
    c2 <~ DiscardedHandler_cleanup c1;
    player_extra_set c2 cur "asked" (VBool true)
  else
    viable <~ DiscardedHandler_get_viable_decisions E c;
    let someone_can_meld := existsb nonempty viable in
    c1 <~ (if someone_can_meld
           then store_viable (set_state c "melding") [0; 1; 2; 3] viable
           else Ret (next_turn (set_state c "drawing")));
    DiscardedHandler_cleanup c1.

(** *** [MeldingHandler.validate] *)

(** The loop that records the water penalty, shared by
    [MeldingHandler.validate] and [SelfKongingHandler.validate]. *)
Fixpoint water_loop (E : Collab) (c : GameContext) (seats : list Z)
    (viable : list (option (list string)))
    (player_decisions : list (option Decision)) : Exc GameContext :=
  match seats with
  | [] => Ret c
  | i :: rest =>
      v <~ py_index viable i;
      d <~ py_index player_decisions i;
      if negb (dec_is d "win") && viable_has v "win" then
        wt <~ algo_waiting_tiles E c (Some i);
        c1 <~ player_extra_set c i "water" wt;
        water_loop E c1 rest viable player_decisions
      else water_loop E c rest viable player_decisions
  end.

Fixpoint decisions_loop (c : GameContext) (seats : list Z)
    (viable : Z -> Exc (option (list string))) : Exc (list (option Decision)) :=
  match seats with
  | [] => Ret []
  | i :: rest =>
      v <~ viable i;
      d <~ get_decision c i v;
      ds <~ decisions_loop c rest viable;
      Ret (d :: ds)
  end.

(** [not melders[0][1]] *)
Definition invalid_decision (m : Melders) : bool :=
  match m with
  | (_, None) :: _ => true
  | _ => false
  end.

Definition MeldingHandler_validate (E : Collab) (c : GameContext)
  : Exc (FlowResult * GameContext) :=
  match player_idx_at c 0 with
  | None => Ret (bad_context, c)
  | Some cur =>
      player <~ get_player c cur;
      match last_discarded c with
      | None => Ret (bad_context, c)
      | Some tile =>
          own_last <~ py_index (discarded player) (-1);
          if negb (tile_cmp tile own_last =? 0) then Ret (bad_context, c)
          else
            let viable :=
              map (fun p => extra_viable (extra p !! "viable_decisions"))
                  (players c) in
            if negb (existsb nonempty viable) then Ret (bad_context, c)
            else
              player_decisions <~ decisions_loop c [0; 1; 2; 3]
                                    (fun _ => Ret None);
              melders <~ select_melders viable player_decisions 0;
              match melders with
              | Some (m :: ms) =>
                  if invalid_decision (m :: ms) then
                    Ret (mkFlowResult false (Some "decisions-needed")
                                      (Some viable), c)
                  else
                    let c1 := set_cextra c
                                (<["melders" := VMelders (m :: ms)]>
                                   (cextra c)) in
                    c2 <~ (if water (settings c1)
                           then water_loop E c1 [0; 1; 2; 3] viable
                                           player_decisions
                           else Ret c1);
                    Ret (Success, c2)
              | _ =>
                  c2 <~ (if water (settings c)
                         then water_loop E c [0; 1; 2; 3] viable
                                         player_decisions
                         else Ret c);
                  Ret (Success, c2)
              end
      end
  end.

(** *** [SelfKongingHandler.validate] *)

Fixpoint SelfKonging_viable_loop (E : Collab) (c : GameContext) (cur : Z)
    (tile_to_kong : Tile) (offsets : list Z)
    (decisions : list (option (list string)))
  : Exc (list (option (list string)) * GameContext) :=
  match offsets with
  | [] => Ret (decisions, c)
  | i :: rest =>
      let player_idx := (cur + i) mod 4 in
      player <~ get_player c player_idx;
      match extra player !! "viable_decisions" with
      | Some v =>
          decisions' <~ py_set decisions player_idx (extra_viable (Some v));
          SelfKonging_viable_loop E c cur tile_to_kong rest decisions'
      | None =>
          w <~ algo_can_win E c (Some player_idx) (Some tile_to_kong);
          if w then
            let viable := ["win"; "skip"] in
            decisions' <~ py_set decisions player_idx (Some viable);
            c1 <~ player_extra_set c player_idx "viable_decisions"
                    (VStrs viable);
            SelfKonging_viable_loop E c1 cur tile_to_kong rest decisions'
          else
            c1 <~ player_extra_set c player_idx "viable_decisions" VNone;
            SelfKonging_viable_loop E c1 cur tile_to_kong rest decisions
      end
  end.

Definition SelfKongingHandler_validate (E : Collab) (c : GameContext)
  : Exc (FlowResult * GameContext) :=
  cp <~ cur_player c;
  let '(cur, player) := cp in
  let hand := hand player in
  match last_tile hand with
  | None => Ret (bad_context, c)
  | Some tile_to_kong =>
      if can_concealed_kong hand then Ret (Success, c)
      else if can_appended_kong hand then
        r <~ SelfKonging_viable_loop E c cur tile_to_kong [1; 2; 3]
               [None; None; None; None];
        let '(viable, c1) := r in
        player_decisions <~ decisions_loop c1 [0; 1; 2; 3]
                              (fun i => py_index viable i);
        winners <~ select_melders viable player_decisions 0;
        match winners with
        | Some (m :: ms) =>
            if invalid_decision (m :: ms) then
              Ret (mkFlowResult false (Some "decisions-needed")
                                (Some viable), c1)
            else
              let c2 := set_cextra c1
                          (<["winners" := VInts (map fst (m :: ms))]>
                             (cextra c1)) in
              c3 <~ (if water (settings c2)
                     then water_loop E c2 [0; 1; 2; 3] viable
                                     player_decisions
                     else Ret c2);
              Ret (Success, c3)
        | _ =>
            c3 <~ (if water (settings c1)
                   then water_loop E c1 [0; 1; 2; 3] viable player_decisions
                   else Ret c1);
            Ret (Success, c3)
        end
      else Ret (bad_context, c)
  end.

(** *** [ScoredHandler] *)

Definition _get_next_dealer (c : GameContext) : Z :=
  if (match winners c with
      | None | Some [] => true
      | Some w => existsb (Z.eqb (dealer c)) w
      end)
     && (dealer_defended c <? max_dealer_defended (settings c))
  then dealer c
  else (dealer c + 1) mod 4.

Definition _should_goto_next_round (c : GameContext) : bool :=
  let next_dealer := _get_next_dealer c in
  (dealer c =? 3) && negb (next_dealer =? dealer c).

Definition _update_round_and_match (c : GameContext) : GameContext :=
  if _should_goto_next_round c
  then set_round_match c (round c + 1) 0
  else set_round_match c (round c) (match_ c + 1).

Definition _set_next_dealer (c : GameContext) : GameContext :=
  let next_dealer := _get_next_dealer c in
  if next_dealer =? dealer c
  then set_dealer c (dealer c) (dealer_defended c + 1)
  else set_dealer c next_dealer 0.

Definition _clear_hands (c : GameContext) : GameContext :=
  let c1 := set_players c (map Player_reset (players c)) in
  let c2 := set_discarded_pool c1 [] in
  set_turn_fields c2 (Some 0) None.

Definition ScoredHandler_next (c : GameContext) : Exc GameContext :=
  let c1 := _clear_hands c in
  let c2 := _update_round_and_match c1 in
  let c3 := _set_next_dealer c2 in
  Ret (set_cextra (set_state (set_winners c3 None) "start") ∅).

(** The default [Handler.validate]. *)
Definition Handler_validate (c : GameContext)
  : Exc (FlowResult * GameContext) :=
  Ret (Success, c).

(** ** Concrete contexts

    The collaborators used to run the state machine on concrete
    contexts: the catalogue order and a pattern catalogue in which no
    special pattern matches. *)
Definition plain_collab : Collab :=
  mkCollab catalog (fun _ _ _ _ => false).

Definition player_of (free : list Tile) (discards : list Tile) : Player :=
  mkPlayer (Hand_init (Some free)) discards None ∅.

(** The arbitration table of scenarios B and C. *)
Definition viable_BC : list (option (list string)) :=
  [None; Some ["chow"; "skip"]; Some ["kong"; "skip"]; Some ["win"; "skip"]].
Definition chosen_B : list (option Decision) :=
  [None; Some (DStr "chow"); Some (DStr "kong"); Some (DStr "win")].
Definition chosen_C : list (option Decision) :=
  [None; Some (DStr "chow"); Some (DStr "kong"); Some (DStr "skip")].


(** A melding context: seat 2 has discarded a tile that seats 1 and 3
    both claim for a pong. *)
Definition pong_claimant : Player :=
  mkPlayer (Hand_init (Some [CHAR6; CHAR6])) [] (Some (DStr "pong"))
           (<["viable_decisions" := VStrs ["pong"; "skip"]]> ∅).

Definition ctx_melding : GameContext :=
  mkContext "melding" (Some [BAMBOO9; BAMBOO8])
            [player_of [CHAR2] []; pong_claimant;
             player_of [GREEN] [CHAR6]; pong_claimant]
            [CHAR6] (Some 2) (Some 1) 0 0 0 0 None default_settings ∅.

(** A melding context: seat 2 has discarded [CHAR6], on which seats 1
    and 3, each holding a lone [CHAR6], have chosen to win. *)
Definition win_claimant : Player :=
  mkPlayer (Hand_init (Some [CHAR6])) [] (Some (DStr "win"))
           (<["viable_decisions" := VStrs ["win"; "skip"]]> ∅).

Definition ctx_melding_wins : GameContext :=
  mkContext "melding" (Some [BAMBOO9; BAMBOO8])
            [player_of [CHAR2] []; win_claimant;
             player_of [GREEN] [CHAR6]; win_claimant]
            [CHAR6] (Some 2) (Some 1) 0 0 0 0 None default_settings ∅.

(** A discarded context: seat 0, holding a lone [CHAR1], has just
    discarded [EAST] and is ready. *)
Definition ctx_discarded : GameContext :=
  mkContext "discarded" (Some [BAMBOO9; BAMBOO8])
            [player_of [CHAR1] [EAST];
             player_of [CHAR2; CHAR4; CIRCLE1; CIRCLE1] [];
             player_of [CHAR3; CHAR3; CHAR3; CHAR2] [];
             player_of [CHAR4; CIRCLE4] []]
            [EAST] (Some 0) (Some 3) 0 0 0 0 None default_settings ∅.

(** A self-konging context: seat 0 has drawn the fourth [CHAR3] of its
    melded triplet, and seat 3 waits for [CHAR3]. *)
Definition ctx_self_konging : GameContext :=
  mkContext "self-konging" (Some [BAMBOO9; BAMBOO8])
            [mkPlayer
               (mkHand [EAST; NORTH; NORTH; NORTH]
                       [mkTileGroup [RED; RED; RED; RED] KONG_EXPOSED;
                        mkTileGroup [GREEN; GREEN; GREEN; GREEN] KONG_EXPOSED;
                        mkTileGroup [CHAR3; CHAR3; CHAR3] PONG]
                       [] (Some CHAR3))
               [] None ∅;
             player_of [CHAR2; CHAR2; CHAR7; CHAR8; BAMBOO2; BAMBOO3;
                        BAMBOO4; SOUTH; SOUTH; SOUTH; WHITE; WHITE; WHITE] [];
             player_of [CIRCLE1; CIRCLE2; CIRCLE3; BAMBOO5; BAMBOO6;
                        BAMBOO7; BAMBOO8; BAMBOO9; BAMBOO9; EAST; EAST;
                        WEST; NORTH] [];
             player_of [CHAR5; CHAR5; CHAR4; CHAR5; CIRCLE3; CIRCLE3;
                        CIRCLE3; BAMBOO2; BAMBOO3; BAMBOO4; BAMBOO6;
                        BAMBOO7; BAMBOO8] []]
            [] (Some 0) (Some 3) 0 0 0 0 None default_settings ∅.

(** Four seats have each discarded [EAST] first. *)
Definition ctx_four_winds : GameContext :=
  mkContext "discarded" (Some [BAMBOO9; BAMBOO8])
            [player_of [CHAR1] [EAST];
             player_of [CHAR2; CHAR4; CIRCLE1; CIRCLE1] [EAST];
             player_of [CHAR3; CHAR3; CHAR3; CHAR2] [EAST];
             player_of [CHAR4; CIRCLE4] [EAST]]
            [EAST; EAST; EAST; EAST] (Some 3) (Some 2) 0 0 0 0 None
            default_settings ∅.

(** The same table with the four-waiting rule switched on and four
    declared-ready players. *)
Definition declare (p : Player) : Player :=
  set_extra p (<["declared_ready" := VBool true]> (extra p)).


(** A drawing context whose wall holds exactly [tie_wall] tiles. *)
Definition ctx_wall_tie : GameContext :=
  mkContext "drawing"
            (Some [CHAR1; CHAR2; CHAR3; CHAR4; CHAR5; CHAR6; CHAR7; CHAR8;
                   CHAR9; CIRCLE1; CIRCLE2; CIRCLE3; CIRCLE4; CIRCLE5;
                   CIRCLE6; CIRCLE7])
            [player_of [CHAR1] []; player_of [CHAR2] [];
             player_of [CHAR3] []; player_of [CHAR4] []]
            [] (Some 3) (Some 2) 0 0 0 0 None default_settings ∅.

(** ** Properties of a context used in the statements *)

(** The value stored under ['flower_winner'], if any, is a seat. *)
Definition flower_winner_ok (c : GameContext) : Prop :=
  match cextra c !! "flower_winner" with
  | None | Some VNone => True
  | Some (VInt i) =>
      - Z.of_nat (length (players c)) <= i < Z.of_nat (length (players c))
  | Some _ => False
  end.

(** The match ended in a tie, or the dealer is among the winners. *)
Definition tie_or_dealer_won (c : GameContext) : Prop :=
  match winners c with
  | None | Some [] => True
  | Some w => In (dealer c) w
  end.

(** The dealer defends: tie or dealer's win, below the defense cap. *)
Definition dealer_defends (c : GameContext) : Prop :=
  tie_or_dealer_won c /\
  dealer_defended c < max_dealer_defended (settings c).


(** The arbitration table read by [MeldingHandler.validate]. *)
Definition melding_viable (c : GameContext)
  : list (option (list string)) :=
  map (fun p => extra_viable (extra p !! "viable_decisions")) (players c).

(** ** Neighbours of a value in a sorted list ([utils])

    The four search functions of [utils] next to [index]. The position
    returned by a bisection is at most [len(a)], so the list accesses
    stay in range; they are written with [py_index] all the same. *)

(** [utils.find_lt]: rightmost value less than [x]. *)
Definition find_lt (a : list Tile) (x : Tile) : Exc Tile :=
  let i := bisect_left a x in
  if negb (i =? 0)%nat then py_index a (Z.of_nat i - 1)
  else Raise "ValueError".

(** [utils.find_le]: rightmost value less than or equal to [x]. *)
Definition find_le (a : list Tile) (x : Tile) : Exc Tile :=
  let i := bisect_right a x in
  if negb (i =? 0)%nat then py_index a (Z.of_nat i - 1)
  else Raise "ValueError".

(** [utils.find_gt]: leftmost value greater than [x]. *)
Definition find_gt (a : list Tile) (x : Tile) : Exc Tile :=
  let i := bisect_right a x in
  if negb (i =? length a)%nat then py_index a (Z.of_nat i)
  else Raise "ValueError".

(** [utils.find_ge]: leftmost value greater than or equal to [x]. *)
Definition find_ge (a : list Tile) (x : Tile) : Exc Tile :=
  let i := bisect_left a x in
  if negb (i =? length a)%nat then py_index a (Z.of_nat i)
  else Raise "ValueError".

(** ** The suit sets built by [_init_tile_class] and the wall *)

(** The tiles in the order in which [dir(Tile)] lists their [ID_]
    attributes: alphabetical by name. *)
Definition dir_order : list Tile :=
  [ AUTUMN; BAMBOO; BAMBOO1; BAMBOO2; BAMBOO3; BAMBOO4; BAMBOO5; BAMBOO6;
    BAMBOO7; BAMBOO8; BAMBOO9;
    CHAR1; CHAR2; CHAR3; CHAR4; CHAR5; CHAR6; CHAR7; CHAR8; CHAR9;
    CHRYSANTH;
    CIRCLE1; CIRCLE2; CIRCLE3; CIRCLE4; CIRCLE5; CIRCLE6; CIRCLE7;
    CIRCLE8; CIRCLE9;
    EAST; GREEN; NORTH; ORCHID; PLUM; RED; SOUTH; SPRING; SUMMER; WEST;
    WHITE; WINTER ].

Record TileSets : Type := mkTileSets {
  CHARS : list Tile;
  CIRCLES : list Tile;
  BAMBOOS : list Tile;
  HONORS : list Tile;
  FLOWERS : list Tile;
  WINDS : list Tile;
  DRAGONS : list Tile
}.

(** One iteration of the second loop of [_init_tile_class]. Every tile
    belongs to one of the five suit sets, so the last [else] (no branch
    of the [if] chain taken) is never reached. *)
Definition init_tile_step (s : TileSets) (tile : Tile) : TileSets :=
  let s1 :=
    if is_char tile then
      mkTileSets (insort (CHARS s) tile) (CIRCLES s) (BAMBOOS s) (HONORS s)
                 (FLOWERS s) (WINDS s) (DRAGONS s)
    else if is_circle tile then
      mkTileSets (CHARS s) (insort (CIRCLES s) tile) (BAMBOOS s) (HONORS s)
                 (FLOWERS s) (WINDS s) (DRAGONS s)
    else if is_bamboo tile then
      mkTileSets (CHARS s) (CIRCLES s) (insort (BAMBOOS s) tile) (HONORS s)
                 (FLOWERS s) (WINDS s) (DRAGONS s)
    else if is_honor tile then
      mkTileSets (CHARS s) (CIRCLES s) (BAMBOOS s) (insort (HONORS s) tile)
                 (FLOWERS s) (WINDS s) (DRAGONS s)
    else if is_general_flower tile then
      mkTileSets (CHARS s) (CIRCLES s) (BAMBOOS s) (HONORS s)
                 (insort (FLOWERS s) tile) (WINDS s) (DRAGONS s)
    else s in
  if is_wind tile then
    mkTileSets (CHARS s1) (CIRCLES s1) (BAMBOOS s1) (HONORS s1)
               (FLOWERS s1) (insort (WINDS s1) tile) (DRAGONS s1)
  else if is_dragon tile then
    mkTileSets (CHARS s1) (CIRCLES s1) (BAMBOOS s1) (HONORS s1)
               (FLOWERS s1) (WINDS s1) (insort (DRAGONS s1) tile)
  else s1.

Definition Tile_sets : TileSets :=
  fold_left init_tile_step dir_order (mkTileSets [] [] [] [] [] [] []).

(** [Wall._add_tiles] *)
Definition _add_tiles (wall_tiles : list Tile) (ts : list Tile)
    (num_duplicates : nat) : list Tile :=
  fold_left (fun w tile => w ++ repeat tile num_duplicates) ts wall_tiles.

(** [Wall.reset], as a function of the five flags of the wall. *)
Definition Wall_reset (chars circles bamboos honors flowers : bool)
  : list Tile :=
  let w := [] in
  let w := if chars then _add_tiles w (CHARS Tile_sets) 4 else w in
  let w := if circles then _add_tiles w (CIRCLES Tile_sets) 4 else w in
  let w := if bamboos then _add_tiles w (BAMBOOS Tile_sets) 4 else w in
  let w := if honors then _add_tiles w (HONORS Tile_sets) 4 else w in
  if flowers then _add_tiles w (FLOWERS Tile_sets) 1 else w.

(** [Wall.num_tiles] *)
Definition num_tiles (w : list Tile) : Z := Z.of_nat (length w).

(** [GameSettings.total_tiles], as a function of the five [wall_*]
    settings it reads. *)
Definition total_tiles
    (wall_bamboos wall_chars wall_circles wall_flowers wall_honors : bool)
  : Z :=
  let total := 0 in
  let total := if wall_bamboos then total + 36 else total in
  let total := if wall_chars then total + 36 else total in
  let total := if wall_circles then total + 36 else total in
  let total := if wall_flowers then total + 8 else total in
  if wall_honors then total + 28 else total.

(** The suit of a tile is enabled by the flags of the wall. *)
Definition in_wall (chars circles bamboos honors flowers : bool) (t : Tile)
  : bool :=
  (chars && is_char t) || (circles && is_circle t)
  || (bamboos && is_bamboo t) || (honors && is_honor t)
  || (flowers && is_general_flower t).

(** ** Discards on the context *)

(** [Player.discard(tile=None)] *)
Definition Player_discard (p : Player) (tile : option Tile) : Exc Player :=
  let tile := match tile with Some t => Some t | None => last_tile (hand p) end in
  match tile with
  | None => Raise "ValueError"
  | Some t =>
      match Hand_discard (hand p) (Some t) with
      | (Ret _, h') =>
          Ret (set_discarded (set_hand p h') (discarded p ++ [t]))
      | (Raise e, _) => Raise e
      end
  end.

(** [GameContext.discard(tile, player_idx=None)] for a tile: the
    handlers call it with one. *)
Definition GameContext_discard (c : GameContext) (tile : Tile)
    (player_idx : option Z) : Exc GameContext :=
  player_idx <~ match player_idx with
                | Some i => Ret i
                | None => match cur_player_idx c with
                          | Some i => Ret i
                          | None => Raise "TypeError"
                          end
                end;
  p <~ get_player c player_idx;
  p' <~ Player_discard p (Some tile);
  c1 <~ put_player c player_idx p';
  Ret (set_discarded_pool c1 (discarded_pool c1 ++ [tile])).

(** [GameContext.remove_last_discarded(player_offset=0)] *)
Definition remove_last_discarded (c : GameContext) (player_offset : Z)
  : Exc (option Tile * GameContext) :=
  player <~ match player_idx_at c player_offset with
            | None => Ret None
            | Some i => p <~ get_player c i; Ret (Some (i, p))
            end;
  match rev (discarded_pool c) with
  | [] => Ret (None, c)
  | tile1 :: pool_rest =>
      match player with
      | None => Raise "AttributeError"
      | Some (i, p) =>
          match rev (discarded p) with
          | [] => Ret (None, c)
          | tile2 :: rest =>
              if tile_eqb tile1 tile2 then
                let c1 := set_discarded_pool c (rev pool_rest) in
                c2 <~ put_player c1 i (set_discarded p (rev rest));
                Ret (Some tile1, c2)
              else Ret (None, c)
          end
      end
  end.

(** ** Notions used in the statements about hands *)

(** The tiles a player holds and may discard: the free tiles and the
    newly drawn tile. *)
Definition held (h : Hand) : list Tile :=
  free_tiles h ++ match last_tile h with Some t => [t] | None => [] end.

(** [y] is the rightmost (largest) value of [a] that satisfies [P]. *)
Definition rightmost (P : Tile -> Prop) (a : list Tile) (y : Tile) : Prop :=
  In y a /\ P y /\ forall z, In z a -> P z -> tile_id z <= tile_id y.

(** [y] is the leftmost (smallest) value of [a] that satisfies [P]. *)
Definition leftmost (P : Tile -> Prop) (a : list Tile) (y : Tile) : Prop :=
  In y a /\ P y /\ forall z, In z a -> P z -> tile_id y <= tile_id z.

(** What one fixed group adds to [num_kongs()] and to [num_pongs()]. *)
Definition kong_weight (g : TileGroup) : Z :=
  if (group_type g =? KONG_EXPOSED) then 1
  else if (group_type g =? KONG_CONCEALED) then 1 else 0.

Definition pong_weight (g : TileGroup) : Z :=
  if group_type g =? PONG then 1 else 0.

(** An entry of the result of an arbitration: a seat that still has to
    answer, or a seat with the action it claims. *)
Definition melder_ok (viable_decisions : list (option (list string)))
    (player_decisions : list (option Decision)) (e : Z * option string)
  : Prop :=
  0 <= fst e /\
  match snd e with
  | None => ~ answered viable_decisions player_decisions (Z.to_nat (fst e))
  | Some a => claims viable_decisions player_decisions a (fst e) = true
  end.

(** ** More concrete contexts *)

(** A drawing context in which seat 0 has just drawn its only flower
    while seat 1 holds seven: seat 1 may rob it and has not decided. *)
Definition ctx_flower_pending : GameContext :=
  mkContext "drawing" (Some [BAMBOO9; BAMBOO8])
            [mkPlayer (mkHand [CHAR1] [] [PLUM] None) [] None
                      (<["flowered" := VBool true]> ∅);
             mkPlayer (mkHand [CHAR2] []
                              [ORCHID; BAMBOO; CHRYSANTH; SPRING; SUMMER;
                               AUTUMN; WINTER] None) [] None ∅;
             player_of [CHAR3] []; player_of [CHAR4] []]
            [] (Some 0) (Some 3) 0 0 0 0 None default_settings ∅.

(** The same table with the wall at the tie threshold. *)
Definition ctx_flower_pending_tie : GameContext :=
  set_wall ctx_flower_pending (wall ctx_wall_tie).

(** The melding context before seats 1 and 3 have answered. *)
Definition ctx_melding_pending : GameContext :=
  set_players ctx_melding
              (map (fun p => set_decision p None) (players ctx_melding)).

(** A discarded context with an empty discard pool. *)
Definition ctx_discarded_empty : GameContext :=
  set_discarded_pool ctx_discarded [].

(** A drawing context with a wall above the tie threshold. *)
Definition ctx_drawing : GameContext :=
  set_wall ctx_wall_tie
           (Some [CHAR1; CHAR2; CHAR3; CHAR4; CHAR5; CHAR6; CHAR7; CHAR8;
                  CHAR9; CIRCLE1; CIRCLE2; CIRCLE3; CIRCLE4; CIRCLE5;
                  CIRCLE6; CIRCLE7; CIRCLE8; CIRCLE9]).

(** A player with the options stored for the melding phase: nothing is
    stored for a seat without options. *)
Definition with_viable (q : Player) (v : option (list string)) : Player :=
  match v with
  | Some (x :: l) =>
      set_extra q (<["viable_decisions" := VStrs (x :: l)]> (extra q))
  | _ => q
  end.

(** A player after [DiscardedHandler._cleanup] has run on it as the
    current player. *)
Definition without_flags (q : Player) : Player :=
  set_extra q (delete "asked" (delete "ready" (extra q))).

(** A discarded context: seat 2 has discarded [CHAR6], of which seats 1
    and 3 each hold a pair. *)
Definition ctx_discarded_pong : GameContext :=
  mkContext "discarded" (Some [BAMBOO9; BAMBOO8])
            [player_of [CHAR2] []; player_of [CHAR6; CHAR6] [];
             player_of [GREEN] [CHAR6]; player_of [CHAR6; CHAR6] []]
            [CHAR6] (Some 2) (Some 1) 0 0 0 0 None default_settings ∅.

(** ** Tiles on the table *)

(** Every tile of a hand: free tiles, drawn tile, melds and flowers. *)
Definition hand_tiles (h : Hand) : list Tile :=
  held h ++ concat (map tiles (fixed_groups h)) ++ flowers h.

(** Every tile on the table: the wall, the discard pool and the hands.
    A player's own list of discards repeats tiles of the pool and is
    not counted. *)
Definition table_tiles (c : GameContext) : list Tile :=
  match wall c with Some w => w | None => [] end
  ++ discarded_pool c
  ++ concat (map (fun p => hand_tiles (hand p)) (players c)).

(** ** [MeldingHandler.next] *)

(** [decision == name] for an entry of an arbitration result. *)
Definition opt_str_is (d : option string) (name : string) : bool :=
  match d with
  | Some s => String.eqb s name
  | None => false
  end.


(** The exception raised by [utils.index(free_tiles, None)], reached
    when a meld is attempted without a tile to meld: on an empty list
    the search answers -1 and [_meld] raises [ValueError]; otherwise the
    bisection compares a tile with [None], and [Tile.__cmp__] reads
    [None.tile_id]. *)
Definition index_none_error (ft : list Tile) : string :=
  match ft with
  | [] => "ValueError"
  | _ :: _ => "AttributeError"
  end.

(** [hand.pong(tile)] and [hand.kong_from_other(tile)] for the result
    of [remove_last_discarded]. *)
Definition pong_opt (h : Hand) (tile : option Tile) : Exc TileGroup * Hand :=
  match tile with
  | Some t => Hand_pong h t
  | None => (Raise (index_none_error (free_tiles h)), h)
  end.

Definition kong_opt (h : Hand) (tile : option Tile) : Exc TileGroup * Hand :=
  match tile with
  | Some t => kong_from_other h t
  | None => (Raise (index_none_error (free_tiles h)), h)
  end.

(** [hand.chow(chow_comb, tile)]: without a tile the two tiles of the
    combination are taken out first, and sorting them with [None]
    raises. *)
Definition chow_opt (h : Hand) (comb : Tile * Tile) (tile : option Tile)
  : Exc TileGroup * Hand :=
  match tile with
  | Some t => Hand_chow h [fst comb; snd comb] t
  | None =>
      match meld_remove (free_tiles h) [fst comb; snd comb] with
      | (Raise e, ft') => (Raise e, set_free_tiles h ft')
      | (Ret _, ft') => (Raise "AttributeError", set_free_tiles h ft')
      end
  end.

(** A meld on the hand of the current player. *)
Definition meld_on_cur (c : GameContext)
    (op : Hand -> Exc TileGroup * Hand) : Exc GameContext :=
  cp <~ cur_player c;
  let '(cur, player) := cp in
  match op (hand player) with
  | (Ret _, h') => put_player c cur (set_hand player h')
  | (Raise e, _) => Raise e
  end.

Definition MeldingHandler_next_turn (c : GameContext) : GameContext :=
  next_turn (set_state c "drawing").

Fixpoint mark_winners (c : GameContext) (ws : list Z) : Exc GameContext :=
  match ws with
  | [] => Ret c
  | winner_idx :: rest =>
      winner <~ get_player c winner_idx;
      c1 <~ put_player c winner_idx
              (set_extra winner
                 (<["chucker" := match cur_player_idx c with
                                 | Some cur => VInt cur
                                 | None => VNone
                                 end]>
                    (<["win_type" := VStr "melded"]> (extra winner))));
      mark_winners c1 rest
  end.

Definition MeldingHandler_win (c : GameContext) (winners : list Z)
  : Exc GameContext :=
  let c1 := set_state c "end" in
  let c2 := set_winners c1
              (Some (if multi_winners (settings c1) then winners
                     else firstn 1 winners)) in
  mark_winners c2 (if multi_winners (settings c1) then winners
                   else firstn 1 winners).

Definition MeldingHandler_tie (c : GameContext) : GameContext :=
  let c1 := set_state c "end" in
  let c2 := set_cextra c1 (<["tie_type" := VStr "4-kong"]> (cextra c1)) in
  set_winners c2 None.

Definition MeldingHandler_kong (c : GameContext) (melder_idx : Z)
  : Exc GameContext :=
  r <~ remove_last_discarded c 0;
  let '(tile, c1) := r in
  let c2 := set_turn (set_state c1 "drawing") melder_idx in
  cp <~ cur_player c2;
  let '(cur, player) := cp in
  match kong_opt (hand player) tile with
  | (Raise e, _) => Raise e
  | (Ret _, h') =>
      c3 <~ put_player c2 cur
              (set_extra (set_hand player h')
                         (<["konged" := VBool true]> (extra player)));
      tie <~ is_tie c3 true false true false false;
      Ret (if tie then MeldingHandler_tie c3 else c3)
  end.

Definition MeldingHandler_pong (c : GameContext) (melder_idx : Z)
  : Exc GameContext :=
  r <~ remove_last_discarded c 0;
  let '(tile, c1) := r in
  let c2 := set_turn (set_state c1 "discarding") melder_idx in
  meld_on_cur c2 (fun h => pong_opt h tile).

Definition MeldingHandler_multi_chow (c : GameContext) (chower_idx : Z)
    (chow_combs : list (Tile * Tile)) : Exc GameContext :=
  c1 <~ player_extra_set c chower_idx "chow_combs" (VCombs chow_combs);
  Ret (set_turn (set_state c1 "chowing") chower_idx).

Definition MeldingHandler_single_chow (c : GameContext) (chower_idx : Z)
    (chow_comb : Tile * Tile) : Exc GameContext :=
  r <~ remove_last_discarded c 0;
  let '(tile, c1) := r in
  let c2 := set_turn (set_state c1 "discarding") chower_idx in
  meld_on_cur c2 (fun h => chow_opt h chow_comb tile).

Definition MeldingHandler_cleanup (c : GameContext) : Exc GameContext :=
  let c1 := set_cextra c (delete "melders" (cextra c)) in
  let c2 := set_players c1
              (map (fun p =>
                      set_decision
                        (set_extra p (delete "viable_decisions" (extra p)))
                        None)
                   (players c1)) in
  if negb (String.eqb (state c2) "win") then
    cp <~ cur_player c2;
    let '(cur, player) := cp in
    put_player c2 cur (set_extra player (delete "konged" (extra player)))
  else Ret c2.

(** [MeldingHandler.next]. [MeldingHandler.validate] stores under
    ['melders'] a non-empty list of seats with their actions and
    nothing else; a value of another kind there is a [TypeError]. *)
Definition MeldingHandler_next (c : GameContext) : Exc GameContext :=
  let melders := cextra c !! "melders" in
  if negb (truthy melders) then
    MeldingHandler_cleanup (MeldingHandler_next_turn c)
  else
    match melders with
    | Some (VMelders ((melder_idx, first_decision) :: rest)) =>
        if opt_str_is first_decision "win" then
          c1 <~ MeldingHandler_win c
                  (map fst ((melder_idx, first_decision) :: rest));
          MeldingHandler_cleanup c1
        else if opt_str_is first_decision "chow" then
          let tile_to_chow := last_discarded c in
          chower <~ get_player c melder_idx;
          match tile_to_chow with
          | None => Raise "AttributeError"
          | Some t =>
              chow_combs <~ get_chow_combs (hand chower) t;
              c1 <~ match chow_combs with
                    | _ :: _ :: _ =>
                        MeldingHandler_multi_chow c melder_idx chow_combs
                    | [chow_comb] =>
                        MeldingHandler_single_chow c melder_idx chow_comb
                    | [] => Raise "IndexError"
                    end;
              MeldingHandler_cleanup c1
          end
        else if opt_str_is first_decision "kong" then
          c1 <~ MeldingHandler_kong c melder_idx;
          MeldingHandler_cleanup c1
        else if opt_str_is first_decision "pong" then
          c1 <~ MeldingHandler_pong c melder_idx;
          MeldingHandler_cleanup c1
        else Raise "TypeError"
    | _ => Raise "TypeError"
    end.

(** What [MeldingHandler._cleanup] does to every player. *)
Definition melding_clear (p : Player) : Player :=
  set_decision (set_extra p (delete "viable_decisions" (extra p))) None.

(** The melding context [ctx_melding] once [MeldingHandler.validate]
    has stored the arbitration result: seat 1 takes the pong. *)
Definition ctx_melding_pong : GameContext :=
  set_cextra ctx_melding
             (<["melders" := VMelders [(1, Some "pong")]]>
                (cextra ctx_melding)).

(** ** Auxiliary notions used in the proofs *)

(** A well-formed row: ten cells, non-negative counts, and cell 0 holding
    the number of tiles of the row. *)
Definition row_sum (row : list Z) : Z :=
  fold_right (fun i acc => row_get row i + acc) 0 xrange_1_10.

Definition wf_row (row : list Z) : Prop :=
  length row = 10%nat /\
  (forall j, 1 <= j <= 9 -> 0 <= row_get row j) /\
  row_get row 0 = row_sum row.


(** The row after a triplet, a run or a pair has been taken out, as the
    code computes it. *)
Definition row_trip (row : list Z) (idx : Z) : list Z :=
  row_add (row_add row idx (-3)) 0 (-3).

Definition row_run (row : list Z) (idx : Z) : list Z :=
  row_add
    (row_add (row_add (row_add row idx (-1)) (idx + 1) (-1)) (idx + 2) (-1))
    0 (-3).

Definition row_pair (row : list Z) (i : Z) : list Z :=
  row_add (row_add row i (-2)) 0 (-2).

Definition ind (b : bool) : Z := if b then 1 else 0.

(** A row decomposes into triplets and runs: [t j] triplets of rank [j]
    and [s j] runs starting at rank [j]; honor rows admit no run. *)
Definition Decomp (is_honor : bool) (row : list Z) : Prop :=
  exists t s : Z -> Z,
    (forall j, 0 <= t j) /\
    (forall j, 0 <= s j) /\
    (forall j, j < 1 \/ 7 < j -> s j = 0) /\
    (is_honor = true -> forall j, s j = 0) /\
    (forall j, 1 <= j <= 9 ->
       row_get row j = 3 * t j + s j + s (j - 1) + s (j - 2)).

(** The cell of the hand table that a tile is counted in: row and
    column. Flowers have none. *)
Definition cell_of (t : Tile) : option (nat * Z) :=
  if is_char t then Some (0%nat, tile_id t mod 16)
  else if is_circle t then Some (1%nat, tile_id t mod 16)
  else if is_bamboo t then Some (2%nat, tile_id t mod 16)
  else if is_honor t then
    match honor_indices t with
    | Some j => Some (3%nat, j)
    | None => None
    end
  else None.

Definition in_cell (k : nat) (j : Z) (t : Tile) : bool :=
  match cell_of t with
  | Some (k', j') => (k =? k')%nat && (j =? j')
  | None => false
  end.

(** Number of tiles of a list that fall in a cell. *)
Definition cnt (l : list Tile) (k : nat) (j : Z) : Z :=
  Z.of_nat (length (List.filter (in_cell k j) l)).

Definition tile_at (k : nat) (j : Z) : option Tile :=
  find (in_cell k j) catalog.

(** Triplets and runs of a partition, classified by the cell of their
    first tile. *)
Definition trip_at (k : nat) (j : Z) (m : list Tile) : bool :=
  match m with
  | [a; b; c] => tile_eqb a b && tile_eqb b c && in_cell k j a
  | _ => false
  end.

Definition run_at (k : nat) (j : Z) (m : list Tile) : bool :=
  match m with
  | [a; b; c] =>
      (k <? 3)%nat && in_cell k j a && in_cell k (j + 1) b
      && in_cell k (j + 2) c
  | _ => false
  end.

Definition count_melds (f : list Tile -> bool) (ms : list (list Tile)) : Z :=
  Z.of_nat (length (List.filter f ms)).

(** The hand table of a list of tiles holds the cell counts. *)
Definition table_ok (ts : list Tile) (table : list (list Z)) : Prop :=
  length table = 4%nat /\
  forall k, (k < 4)%nat ->
    wf_row (nth k table []) /\
    forall j, 1 <= j <= 9 -> row_get (nth k table []) j = cnt ts k j.

(** Every occupied cell of row [k] is the cell of some tile. *)
Definition row_tiles_ok (k : nat) (row : list Z) : Prop :=
  forall j, 1 <= j <= 9 -> 0 < row_get row j ->
    exists x, cell_of x = Some (k, j).

(** All tiles of a list are counted in row [k]. *)
Definition in_row (k : nat) (l : list Tile) : Prop :=
  forall x, In x l -> exists j, cell_of x = Some (k, j).

(** Non-decreasing tile order. *)
Definition tile_le (a b : Tile) : Prop := tile_id a <= tile_id b.

Definition sorted_tiles (l : list Tile) : Prop := StronglySorted tile_le l.

(** The shared shape of the two bisection loops: [go_right mid] tells
    whether the search continues to the right of [mid]. *)
Fixpoint bs_loop (go_right : nat -> bool) (fuel lo hi : nat) : nat :=
  match fuel with
  | O => lo
  | S fuel' =>
      if (lo <? hi)%nat then
        let mid := ((lo + hi) / 2)%nat in
        if go_right mid then bs_loop go_right fuel' (mid + 1)%nat hi
        else bs_loop go_right fuel' lo mid
      else lo
  end.

(** The three ways a tile can complete a run with two others. *)
Definition chow_shape (t a b : Tile) : Prop :=
  is_run [a; b; t] \/ is_run [a; t; b] \/ is_run [t; a; b].


(** * Properties *)

(** ** Tiles *)

Example suit_examples :
  suit CHAR7 = SUIT_CHAR /\ suit WHITE = SUIT_DRAGON /\
  suit NORTH = SUIT_WIND /\ suit SUMMER = SUIT_SEASON /\
  suit BAMBOO = SUIT_FLOWER /\ rank CIRCLE4 = Some 4 /\ rank EAST = None.
Proof. repeat split; reflexivity. Qed.

Example ebind_example :
  (x <~ Ret 1; y <~ Ret 2; Ret (x + y)) = Ret 3 /\
  (x <~ Raise "ValueError"; Ret (x + 1)) = Raise "ValueError".
Proof. split; reflexivity. Qed.

(** Scenario A of the specification. *)
Example scenario_A :
  let h := Hand_init (Some [CHAR1; CHAR1; CHAR1; CHAR2; CHAR2; CHAR2;
                            CHAR3; CHAR3; CHAR3;
                            BAMBOO1; BAMBOO2; BAMBOO3; BAMBOO5]) in
  can_win h (Some BAMBOO5) = true /\ can_win h (Some BAMBOO4) = false /\
  Hand_waiting_tiles catalog h = [BAMBOO5].
Proof. vm_compute. repeat split. Qed.

Example can_win_tests :
  let h1 := Hand_init (Some [BAMBOO1; CIRCLE4; CIRCLE4; CIRCLE4;
                             BAMBOO5; BAMBOO5; BAMBOO5;
                             BAMBOO7; BAMBOO7; BAMBOO7;
                             CIRCLE8; CIRCLE8; CIRCLE8]) in
  let h2 := Hand_init (Some [CHAR1; CHAR1; CHAR1; CHAR9; CHAR9;
                             BAMBOO1; BAMBOO1; WHITE; WHITE; WHITE;
                             WEST; WEST; WEST]) in
  Hand_waiting_tiles catalog h1 = [BAMBOO1] /\
  Hand_waiting_tiles (rev catalog) h2 = [CHAR9; BAMBOO1] /\
  can_win h2 (Some CIRCLE1) = false.
Proof. vm_compute. repeat split. Qed.

(** ** Rows of the hand table *)

Lemma length_list_add (l : list Z) (k : nat) (d : Z) :
  length (list_add l k d) = length l.
Proof.
  revert k; induction l as [|x l IH]; intros [|k]; simpl; auto.
Qed.

Lemma nth_list_add (l : list Z) (k : nat) (d : Z) (j : nat) :
  nth j (list_add l k d) 0 =
  if ((j =? k)%nat && (k <? length l)%nat)%bool
  then nth j l 0 + d else nth j l 0.
Proof.
  revert k j; induction l as [|x l IH]; intros k j.
  - destruct k, j; simpl; try reflexivity;
      rewrite ?andb_false_r; reflexivity.
  - destruct k as [|k], j as [|j]; simpl; try reflexivity.
    rewrite IH. reflexivity.
Qed.

Lemma py_pos_nonneg (len : nat) (i : Z) :
  0 <= i -> py_pos len i = Z.to_nat i.
Proof.
  intros Hi. unfold py_pos.
  destruct (Z.ltb_spec i 0); [lia | reflexivity].
Qed.

Lemma length_row_add (row : list Z) (i d : Z) :
  length (row_add row i d) = length row.
Proof. apply length_list_add. Qed.

Lemma row_get_add (row : list Z) (i d j : Z) :
  0 <= i < Z.of_nat (length row) -> 0 <= j ->
  row_get (row_add row i d) j =
  if j =? i then row_get row j + d else row_get row j.
Proof.
  intros Hi Hj. unfold row_get, row_add.
  rewrite length_list_add, !py_pos_nonneg by lia.
  rewrite nth_list_add.
  destruct (Z.eqb_spec j i) as [->|Hne].
  - rewrite Nat.eqb_refl. simpl.
    destruct (Nat.ltb_spec (Z.to_nat i) (length row)); [reflexivity | lia].
  - destruct (Nat.eqb_spec (Z.to_nat j) (Z.to_nat i)); [lia | reflexivity].
Qed.

Lemma in_range_cases (j : Z) :
  1 <= j <= 9 ->
  j = 1 \/ j = 2 \/ j = 3 \/ j = 4 \/ j = 5 \/ j = 6 \/ j = 7 \/ j = 8 \/
  j = 9.
Proof. lia. Qed.

Ltac range_cases H :=
  apply in_range_cases in H;
  destruct H as [H|[H|[H|[H|[H|[H|[H|[H|H]]]]]]]]; subst.

Lemma row_weight_sum (row : list Z) :
  (forall j, 1 <= j <= 9 -> 0 <= row_get row j) ->
  Z.of_nat (row_weight row) = row_sum row.
Proof.
  intros Hnn. unfold row_weight, row_sum, xrange_1_10; cbn [fold_right].
  pose proof (Hnn 1 ltac:(lia)); pose proof (Hnn 2 ltac:(lia));
  pose proof (Hnn 3 ltac:(lia)); pose proof (Hnn 4 ltac:(lia));
  pose proof (Hnn 5 ltac:(lia)); pose proof (Hnn 6 ltac:(lia));
  pose proof (Hnn 7 ltac:(lia)); pose proof (Hnn 8 ltac:(lia));
  pose proof (Hnn 9 ltac:(lia)).
  lia.
Qed.

(** The first positive cell of a non-empty well-formed row. *)
Lemma first_positive_spec (row : list Z) :
  wf_row row -> row_get row 0 <> 0 ->
  let idx := first_positive row xrange_1_10 in
  1 <= idx <= 9 /\ 0 < row_get row idx /\
  (forall j, 1 <= j < idx -> row_get row j = 0).
Proof.
  intros (Hlen & Hnn & Hsum) Hne. cbv zeta.
  unfold row_sum, xrange_1_10 in Hsum; cbn [fold_right] in Hsum.
  unfold xrange_1_10; cbn [first_positive].
  pose proof (Hnn 1 ltac:(lia)); pose proof (Hnn 2 ltac:(lia));
  pose proof (Hnn 3 ltac:(lia)); pose proof (Hnn 4 ltac:(lia));
  pose proof (Hnn 5 ltac:(lia)); pose proof (Hnn 6 ltac:(lia));
  pose proof (Hnn 7 ltac:(lia)); pose proof (Hnn 8 ltac:(lia));
  pose proof (Hnn 9 ltac:(lia)).
  repeat match goal with
  | |- context [if ?c >? 0 then _ else _] =>
      destruct (Z.gtb_spec c 0)
  end;
  try (split; [lia | split; [lia |]];
       intros j Hj;
       assert (Hj' : 1 <= j <= 9) by lia;
       range_cases Hj'; lia).
Qed.

Ltac row_simpl :=
  repeat (rewrite row_get_add by (rewrite ?length_row_add; lia)).

Lemma row_trip_get (row : list Z) (idx j : Z) :
  length row = 10%nat -> 1 <= idx <= 9 -> 0 <= j <= 9 ->
  row_get (row_trip row idx) j =
  row_get row j - 3 * ind (j =? idx) - 3 * ind (j =? 0).
Proof.
  intros Hlen Hidx Hj. unfold row_trip. row_simpl.
  destruct (Z.eqb_spec j 0), (Z.eqb_spec j idx); simpl; lia.
Qed.

Lemma row_run_get (row : list Z) (idx j : Z) :
  length row = 10%nat -> 1 <= idx <= 7 -> 0 <= j <= 9 ->
  row_get (row_run row idx) j =
  row_get row j - ind (j =? idx) - ind (j =? idx + 1) - ind (j =? idx + 2)
  - 3 * ind (j =? 0).
Proof.
  intros Hlen Hidx Hj. unfold row_run. row_simpl.
  destruct (Z.eqb_spec j 0), (Z.eqb_spec j idx), (Z.eqb_spec j (idx + 1)),
    (Z.eqb_spec j (idx + 2)); simpl; lia.
Qed.

Lemma row_pair_get (row : list Z) (i j : Z) :
  length row = 10%nat -> 1 <= i <= 9 -> 0 <= j <= 9 ->
  row_get (row_pair row i) j =
  row_get row j - 2 * ind (j =? i) - 2 * ind (j =? 0).
Proof.
  intros Hlen Hidx Hj. unfold row_pair. row_simpl.
  destruct (Z.eqb_spec j 0), (Z.eqb_spec j i); simpl; lia.
Qed.

Lemma length_row_trip row idx : length (row_trip row idx) = length row.
Proof. unfold row_trip. now rewrite !length_row_add. Qed.

Lemma length_row_run row idx : length (row_run row idx) = length row.
Proof. unfold row_run. now rewrite !length_row_add. Qed.

Lemma length_row_pair row i : length (row_pair row i) = length row.
Proof. unfold row_pair. now rewrite !length_row_add. Qed.

Ltac unfold_sums :=
  unfold row_sum, xrange_1_10 in *; cbn [fold_right] in *.

Lemma wf_row_trip (row : list Z) (idx : Z) :
  wf_row row -> 1 <= idx <= 9 -> 3 <= row_get row idx ->
  wf_row (row_trip row idx).
Proof.
  intros (Hlen & Hnn & Hsum) Hidx Hge. split; [|split].
  - now rewrite length_row_trip.
  - intros j Hj. rewrite row_trip_get by lia. specialize (Hnn j Hj).
    destruct (Z.eqb_spec j idx), (Z.eqb_spec j 0); subst; simpl; lia.
  - unfold_sums. rewrite !row_trip_get by lia.
    range_cases Hidx; simpl; lia.
Qed.

Lemma wf_row_run (row : list Z) (idx : Z) :
  wf_row row -> 1 <= idx <= 7 ->
  0 < row_get row idx -> 0 < row_get row (idx + 1) ->
  0 < row_get row (idx + 2) ->
  wf_row (row_run row idx).
Proof.
  intros (Hlen & Hnn & Hsum) Hidx H0 H1 H2. split; [|split].
  - now rewrite length_row_run.
  - intros j Hj. rewrite row_run_get by lia. specialize (Hnn j Hj).
    destruct (Z.eqb_spec j idx), (Z.eqb_spec j (idx + 1)),
      (Z.eqb_spec j (idx + 2)), (Z.eqb_spec j 0); subst; simpl; lia.
  - unfold_sums. rewrite !row_run_get by lia.
    assert (Hidx' : 1 <= idx <= 9) by lia.
    range_cases Hidx'; simpl; lia.
Qed.

Lemma wf_row_pair (row : list Z) (i : Z) :
  wf_row row -> 1 <= i <= 9 -> 2 <= row_get row i ->
  wf_row (row_pair row i).
Proof.
  intros (Hlen & Hnn & Hsum) Hidx Hge. split; [|split].
  - now rewrite length_row_pair.
  - intros j Hj. rewrite row_pair_get by lia. specialize (Hnn j Hj).
    destruct (Z.eqb_spec j i), (Z.eqb_spec j 0); subst; simpl; lia.
  - unfold_sums. rewrite !row_pair_get by lia.
    range_cases Hidx; simpl; lia.
Qed.

Lemma row_weight_wf (row : list Z) :
  wf_row row -> Z.of_nat (row_weight row) = row_get row 0.
Proof.
  intros (Hlen & Hnn & Hsum). rewrite Hsum. now apply row_weight_sum.
Qed.

(** ** The greedy grouping decides decomposability *)

Lemma row_weight_trip (row : list Z) (idx : Z) :
  wf_row row -> 1 <= idx <= 9 -> 3 <= row_get row idx ->
  (row_weight (row_trip row idx) + 3 = row_weight row)%nat.
Proof.
  intros Hwf Hidx Hge.
  pose proof (row_weight_wf _ Hwf).
  pose proof (row_weight_wf _ (wf_row_trip _ _ Hwf Hidx Hge)) as H'.
  rewrite row_trip_get in H' by (destruct Hwf; lia).
  destruct (Z.eqb_spec 0 idx); [lia|]. simpl in H'. lia.
Qed.

Lemma row_weight_run (row : list Z) (idx : Z) :
  wf_row row -> 1 <= idx <= 7 ->
  0 < row_get row idx -> 0 < row_get row (idx + 1) ->
  0 < row_get row (idx + 2) ->
  (row_weight (row_run row idx) + 3 = row_weight row)%nat.
Proof.
  intros Hwf Hidx H0 H1 H2.
  pose proof (row_weight_wf _ Hwf).
  pose proof (row_weight_wf _ (wf_row_run _ _ Hwf Hidx H0 H1 H2)) as H'.
  rewrite row_run_get in H' by (destruct Hwf; lia).
  destruct (Z.eqb_spec 0 idx), (Z.eqb_spec 0 (idx + 1)),
    (Z.eqb_spec 0 (idx + 2)); try lia. simpl in H'. lia.
Qed.

(** Removing a triplet at the lowest rank loses no decomposition. *)
Lemma Decomp_trip (h : bool) (row : list Z) (idx : Z) :
  wf_row row -> 1 <= idx <= 9 -> 3 <= row_get row idx ->
  (forall j, 1 <= j < idx -> row_get row j = 0) ->
  Decomp h row <-> Decomp h (row_trip row idx).
Proof.
  intros Hwf Hidx Hge Hlow.
  assert (Hlen : length row = 10%nat) by (destruct Hwf; auto).
  split; intros (t & s & Ht & Hs & Hr & Hh & Heq).
  - assert (Hs1 : s (idx - 1) = 0).
    { destruct (Z_lt_le_dec (idx - 1) 1); [apply Hr; lia|].
      pose proof (Heq (idx - 1) ltac:(lia)) as E.
      rewrite Hlow in E by lia.
      pose proof (Ht (idx - 1)); pose proof (Hs (idx - 1));
      pose proof (Hs (idx - 1 - 1)); pose proof (Hs (idx - 1 - 2)). lia. }
    assert (Hs2 : s (idx - 2) = 0).
    { destruct (Z_lt_le_dec (idx - 2) 1); [apply Hr; lia|].
      pose proof (Heq (idx - 2) ltac:(lia)) as E.
      rewrite Hlow in E by lia.
      pose proof (Ht (idx - 2)); pose proof (Hs (idx - 2));
      pose proof (Hs (idx - 2 - 1)); pose proof (Hs (idx - 2 - 2)). lia. }
    pose proof (Heq idx ltac:(lia)) as Eidx.
    pose proof (Ht idx) as Htidx. pose proof (Hs idx) as Hsidx.
    destruct (Z_lt_le_dec 0 (t idx)) as [Hpos|Hzero].
    + exists (fun j => t j - ind (j =? idx)), s.
      repeat split; auto.
      * intros j. cbv beta. specialize (Ht j).
        destruct (Z.eqb_spec j idx); subst; simpl; lia.
      * intros j Hj. rewrite row_trip_get by lia. rewrite (Heq j Hj).
        destruct (Z.eqb_spec j idx), (Z.eqb_spec j 0); simpl; lia.
    + assert (Hs3 : 3 <= s idx) by lia.
      assert (Hidx7 : idx <= 7).
      { destruct (Z_lt_le_dec 7 idx); [|lia].
        rewrite (Hr idx) in Hs3 by lia. lia. }
      assert (Hhf : h = false).
      { destruct h; [|reflexivity]. rewrite (Hh eq_refl idx) in Hs3. lia. }
      exists (fun j => t j + ind (j =? idx + 1) + ind (j =? idx + 2)),
             (fun j => s j - 3 * ind (j =? idx)).
      repeat split.
      * intros j. cbv beta. specialize (Ht j).
        destruct (Z.eqb_spec j (idx + 1)), (Z.eqb_spec j (idx + 2));
          simpl; lia.
      * intros j. cbv beta. specialize (Hs j).
        destruct (Z.eqb_spec j idx); subst; simpl; lia.
      * intros j Hj. cbv beta. rewrite (Hr j Hj).
        destruct (Z.eqb_spec j idx); simpl; lia.
      * intros Habs. congruence.
      * intros j Hj. cbv beta. rewrite row_trip_get by lia.
        rewrite (Heq j Hj).
        destruct (Z.eqb_spec j idx), (Z.eqb_spec j 0),
          (Z.eqb_spec j (idx + 1)), (Z.eqb_spec j (idx + 2)),
          (Z.eqb_spec (j - 1) idx), (Z.eqb_spec (j - 2) idx);
          simpl; lia.
  - exists (fun j => t j + ind (j =? idx)), s.
    repeat split; auto.
    + intros j. cbv beta. specialize (Ht j).
      destruct (Z.eqb_spec j idx); simpl; lia.
    + intros j Hj. cbv beta. pose proof (Heq j Hj) as E.
      rewrite row_trip_get in E by lia.
      destruct (Z.eqb_spec j idx), (Z.eqb_spec j 0); simpl in *; lia.
Qed.

(** With fewer than three tiles at the lowest rank, every decomposition
    uses a run that starts there. *)
Lemma Decomp_low_run (h : bool) (row : list Z) (idx : Z) :
  wf_row row -> 1 <= idx <= 9 -> 0 < row_get row idx < 3 ->
  (forall j, 1 <= j < idx -> row_get row j = 0) ->
  Decomp h row ->
  h = false /\ idx <= 7 /\ 0 < row_get row (idx + 1) /\
  0 < row_get row (idx + 2).
Proof.
  intros Hwf Hidx Hval Hlow (t & s & Ht & Hs & Hr & Hh & Heq).
  assert (Hs1 : s (idx - 1) = 0).
  { destruct (Z_lt_le_dec (idx - 1) 1); [apply Hr; lia|].
    pose proof (Heq (idx - 1) ltac:(lia)) as E.
    rewrite Hlow in E by lia.
    pose proof (Ht (idx - 1)); pose proof (Hs (idx - 1));
    pose proof (Hs (idx - 1 - 1)); pose proof (Hs (idx - 1 - 2)). lia. }
  assert (Hs2 : s (idx - 2) = 0).
  { destruct (Z_lt_le_dec (idx - 2) 1); [apply Hr; lia|].
    pose proof (Heq (idx - 2) ltac:(lia)) as E.
    rewrite Hlow in E by lia.
    pose proof (Ht (idx - 2)); pose proof (Hs (idx - 2));
    pose proof (Hs (idx - 2 - 1)); pose proof (Hs (idx - 2 - 2)). lia. }
  pose proof (Heq idx ltac:(lia)) as Eidx.
  pose proof (Ht idx) as Htidx. pose proof (Hs idx) as Hsidx.
  assert (Hs3 : 0 < s idx) by lia.
  assert (Hidx7 : idx <= 7).
  { destruct (Z_lt_le_dec 7 idx); [|lia].
    rewrite (Hr idx) in Hs3 by lia. lia. }
  assert (Hhf : h = false).
  { destruct h; [|reflexivity]. rewrite (Hh eq_refl idx) in Hs3. lia. }
  repeat split; auto.
  - pose proof (Heq (idx + 1) ltac:(lia)) as E.
    replace (idx + 1 - 1) with idx in E by lia.
    pose proof (Ht (idx + 1)); pose proof (Hs (idx + 1));
    pose proof (Hs (idx + 1 - 2)). lia.
  - pose proof (Heq (idx + 2) ltac:(lia)) as E.
    replace (idx + 2 - 2) with idx in E by lia.
    pose proof (Ht (idx + 2)); pose proof (Hs (idx + 2));
    pose proof (Hs (idx + 2 - 1)). lia.
Qed.

Lemma Decomp_run (row : list Z) (idx : Z) :
  wf_row row -> 1 <= idx <= 7 -> 0 < row_get row idx < 3 ->
  (forall j, 1 <= j < idx -> row_get row j = 0) ->
  Decomp false row <-> Decomp false (row_run row idx).
Proof.
  intros Hwf Hidx Hval Hlow.
  assert (Hlen : length row = 10%nat) by (destruct Hwf; auto).
  split; intros (t & s & Ht & Hs & Hr & Hh & Heq).
  - assert (Hs1 : s (idx - 1) = 0).
    { destruct (Z_lt_le_dec (idx - 1) 1); [apply Hr; lia|].
      pose proof (Heq (idx - 1) ltac:(lia)) as E.
      rewrite Hlow in E by lia.
      pose proof (Ht (idx - 1)); pose proof (Hs (idx - 1));
      pose proof (Hs (idx - 1 - 1)); pose proof (Hs (idx - 1 - 2)). lia. }
    assert (Hs2 : s (idx - 2) = 0).
    { destruct (Z_lt_le_dec (idx - 2) 1); [apply Hr; lia|].
      pose proof (Heq (idx - 2) ltac:(lia)) as E.
      rewrite Hlow in E by lia.
      pose proof (Ht (idx - 2)); pose proof (Hs (idx - 2));
      pose proof (Hs (idx - 2 - 1)); pose proof (Hs (idx - 2 - 2)). lia. }
    pose proof (Heq idx ltac:(lia)) as Eidx.
    pose proof (Ht idx) as Htidx. pose proof (Hs idx) as Hsidx.
    exists t, (fun j => s j - ind (j =? idx)).
    repeat split; auto.
    + intros j. cbv beta. specialize (Hs j).
      destruct (Z.eqb_spec j idx); subst; simpl; lia.
    + intros j Hj. cbv beta. rewrite (Hr j Hj).
      destruct (Z.eqb_spec j idx); simpl; lia.
    + intros Habs. congruence.
    + intros j Hj. cbv beta. rewrite row_run_get by lia.
      rewrite (Heq j Hj).
      destruct (Z.eqb_spec j idx), (Z.eqb_spec j 0),
        (Z.eqb_spec j (idx + 1)), (Z.eqb_spec j (idx + 2)),
        (Z.eqb_spec (j - 1) idx), (Z.eqb_spec (j - 2) idx);
        simpl; lia.
  - exists t, (fun j => s j + ind (j =? idx)).
    repeat split; auto.
    + intros j. cbv beta. specialize (Hs j).
      destruct (Z.eqb_spec j idx); simpl; lia.
    + intros j Hj. cbv beta. rewrite (Hr j Hj).
      destruct (Z.eqb_spec j idx); simpl; lia.
    + intros Habs. congruence.
    + intros j Hj. cbv beta. pose proof (Heq j Hj) as E.
      rewrite row_run_get in E by lia.
      destruct (Z.eqb_spec j idx), (Z.eqb_spec j 0),
        (Z.eqb_spec j (idx + 1)), (Z.eqb_spec j (idx + 2)),
        (Z.eqb_spec (j - 1) idx), (Z.eqb_spec (j - 2) idx);
        simpl in *; lia.
Qed.

Lemma Decomp_empty (h : bool) (row : list Z) :
  wf_row row -> row_get row 0 = 0 -> Decomp h row.
Proof.
  intros (Hlen & Hnn & Hsum) H0.
  exists (fun _ => 0), (fun _ => 0). repeat split; auto; try lia.
  intros j Hj. unfold_sums.
  pose proof (Hnn 1 ltac:(lia)); pose proof (Hnn 2 ltac:(lia));
  pose proof (Hnn 3 ltac:(lia)); pose proof (Hnn 4 ltac:(lia));
  pose proof (Hnn 5 ltac:(lia)); pose proof (Hnn 6 ltac:(lia));
  pose proof (Hnn 7 ltac:(lia)); pose proof (Hnn 8 ltac:(lia));
  pose proof (Hnn 9 ltac:(lia)).
  range_cases Hj; lia.
Qed.

(** The greedy search with enough fuel answers exactly whether the row
    decomposes. *)
Lemma can_group_as_3_fuel_correct (h : bool) (fuel : nat) :
  forall row, wf_row row -> (row_weight row < fuel)%nat ->
  can_group_as_3_fuel fuel row h = true <-> Decomp h row.
Proof.
  induction fuel as [|fuel IH]; intros row Hwf Hfuel; [lia|].
  cbn [can_group_as_3_fuel].
  destruct (Z.eqb_spec (row_get row 0) 0) as [H0|H0].
  { split; auto using Decomp_empty. }
  destruct (first_positive_spec row Hwf H0) as (Hidx & Hpos & Hlow).
  set (idx := first_positive row xrange_1_10) in *.
  destruct (Z.geb_spec (row_get row idx) 3) as [Hge|Hlt].
  - fold (row_trip row idx).
    rewrite IH.
    + symmetry. apply Decomp_trip; auto; lia.
    + apply wf_row_trip; auto; lia.
    + pose proof (row_weight_trip row idx Hwf Hidx ltac:(lia)). lia.
  - destruct (negb h && (idx <? 8) && (row_get row (idx + 1) >? 0)
              && (row_get row (idx + 2) >? 0)) eqn:Hc.
    + apply andb_prop in Hc as [Hc Hc3]. apply andb_prop in Hc as [Hc Hc2].
      apply andb_prop in Hc as [Hc0 Hc1].
      apply negb_true_iff in Hc0. subst h.
      apply Z.ltb_lt in Hc1. apply Z.gtb_lt in Hc2, Hc3.
      fold (row_run row idx).
      rewrite IH.
      * symmetry. apply Decomp_run; auto; lia.
      * apply wf_row_run; auto; lia.
      * pose proof (row_weight_run row idx Hwf ltac:(lia) Hpos Hc2 Hc3).
        lia.
    + split; [discriminate|]. intros HD.
      destruct (Decomp_low_run h row idx Hwf Hidx ltac:(lia) Hlow HD)
        as (-> & H7 & H1 & H2).
      simpl in Hc.
      destruct (Z.ltb_spec idx 8); [|lia].
      destruct (Z.gtb_spec (row_get row (idx + 1)) 0); [|lia].
      destruct (Z.gtb_spec (row_get row (idx + 2)) 0); [|lia].
      discriminate.
Qed.

Lemma _can_group_as_3_correct (h : bool) (row : list Z) :
  wf_row row -> _can_group_as_3 row h = true <-> Decomp h row.
Proof.
  intros Hwf. unfold _can_group_as_3.
  apply can_group_as_3_fuel_correct; auto.
Qed.

(** The result does not depend on the fuel once there is enough of it:
    the recursion of the source terminates with this answer. *)
Lemma can_group_as_3_fuel_enough (h : bool) (fuel : nat) (row : list Z) :
  wf_row row -> (row_weight row < fuel)%nat ->
  can_group_as_3_fuel fuel row h = _can_group_as_3 row h.
Proof.
  intros Hwf Hfuel.
  destruct (can_group_as_3_fuel fuel row h) eqn:E1,
           (_can_group_as_3 row h) eqn:E2; auto.
  - apply can_group_as_3_fuel_correct in E1; auto.
    apply _can_group_as_3_correct in E1; auto. congruence.
  - apply _can_group_as_3_correct in E2; auto.
    apply (can_group_as_3_fuel_correct h fuel) in E2; auto. congruence.
Qed.

(** ** Tiles and table cells *)

Lemma tile_eqb_eq (a b : Tile) : tile_eqb a b = true <-> a = b.
Proof.
  split; [|intros ->; apply Z.eqb_refl].
  unfold tile_eqb. intros H%Z.eqb_eq.
  assert (Hinv : forall t, Tile_ALL (tile_id t) = Some t)
    by (intros []; reflexivity).
  pose proof (Hinv a) as Ha. rewrite H, Hinv in Ha. congruence.
Qed.

Lemma tile_eqb_refl (a : Tile) : tile_eqb a a = true.
Proof. apply Z.eqb_refl. Qed.

Lemma cell_of_range (t : Tile) (k : nat) (j : Z) :
  cell_of t = Some (k, j) ->
  (k < 4)%nat /\ 1 <= j <= 9 /\ (k = 3%nat -> j <= 7).
Proof.
  destruct t; cbv; intros [= <- <-]; repeat split; try lia; discriminate.
Qed.

Lemma tile_at_cell_of (t : Tile) (k : nat) (j : Z) :
  cell_of t = Some (k, j) -> tile_at k j = Some t.
Proof. destruct t; cbv; intros [= <- <-]; reflexivity. Qed.

Lemma cell_of_inj (a b : Tile) (c : nat * Z) :
  cell_of a = Some c -> cell_of b = Some c -> a = b.
Proof.
  destruct c as [k j]. intros Ha%tile_at_cell_of Hb%tile_at_cell_of.
  congruence.
Qed.

Lemma cell_of_flower (t : Tile) :
  cell_of t = None <-> is_general_flower t = true.
Proof. destruct t; cbv; split; congruence. Qed.

Lemma in_cell_true (k : nat) (j : Z) (t : Tile) :
  in_cell k j t = true <-> cell_of t = Some (k, j).
Proof.
  unfold in_cell. destruct (cell_of t) as [[k' j']|]; [|split; discriminate].
  rewrite andb_true_iff, Nat.eqb_eq, Z.eqb_eq.
  split; [intros [-> ->]; reflexivity | intros [= -> ->]; auto].
Qed.

Lemma in_cell_cell (k k0 : nat) (j j0 : Z) (t : Tile) :
  cell_of t = Some (k0, j0) ->
  in_cell k j t = ((k =? k0)%nat && (j =? j0))%bool.
Proof. intros H. unfold in_cell. now rewrite H. Qed.

(** A tile exists in every cell of the numeric rows and in the first
    seven cells of the honor row. *)
Lemma tile_at_numeric (k : nat) (j : Z) :
  (k < 3)%nat -> 1 <= j <= 9 ->
  exists t, cell_of t = Some (k, j) /\ numeric t = true /\
            rank t = Some j /\
            forall t', cell_of t' = Some (k, j + 1) \/
                       cell_of t' = Some (k, j + 2) ->
                       suit t' = suit t.
Proof.
  intros Hk Hj.
  assert (Hk' : k = 0%nat \/ k = 1%nat \/ k = 2%nat) by lia.
  destruct Hk' as [->|[->| ->]]; range_cases Hj;
    match goal with
    | |- exists t, cell_of t = Some (?k, ?j) /\ _ =>
        let r := eval vm_compute in (tile_at k j) in
        match r with
        | Some ?t => exists t
        end
    end;
    (split; [reflexivity|split; [reflexivity|split; [reflexivity|]]]);
    intros t' [H|H]; destruct t'; cbv in H; try discriminate;
    reflexivity.
Qed.

Lemma cell_of_numeric (t : Tile) :
  numeric t = true ->
  exists k, (k < 3)%nat /\ cell_of t = Some (k, tile_id t mod 16) /\
            rank t = Some (tile_id t mod 16).
Proof.
  destruct t; cbv; intros H; try discriminate;
    [exists 0%nat|exists 0%nat|exists 0%nat|exists 0%nat|exists 0%nat
    |exists 0%nat|exists 0%nat|exists 0%nat|exists 0%nat
    |exists 1%nat|exists 1%nat|exists 1%nat|exists 1%nat|exists 1%nat
    |exists 1%nat|exists 1%nat|exists 1%nat|exists 1%nat
    |exists 2%nat|exists 2%nat|exists 2%nat|exists 2%nat|exists 2%nat
    |exists 2%nat|exists 2%nat|exists 2%nat|exists 2%nat];
    repeat split; lia.
Qed.

(** Within a numeric suit, the cell is given by suit and rank. *)
Lemma cell_of_same_suit (a b : Tile) (k : nat) (ja rb : Z) :
  numeric a = true -> cell_of a = Some (k, ja) ->
  suit b = suit a -> rank b = Some rb ->
  cell_of b = Some (k, rb).
Proof.
  intros Hn Ha Hs Hr.
  destruct a; try discriminate Hn;
    destruct b; try discriminate Hs; try discriminate Hr;
    cbv in Ha, Hr |- *; congruence.
Qed.

(** ** The hand table counts tiles per cell *)

Lemma cnt_nil k j : cnt [] k j = 0.
Proof. reflexivity. Qed.

Lemma cnt_cons x l k j : cnt (x :: l) k j = ind (in_cell k j x) + cnt l k j.
Proof.
  unfold cnt, ind. cbn [List.filter].
  destruct (in_cell k j x); cbn [length]; lia.
Qed.

Lemma cnt_app l1 l2 k j : cnt (l1 ++ l2) k j = cnt l1 k j + cnt l2 k j.
Proof.
  induction l1 as [|x l1 IH]; [reflexivity|].
  simpl app. rewrite !cnt_cons, IH. lia.
Qed.

Lemma cnt_nonneg l k j : 0 <= cnt l k j.
Proof. unfold cnt. lia. Qed.

Lemma cnt_Permutation l1 l2 k j :
  Permutation l1 l2 -> cnt l1 k j = cnt l2 k j.
Proof.
  intros HP. induction HP; rewrite ?cnt_cons in *; lia.
Qed.

Lemma cnt_non_flowers l k j : cnt (non_flowers l) k j = cnt l k j.
Proof.
  induction l as [|x l IH]; [reflexivity|].
  unfold non_flowers in *. simpl List.filter.
  destruct (is_general_flower x) eqn:Hf; simpl negb; cbv iota.
  - rewrite cnt_cons, IH.
    apply cell_of_flower in Hf. unfold in_cell. rewrite Hf. simpl. lia.
  - rewrite !cnt_cons, IH. reflexivity.
Qed.

Lemma table_step_cell (table : list (list Z)) (x : Tile) :
  table_step table x =
  match cell_of x with
  | Some (k, j) => table_count table k j
  | None => table
  end.
Proof.
  unfold table_step, cell_of.
  destruct (is_char x), (is_circle x), (is_bamboo x), (is_honor x);
    try reflexivity.
  destruct (honor_indices x); reflexivity.
Qed.

Lemma length_table_upd table k f :
  length (table_upd table k f) = length table.
Proof.
  revert k; induction table as [|r t IH]; intros [|k]; simpl; auto.
Qed.

Lemma nth_table_upd table k0 f k :
  (k0 < length table)%nat ->
  nth k (table_upd table k0 f) [] =
  if (k =? k0)%nat then f (nth k table []) else nth k table [].
Proof.
  revert k0 k; induction table as [|r t IH]; intros k0 k Hk0;
    simpl in Hk0; [lia|].
  destruct k0 as [|k0], k as [|k]; simpl; try reflexivity.
  apply IH. lia.
Qed.

Lemma wf_row_count (row : list Z) (j0 : Z) :
  wf_row row -> 1 <= j0 <= 9 ->
  wf_row (row_add (row_add row 0 1) j0 1) /\
  forall j, 1 <= j <= 9 ->
    row_get (row_add (row_add row 0 1) j0 1) j =
    row_get row j + ind (j =? j0).
Proof.
  intros (Hlen & Hnn & Hsum) Hj0.
  assert (Hget : forall j, 0 <= j <= 9 ->
            row_get (row_add (row_add row 0 1) j0 1) j =
            row_get row j + ind (j =? j0) + ind (j =? 0)).
  { intros j Hj. row_simpl.
    destruct (Z.eqb_spec j j0), (Z.eqb_spec j 0); simpl; lia. }
  split; [split; [|split]|].
  - now rewrite !length_row_add.
  - intros j Hj. rewrite Hget by lia. specialize (Hnn j Hj).
    destruct (Z.eqb_spec j j0), (Z.eqb_spec j 0); simpl; lia.
  - unfold_sums. rewrite !Hget by lia.
    range_cases Hj0; simpl; lia.
  - intros j Hj. rewrite Hget by lia.
    destruct (Z.eqb_spec j 0); simpl; lia.
Qed.

Lemma table_ok_empty : table_ok [] empty_table.
Proof.
  split; [reflexivity|]. intros k Hk.
  assert (Hk' : k = 0%nat \/ k = 1%nat \/ k = 2%nat \/ k = 3%nat) by lia.
  destruct Hk' as [->|[->|[->| ->]]];
    (split; [repeat split; intros j Hj; range_cases Hj; cbv; congruence
            |intros j Hj; range_cases Hj; reflexivity]).
Qed.

Lemma table_ok_step ts table x :
  table_ok ts table -> table_ok (ts ++ [x]) (table_step table x).
Proof.
  intros (Hlen & Hrows). rewrite table_step_cell.
  destruct (cell_of x) as [[k0 j0]|] eqn:Hc.
  - destruct (cell_of_range _ _ _ Hc) as (Hk0 & Hj0 & _).
    unfold table_count. split; [now rewrite length_table_upd|].
    intros k Hk. rewrite nth_table_upd by lia.
    destruct (Hrows k Hk) as (Hwf & Hcnt).
    destruct (Nat.eqb_spec k k0) as [->|Hne].
    + destruct (wf_row_count _ j0 Hwf Hj0) as (Hwf' & Hget).
      split; [assumption|]. intros j Hj.
      rewrite Hget, Hcnt, cnt_app, cnt_cons, cnt_nil by assumption.
      rewrite (in_cell_cell _ _ _ _ _ Hc), Nat.eqb_refl. simpl. lia.
    + split; [assumption|]. intros j Hj.
      rewrite Hcnt, cnt_app, cnt_cons, cnt_nil by assumption.
      rewrite (in_cell_cell _ _ _ _ _ Hc).
      destruct (Nat.eqb_spec k k0); [contradiction|]. simpl. lia.
  - split; [assumption|]. intros k Hk.
    destruct (Hrows k Hk) as (Hwf & Hcnt). split; [assumption|].
    intros j Hj. rewrite Hcnt, cnt_app, cnt_cons, cnt_nil by assumption.
    unfold in_cell. rewrite Hc. simpl. lia.
Qed.

Lemma table_ok_fold ts : forall done table,
  table_ok done table ->
  table_ok (done ++ ts) (fold_left table_step ts table).
Proof.
  induction ts as [|x ts IH]; intros done table Hok; simpl.
  - now rewrite app_nil_r.
  - replace (done ++ x :: ts) with ((done ++ [x]) ++ ts)
      by (rewrite <- app_assoc; reflexivity).
    apply IH, table_ok_step, Hok.
Qed.

Lemma table_spec (ts : list Tile) : table_ok ts (_construct_hand_table ts).
Proof. apply (table_ok_fold ts [] empty_table), table_ok_empty. Qed.

(** ** From a successful grouping to melds *)

Lemma wf_row_zero (row : list Z) :
  wf_row row -> row_get row 0 = 0 ->
  forall j, 1 <= j <= 9 -> row_get row j = 0.
Proof.
  intros (Hlen & Hnn & Hsum) H0 j Hj. unfold_sums.
  pose proof (Hnn 1 ltac:(lia)); pose proof (Hnn 2 ltac:(lia));
  pose proof (Hnn 3 ltac:(lia)); pose proof (Hnn 4 ltac:(lia));
  pose proof (Hnn 5 ltac:(lia)); pose proof (Hnn 6 ltac:(lia));
  pose proof (Hnn 7 ltac:(lia)); pose proof (Hnn 8 ltac:(lia));
  pose proof (Hnn 9 ltac:(lia)).
  range_cases Hj; lia.
Qed.

Lemma in_row_app k l1 l2 : in_row k l1 -> in_row k l2 -> in_row k (l1 ++ l2).
Proof.
  intros H1 H2 x Hx. apply in_app_or in Hx as [Hx|Hx]; auto.
Qed.

Lemma in_row_nil k : in_row k [].
Proof. intros x []. Qed.

Lemma run_of_cells (k : nat) (idx : Z) (a b c : Tile) :
  (k < 3)%nat -> 1 <= idx <= 7 ->
  cell_of a = Some (k, idx) -> cell_of b = Some (k, idx + 1) ->
  cell_of c = Some (k, idx + 2) ->
  is_run [a; b; c].
Proof.
  intros Hk Hidx Ha Hb Hc.
  destruct (tile_at_numeric k idx Hk ltac:(lia)) as (a' & Ha' & Hn & Hr & Hs).
  destruct (tile_at_numeric k (idx + 1) Hk ltac:(lia))
    as (b' & Hb' & _ & Hrb & _).
  destruct (tile_at_numeric k (idx + 2) Hk ltac:(lia))
    as (c' & Hc' & _ & Hrc & _).
  assert (a' = a) by eauto using cell_of_inj.
  assert (b' = b) by eauto using cell_of_inj.
  assert (c' = c) by eauto using cell_of_inj. subst.
  exists a, b, c, idx. repeat split; auto.
Qed.

Lemma can_group_as_3_melds (k : nat) (h : bool) (fuel : nat) :
  h = (k =? 3)%nat -> (k < 4)%nat ->
  forall row, wf_row row -> row_tiles_ok k row ->
  can_group_as_3_fuel fuel row h = true ->
  exists ms, Forall is_meld ms /\ in_row k (concat ms) /\
             forall j, 1 <= j <= 9 -> cnt (concat ms) k j = row_get row j.
Proof.
  intros Hh Hk.
  induction fuel as [|fuel IH]; intros row Hwf Hok Hrun; [discriminate|].
  assert (Hlen : length row = 10%nat) by (destruct Hwf; auto).
  cbn [can_group_as_3_fuel] in Hrun.
  destruct (Z.eqb_spec (row_get row 0) 0) as [H0|H0].
  { exists []. split; [constructor|]. split; [apply in_row_nil|].
    intros j Hj. simpl. now rewrite cnt_nil, wf_row_zero. }
  destruct (first_positive_spec row Hwf H0) as (Hidx & Hpos & Hlow).
  set (idx := first_positive row xrange_1_10) in *.
  destruct (Hok idx Hidx Hpos) as (x & Hx).
  destruct (Z.geb_spec (row_get row idx) 3) as [Hge|Hlt].
  - fold (row_trip row idx) in Hrun.
    destruct (IH (row_trip row idx)) as (ms & Hms & Hin & Hcnt); auto.
    + apply wf_row_trip; auto; lia.
    + intros j Hj Hp. apply Hok; auto.
      rewrite row_trip_get in Hp by lia.
      destruct (Z.eqb_spec j idx), (Z.eqb_spec j 0); simpl in Hp; lia.
    + exists ([x; x; x] :: ms). split; [|split].
      * constructor; auto. left. now exists x.
      * simpl concat. apply (in_row_app k [x; x; x]); auto.
        intros y Hy. exists idx. simpl in Hy.
        destruct Hy as [<-|[<-|[<-|[]]]]; auto.
      * intros j Hj. cbn [concat]. rewrite cnt_app, Hcnt by auto.
        rewrite !cnt_cons, cnt_nil, (in_cell_cell _ _ _ _ _ Hx).
        rewrite Nat.eqb_refl, row_trip_get by lia.
        destruct (Z.eqb_spec j idx), (Z.eqb_spec j 0); simpl; lia.
  - destruct (negb h && (idx <? 8) && (row_get row (idx + 1) >? 0)
              && (row_get row (idx + 2) >? 0)) eqn:Hc; [|discriminate].
    apply andb_prop in Hc as [Hc Hc3]. apply andb_prop in Hc as [Hc Hc2].
    apply andb_prop in Hc as [Hc0 Hc1].
    apply negb_true_iff in Hc0. rewrite Hh in Hc0.
    apply Nat.eqb_neq in Hc0.
    apply Z.ltb_lt in Hc1. apply Z.gtb_lt in Hc2, Hc3.
    fold (row_run row idx) in Hrun.
    destruct (Hok (idx + 1) ltac:(lia) Hc2) as (y & Hy).
    destruct (Hok (idx + 2) ltac:(lia) Hc3) as (z & Hz).
    destruct (IH (row_run row idx)) as (ms & Hms & Hin & Hcnt); auto.
    + apply wf_row_run; auto; lia.
    + intros j Hj Hp. apply Hok; auto.
      rewrite row_run_get in Hp by lia.
      destruct (Z.eqb_spec j idx), (Z.eqb_spec j (idx + 1)),
        (Z.eqb_spec j (idx + 2)), (Z.eqb_spec j 0); simpl in Hp; lia.
    + exists ([x; y; z] :: ms). split; [|split].
      * constructor; auto. right.
        apply (run_of_cells k idx); auto; lia.
      * simpl concat. apply (in_row_app k [x; y; z]); auto.
        intros w Hw. simpl in Hw.
        destruct Hw as [<-|[<-|[<-|[]]]]; eauto.
      * intros j Hj. cbn [concat]. rewrite cnt_app, Hcnt by auto.
        rewrite !cnt_cons, cnt_nil, (in_cell_cell _ _ _ _ _ Hx),
          (in_cell_cell _ _ _ _ _ Hy), (in_cell_cell _ _ _ _ _ Hz).
        rewrite Nat.eqb_refl, row_run_get by lia.
        destruct (Z.eqb_spec j idx), (Z.eqb_spec j (idx + 1)),
          (Z.eqb_spec j (idx + 2)), (Z.eqb_spec j 0); simpl; lia.
Qed.

Lemma existsb_xrange (f : Z -> bool) :
  existsb f xrange_1_10 = true <-> exists i, 1 <= i <= 9 /\ f i = true.
Proof.
  rewrite existsb_exists. split; intros (i & Hi & Hf); exists i; split; auto.
  - unfold xrange_1_10 in Hi. simpl in Hi.
    repeat (destruct Hi as [<-|Hi]; [lia|]). contradiction.
  - range_cases Hi; simpl; auto 10.
Qed.

Lemma pair_and_3_melds (k : nat) (h : bool) (row : list Z) :
  h = (k =? 3)%nat -> (k < 4)%nat ->
  wf_row row -> row_tiles_ok k row ->
  _can_group_as_pair_and_3 row h = true ->
  exists ms p, Forall is_meld ms /\ is_pair p /\
               in_row k (concat ms ++ p) /\
               forall j, 1 <= j <= 9 ->
                 cnt (concat ms ++ p) k j = row_get row j.
Proof.
  intros Hh Hk Hwf Hok Hrun.
  assert (Hlen : length row = 10%nat) by (destruct Hwf; auto).
  unfold _can_group_as_pair_and_3 in Hrun.
  apply existsb_xrange in Hrun as (i & Hi & Hrun).
  apply andb_prop in Hrun as [Hgt Hrun]. apply Z.gtb_lt in Hgt.
  fold (row_pair row i) in Hrun.
  destruct (Hok i Hi ltac:(lia)) as (x & Hx).
  unfold _can_group_as_3 in Hrun.
  destruct (can_group_as_3_melds k h (S (row_weight (row_pair row i)))
              Hh Hk (row_pair row i)) as (ms & Hms & Hin & Hcnt); auto.
  - apply wf_row_pair; auto; lia.
  - intros j Hj Hp. apply Hok; auto.
    rewrite row_pair_get in Hp by lia.
    destruct (Z.eqb_spec j i), (Z.eqb_spec j 0); simpl in Hp; lia.
  - exists ms, [x; x]. split; [auto|]. split; [now exists x|]. split.
    + apply in_row_app; auto. intros y Hy. simpl in Hy.
      destruct Hy as [<-|[<-|[]]]; eauto.
    + intros j Hj. rewrite cnt_app, Hcnt by auto.
      rewrite !cnt_cons, cnt_nil, (in_cell_cell _ _ _ _ _ Hx).
      rewrite Nat.eqb_refl, row_pair_get by lia.
      destruct (Z.eqb_spec j i), (Z.eqb_spec j 0); simpl; lia.
Qed.

(** ** From a partition into melds to a successful grouping *)

Lemma count_melds_cons f m ms :
  count_melds f (m :: ms) = ind (f m) + count_melds f ms.
Proof.
  unfold count_melds, ind. cbn [List.filter].
  destruct (f m); cbn [length]; lia.
Qed.

Lemma count_melds_nonneg f ms : 0 <= count_melds f ms.
Proof. unfold count_melds. lia. Qed.

Lemma count_melds_zero f ms :
  (forall m, f m = false) -> count_melds f ms = 0.
Proof.
  intros Hf. induction ms as [|m ms IH]; [reflexivity|].
  rewrite count_melds_cons, Hf, IH. reflexivity.
Qed.

Lemma run_at_range (k : nat) (j : Z) (m : list Tile) :
  run_at k j m = true -> (k < 3)%nat /\ 1 <= j <= 7.
Proof.
  destruct m as [|a [|b [|c [|? ?]]]]; try discriminate. cbn [run_at].
  rewrite !andb_true_iff. intros [[[Hk Ha] Hb] Hc].
  apply Nat.ltb_lt in Hk.
  apply in_cell_true, cell_of_range in Ha, Hc. lia.
Qed.

Lemma run_at_cells (k k0 : nat) (j ra : Z) (a b c : Tile) :
  (k0 < 3)%nat ->
  cell_of a = Some (k0, ra) -> cell_of b = Some (k0, ra + 1) ->
  cell_of c = Some (k0, ra + 2) ->
  run_at k j [a; b; c] = ((k =? k0)%nat && (j =? ra))%bool.
Proof.
  intros Hk0 Ha Hb Hc. cbn [run_at].
  rewrite (in_cell_cell _ _ _ _ _ Ha), (in_cell_cell _ _ _ _ _ Hb),
    (in_cell_cell _ _ _ _ _ Hc).
  destruct (Nat.eqb_spec k k0) as [->|Hne];
    [|now rewrite ?andb_false_r].
  destruct (Z.eqb_spec j ra) as [->|Hj].
  - rewrite !Z.eqb_refl. destruct (Nat.ltb_spec k0 3); [reflexivity|lia].
  - now rewrite ?andb_false_r.
Qed.

Lemma meld_cnt (m : list Tile) (k : nat) (j : Z) :
  is_meld m -> (forall x, In x m -> cell_of x <> None) ->
  cnt m k j =
  3 * ind (trip_at k j m) + ind (run_at k j m) + ind (run_at k (j - 1) m)
  + ind (run_at k (j - 2) m).
Proof.
  intros [(x & ->)|(a & b & c & ra & -> & Hn & Hsb & Hsc & Hra & Hrb & Hrc)]
    Hnf.
  - destruct (cell_of x) as [[k0 j0]|] eqn:Hx;
      [|exfalso; apply (Hnf x); simpl; auto].
    rewrite !cnt_cons, cnt_nil. cbn [trip_at run_at].
    rewrite !tile_eqb_refl, !(in_cell_cell _ _ _ _ _ Hx).
    destruct (Nat.eqb_spec k k0); [|simpl; rewrite ?andb_false_r; simpl; lia].
    rewrite ?andb_true_r, ?andb_true_l.
    destruct (Z.eqb_spec j j0), (Z.eqb_spec (j + 1) j0),
      (Z.eqb_spec (j + 2) j0), (Z.eqb_spec (j - 1) j0),
      (Z.eqb_spec (j - 1 + 1) j0), (Z.eqb_spec (j - 2) j0),
      (Z.eqb_spec (j - 2 + 1) j0);
      rewrite ?andb_false_r, ?andb_true_r; simpl; lia.
  - destruct (cell_of_numeric a Hn) as (k0 & Hk0 & Ha & Hra').
    assert (ra = tile_id a mod 16) by congruence. subst ra.
    pose proof (cell_of_same_suit a b k0 _ _ Hn Ha Hsb Hrb) as Hb.
    pose proof (cell_of_same_suit a c k0 _ _ Hn Ha Hsc Hrc) as Hc.
    set (ra := tile_id a mod 16) in *.
    rewrite !(run_at_cells _ k0 _ ra a b c) by assumption.
    assert (Hab : tile_eqb a b = false).
    { destruct (tile_eqb a b) eqn:E; [|reflexivity].
      apply tile_eqb_eq in E. subst b. rewrite Ha in Hb.
      injection Hb. lia. }
    cbn [trip_at]. rewrite Hab. cbn [andb].
    rewrite !cnt_cons, cnt_nil.
    rewrite (in_cell_cell _ _ _ _ _ Ha), (in_cell_cell _ _ _ _ _ Hb),
      (in_cell_cell _ _ _ _ _ Hc).
    destruct (Nat.eqb_spec k k0); [|simpl; lia].
    rewrite ?andb_true_l.
    destruct (Z.eqb_spec j ra), (Z.eqb_spec j (ra + 1)),
      (Z.eqb_spec j (ra + 2)), (Z.eqb_spec (j - 1) ra),
      (Z.eqb_spec (j - 2) ra); simpl; lia.
Qed.

Lemma melds_cnt (ms : list (list Tile)) (k : nat) (j : Z) :
  Forall is_meld ms -> (forall x, In x (concat ms) -> cell_of x <> None) ->
  cnt (concat ms) k j =
  3 * count_melds (trip_at k j) ms + count_melds (run_at k j) ms
  + count_melds (run_at k (j - 1)) ms + count_melds (run_at k (j - 2)) ms.
Proof.
  induction 1 as [|m ms Hm Hms IH]; intros Hnf.
  - reflexivity.
  - cbn [concat] in *. rewrite cnt_app, !count_melds_cons.
    rewrite IH by (intros x Hx; apply Hnf, in_or_app; auto).
    rewrite (meld_cnt m k j Hm)
      by (intros x Hx; apply Hnf, in_or_app; auto).
    lia.
Qed.

Lemma Decomp_of_melds (ms : list (list Tile)) (k : nat) (row : list Z) :
  Forall is_meld ms -> (forall x, In x (concat ms) -> cell_of x <> None) ->
  (forall j, 1 <= j <= 9 -> row_get row j = cnt (concat ms) k j) ->
  Decomp (k =? 3)%nat row.
Proof.
  intros Hms Hnf Hrow.
  exists (fun j => count_melds (trip_at k j) ms),
         (fun j => count_melds (run_at k j) ms).
  split; [intros; apply count_melds_nonneg|].
  split; [intros; apply count_melds_nonneg|].
  split; [|split].
  - intros j Hj. apply count_melds_zero. intros m.
    destruct (run_at k j m) eqn:E; [|reflexivity].
    apply run_at_range in E. lia.
  - intros Hk%Nat.eqb_eq j. apply count_melds_zero. intros m.
    destruct (run_at k j m) eqn:E; [|reflexivity].
    apply run_at_range in E. lia.
  - intros j Hj. rewrite Hrow by assumption. now apply melds_cnt.
Qed.

Lemma Decomp_total (h : bool) (row : list Z) :
  wf_row row -> Decomp h row -> row_get row 0 mod 3 = 0.
Proof.
  intros (Hlen & Hnn & Hsum) (t & s & Ht & Hs & Hr & Hh & Heq).
  unfold_sums.
  pose proof (Heq 1 ltac:(lia)) as E1; pose proof (Heq 2 ltac:(lia)) as E2;
  pose proof (Heq 3 ltac:(lia)) as E3; pose proof (Heq 4 ltac:(lia)) as E4;
  pose proof (Heq 5 ltac:(lia)) as E5; pose proof (Heq 6 ltac:(lia)) as E6;
  pose proof (Heq 7 ltac:(lia)) as E7; pose proof (Heq 8 ltac:(lia)) as E8;
  pose proof (Heq 9 ltac:(lia)) as E9.
  change (1 - 1) with 0 in *; change (1 - 2) with (-1) in *;
  change (2 - 1) with 1 in *; change (2 - 2) with 0 in *;
  change (3 - 1) with 2 in *; change (3 - 2) with 1 in *;
  change (4 - 1) with 3 in *; change (4 - 2) with 2 in *;
  change (5 - 1) with 4 in *; change (5 - 2) with 3 in *;
  change (6 - 1) with 5 in *; change (6 - 2) with 4 in *;
  change (7 - 1) with 6 in *; change (7 - 2) with 5 in *;
  change (8 - 1) with 7 in *; change (8 - 2) with 6 in *;
  change (9 - 1) with 8 in *; change (9 - 2) with 7 in *.
  pose proof (Hr 0 ltac:(lia)); pose proof (Hr (-1) ltac:(lia));
  pose proof (Hr 8 ltac:(lia)); pose proof (Hr 9 ltac:(lia)).
  replace (row_get row 0)
    with ((t 1 + t 2 + t 3 + t 4 + t 5 + t 6 + t 7 + t 8 + t 9
           + s 1 + s 2 + s 3 + s 4 + s 5 + s 6 + s 7) * 3) by lia.
  apply Z_mod_mult.
Qed.

(** ** [Hand.can_win] against partitions into melds and a pair *)

Lemma list_insert_at_Permutation {A : Type} (i : nat) (x : A) (a : list A) :
  Permutation (list_insert_at i x a) (x :: a).
Proof.
  unfold list_insert_at. symmetry.
  rewrite <- (firstn_skipn i a) at 1. apply Permutation_middle.
Qed.

Lemma insort_Permutation (a : list Tile) (x : Tile) :
  Permutation (insort a x) (x :: a).
Proof. apply list_insert_at_Permutation. Qed.

Lemma cnt_count_occ (l : list Tile) (x : Tile) (k : nat) (j : Z) :
  cell_of x = Some (k, j) ->
  cnt l k j = Z.of_nat (count_occ Tile_eq_dec l x).
Proof.
  intros Hx. induction l as [|y l IH]; [reflexivity|].
  rewrite cnt_cons, IH. cbn [count_occ].
  destruct (Tile_eq_dec y x) as [->|Hne].
  - rewrite (proj2 (in_cell_true k j x) Hx). simpl ind. lia.
  - destruct (in_cell k j y) eqn:E; [|simpl; lia].
    apply in_cell_true in E. exfalso. apply Hne.
    eapply cell_of_inj; eauto.
Qed.

(** Two lists without flowers that fill every cell alike are
    rearrangements of one another. *)
Lemma same_cnt_Permutation (l1 l2 : list Tile) :
  (forall x, In x l1 -> cell_of x <> None) ->
  (forall x, In x l2 -> cell_of x <> None) ->
  (forall k j, (k < 4)%nat -> 1 <= j <= 9 -> cnt l1 k j = cnt l2 k j) ->
  Permutation l1 l2.
Proof.
  intros H1 H2 Hc. apply (Permutation_count_occ Tile_eq_dec). intros x.
  destruct (cell_of x) as [[k j]|] eqn:Hx.
  - destruct (cell_of_range _ _ _ Hx) as (Hk & Hj & _).
    apply Nat2Z.inj. rewrite <- !(cnt_count_occ _ x k j Hx). auto.
  - rewrite !(proj1 (count_occ_not_In Tile_eq_dec _ x)); auto.
    + intros Hin. now apply (H2 x Hin).
    + intros Hin. now apply (H1 x Hin).
Qed.

Lemma cnt_in_row_other (k k' : nat) (j : Z) (l : list Tile) :
  in_row k' l -> k <> k' -> cnt l k j = 0.
Proof.
  intros Hin Hne. induction l as [|x l IH]; [reflexivity|].
  rewrite cnt_cons, IH by (intros y Hy; apply Hin; simpl; auto).
  destruct (Hin x ltac:(simpl; auto)) as (j' & Hx).
  rewrite (in_cell_cell _ _ _ _ _ Hx).
  destruct (Nat.eqb_spec k k'); [contradiction|]. reflexivity.
Qed.

Lemma cnt_pos_exists (l : list Tile) (k : nat) (j : Z) :
  0 < cnt l k j -> exists x, cell_of x = Some (k, j).
Proof.
  induction l as [|x l IH]; [rewrite cnt_nil; lia|].
  rewrite cnt_cons. destruct (in_cell k j x) eqn:E.
  - intros _. exists x. now apply in_cell_true.
  - simpl. auto.
Qed.

Lemma non_flowers_cell (ts : list Tile) (x : Tile) :
  In x (non_flowers ts) -> cell_of x <> None.
Proof.
  unfold non_flowers. rewrite filter_In. intros [_ H] Hc.
  apply cell_of_flower in Hc. rewrite Hc in H. discriminate.
Qed.

Lemma table_rows (table : list (list Z)) :
  length table = 4%nat ->
  exists r0 r1 r2 r3, table = [r0; r1; r2; r3].
Proof.
  destruct table as [|r0 [|r1 [|r2 [|r3 [|? ?]]]]]; try discriminate.
  intros _. now exists r0, r1, r2, r3.
Qed.

Lemma lt_4_cases (k : nat) :
  (k < 4)%nat -> k = 0%nat \/ k = 1%nat \/ k = 2%nat \/ k = 3%nat.
Proof. lia. Qed.

(** The counting loop accepts exactly the tables with one row of
    remainder two and three rows of remainder zero. *)
Lemma count_remainders_3_1 (table : list (list Z)) :
  length table = 4%nat ->
  count_remainders table = (3, 1) <->
  exists kp, (kp < 4)%nat /\
    forall k, (k < 4)%nat ->
      row_get (nth k table []) 0 mod 3 = if (k =? kp)%nat then 2 else 0.
Proof.
  intros Hlen. destruct (table_rows table Hlen) as (r0 & r1 & r2 & r3 & ->).
  unfold count_remainders. cbn [fold_left].
  destruct (Z.eqb_spec (row_get r0 0 mod 3) 0) as [E0|E0];
    [|destruct (Z.eqb_spec (row_get r0 0 mod 3) 2) as [E0'|E0']];
  (destruct (Z.eqb_spec (row_get r1 0 mod 3) 0) as [E1|E1];
    [|destruct (Z.eqb_spec (row_get r1 0 mod 3) 2) as [E1'|E1']]);
  (destruct (Z.eqb_spec (row_get r2 0 mod 3) 0) as [E2|E2];
    [|destruct (Z.eqb_spec (row_get r2 0 mod 3) 2) as [E2'|E2']]);
  (destruct (Z.eqb_spec (row_get r3 0 mod 3) 0) as [E3|E3];
    [|destruct (Z.eqb_spec (row_get r3 0 mod 3) 2) as [E3'|E3']]).
  all: cbv beta iota zeta.
  all: split;
   [ intros [= ]; try lia;
     first [exists 3%nat; split; [lia|]; intros k Hk; apply lt_4_cases in Hk;
            destruct Hk as [->|[->|[->| ->]]]; assumption
           |exists 2%nat; split; [lia|]; intros k Hk; apply lt_4_cases in Hk;
            destruct Hk as [->|[->|[->| ->]]]; assumption
           |exists 1%nat; split; [lia|]; intros k Hk; apply lt_4_cases in Hk;
            destruct Hk as [->|[->|[->| ->]]]; assumption
           |exists 0%nat; split; [lia|]; intros k Hk; apply lt_4_cases in Hk;
            destruct Hk as [->|[->|[->| ->]]]; assumption ]
   | intros (kp & Hkp & H);
     pose proof (H 0%nat ltac:(lia)) as H0;
     pose proof (H 1%nat ltac:(lia)) as H1;
     pose proof (H 2%nat ltac:(lia)) as H2;
     pose proof (H 3%nat ltac:(lia)) as H3;
     cbn [nth] in H0, H1, H2, H3; apply lt_4_cases in Hkp;
     destruct Hkp as [->|[->|[->| ->]]]; cbn [Nat.eqb] in H0, H1, H2, H3;
     first [reflexivity | lia] ].
Qed.


Lemma table_row_tiles_ok ts table k :
  table_ok ts table -> (k < 4)%nat -> row_tiles_ok k (nth k table []).
Proof.
  intros (_ & Hrows) Hk j Hj Hpos.
  destruct (Hrows k Hk) as (_ & Hcnt). rewrite Hcnt in Hpos by assumption.
  eauto using cnt_pos_exists.
Qed.

(** A row that passes its check yields the melds (and, in the row of
    remainder two, the pair) made of exactly its tiles. *)
Lemma check_row_melds ts table k :
  table_ok ts table -> (k < 4)%nat -> check_row table k = true ->
  exists ms p,
    Forall is_meld ms /\
    (if row_get (nth k table []) 0 mod 3 =? 0 then p = [] else is_pair p) /\
    in_row k (concat ms ++ p) /\
    forall j, 1 <= j <= 9 -> cnt (concat ms ++ p) k j = cnt ts k j.
Proof.
  intros Hok Hk Hrun. pose proof (table_row_tiles_ok _ _ _ Hok Hk) as Htiles.
  destruct Hok as (_ & Hrows). destruct (Hrows k Hk) as (Hwf & Hcnt).
  unfold check_row in Hrun.
  destruct (row_get (nth k table []) 0 mod 3 =? 0).
  - destruct (can_group_as_3_melds k _ _ eq_refl Hk _ Hwf Htiles Hrun)
      as (ms & Hms & Hin & Hc).
    exists ms, []. rewrite app_nil_r. repeat split; auto.
    intros j Hj. rewrite Hc, Hcnt; auto.
  - destruct (pair_and_3_melds k _ _ eq_refl Hk Hwf Htiles Hrun)
      as (ms & p & Hms & Hp & Hin & Hc).
    exists ms, p. repeat split; auto.
    intros j Hj. rewrite Hc, Hcnt; auto.
Qed.

Lemma in_row_cell k l x : in_row k l -> In x l -> cell_of x <> None.
Proof. intros H Hx. destruct (H x Hx) as (j & ->). discriminate. Qed.

Lemma table_wins_sound (ts : list Tile) :
  let table := _construct_hand_table ts in
  count_remainders table = (3, 1) ->
  forallb (check_row table) [0; 1; 2; 3]%nat = true ->
  exists n, melds_and_pair n (non_flowers ts).
Proof.
  intros table Hcount Hrows. pose proof (table_spec ts) as Hok.
  fold table in Hok.
  apply count_remainders_3_1 in Hcount; [|apply Hok].
  destruct Hcount as (kp & Hkp & Hmod).
  cbn [forallb] in Hrows. rewrite !andb_true_iff in Hrows.
  destruct Hrows as (R0 & R1 & R2 & R3 & _).
  destruct (check_row_melds ts table 0 Hok ltac:(lia) R0)
    as (ms0 & p0 & M0 & P0 & I0 & C0).
  destruct (check_row_melds ts table 1 Hok ltac:(lia) R1)
    as (ms1 & p1 & M1 & P1 & I1 & C1).
  destruct (check_row_melds ts table 2 Hok ltac:(lia) R2)
    as (ms2 & p2 & M2 & P2 & I2 & C2).
  destruct (check_row_melds ts table 3 Hok ltac:(lia) R3)
    as (ms3 & p3 & M3 & P3 & I3 & C3).
  rewrite (Hmod 0%nat) in P0 by lia. rewrite (Hmod 1%nat) in P1 by lia.
  rewrite (Hmod 2%nat) in P2 by lia. rewrite (Hmod 3%nat) in P3 by lia.
  exists (length (ms0 ++ ms1 ++ ms2 ++ ms3)),
         (ms0 ++ ms1 ++ ms2 ++ ms3), (p0 ++ p1 ++ p2 ++ p3).
  split; [reflexivity|]. split; [|split].
  - repeat (apply Forall_app; split); assumption.
  - apply lt_4_cases in Hkp.
    destruct Hkp as [->|[->|[->| ->]]]; cbn in P0, P1, P2, P3; subst;
      rewrite ?app_nil_r; simpl; assumption.
  - apply same_cnt_Permutation.
    + apply non_flowers_cell.
    + intros x Hx. rewrite !concat_app in Hx.
      repeat (apply in_app_or in Hx as [Hx|Hx]);
        first [ apply (in_row_cell _ _ x I0), in_or_app; auto; fail
              | apply (in_row_cell _ _ x I1), in_or_app; auto; fail
              | apply (in_row_cell _ _ x I2), in_or_app; auto; fail
              | apply (in_row_cell _ _ x I3), in_or_app; auto; fail ].
    + intros k j Hk Hj. rewrite cnt_non_flowers.
      rewrite !concat_app, !cnt_app.
      pose proof (cnt_app (concat ms0) p0 k j) as A0.
      pose proof (cnt_app (concat ms1) p1 k j) as A1.
      pose proof (cnt_app (concat ms2) p2 k j) as A2.
      pose proof (cnt_app (concat ms3) p3 k j) as A3.
      apply lt_4_cases in Hk. destruct Hk as [->|[->|[->| ->]]].
      * rewrite (C0 j Hj) in A0.
        rewrite (cnt_in_row_other 0 1 j _ I1) in A1 by lia.
        rewrite (cnt_in_row_other 0 2 j _ I2) in A2 by lia.
        rewrite (cnt_in_row_other 0 3 j _ I3) in A3 by lia. lia.
      * rewrite (C1 j Hj) in A1.
        rewrite (cnt_in_row_other 1 0 j _ I0) in A0 by lia.
        rewrite (cnt_in_row_other 1 2 j _ I2) in A2 by lia.
        rewrite (cnt_in_row_other 1 3 j _ I3) in A3 by lia. lia.
      * rewrite (C2 j Hj) in A2.
        rewrite (cnt_in_row_other 2 0 j _ I0) in A0 by lia.
        rewrite (cnt_in_row_other 2 1 j _ I1) in A1 by lia.
        rewrite (cnt_in_row_other 2 3 j _ I3) in A3 by lia. lia.
      * rewrite (C3 j Hj) in A3.
        rewrite (cnt_in_row_other 3 0 j _ I0) in A0 by lia.
        rewrite (cnt_in_row_other 3 1 j _ I1) in A1 by lia.
        rewrite (cnt_in_row_other 3 2 j _ I2) in A2 by lia. lia.
Qed.

Lemma row_complete ts table ms x kp jp k :
  table_ok ts table -> Forall is_meld ms ->
  (forall y, In y (concat ms) -> cell_of y <> None) ->
  cell_of x = Some (kp, jp) ->
  Permutation (non_flowers ts) (concat ms ++ [x; x]) -> (k < 4)%nat ->
  row_get (nth k table []) 0 mod 3 = (if (k =? kp)%nat then 2 else 0) /\
  check_row table k = true.
Proof.
  intros (_ & Hrows) Hms Hnf Hx HP Hk.
  destruct (Hrows k Hk) as (Hwf & Hcnt).
  destruct (cell_of_range _ _ _ Hx) as (Hkp & Hjp & _).
  assert (Hlen : length (nth k table []) = 10%nat) by (destruct Hwf; auto).
  assert (Hrow : forall j, 1 <= j <= 9 ->
            row_get (nth k table []) j =
            cnt (concat ms) k j + 2 * ind ((k =? kp)%nat && (j =? jp))).
  { intros j Hj. rewrite Hcnt, <- cnt_non_flowers by assumption.
    rewrite (cnt_Permutation _ _ k j HP), cnt_app, !cnt_cons, cnt_nil.
    rewrite (in_cell_cell _ _ _ _ _ Hx). lia. }
  unfold check_row. set (row := nth k table []) in *.
  destruct (Nat.eqb_spec k kp) as [->|Hne].
  - assert (Hge : 2 <= row_get row jp).
    { rewrite Hrow, Z.eqb_refl by assumption. simpl.
      pose proof (cnt_nonneg (concat ms) kp jp). lia. }
    pose proof (wf_row_pair row jp Hwf Hjp Hge) as Hwf'.
    assert (HD : Decomp (kp =? 3)%nat (row_pair row jp)).
    { apply (Decomp_of_melds ms); auto. intros j Hj.
      rewrite row_pair_get, Hrow by lia.
      destruct (Z.eqb_spec j jp), (Z.eqb_spec j 0); simpl; lia. }
    pose proof (Decomp_total _ _ Hwf' HD) as Hmod.
    rewrite row_pair_get in Hmod by lia.
    destruct (Z.eqb_spec 0 jp); [lia|]. simpl in Hmod.
    assert (Hmod2 : row_get row 0 mod 3 = 2)
      by (Z.to_euclidean_division_equations; lia).
    split; [assumption|]. rewrite Hmod2. simpl.
    unfold _can_group_as_pair_and_3. apply existsb_xrange.
    exists jp. split; [assumption|]. apply andb_true_intro. split.
    + apply Z.gtb_lt. lia.
    + fold (row_pair row jp). now apply _can_group_as_3_correct.
  - assert (HD : Decomp (k =? 3)%nat row).
    { apply (Decomp_of_melds ms); auto. intros j Hj. rewrite Hrow by lia.
      destruct (Nat.eqb_spec k kp); [contradiction|]. simpl. lia. }
    pose proof (Decomp_total _ _ Hwf HD) as Hmod.
    split; [assumption|]. rewrite Hmod. simpl.
    now apply _can_group_as_3_correct.
Qed.

Lemma table_wins_complete (ts : list Tile) (n : nat) :
  let table := _construct_hand_table ts in
  melds_and_pair n (non_flowers ts) ->
  count_remainders table = (3, 1) /\
  forallb (check_row table) [0; 1; 2; 3]%nat = true.
Proof.
  intros table (ms & p & Hlen & Hms & (x & ->) & HP).
  pose proof (table_spec ts) as Hok. fold table in Hok.
  assert (Hxin : In x (non_flowers ts)).
  { eapply Permutation_in; [symmetry; apply HP|].
    apply in_or_app. right. simpl. auto. }
  destruct (cell_of x) as [[kp jp]|] eqn:Hx;
    [|exfalso; now apply (non_flowers_cell ts x)].
  destruct (cell_of_range _ _ _ Hx) as (Hkp & _).
  assert (Hnf : forall y, In y (concat ms) -> cell_of y <> None).
  { intros y Hy. apply (non_flowers_cell ts).
    eapply Permutation_in; [symmetry; apply HP|]. apply in_or_app. auto. }
  split.
  - apply count_remainders_3_1; [apply Hok|].
    exists kp. split; [assumption|]. intros k Hk.
    now apply (row_complete ts table ms x kp jp k).
  - cbn [forallb].
    rewrite (proj2 (row_complete ts table ms x kp jp 0 Hok Hms Hnf Hx HP
                      ltac:(lia))),
      (proj2 (row_complete ts table ms x kp jp 1 Hok Hms Hnf Hx HP
                ltac:(lia))),
      (proj2 (row_complete ts table ms x kp jp 2 Hok Hms Hnf Hx HP
                ltac:(lia))),
      (proj2 (row_complete ts table ms x kp jp 3 Hok Hms Hnf Hx HP
                ltac:(lia))).
    reflexivity.
Qed.

Lemma melds_and_pair_Permutation n l1 l2 :
  Permutation l1 l2 -> melds_and_pair n l1 -> melds_and_pair n l2.
Proof.
  intros HP (ms & p & Hlen & Hms & Hp & H).
  exists ms, p. repeat split; auto.
  transitivity l1; [now symmetry | assumption].
Qed.

Lemma non_flowers_Permutation l1 l2 :
  Permutation l1 l2 -> Permutation (non_flowers l1) (non_flowers l2).
Proof.
  intros HP. unfold non_flowers.
  induction HP; simpl;
    repeat match goal with
    | |- context [negb (is_general_flower ?x)] =>
        destruct (negb (is_general_flower x))
    end; eauto using Permutation.
Qed.

Lemma meld_length (m : list Tile) : is_meld m -> length m = 3%nat.
Proof.
  intros [(x & ->)|(a & b & c & ra & -> & _)]; reflexivity.
Qed.

Lemma melds_concat_length (ms : list (list Tile)) :
  Forall is_meld ms -> length (concat ms) = (3 * length ms)%nat.
Proof.
  induction 1 as [|m ms Hm _ IH]; [reflexivity|].
  cbn [concat]. rewrite length_app, IH, (meld_length m Hm).
  cbn [length]. lia.
Qed.

Lemma melds_and_pair_length n ts :
  melds_and_pair n ts -> length ts = (3 * n + 2)%nat.
Proof.
  intros (ms & p & <- & Hms & (x & ->) & HP).
  rewrite (Permutation_length HP), length_app, melds_concat_length by auto.
  cbn [length]. lia.
Qed.

(** The tiles examined by [can_win]. *)
Lemma can_win_tiles (h : Hand) (t : Tile) :
  can_win h (Some t) = true <->
  exists n, melds_and_pair n (non_flowers (t :: free_tiles h)).
Proof.
  unfold can_win.
  pose proof (insort_Permutation (free_tiles h) t) as HP.
  set (ts := insort (free_tiles h) t) in *.
  destruct (count_remainders (_construct_hand_table ts))
    as [n3 n2] eqn:Hc.
  split.
  - intros H.
    destruct (Z.eqb_spec n3 3) as [->|]; [|discriminate].
    destruct (Z.eqb_spec n2 1) as [->|]; [|discriminate].
    simpl in H. destruct (table_wins_sound ts Hc H) as (n & Hn).
    exists n. eapply melds_and_pair_Permutation; [|exact Hn].
    now apply non_flowers_Permutation.
  - intros (n & Hn).
    assert (Hn' : melds_and_pair n (non_flowers ts)).
    { eapply melds_and_pair_Permutation; [|exact Hn].
      apply non_flowers_Permutation. now symmetry. }
    destruct (table_wins_complete ts n Hn') as (Hc' & Hrows).
    rewrite Hc in Hc'. injection Hc' as -> ->. simpl. exact Hrows.
Qed.

Lemma can_win_melds_count (h : Hand) (t : Tile) :
  let ts := non_flowers (t :: free_tiles h) in
  can_win h (Some t) = true <->
  melds_and_pair ((length ts - 2) / 3) ts.
Proof.
  intros ts. rewrite can_win_tiles. fold ts. split.
  - intros (n & Hn). pose proof (melds_and_pair_length n ts Hn) as Hl.
    replace ((length ts - 2) / 3)%nat with n; [assumption|].
    rewrite Hl. replace (3 * n + 2 - 2)%nat with (n * 3)%nat by lia.
    now rewrite Nat.div_mul.
  - intros Hn. eauto.
Qed.

(** With fourteen tiles and no flower among them the shape is the
    classical one: four melds and one pair. *)
Lemma can_win_four_melds (h : Hand) (t : Tile) :
  length (free_tiles h) = 13%nat ->
  forallb (fun x => negb (is_general_flower x)) (t :: free_tiles h) = true ->
  can_win h (Some t) = true <-> four_melds_and_pair (t :: free_tiles h).
Proof.
  intros Hlen Hnf.
  assert (Hts : non_flowers (t :: free_tiles h) = t :: free_tiles h).
  { unfold non_flowers. apply forallb_filter_id. exact Hnf. }
  pose proof (can_win_melds_count h t) as H. cbv zeta in H.
  rewrite Hts in H. cbn [length] in H. rewrite Hlen in H. exact H.
Qed.

(** C1, as stated, fails: a bare pair wins although two tiles cannot
    split into four melds and a pair. *)
Lemma can_win_bare_pair_counterexample :
  let h := Hand_init (Some [CHAR1]) in
  can_win h (Some CHAR1) = true /\
  ~ four_melds_and_pair (CHAR1 :: free_tiles h).
Proof.
  split; [reflexivity|]. intros H.
  apply melds_and_pair_length in H. discriminate H.
Qed.

(** C1 (amended). For every hand and candidate tile, [Hand.can_win]
    answers true exactly when the non-flower tiles among the free tiles
    and the candidate split into melds and one pair: [(N - 2) / 3] melds
    for [N] such tiles (four melds for fourteen tiles), each meld a
    triplet of one tile or a run of three consecutive ranks within one
    numeric suit. *)
Theorem can_win_iff_melds_and_pair (h : Hand) (t : Tile) :
  can_win h (Some t) = true <->
  melds_and_pair
    ((length (non_flowers (t :: free_tiles h)) - 2) / 3)
    (non_flowers (t :: free_tiles h)).
Proof. apply can_win_melds_count. Qed.

(** C9. A hand with no free tile and a flower (or season) as candidate
    or pending tile never wins. *)
Theorem can_win_lone_flower (h : Hand) (t : Tile) :
  free_tiles h = [] -> is_general_flower t = true ->
  can_win h (Some t) = false /\
  (last_tile h = Some t -> can_win h None = false).
Proof.
  intros Hft Hfl.
  assert (H : can_win h (Some t) = false).
  { unfold can_win. rewrite Hft.
    destruct t; try discriminate Hfl; reflexivity. }
  split; [exact H|]. intros Hlt.
  unfold can_win in *. now rewrite Hlt.
Qed.

Lemma can_win_lone_flower_witness :
  can_win (mkHand [] [] [] (Some PLUM)) (Some PLUM) = false /\
  can_win (mkHand [] [] [] (Some PLUM)) None = false.
Proof.
  destruct (can_win_lone_flower (mkHand [] [] [] (Some PLUM)) PLUM
              eq_refl eq_refl) as [H1 H2].
  split; [exact H1 | exact (H2 eq_refl)].
Defined.

(** ** Binary search on sorted tiles *)

Lemma bisect_left_loop_bs fuel a x lo hi :
  bisect_left_loop fuel a x lo hi =
  bs_loop (fun mid => tile_ltb (nth mid a x) x) fuel lo hi.
Proof.
  revert lo hi; induction fuel as [|fuel IH]; intros lo hi; simpl; auto.
  now rewrite !IH.
Qed.

Lemma bisect_right_loop_bs fuel a x lo hi :
  bisect_right_loop fuel a x lo hi =
  bs_loop (fun mid => negb (tile_ltb x (nth mid a x))) fuel lo hi.
Proof.
  revert lo hi; induction fuel as [|fuel IH]; intros lo hi; simpl; auto.
  rewrite !IH. now destruct (tile_ltb x _).
Qed.

Lemma mid_bounds (lo hi : nat) :
  (lo < hi)%nat -> (lo <= (lo + hi) / 2 < hi)%nat.
Proof.
  intros H. split.
  - apply Nat.div_le_lower_bound; lia.
  - apply Nat.Div0.div_lt_upper_bound; lia.
Qed.

(** The loop finds the point where a monotone predicate flips. *)
Lemma bs_loop_spec (P : nat -> bool) (n : nat) :
  (forall i j, (i <= j < n)%nat -> P j = true -> P i = true) ->
  forall fuel lo hi,
    (lo <= hi <= n)%nat -> (hi - lo <= fuel)%nat ->
    (forall i, (i < lo)%nat -> P i = true) ->
    (forall i, (hi <= i < n)%nat -> P i = false) ->
    let r := bs_loop P fuel lo hi in
    (lo <= r <= hi)%nat /\
    (forall i, (i < r)%nat -> P i = true) /\
    (forall i, (r <= i < n)%nat -> P i = false).
Proof.
  intros Hmono. induction fuel as [|fuel IH]; intros lo hi Hb Hf Hlo Hhi.
  - simpl. assert (lo = hi) by lia. subst. repeat split; auto; lia.
  - cbn [bs_loop]. destruct (Nat.ltb_spec lo hi) as [Hlt|Hge].
    + pose proof (mid_bounds lo hi Hlt) as Hmid.
      set (mid := ((lo + hi) / 2)%nat) in *.
      destruct (P mid) eqn:HP.
      * destruct (IH (mid + 1)%nat hi) as (H1 & H2 & H3); try lia; auto.
        { intros i Hi. apply (Hmono i mid); [lia | assumption]. }
        cbv zeta. repeat split; auto; lia.
      * destruct (IH lo mid) as (H1 & H2 & H3); try lia; auto.
        { intros i Hi. destruct (P i) eqn:E; [|reflexivity].
          rewrite (Hmono mid i) in HP; [discriminate | lia | assumption]. }
        cbv zeta. repeat split; auto; lia.
    + assert (lo = hi) by lia. subst. cbv zeta. repeat split; auto; lia.
Qed.

Lemma ss_app {A : Type} (R : A -> A -> Prop) (l1 l2 : list A) :
  StronglySorted R (l1 ++ l2) <->
  StronglySorted R l1 /\ StronglySorted R l2 /\
  (forall x y, In x l1 -> In y l2 -> R x y).
Proof.
  induction l1 as [|a l1 IH]; simpl.
  - split; [intros H; repeat split; [constructor | assumption | tauto]
           |tauto].
  - split.
    + intros H. apply StronglySorted_inv in H as [H1 H2].
      apply IH in H1 as (S1 & S2 & S3).
      rewrite List.Forall_forall in H2. repeat split; auto.
      * constructor; auto. apply List.Forall_forall. intros y Hy.
        apply H2, in_or_app. auto.
      * intros x y [<-|Hx] Hy; auto. apply H2, in_or_app. auto.
    + intros (S1 & S2 & S3). apply StronglySorted_inv in S1 as [S1 F1].
      constructor.
      * apply IH. repeat split; auto.
      * apply List.Forall_forall. intros y Hy. apply in_app_or in Hy as [Hy|Hy].
        -- rewrite List.Forall_forall in F1. auto.
        -- auto.
Qed.

Lemma sorted_nth (a : list Tile) (d : Tile) :
  sorted_tiles a ->
  forall i j, (i <= j < length a)%nat ->
    tile_id (nth i a d) <= tile_id (nth j a d).
Proof.
  induction 1 as [|x l Hs IH Hx]; intros i j Hij; simpl in Hij; [lia|].
  destruct i as [|i], j as [|j]; simpl; try lia.
  - rewrite List.Forall_forall in Hx. apply Hx, nth_In. lia.
  - apply IH. lia.
Qed.

Lemma Forall_firstn_nth {A : Type} (P : A -> Prop) (l : list A) (d : A)
    (r : nat) :
  (r <= length l)%nat ->
  (forall i, (i < r)%nat -> P (nth i l d)) -> Forall P (firstn r l).
Proof.
  revert r; induction l as [|x l IH]; intros r Hr H.
  - rewrite firstn_nil. constructor.
  - destruct r as [|r]; [constructor|]. simpl. constructor.
    + apply (H 0%nat). lia.
    + apply IH; [simpl in Hr; lia|]. intros i Hi. apply (H (S i)). lia.
Qed.

Lemma Forall_skipn_nth {A : Type} (P : A -> Prop) (l : list A) (d : A)
    (r : nat) :
  (forall i, (r <= i < length l)%nat -> P (nth i l d)) ->
  Forall P (skipn r l).
Proof.
  revert r; induction l as [|x l IH]; intros r H.
  - rewrite skipn_nil. constructor.
  - destruct r as [|r]; simpl.
    + constructor.
      * apply (H 0%nat). simpl. lia.
      * apply (IH 0%nat). intros i Hi. apply (H (S i)). simpl. lia.
    + apply IH. intros i Hi. apply (H (S i)). simpl. lia.
Qed.

(** [bisect_left] splits a sorted list into the tiles below [x] and the
    tiles from [x] on. *)
Lemma bisect_left_split (a : list Tile) (x : Tile) :
  sorted_tiles a ->
  let r := bisect_left a x in
  (r <= length a)%nat /\
  Forall (fun y => tile_id y < tile_id x) (firstn r a) /\
  Forall (fun y => tile_id x <= tile_id y) (skipn r a).
Proof.
  intros Hs. unfold bisect_left. rewrite bisect_left_loop_bs.
  destruct (bs_loop_spec (fun mid => tile_ltb (nth mid a x) x) (length a))
    with (fuel := length a) (lo := 0%nat) (hi := length a)
    as (H1 & H2 & H3); try lia.
  - intros i j Hij. unfold tile_ltb, tile_cmp. rewrite !Z.ltb_lt.
    pose proof (sorted_nth a x Hs i j Hij). lia.
  - cbv zeta. split; [lia|]. split.
    + apply (Forall_firstn_nth _ _ x); [lia|]. intros i Hi.
      specialize (H2 i Hi). unfold tile_ltb, tile_cmp in H2.
      apply Z.ltb_lt in H2. lia.
    + apply (Forall_skipn_nth _ _ x). intros i Hi.
      specialize (H3 i Hi). unfold tile_ltb, tile_cmp in H3.
      apply Z.ltb_ge in H3. lia.
Qed.

Lemma bisect_right_split (a : list Tile) (x : Tile) :
  sorted_tiles a ->
  let r := bisect_right a x in
  (r <= length a)%nat /\
  Forall (fun y => tile_id y <= tile_id x) (firstn r a) /\
  Forall (fun y => tile_id x < tile_id y) (skipn r a).
Proof.
  intros Hs. unfold bisect_right. rewrite bisect_right_loop_bs.
  destruct (bs_loop_spec (fun mid => negb (tile_ltb x (nth mid a x)))
              (length a))
    with (fuel := length a) (lo := 0%nat) (hi := length a)
    as (H1 & H2 & H3); try lia.
  - intros i j Hij. unfold tile_ltb, tile_cmp.
    rewrite !negb_true_iff, !Z.ltb_ge.
    pose proof (sorted_nth a x Hs i j Hij). lia.
  - cbv zeta. split; [lia|]. split.
    + apply (Forall_firstn_nth _ _ x); [lia|]. intros i Hi.
      specialize (H2 i Hi). unfold tile_ltb, tile_cmp in H2.
      apply negb_true_iff, Z.ltb_ge in H2. lia.
    + apply (Forall_skipn_nth _ _ x). intros i Hi.
      specialize (H3 i Hi). unfold tile_ltb, tile_cmp in H3.
      apply negb_false_iff, Z.ltb_lt in H3. lia.
Qed.

Lemma sorted_firstn_skipn (a : list Tile) (r : nat) :
  sorted_tiles a -> sorted_tiles (firstn r a) /\ sorted_tiles (skipn r a).
Proof.
  intros Hs. unfold sorted_tiles in *.
  rewrite <- (firstn_skipn r a) in Hs. apply ss_app in Hs. tauto.
Qed.

(** [insort] keeps a sorted list sorted. *)
Lemma insort_sorted (a : list Tile) (x : Tile) :
  sorted_tiles a -> sorted_tiles (insort a x).
Proof.
  intros Hs. destruct (bisect_right_split a x Hs) as (Hr & Hpre & Hsuf).
  destruct (sorted_firstn_skipn a (bisect_right a x) Hs) as (S1 & S2).
  unfold insort, list_insert_at, sorted_tiles. apply ss_app.
  rewrite List.Forall_forall in Hpre, Hsuf.
  split; [assumption|]. split.
  - constructor; [assumption|]. apply List.Forall_forall. intros y Hy.
    specialize (Hsuf y Hy). unfold tile_le. lia.
  - intros y z Hy [<-|Hz].
    + apply Hpre, Hy.
    + specialize (Hpre y Hy). specialize (Hsuf z Hz). unfold tile_le. lia.
Qed.

Lemma py_sorted_acc (l acc : list Tile) :
  sorted_tiles acc ->
  sorted_tiles (fold_left insort l acc) /\
  Permutation (fold_left insort l acc) (acc ++ l).
Proof.
  revert acc; induction l as [|x l IH]; intros acc Hs; simpl.
  - rewrite app_nil_r. auto.
  - destruct (IH (insort acc x) (insort_sorted acc x Hs)) as (S & P).
    split; [assumption|]. rewrite P, insort_Permutation.
    apply Permutation_middle.
Qed.

Lemma py_sorted_sorted (l : list Tile) : sorted_tiles (py_sorted l).
Proof. apply py_sorted_acc. constructor. Qed.

Lemma py_sorted_Permutation (l : list Tile) : Permutation (py_sorted l) l.
Proof. apply (py_sorted_acc l []). constructor. Qed.

(** ** [utils.index] and the queries built on it *)

Lemma tile_eqb_neq (a b : Tile) : tile_eqb a b = false <-> a <> b.
Proof.
  rewrite <- tile_eqb_eq. destruct (tile_eqb a b); split; congruence.
Qed.

Lemma tile_id_inj (a b : Tile) : tile_id a = tile_id b -> a = b.
Proof. intros H. apply tile_eqb_eq, Z.eqb_eq, H. Qed.

(** The view of a sorted list from the position found by [index]. *)
Lemma index_view (a : list Tile) (x : Tile) :
  sorted_tiles a ->
  exists pre suf,
    a = pre ++ suf /\ length pre = bisect_left a x /\
    Forall (fun y => tile_id y < tile_id x) pre /\
    Forall (fun y => tile_id x <= tile_id y) suf /\
    sorted_tiles pre /\ sorted_tiles suf /\
    index a x =
    match suf with
    | y :: _ => if tile_eqb y x then Z.of_nat (length pre) else -1
    | [] => -1
    end.
Proof.
  intros Hs. destruct (bisect_left_split a x Hs) as (Hr & Hpre & Hsuf).
  destruct (sorted_firstn_skipn a (bisect_left a x) Hs) as (S1 & S2).
  set (r := bisect_left a x) in *.
  exists (firstn r a), (skipn r a).
  assert (Hlen : length (firstn r a) = r) by (apply firstn_length_le; lia).
  split; [symmetry; apply firstn_skipn|].
  do 5 (split; [assumption|]).
  unfold index. fold r. rewrite Hlen.
  destruct (Nat.eqb_spec r (length a)) as [E|E]; simpl.
  - rewrite skipn_all2 by lia. reflexivity.
  - rewrite <- (firstn_skipn r a) at 1.
    rewrite app_nth2 by lia. rewrite Hlen, Nat.sub_diag.
    destruct (skipn r a) as [|y suf] eqn:Hsk.
    + exfalso. apply (f_equal (@length Tile)) in Hsk.
      rewrite length_skipn in Hsk. simpl in Hsk. lia.
    + reflexivity.
Qed.

Lemma list_count_cons t x l :
  list_count t (x :: l) = ind (tile_eqb x t) + list_count t l.
Proof.
  unfold list_count, ind. cbn [List.filter].
  destruct (tile_eqb x t); cbn [length]; lia.
Qed.

Lemma list_count_app t l1 l2 :
  list_count t (l1 ++ l2) = list_count t l1 + list_count t l2.
Proof.
  induction l1 as [|x l1 IH]; [reflexivity|].
  simpl app. rewrite !list_count_cons, IH. lia.
Qed.

Lemma list_count_nonneg t l : 0 <= list_count t l.
Proof. unfold list_count. lia. Qed.

Lemma list_count_zero t l : ~ In t l -> list_count t l = 0.
Proof.
  induction l as [|x l IH]; intros H; [reflexivity|].
  rewrite list_count_cons, IH by (intros ?; apply H; simpl; auto).
  destruct (tile_eqb x t) eqn:E; [|reflexivity].
  apply tile_eqb_eq in E. exfalso. apply H. simpl. auto.
Qed.

Lemma list_count_pos t l : 0 < list_count t l <-> In t l.
Proof.
  split.
  - intros H. destruct (in_dec Tile_eq_dec t l) as [|Hn]; [assumption|].
    rewrite list_count_zero in H by assumption. lia.
  - induction l as [|x l IH]; [intros []|]. intros [->|H].
    + rewrite list_count_cons, tile_eqb_refl.
      pose proof (list_count_nonneg t l). simpl. lia.
    + rewrite list_count_cons. specialize (IH H).
      destruct (tile_eqb x t); simpl; lia.
Qed.

Lemma tile_in_In t l : tile_in t l = true <-> In t l.
Proof.
  unfold tile_in. rewrite existsb_exists. split.
  - intros (x & Hx & E). apply tile_eqb_eq in E. now subst.
  - intros H. exists t. split; [assumption | apply tile_eqb_refl].
Qed.

Lemma Forall_lt_not_In (x : Tile) (l : list Tile) :
  Forall (fun y => tile_id y < tile_id x) l -> ~ In x l.
Proof.
  rewrite List.Forall_forall. intros H Hin. specialize (H x Hin). lia.
Qed.

(** On a sorted list whose tiles are at least [x], the run of [x] at
    the front holds every copy of [x]. *)
Lemma count_run_sorted (x : Tile) (l : list Tile) :
  sorted_tiles l -> Forall (fun y => tile_id x <= tile_id y) l ->
  count_run l x = list_count x l.
Proof.
  induction 1 as [|y l Hs IH Hy]; intros Hge; [reflexivity|].
  cbn [count_run]. rewrite list_count_cons.
  apply Forall_cons_iff in Hge as [Hxy Hge].
  destruct (tile_eqb y x) eqn:E.
  - rewrite IH by assumption. reflexivity.
  - rewrite list_count_zero; [reflexivity|].
    intros Hin. rewrite List.Forall_forall in Hy. specialize (Hy x Hin).
    apply tile_eqb_neq in E. unfold tile_le in Hy.
    assert (tile_id y = tile_id x) by lia. auto using tile_id_inj.
Qed.

Lemma index_neg_or_pos (a : list Tile) (x : Tile) :
  index a x = -1 \/ 0 <= index a x.
Proof.
  unfold index. destruct (_ && _); lia.
Qed.

Lemma index_In (a : list Tile) (x : Tile) :
  sorted_tiles a -> (index a x >=? 0) = tile_in x a.
Proof.
  intros Hs.
  destruct (index_view a x Hs)
    as (pre & suf & -> & Hlen & Hpre & Hsuf & S1 & S2 & Hidx).
  rewrite Hidx. apply eq_true_iff_eq. rewrite tile_in_In, in_app_iff.
  destruct suf as [|y suf].
  - simpl. split; [discriminate|]. intros [H|[]].
    now apply Forall_lt_not_In in H.
  - destruct (tile_eqb y x) eqn:E.
    + apply tile_eqb_eq in E. subst y. split; [simpl; auto|].
      intros _. apply Z.geb_le. lia.
    + split; [discriminate|]. intros H. exfalso.
      assert (Hc : 0 < list_count x (pre ++ y :: suf))
        by (apply list_count_pos, in_app_iff; exact H).
      rewrite list_count_app, (list_count_zero x pre) in Hc
        by now apply Forall_lt_not_In.
      rewrite <- count_run_sorted in Hc by assumption.
      cbn [count_run] in Hc. rewrite E in Hc. lia.
Qed.

Lemma del_at_app {A : Type} (pre : list A) (x : A) (suf : list A) :
  del_at (length pre) (pre ++ x :: suf) = pre ++ suf.
Proof.
  unfold del_at. rewrite firstn_app, firstn_all, Nat.sub_diag. simpl.
  rewrite app_nil_r.
  change (x :: suf) with ([x] ++ suf). rewrite app_assoc.
  rewrite skipn_app.
  replace (S (length pre)) with (length (pre ++ [x]))
    by (rewrite length_app; simpl; lia).
  rewrite skipn_all, Nat.sub_diag. reflexivity.
Qed.

(** Deleting the tile found by [index]: the list stays sorted and loses
    exactly one copy of the tile. *)
Lemma index_del (a : list Tile) (x : Tile) :
  sorted_tiles a -> 0 <= index a x ->
  sorted_tiles (del_at (Z.to_nat (index a x)) a) /\
  Permutation a (x :: del_at (Z.to_nat (index a x)) a).
Proof.
  intros Hs Hge.
  destruct (index_view a x Hs)
    as (pre & suf & -> & Hlen & Hpre & Hsuf & S1 & S2 & Hidx).
  destruct suf as [|y suf]; [lia|].
  destruct (tile_eqb y x) eqn:E; [|lia].
  apply tile_eqb_eq in E. subst y.
  rewrite Hidx, Nat2Z.id, del_at_app. split.
  - unfold sorted_tiles in *. apply ss_app in Hs as (_ & _ & H3).
    apply ss_app. apply StronglySorted_inv in S2 as [S2 _].
    repeat split; auto. intros u v Hu Hv. apply H3; simpl; auto.
  - symmetry. apply Permutation_middle.
Qed.

Lemma nth_app_length {A : Type} (pre suf : list A) (k : nat) (d : A) :
  nth (length pre + k) (pre ++ suf) d = nth k suf d.
Proof.
  rewrite app_nth2 by lia. f_equal. lia.
Qed.

(** ** Hand operations keep the free tiles sorted *)

Lemma Hand_init_sorted ts : sorted_tiles (free_tiles (Hand_init ts)).
Proof. apply py_sorted_sorted. Qed.

Lemma add_free_tile_sorted h t :
  sorted_tiles (free_tiles h) -> sorted_tiles (free_tiles (add_free_tile h t)).
Proof. intros H. now apply insort_sorted. Qed.

Lemma add_free_tiles_sorted ts : forall h,
  sorted_tiles (free_tiles h) ->
  sorted_tiles (free_tiles (add_free_tiles h ts)).
Proof.
  unfold add_free_tiles. induction ts as [|t ts IH]; intros h H; simpl.
  - assumption.
  - apply IH. now apply add_free_tile_sorted.
Qed.

Lemma remove_free_tile_sorted h t :
  sorted_tiles (free_tiles h) ->
  sorted_tiles (free_tiles (snd (remove_free_tile h t))).
Proof.
  intros H. unfold remove_free_tile.
  destruct (Z.ltb_spec (index (free_tiles h) t) 0); simpl; [assumption|].
  now apply index_del.
Qed.

Lemma move_last_tile_sorted h :
  sorted_tiles (free_tiles h) ->
  sorted_tiles (free_tiles (snd (move_last_tile h))).
Proof.
  intros H. unfold move_last_tile. destruct (last_tile h); simpl; auto.
  now apply insort_sorted.
Qed.

Lemma sorted_filter (f : Tile -> bool) (l : list Tile) :
  sorted_tiles l -> sorted_tiles (List.filter f l).
Proof.
  induction 1 as [|x l Hs IH Hx]; simpl; [constructor|].
  destruct (f x); [|assumption]. constructor; [assumption|].
  rewrite List.Forall_forall in *. intros y Hy.
  apply filter_In in Hy as [Hy _]. auto.
Qed.

Lemma move_flowers_fold_free (l : list Tile) : forall h,
  free_tiles
    (fold_left (fun acc t => if is_general_flower t then add_flower acc t
                             else acc) l h) = free_tiles h.
Proof.
  induction l as [|t l IH]; intros h; simpl; [reflexivity|].
  rewrite IH. now destruct (is_general_flower t).
Qed.

Lemma move_flowers_free h :
  free_tiles (move_flowers h) =
  List.filter (fun x => negb (is_general_flower x)) (free_tiles h).
Proof.
  unfold move_flowers. cbn [set_free_tiles last_tile].
  rewrite move_flowers_fold_free.
  destruct (last_tile _) as [t|]; [|reflexivity].
  destruct (is_general_flower t); reflexivity.
Qed.

Lemma move_flowers_sorted h :
  sorted_tiles (free_tiles h) -> sorted_tiles (free_tiles (move_flowers h)).
Proof. intros H. rewrite move_flowers_free. now apply sorted_filter. Qed.

Lemma Hand_discard_sorted h t :
  sorted_tiles (free_tiles h) ->
  sorted_tiles (free_tiles (snd (Hand_discard h t))).
Proof.
  intros H. unfold Hand_discard.
  destruct (opt_tile_eqb _ _); [assumption|].
  destruct (match t with Some t0 => Some t0 | None => last_tile h end)
    as [t'|]; [|assumption].
  pose proof (remove_free_tile_sorted h t' H) as H1.
  destruct (remove_free_tile h t') as [[u|e] h1]; simpl in *.
  - now apply move_last_tile_sorted.
  - assumption.
Qed.

Lemma meld_remove_sorted (l : list Tile) : forall ft,
  sorted_tiles ft -> sorted_tiles (snd (meld_remove ft l)).
Proof.
  induction l as [|t l IH]; intros ft H; simpl; [assumption|].
  destruct (Z.ltb_spec (index ft t) 0); simpl; [assumption|].
  apply IH. now apply index_del.
Qed.

Lemma _meld_sorted h fts t gt :
  sorted_tiles (free_tiles h) ->
  sorted_tiles (free_tiles (snd (_meld h fts t gt))).
Proof.
  intros H. unfold _meld.
  pose proof (meld_remove_sorted fts _ H) as H1.
  destruct (meld_remove (free_tiles h) fts) as [[u|e] ft']; simpl in *.
  - destruct (TileGroup_init _ gt); assumption.
  - assumption.
Qed.

Lemma kong_from_self_sorted h :
  sorted_tiles (free_tiles h) ->
  sorted_tiles (free_tiles (snd (kong_from_self h))).
Proof.
  intros H. unfold kong_from_self.
  destruct (last_tile h) as [lt|]; [|assumption].
  destruct (_find_pong_group h lt); [assumption|].
  pose proof (_meld_sorted h [lt; lt; lt] lt KONG_CONCEALED H) as H1.
  destruct (_meld h [lt; lt; lt] lt KONG_CONCEALED) as [[g|e] h1];
    assumption.
Qed.

(** *** Queries *)

Lemma Hand_contains_spec h t lt ft fg fl :
  sorted_tiles (free_tiles h) ->
  Hand_contains h t lt ft fg fl =
  (lt && opt_tile_eqb (last_tile h) (Some t))
  || (ft && tile_in t (free_tiles h))
  || (fg && existsb (fun g => tile_in t (tiles g)) (fixed_groups h))
  || (fl && tile_in t (flowers h)).
Proof.
  intros H. unfold Hand_contains. rewrite index_In by assumption.
  destruct (lt && _); [reflexivity|].
  destruct (ft && _); [reflexivity|].
  destruct (fg && _); [reflexivity|].
  destruct (fl && _); reflexivity.
Qed.

Lemma fold_count_groups t (gs : list TileGroup) : forall c,
  fold_left (fun c g => c + list_count t (tiles g)) gs c =
  c + fold_right (fun g acc => list_count t (tiles g) + acc) 0 gs.
Proof.
  induction gs as [|g gs IH]; intros c; simpl; [lia|].
  rewrite IH. lia.
Qed.

Lemma index_count_run (a : list Tile) (x : Tile) :
  sorted_tiles a ->
  (if index a x >=? 0 then count_run (skipn (Z.to_nat (index a x)) a) x
   else 0) = list_count x a.
Proof.
  intros Hs.
  destruct (index_view a x Hs)
    as (pre & suf & -> & Hlen & Hpre & Hsuf & S1 & S2 & Hidx).
  rewrite list_count_app, (list_count_zero x pre)
    by now apply Forall_lt_not_In.
  rewrite <- (count_run_sorted x suf) by assumption.
  rewrite Hidx. destruct suf as [|y suf]; [reflexivity|].
  cbn [count_run]. destruct (tile_eqb y x) eqn:E; [|reflexivity].
  destruct (Z.geb_spec (Z.of_nat (length pre)) 0); [|lia].
  rewrite Nat2Z.id, skipn_app, skipn_all, Nat.sub_diag. simpl.
  now rewrite E.
Qed.

Lemma Hand_count_spec h t lt ft fg :
  sorted_tiles (free_tiles h) ->
  Hand_count h t lt ft fg =
  ind (lt && opt_tile_eqb (last_tile h) (Some t))
  + (if ft then list_count t (free_tiles h) else 0)
  + (if fg
     then fold_right (fun g acc => list_count t (tiles g) + acc) 0
                     (fixed_groups h)
     else 0).
Proof.
  intros H. unfold Hand_count.
  pose proof (index_count_run (free_tiles h) t H) as Hc.
  set (c0 := if lt && _ then 1 else 0).
  assert (Hc1 : (if ft
                 then if index (free_tiles h) t >=? 0
                      then c0 + count_run (skipn (Z.to_nat (index (free_tiles h) t))
                                                 (free_tiles h)) t
                      else c0
                 else c0)
                = c0 + (if ft then list_count t (free_tiles h) else 0)).
  { destruct ft; [|lia]. rewrite <- Hc.
    destruct (index (free_tiles h) t >=? 0); lia. }
  rewrite Hc1. unfold ind. fold c0.
  destruct fg; [rewrite fold_count_groups|]; lia.
Qed.

Lemma can_pong_spec h t :
  sorted_tiles (free_tiles h) ->
  can_pong h t = true <-> 2 <= list_count t (free_tiles h).
Proof.
  intros Hs. unfold can_pong.
  destruct (index_view (free_tiles h) t Hs)
    as (pre & suf & Ha & Hlen & Hpre & Hsuf & S1 & S2 & Hidx).
  rewrite Hidx, Ha, list_count_app, (list_count_zero t pre)
    by now apply Forall_lt_not_In.
  rewrite <- (count_run_sorted t suf) by assumption.
  destruct suf as [|y suf]; [simpl; split; [discriminate|lia]|].
  cbn [count_run]. destruct (tile_eqb y t) eqn:E;
    [|simpl; split; [discriminate|lia]].
  rewrite length_app. cbn [length].
  replace (Z.to_nat (Z.of_nat (length pre) + 1))
    with (length pre + 1)%nat by lia.
  rewrite nth_app_length. cbn [nth].
  apply StronglySorted_inv in S2 as [S2 _].
  apply Forall_cons_iff in Hsuf as [_ Hsuf].
  destruct suf as [|z suf].
  - cbn [count_run length]. rewrite !andb_true_iff, Z.ltb_lt. lia.
  - cbn [count_run length nth].
    pose proof (count_run_sorted t suf) as Hn.
    assert (0 <= count_run suf t).
    { apply StronglySorted_inv in S2 as [S2 _].
      apply Forall_cons_iff in Hsuf as [_ Hsuf].
      rewrite Hn by assumption. apply list_count_nonneg. }
    rewrite !andb_true_iff, Z.ltb_lt, Z.geb_le.
    destruct (tile_eqb z t); split; try lia; intros; try tauto;
      repeat split; try lia.
Qed.

Lemma can_kong_spec h t :
  sorted_tiles (free_tiles h) ->
  can_kong h t = true <-> 3 <= list_count t (free_tiles h).
Proof.
  intros Hs. unfold can_kong.
  destruct (index_view (free_tiles h) t Hs)
    as (pre & suf & Ha & Hlen & Hpre & Hsuf & S1 & S2 & Hidx).
  rewrite Hidx, Ha, list_count_app, (list_count_zero t pre)
    by now apply Forall_lt_not_In.
  rewrite <- (count_run_sorted t suf) by assumption.
  destruct suf as [|y suf]; [simpl; split; [discriminate|lia]|].
  cbn [count_run]. destruct (tile_eqb y t) eqn:E;
    [|simpl; split; [discriminate|lia]].
  rewrite length_app. cbn [length].
  replace (Z.to_nat (Z.of_nat (length pre) + 1))
    with (length pre + 1)%nat by lia.
  replace (Z.to_nat (Z.of_nat (length pre) + 2))
    with (length pre + 2)%nat by lia.
  rewrite !nth_app_length. cbn [nth].
  apply StronglySorted_inv in S2 as [S2 _].
  apply Forall_cons_iff in Hsuf as [_ Hsuf].
  destruct suf as [|z suf].
  - cbn [count_run length]. rewrite !andb_true_iff, Z.ltb_lt. lia.
  - cbn [count_run length nth].
    apply StronglySorted_inv in S2 as [S2 _].
    apply Forall_cons_iff in Hsuf as [_ Hsuf].
    destruct suf as [|w suf].
    + cbn [count_run length]. rewrite !andb_true_iff, Z.ltb_lt.
      destruct (tile_eqb z t); lia.
    + cbn [count_run length nth].
      assert (0 <= count_run suf t).
      { apply StronglySorted_inv in S2 as [S2 _].
        apply Forall_cons_iff in Hsuf as [_ Hsuf].
        rewrite (count_run_sorted t suf) by assumption.
        apply list_count_nonneg. }
      rewrite !andb_true_iff, Z.ltb_lt, Z.geb_le.
      destruct (tile_eqb z t), (tile_eqb w t); split; try lia;
        intros; try tauto; repeat split; try lia.
Qed.

(** *** Chow combinations *)

Lemma run_char (a b c : Tile) :
  is_run [a; b; c] <->
  exists k j, (k < 3)%nat /\ cell_of a = Some (k, j) /\
              cell_of b = Some (k, j + 1) /\ cell_of c = Some (k, j + 2).
Proof.
  split.
  - intros (a' & b' & c' & ra & [= <- <- <-] & Hn & Hsb & Hsc & Hra & Hrb
            & Hrc).
    destruct (cell_of_numeric a Hn) as (k & Hk & Ha & Hra').
    assert (ra = tile_id a mod 16) by congruence. subst ra.
    exists k, (tile_id a mod 16). repeat split; auto.
    + eapply cell_of_same_suit; eauto.
    + eapply cell_of_same_suit; eauto.
  - intros (k & j & Hk & Ha & Hb & Hc).
    apply (run_of_cells k j); auto.
    apply cell_of_range in Ha, Hc. lia.
Qed.

Lemma numeric_cell (t : Tile) :
  numeric t = false -> forall k j, cell_of t = Some (k, j) -> k = 3%nat.
Proof. destruct t; cbv; intros H k j [= <- <-]; congruence. Qed.

Lemma numeric_not_honor_flower (t : Tile) :
  is_honor t || is_general_flower t = negb (numeric t).
Proof. destruct t; reflexivity. Qed.

(** The neighbours of a numeric tile in [Tile.ALL]. *)
Lemma ALL_get_shift (t : Tile) (k : nat) (n d : Z) :
  numeric t = true -> cell_of t = Some (k, n) ->
  d = -2 \/ d = -1 \/ d = 1 \/ d = 2 -> 1 <= n + d <= 9 ->
  exists t', ALL_get (tile_id t + d) = Ret t' /\
             cell_of t' = Some (k, n + d).
Proof.
  intros Hn Hc Hd Hr.
  destruct t; try discriminate Hn; cbv in Hc; injection Hc as <- <-;
    destruct Hd as [->|[->|[->| ->]]]; try lia;
    eexists; split; reflexivity.
Qed.

Lemma chow_comb_eval (ft : list Tile) (t : Tile) (k : nat) (n d1 d2 : Z)
    (combs : list (Tile * Tile)) :
  sorted_tiles ft -> numeric t = true -> cell_of t = Some (k, n) ->
  d1 = -2 \/ d1 = -1 \/ d1 = 1 \/ d1 = 2 ->
  d2 = -2 \/ d2 = -1 \/ d2 = 1 \/ d2 = 2 ->
  1 <= n + d1 <= 9 -> 1 <= n + d2 <= 9 ->
  exists t1 t2,
    cell_of t1 = Some (k, n + d1) /\ cell_of t2 = Some (k, n + d2) /\
    chow_comb ft (tile_id t + d1) (tile_id t + d2) combs =
    Ret (if tile_in t1 ft && tile_in t2 ft then combs ++ [(t1, t2)]
         else combs).
Proof.
  intros Hs Hn Hc Hd1 Hd2 Hr1 Hr2.
  destruct (ALL_get_shift t k n d1 Hn Hc Hd1 Hr1) as (t1 & E1 & C1).
  destruct (ALL_get_shift t k n d2 Hn Hc Hd2 Hr2) as (t2 & E2 & C2).
  exists t1, t2. repeat split; auto.
  unfold chow_comb. rewrite E1, E2. simpl.
  now rewrite !index_In.
Qed.

Lemma chow_shape_cells (t a b : Tile) (k : nat) (n : Z) :
  cell_of t = Some (k, n) ->
  chow_shape t a b <->
  (k < 3)%nat /\
  (cell_of a = Some (k, n - 2) /\ cell_of b = Some (k, n - 1) \/
   cell_of a = Some (k, n - 1) /\ cell_of b = Some (k, n + 1) \/
   cell_of a = Some (k, n + 1) /\ cell_of b = Some (k, n + 2)).
Proof.
  intros Ht. unfold chow_shape. rewrite !run_char. split.
  - intros [(k' & j & Hk & Ha & Hb & Hc)|[(k' & j & Hk & Ha & Hb & Hc)
           |(k' & j & Hk & Ha & Hb & Hc)]];
      rewrite Ht in *;
      match goal with H : Some _ = Some _ |- _ => injection H as -> -> end;
      (split; [assumption|]).
    + left. split; [rewrite Ha|rewrite Hb]; do 2 f_equal; lia.
    + right; left. split; [rewrite Ha|rewrite Hc]; do 2 f_equal; lia.
    + right; right. split; [rewrite Hb|rewrite Hc]; do 2 f_equal; lia.
  - intros (Hk & [[Ha Hb]|[[Ha Hb]|[Ha Hb]]]).
    + left. exists k, (n - 2). repeat split; auto.
      * rewrite Hb. do 2 f_equal. lia.
      * rewrite Ht. do 2 f_equal. lia.
    + right; left. exists k, (n - 1). repeat split; auto.
      * rewrite Ht. do 2 f_equal. lia.
      * rewrite Hb. do 2 f_equal. lia.
    + right; right. exists k, n. repeat split; auto.
Qed.

Lemma in_cond_snoc {A : Type} (c : bool) (p q : A) (l : list A) :
  In p (if c then l ++ [q] else l) <-> In p l \/ (c = true /\ p = q).
Proof.
  destruct c; [rewrite in_app_iff; simpl|]; intuition congruence.
Qed.

Lemma comb_member (ft : list Tile) (t1 t2 a b : Tile) (c1 c2 : nat * Z) :
  cell_of t1 = Some c1 -> cell_of t2 = Some c2 ->
  (tile_in t1 ft && tile_in t2 ft = true /\ (a, b) = (t1, t2)) <->
  In a ft /\ In b ft /\ cell_of a = Some c1 /\ cell_of b = Some c2.
Proof.
  intros C1 C2. rewrite andb_true_iff, !tile_in_In. split.
  - intros [[I1 I2] [= -> ->]]. auto.
  - intros (Ia & Ib & Ca & Cb).
    assert (a = t1) by (eapply cell_of_inj; eauto).
    assert (b = t2) by (eapply cell_of_inj; eauto). subst. auto.
Qed.

Lemma get_chow_combs_spec (h : Hand) (t : Tile) :
  sorted_tiles (free_tiles h) ->
  exists combs,
    get_chow_combs h t = Ret combs /\
    forall a b, In (a, b) combs <->
                In a (free_tiles h) /\ In b (free_tiles h) /\
                chow_shape t a b.
Proof.
  intros Hs. unfold get_chow_combs.
  rewrite numeric_not_honor_flower.
  destruct (numeric t) eqn:Hn; cbn [negb].
  2:{ exists []. split; [reflexivity|]. intros a b. split; [intros []|].
      intros (_ & _ & Hsh).
      destruct (cell_of t) as [[k n]|] eqn:Hc.
      - pose proof (proj1 (chow_shape_cells t a b k n Hc) Hsh) as [Hlt _].
        pose proof (numeric_cell t Hn k n Hc). lia.
      - unfold chow_shape in Hsh. rewrite !run_char in Hsh.
        destruct Hsh as [(k & j & _ & _ & _ & H)|[(k & j & _ & _ & H & _)
                        |(k & j & _ & H & _)]]; congruence. }
  destruct (cell_of_numeric t Hn) as (k & Hk & Hc & _).
  set (n := tile_id t mod 16) in *.
  destruct (cell_of_range _ _ _ Hc) as (_ & Hrange & _).
  change (tile_id t - 2) with (tile_id t + (-2)).
  change (tile_id t - 1) with (tile_id t + (-1)).
  set (ft := free_tiles h) in *.
  assert (H1 : exists combs1,
            (if n >? 2 then chow_comb ft (tile_id t + -2) (tile_id t + -1) []
             else Ret []) = Ret combs1 /\
            forall a b, In (a, b) combs1 <->
              In a ft /\ In b ft /\
              cell_of a = Some (k, n + -2) /\ cell_of b = Some (k, n + -1)).
  { destruct (Z.gtb_spec n 2) as [Hgt|Hle].
    - destruct (chow_comb_eval ft t k n (-2) (-1) [] Hs Hn Hc)
        as (t1 & t2 & C1 & C2 & E); try lia; auto.
      rewrite E. eexists. split; [reflexivity|]. intros a b.
      rewrite in_cond_snoc, (comb_member ft t1 t2 a b _ _ C1 C2).
      simpl. tauto.
    - eexists. split; [reflexivity|]. intros a b. split; [intros []|].
      intros (_ & _ & Ca & _). apply cell_of_range in Ca. lia. }
  destruct H1 as (combs1 & -> & M1). cbn [ebind].
  assert (H2 : exists combs2,
            (if (n >? 1) && (n <? 9)
             then chow_comb ft (tile_id t + -1) (tile_id t + 1) combs1
             else Ret combs1) = Ret combs2 /\
            forall a b, In (a, b) combs2 <->
              In (a, b) combs1 \/
              In a ft /\ In b ft /\
              cell_of a = Some (k, n + -1) /\ cell_of b = Some (k, n + 1)).
  { destruct (Z.gtb_spec n 1) as [Hgt|Hle];
      [destruct (Z.ltb_spec n 9) as [Hlt|Hge]|]; cbn [andb].
    - destruct (chow_comb_eval ft t k n (-1) 1 combs1 Hs Hn Hc)
        as (t1 & t2 & C1 & C2 & E); try lia; auto.
      rewrite E. eexists. split; [reflexivity|]. intros a b.
      rewrite in_cond_snoc, (comb_member ft t1 t2 a b _ _ C1 C2).
      tauto.
    - eexists. split; [reflexivity|]. intros a b.
      split; [auto|]. intros [?|(_ & _ & _ & Cb)]; auto.
      apply cell_of_range in Cb. lia.
    - eexists. split; [reflexivity|]. intros a b.
      split; [auto|]. intros [?|(_ & _ & Ca & _)]; auto.
      apply cell_of_range in Ca. lia. }
  destruct H2 as (combs2 & -> & M2). cbn [ebind].
  assert (H3 : exists combs3,
            (if n <? 8
             then chow_comb ft (tile_id t + 1) (tile_id t + 2) combs2
             else Ret combs2) = Ret combs3 /\
            forall a b, In (a, b) combs3 <->
              In (a, b) combs2 \/
              In a ft /\ In b ft /\
              cell_of a = Some (k, n + 1) /\ cell_of b = Some (k, n + 2)).
  { destruct (Z.ltb_spec n 8) as [Hlt|Hge].
    - destruct (chow_comb_eval ft t k n 1 2 combs2 Hs Hn Hc)
        as (t1 & t2 & C1 & C2 & E); try lia; auto.
      rewrite E. eexists. split; [reflexivity|]. intros a b.
      rewrite in_cond_snoc, (comb_member ft t1 t2 a b _ _ C1 C2).
      tauto.
    - eexists. split; [reflexivity|]. intros a b.
      split; [auto|]. intros [?|(_ & _ & _ & Cb)]; auto.
      apply cell_of_range in Cb. lia. }
  destruct H3 as (combs3 & -> & M3). cbn [ebind].
  exists combs3. split; [reflexivity|]. intros a b.
  rewrite M3, M2, M1, (chow_shape_cells t a b k n Hc).
  change (n - 2) with (n + -2). change (n - 1) with (n + -1). tauto.
Qed.

(** ** Waiting tiles *)

Lemma catalog_complete (t : Tile) : In t catalog.
Proof. destruct t; simpl; auto 50. Qed.

Lemma catalog_NoDup : List.NoDup catalog.
Proof.
  apply (List.NoDup_count_occ' Tile_eq_dec). intros t _.
  destruct t; reflexivity.
Qed.

Lemma sorted_NoDup_strict (l : list Tile) :
  sorted_tiles l -> List.NoDup l ->
  StronglySorted (fun a b => tile_id a < tile_id b) l.
Proof.
  induction 1 as [|x l Hs IH Hx]; intros Hnd; constructor.
  - apply IH. now inversion Hnd.
  - rewrite List.Forall_forall in *. intros y Hy.
    specialize (Hx y Hy). unfold tile_le in Hx.
    assert (tile_id x <> tile_id y).
    { intros E. apply tile_id_inj in E. subst. now inversion Hnd. }
    lia.
Qed.

Section WaitingTiles.

(** The enumeration order of [Tile.ALL.itervalues()]: some arrangement
    of the catalogue. *)
Variable all_values : list Tile.
Hypothesis all_values_catalog : Permutation all_values catalog.

Variable h : Hand.

Lemma waiting_tiles_fold (l : list Tile) : forall acc,
  sorted_tiles acc ->
  let w := fold_left (fun acc tile => if can_win h (Some tile)
                                      then insort acc tile else acc) l acc in
  sorted_tiles w /\
  Permutation w (acc ++ List.filter (fun t => can_win h (Some t)) l).
Proof.
  induction l as [|x l IH]; intros acc Hs; simpl.
  - rewrite app_nil_r. auto.
  - destruct (can_win h (Some x)).
    + destruct (IH (insort acc x) (insort_sorted acc x Hs)) as (S & P).
      split; [assumption|]. rewrite P, insort_Permutation.
      apply Permutation_middle.
    + apply IH, Hs.
Qed.

(** C5. [Hand.waiting_tiles] returns a sub-list of the 42-tile
    catalogue, sorted in the tile order, without repetition, that holds
    exactly the tiles with which the hand can win. *)
Theorem waiting_tiles_spec :
  let w := Hand_waiting_tiles all_values h in
  (forall t, In t w -> In t catalog) /\
  sorted_tiles w /\ List.NoDup w /\
  StronglySorted (fun a b => tile_id a < tile_id b) w /\
  (forall t, In t w <-> can_win h (Some t) = true).
Proof.
  intros w.
  destruct (waiting_tiles_fold all_values [] ltac:(constructor))
    as (Hs & HP).
  fold (Hand_waiting_tiles all_values h) in Hs, HP. fold w in Hs, HP.
  simpl in HP.
  assert (Hnd : List.NoDup w).
  { eapply Permutation.Permutation_NoDup; [symmetry; exact HP|].
    apply List.NoDup_filter.
    eapply Permutation.Permutation_NoDup; [symmetry; exact all_values_catalog|].
    apply catalog_NoDup. }
  split; [intros t _; apply catalog_complete|].
  split; [assumption|]. split; [assumption|].
  split; [now apply sorted_NoDup_strict|].
  intros t. split.
  - intros Hin. eapply Permutation_in in Hin; [|exact HP].
    now apply filter_In in Hin.
  - intros Hw. eapply Permutation_in; [symmetry; exact HP|].
    apply filter_In. split; [|assumption].
    eapply Permutation_in; [symmetry; exact all_values_catalog|].
    apply catalog_complete.
Qed.

End WaitingTiles.

Lemma waiting_tiles_spec_witness :
  let h := Hand_init (Some [CHAR1; CHAR1; CHAR1; CHAR9; CHAR9;
                            BAMBOO1; BAMBOO1; WHITE; WHITE; WHITE;
                            WEST; WEST; WEST]) in
  let w := Hand_waiting_tiles (rev catalog) h in
  (forall t, In t w -> In t catalog) /\
  sorted_tiles w /\ List.NoDup w /\
  StronglySorted (fun a b => tile_id a < tile_id b) w /\
  (forall t, In t w <-> can_win h (Some t) = true).
Proof.
  intros h.
  apply (waiting_tiles_spec (rev catalog)).
  symmetry. apply Permutation_rev.
Defined.

(** ** The sortedness invariant of the free tiles *)

(** C10. The free tiles are sorted after construction; every hand
    operation keeps them sorted (also when it raises part-way); and on
    sorted free tiles the binary-search queries agree with plain
    membership and counting in the multiset of free tiles. *)
Theorem free_tiles_sorted_invariant (h : Hand) :
  sorted_tiles (free_tiles h) ->
  (forall ts, sorted_tiles (free_tiles (Hand_init ts))) /\
  (forall t, sorted_tiles (free_tiles (add_free_tile h t))) /\
  (forall ts, sorted_tiles (free_tiles (add_free_tiles h ts))) /\
  (forall t, sorted_tiles (free_tiles (snd (remove_free_tile h t)))) /\
  sorted_tiles (free_tiles (snd (move_last_tile h))) /\
  sorted_tiles (free_tiles (move_flowers h)) /\
  (forall t, sorted_tiles (free_tiles (snd (Hand_discard h t)))) /\
  (forall fts t, sorted_tiles (free_tiles (snd (Hand_chow h fts t)))) /\
  (forall t, sorted_tiles (free_tiles (snd (Hand_pong h t)))) /\
  (forall t, sorted_tiles (free_tiles (snd (kong_from_other h t)))) /\
  sorted_tiles (free_tiles (snd (kong_from_self h))) /\
  (forall t lt ft fg fl,
     Hand_contains h t lt ft fg fl =
     (lt && opt_tile_eqb (last_tile h) (Some t))
     || (ft && tile_in t (free_tiles h))
     || (fg && existsb (fun g => tile_in t (tiles g)) (fixed_groups h))
     || (fl && tile_in t (flowers h))) /\
  (forall t lt ft fg,
     Hand_count h t lt ft fg =
     ind (lt && opt_tile_eqb (last_tile h) (Some t))
     + (if ft then list_count t (free_tiles h) else 0)
     + (if fg
        then fold_right (fun g acc => list_count t (tiles g) + acc) 0
                        (fixed_groups h)
        else 0)) /\
  (forall t, can_pong h t = true <-> 2 <= list_count t (free_tiles h)) /\
  (forall t, can_kong h t = true <-> 3 <= list_count t (free_tiles h)) /\
  (forall t, exists combs,
     get_chow_combs h t = Ret combs /\
     forall a b, In (a, b) combs <->
                 In a (free_tiles h) /\ In b (free_tiles h) /\
                 chow_shape t a b).
Proof.
  intros Hs.
  split; [intros; apply Hand_init_sorted|].
  split; [intros; now apply add_free_tile_sorted|].
  split; [intros; now apply add_free_tiles_sorted|].
  split; [intros; now apply remove_free_tile_sorted|].
  split; [now apply move_last_tile_sorted|].
  split; [now apply move_flowers_sorted|].
  split; [intros; now apply Hand_discard_sorted|].
  split; [intros; now apply _meld_sorted|].
  split; [intros; now apply _meld_sorted|].
  split; [intros; now apply _meld_sorted|].
  split; [now apply kong_from_self_sorted|].
  split; [intros; now apply Hand_contains_spec|].
  split; [intros; now apply Hand_count_spec|].
  split; [intros; now apply can_pong_spec|].
  split; [intros; now apply can_kong_spec|].
  intros; now apply get_chow_combs_spec.
Qed.

Lemma free_tiles_sorted_invariant_witness :
  let h := mkHand [CHAR2; CHAR3; CHAR3; CHAR5; EAST] [] [] (Some CHAR4) in
  sorted_tiles (free_tiles h) /\
  sorted_tiles (free_tiles (snd (Hand_discard h (Some CHAR3)))) /\
  (can_pong h CHAR3 = true <-> 2 <= list_count CHAR3 (free_tiles h)).
Proof.
  intros h.
  assert (Hs : sorted_tiles (free_tiles h)).
  { repeat constructor; unfold tile_le; simpl; lia. }
  pose proof (free_tiles_sorted_invariant h Hs)
    as (_ & _ & _ & _ & _ & _ & Hd & _ & _ & _ & _ & _ & _ & Hp & _).
  split; [exact Hs|]. split; [apply Hd | apply Hp].
Defined.

(** ** Decision arbitration *)

Lemma py_index_nth {A : Type} (l : list A) (i : Z) :
  0 <= i < Z.of_nat (length l) ->
  exists x, nth_error l (Z.to_nat i) = Some x /\ py_index l i = Ret x.
Proof.
  intros Hi. unfold py_index.
  destruct (Z.ltb_spec i 0); [lia|].
  destruct (Z.ltb_spec i 0); [lia|].
  destruct (Z.geb_spec i (Z.of_nat (length l))); [lia|]. simpl.
  destruct (nth_error l (Z.to_nat i)) as [x|] eqn:E; [eauto|].
  apply nth_error_None in E. lia.
Qed.

Lemma rotation_range (base : Z) (n : nat) (s : Z) :
  In s (rotation base n) -> 0 <= s < Z.of_nat n.
Proof.
  unfold rotation. rewrite in_map_iff. intros (i & <- & Hi).
  apply in_seq in Hi. apply Z.mod_pos_bound. lia.
Qed.

Lemma rotation_mod (base : Z) (n : nat) :
  rotation base n = rotation (base mod Z.of_nat n) n.
Proof.
  unfold rotation. apply map_ext_in. intros i Hi. apply in_seq in Hi.
  rewrite Zplus_mod_idemp_l. reflexivity.
Qed.

Section Arbitration.

Variable viable : list (option (list string)).
Variable decisions : list (option Decision).
Hypothesis same_length : length viable = length decisions.
Hypothesis all_answered : forall seat, answered viable decisions seat.

Lemma seat_lookup (s : Z) :
  0 <= s < Z.of_nat (length decisions) ->
  exists v d,
    nth_error viable (Z.to_nat s) = Some v /\
    nth_error decisions (Z.to_nat s) = Some d /\
    py_index viable s = Ret v /\ py_index decisions s = Ret d /\
    (viable_has v "win" = true \/ viable_has v "kong" = true \/
     viable_has v "pong" = true \/ viable_has v "chow" = true ->
     not_in_viable d v = false).
Proof.
  intros Hs.
  destruct (py_index_nth viable s) as (v & Hv & Pv); [lia|].
  destruct (py_index_nth decisions s) as (d & Hd & Pd); [lia|].
  exists v, d. repeat split; auto.
  intros Hhas. pose proof (all_answered (Z.to_nat s)) as Ha.
  unfold answered in Ha. rewrite Hv, Hd in Ha.
  destruct v as [[|x l]|]; simpl in Hhas.
  - intuition discriminate.
  - simpl. now rewrite Ha.
  - intuition discriminate.
Qed.

Lemma win_loop_resolve (seats : list Z) : forall result,
  (forall s, In s seats -> 0 <= s < Z.of_nat (length decisions)) ->
  win_loop viable decisions seats result =
  Ret (inr (result
            ++ map (fun s => (s, Some "win"))
                   (List.filter (claims viable decisions "win") seats))).
Proof.
  induction seats as [|s seats IH]; intros result Hr; simpl.
  - now rewrite app_nil_r.
  - destruct (seat_lookup s) as (v & d & Hv & Hd & Pv & Pd & Hans);
      [apply Hr; simpl; auto|].
    rewrite Pv. cbn [ebind]. unfold claims at 1. rewrite Hv, Hd.
    destruct (viable_has v "win") eqn:Hw; cbn [andb].
    + rewrite Pd. cbn [ebind]. destruct (dec_is d "win").
      * rewrite IH by (intros; apply Hr; simpl; auto).
        simpl. now rewrite <- app_assoc.
      * rewrite Hans by auto. apply IH. intros; apply Hr; simpl; auto.
    + apply IH. intros; apply Hr; simpl; auto.
Qed.

Lemma meld_loop_resolve (name : string) (seats : list Z) :
  name = "kong" \/ name = "pong" \/ name = "chow" ->
  (forall s, In s seats -> 0 <= s < Z.of_nat (length decisions)) ->
  meld_loop viable decisions name seats =
  Ret (option_map (fun s => [(s, Some name)])
                  (find (claims viable decisions name) seats)).
Proof.
  intros Hname. induction seats as [|s seats IH]; intros Hr; simpl.
  - reflexivity.
  - destruct (seat_lookup s) as (v & d & Hv & Hd & Pv & Pd & Hans);
      [apply Hr; simpl; auto|].
    rewrite Pv. cbn [ebind]. unfold claims at 1. rewrite Hv, Hd.
    destruct (viable_has v name) eqn:Hw; cbn [andb].
    + rewrite Pd. cbn [ebind]. rewrite Hans.
      * destruct (dec_is d name); [reflexivity|].
        apply IH. intros; apply Hr; simpl; auto.
      * destruct Hname as [->|[->| ->]]; auto.
    + apply IH. intros; apply Hr; simpl; auto.
Qed.

Lemma meld_loops_resolve (names : list string) (seats : list Z) :
  (forall name, In name names ->
     name = "kong" \/ name = "pong" \/ name = "chow") ->
  (forall s, In s seats -> 0 <= s < Z.of_nat (length decisions)) ->
  meld_loops viable decisions names seats =
  Ret (first_claim viable decisions names seats).
Proof.
  intros Hn Hr. induction names as [|name names IH]; simpl; [reflexivity|].
  rewrite meld_loop_resolve by (auto; apply Hn; simpl; auto).
  cbn [ebind].
  destruct (find (claims viable decisions name) seats); simpl;
    [reflexivity|].
  apply IH. intros; apply Hn; simpl; auto.
Qed.

(** Function-level arbitration: with every seat answered,
    [select_melders] returns all seats claiming win, in rotation order
    from [base_offset]; failing that the first seat in rotation order
    claiming kong, else pong, else chow; else nothing. *)
Lemma select_melders_resolve_gen (base_offset : Z) :
  select_melders viable decisions base_offset =
  Ret (resolve viable decisions base_offset).
Proof.
  unfold select_melders, resolve.
  set (seats := rotation base_offset (length decisions)).
  assert (Hr : forall s, In s seats -> 0 <= s < Z.of_nat (length decisions))
    by (intros s; apply rotation_range).
  rewrite win_loop_resolve by assumption. cbn [ebind app].
  destruct (List.filter (claims viable decisions "win") seats) as [|w ws].
  - simpl map. apply meld_loops_resolve; auto.
    simpl. intuition.
  - reflexivity.
Qed.

End Arbitration.

(** ** Arbitration on any table *)

Section Waiting.

Variable viable : list (option (list string)).
Variable decisions : list (option Decision).
Hypothesis same_length : length viable = length decisions.











End Waiting.


Lemma answered_BC (chosen : list (option Decision)) :
  chosen = chosen_B \/ chosen = chosen_C ->
  forall seat, answered viable_BC chosen seat.
Proof.
  intros [-> | ->] seat;
    do 5 (destruct seat as [|seat]; [exact I || reflexivity|]);
    destruct seat; exact I.
Qed.



(** In the melding phase the arbitration is called without an origin
    and starts at seat 0. With seat 2 the discarder and seats 1 and 3
    both choosing to win on the discard, [MeldingHandler.validate]
    stores seat 1 before seat 3, while the rotation from the discarder
    meets seat 3 first; with a single winner allowed, the step then
    makes seat 1 the winner. *)
Lemma melding_validate_origin :
  exists c1 c2,
    MeldingHandler_validate plain_collab ctx_melding_wins
    = Ret (Success, c1) /\
    cextra c1 !! "melders"
    = Some (VMelders [(1, Some "win"); (3, Some "win")]) /\
    cur_player_idx ctx_melding_wins = Some 2 /\
    resolve (melding_viable ctx_melding_wins)
            (map decision (players ctx_melding_wins)) 2
    = Some [(3, Some "win"); (1, Some "win")] /\
    multi_winners (settings ctx_melding_wins) = false /\
    MeldingHandler_next c1 = Ret c2 /\
    state c2 = "end" /\ winners c2 = Some [1].
Proof.
  eexists. eexists. split; [vm_compute; reflexivity|].
  split; [vm_compute; reflexivity|]. split; [reflexivity|].
  split; [reflexivity|]. split; [reflexivity|].
  split; [vm_compute; reflexivity|]. split; reflexivity.
Qed.

(** C4. Scenarios B and C: win preempts kong and chow, and kong preempts
    chow, wherever the rotation starts. *)
Theorem select_melders_scenarios (base_offset : Z) :
  select_melders viable_BC chosen_B base_offset
  = Ret (Some [(3, Some "win")]) /\
  select_melders viable_BC chosen_C base_offset
  = Ret (Some [(2, Some "kong")]).
Proof.
  rewrite !select_melders_resolve_gen
    by (try reflexivity; apply answered_BC; auto).
  unfold resolve. cbn [length chosen_B chosen_C].
  rewrite (rotation_mod base_offset 4).
  assert (H : 0 <= base_offset mod 4 < 4) by (apply Z.mod_pos_bound; lia).
  change (Z.of_nat 4) with 4.
  assert (Hc : base_offset mod 4 = 0 \/ base_offset mod 4 = 1 \/
               base_offset mod 4 = 2 \/ base_offset mod 4 = 3) by lia.
  destruct Hc as [-> |[-> |[-> | ->]]]; split; reflexivity.
Qed.

(** ** The scored phase *)

Lemma existsb_Zeqb_In (d : Z) (w : list Z) :
  existsb (Z.eqb d) w = true <-> In d w.
Proof.
  rewrite existsb_exists. split.
  - intros (x & Hx & E). apply Z.eqb_eq in E. now subst.
  - intros H. exists d. split; [assumption | apply Z.eqb_refl].
Qed.

Lemma _get_next_dealer_spec (c : GameContext) :
  (dealer_defends c -> _get_next_dealer c = dealer c) /\
  (~ dealer_defends c -> _get_next_dealer c = (dealer c + 1) mod 4).
Proof.
  unfold _get_next_dealer, dealer_defends, tie_or_dealer_won.
  destruct (Z.ltb_spec (dealer_defended c) (max_dealer_defended (settings c)))
    as [Hlt|Hge];
    destruct (winners c) as [[|x w]|]; cbn [andb];
    rewrite ?andb_true_r, ?andb_false_r;
    try (split; [reflexivity || (intros [_ ?]; lia) | intros H; tauto || reflexivity]).
  destruct (existsb (Z.eqb (dealer c)) (x :: w)) eqn:E.
  - apply existsb_Zeqb_In in E. split; [reflexivity | tauto].
  - split; [|reflexivity]. intros [Hin _].
    apply existsb_Zeqb_In in Hin. congruence.
Qed.

Lemma classic_defends (c : GameContext) :
  dealer_defends c \/ ~ dealer_defends c.
Proof.
  unfold dealer_defends, tie_or_dealer_won.
  destruct (Z_lt_dec (dealer_defended c) (max_dealer_defended (settings c)));
    [|right; tauto].
  destruct (winners c) as [[|x w]|]; auto.
  destruct (in_dec Z.eq_dec (dealer c) (x :: w)); [auto | right; tauto].
Qed.

Lemma next_seat_differs (d : Z) : (d + 1) mod 4 <> d.
Proof.
  intros H. pose proof (Z.mod_pos_bound (d + 1) 4 ltac:(lia)) as Hb.
  assert (Hd : d = 0 \/ d = 1 \/ d = 2 \/ d = 3) by lia.
  destruct Hd as [->|[->|[->| ->]]]; discriminate H.
Qed.

(** C8. In the scored phase the dealer stays exactly when the match was
    a tie or the dealer won, and the defense count is below the cap;
    otherwise the next seat becomes dealer with the count reset; the
    round counter increments, and the match counter resets, exactly
    when the dealer was seat 3 and changes. *)
Theorem scored_next_dealer (c : GameContext) :
  exists c',
    ScoredHandler_next c = Ret c' /\
    (dealer c' = dealer c <-> dealer_defends c) /\
    (dealer_defends c -> dealer_defended c' = dealer_defended c + 1) /\
    (~ dealer_defends c ->
       dealer c' = (dealer c + 1) mod 4 /\ dealer_defended c' = 0) /\
    (dealer c = 3 /\ dealer c' <> dealer c ->
       round c' = round c + 1 /\ match_ c' = 0) /\
    (~ (dealer c = 3 /\ dealer c' <> dealer c) ->
       round c' = round c /\ match_ c' = match_ c + 1).
Proof.
  eexists. split; [reflexivity|].
  cbn [ScoredHandler_next dealer dealer_defended round match_ set_cextra
       set_state set_winners].
  destruct (_get_next_dealer_spec c) as [Hyes Hno].
  assert (Hclear : _get_next_dealer (_clear_hands c) = _get_next_dealer c)
    by reflexivity.
  assert (Hupd : _get_next_dealer (_update_round_and_match (_clear_hands c))
                 = _get_next_dealer c).
  { unfold _update_round_and_match.
    destruct (_should_goto_next_round _); reflexivity. }
  assert (Hd : dealer (_update_round_and_match (_clear_hands c)) = dealer c).
  { unfold _update_round_and_match.
    destruct (_should_goto_next_round _); reflexivity. }
  assert (Hdd : dealer_defended (_update_round_and_match (_clear_hands c))
                = dealer_defended c).
  { unfold _update_round_and_match.
    destruct (_should_goto_next_round _); reflexivity. }
  assert (Hround :
            (dealer c = 3 /\ _get_next_dealer c <> dealer c ->
             round (_update_round_and_match (_clear_hands c)) = round c + 1 /\
             match_ (_update_round_and_match (_clear_hands c)) = 0) /\
            (~ (dealer c = 3 /\ _get_next_dealer c <> dealer c) ->
             round (_update_round_and_match (_clear_hands c)) = round c /\
             match_ (_update_round_and_match (_clear_hands c))
             = match_ c + 1)).
  { unfold _update_round_and_match, _should_goto_next_round.
    rewrite Hclear. change (dealer (_clear_hands c)) with (dealer c).
    destruct (Z.eqb_spec (dealer c) 3) as [E3|E3];
      destruct (Z.eqb_spec (_get_next_dealer c) (dealer c)) as [En|En];
      cbn; split; intros; try tauto; auto. }
  unfold _set_next_dealer. rewrite Hupd, Hd, Hdd.
  destruct Hround as [Hr1 Hr2].
  destruct (classic_defends c) as [Hdef|Hdef].
  - rewrite (Hyes Hdef) in Hr1, Hr2 |- *. rewrite Z.eqb_refl.
    cbn [dealer dealer_defended round match_ set_dealer].
    split; [tauto|]. split; [reflexivity|].
    split; [intros H; contradiction|].
    split; [intros [_ H]; congruence | intros _; apply Hr2; tauto].
  - rewrite (Hno Hdef) in Hr1, Hr2 |- *.
    pose proof (next_seat_differs (dealer c)) as Hne.
    destruct (Z.eqb_spec ((dealer c + 1) mod 4) (dealer c)) as [E|E];
      [contradiction|].
    cbn [dealer dealer_defended round match_ set_dealer].
    split; [split; [intros H; contradiction | intros H; contradiction]|].
    split; [intros H; contradiction|].
    split; [auto|].
    split; [intros [H3 _]; apply Hr1; auto | intros H; apply Hr2; tauto].
Qed.

(** ** The drawing phase at the wall threshold *)

Lemma py_index_valid {A : Type} (l : list A) (i : Z) :
  - Z.of_nat (length l) <= i < Z.of_nat (length l) ->
  exists k x,
    nth_error l k = Some x /\ py_index l i = Ret x /\
    forall y, py_set l i y = Ret (list_set l k y).
Proof.
  intros Hi. unfold py_index, py_set.
  set (j := if i <? 0 then i + Z.of_nat (length l) else i).
  assert (Hj : 0 <= j < Z.of_nat (length l))
    by (unfold j; destruct (Z.ltb_spec i 0); lia).
  destruct (Z.ltb_spec j 0); [lia|].
  destruct (Z.geb_spec j (Z.of_nat (length l))); [lia|]. simpl.
  destruct (nth_error l (Z.to_nat j)) as [x|] eqn:E.
  - exists (Z.to_nat j), x. auto.
  - apply nth_error_None in E. lia.
Qed.

Lemma length_list_set {A : Type} (l : list A) (k : nat) (x : A) :
  length (list_set l k x) = length l.
Proof.
  revert k; induction l as [|y l IH]; intros [|k]; simpl; auto.
Qed.

Lemma map_list_set {A B : Type} (f : A -> B) (l : list A) (k : nat)
    (x y : A) :
  nth_error l k = Some x -> f y = f x ->
  map f (list_set l k y) = map f l.
Proof.
  revert k; induction l as [|z l IH]; intros [|k] Hk Hf; simpl in *;
    try discriminate.
  - injection Hk as ->. now rewrite Hf.
  - f_equal. now apply IH.
Qed.

Lemma is_tie_wall (c : GameContext) (w : list Tile) :
  wall c = Some w ->
  Z.of_nat (length w)
  <= tie_wall (settings c) + total_kongs c * tie_wall_per_kong (settings c) ->
  is_tie c true false false true false = Ret true.
Proof.
  intros Hw Hle. unfold is_tie.
  destruct (true && String.eqb (state c) "end" && _); [reflexivity|].
  cbn [andb]. rewrite Hw. cbn [ebind].
  destruct (Z.leb_spec (Z.of_nat (length w))
              (tie_wall (settings c)
               + total_kongs c * tie_wall_per_kong (settings c)));
    [reflexivity | lia].
Qed.

Lemma DrawingHandler_cleanup_spec (c : GameContext) :
  flower_winner_ok c ->
  exists c',
    DrawingHandler_cleanup c = Ret c' /\
    state c' = state c /\ winners c' = winners c /\ wall c' = wall c /\
    cextra c' = delete "flower_winner" (cextra c) /\
    map hand (players c') = map hand (players c).
Proof.
  unfold flower_winner_ok, DrawingHandler_cleanup.
  destruct (cextra c !! "flower_winner") as [[| | i | | | | | |]|];
    cbn [is_not_none opt_int]; try contradiction;
    try (intros _; eexists; repeat split; reflexivity).
  intros Hi. unfold player_extra_pop, get_player, put_player.
  cbn [players set_cextra].
  destruct (py_index_valid (players c) i Hi) as (k & p & Hk & Hidx & Hset).
  rewrite Hidx. cbn [ebind]. rewrite Hset. cbn [ebind].
  eexists. split; [reflexivity|]. repeat split.
  cbn [players set_players]. now apply (map_list_set hand _ _ p).
Qed.

(** The tie branch of [DrawingHandler.next] for any number of melded
    quads. *)
Lemma DrawingHandler_next_wall_tie (c : GameContext) (w : list Tile) :
  wall c = Some w ->
  Z.of_nat (length w)
  <= tie_wall (settings c) + total_kongs c * tie_wall_per_kong (settings c) ->
  flower_winner_ok c ->
  exists c',
    DrawingHandler_next c = Ret c' /\
    state c' = "end" /\
    cextra c' !! "tie_type" = Some (VStr "wall") /\
    winners c' = None /\
    wall c' = Some w /\
    map hand (players c') = map hand (players c).
Proof.
  intros Hw Hle Hfw. unfold DrawingHandler_next.
  rewrite (is_tie_wall c w Hw Hle). cbn [ebind].
  set (c3 := set_cextra _ _).
  destruct (DrawingHandler_cleanup_spec c3) as (c' & Hc & Hs & Hwin & Hwall
                                                 & Hex & Hh).
  { unfold flower_winner_ok, c3. cbn [cextra set_cextra players set_state
                                       set_winners].
    rewrite lookup_insert_ne by discriminate. exact Hfw. }
  exists c'. split; [exact Hc|].
  rewrite Hs, Hwin, Hwall, Hex, Hh. unfold c3.
  cbn [state winners wall cextra players set_cextra set_state set_winners].
  rewrite lookup_delete_ne by discriminate.
  rewrite lookup_insert_eq. auto.
Qed.

(** The whole step, validation included, on a context at the
    threshold. *)
Example drawing_wall_tie_handle :
  exists c',
    handle DrawingHandler_validate DrawingHandler_next ctx_wall_tie
    = Ret (Success, c') /\
    state c' = "end" /\ winners c' = None /\
    cextra c' !! "tie_type" = Some (VStr "wall") /\
    wall c' = wall ctx_wall_tie.
Proof. eexists. split; [vm_compute; reflexivity|]. repeat split. Qed.

(** ** The discarded phase: table-wide ties *)

Lemma four_players (c : GameContext) :
  length (players c) = 4%nat ->
  exists p0 p1 p2 p3, players c = [p0; p1; p2; p3].
Proof.
  destruct (players c) as [|p0 [|p1 [|p2 [|p3 [|p4 l]]]]]; try discriminate.
  intros _. now exists p0, p1, p2, p3.
Qed.

Lemma seat_valid (c : GameContext) (i : Z) :
  length (players c) = 4%nat ->
  - Z.of_nat (length (players c)) <= i mod 4 < Z.of_nat (length (players c)).
Proof.
  intros ->. pose proof (Z.mod_pos_bound i 4). lia.
Qed.







(** With every setting at its default (four-waiting rule off) and four
    declared-ready players, the wind tie is still recorded as
    ['4-waiting']. *)
Example four_winds_ready_default_settings :
  exists c',
    handle (DiscardedHandler_validate plain_collab)
           (DiscardedHandler_next plain_collab)
           (set_players ctx_four_winds (map declare (players ctx_four_winds)))
    = Ret (Success, c') /\
    state c' = "end" /\
    cextra c' !! "tie_type" = Some (VStr "4-waiting").
Proof. eexists. split; [vm_compute; reflexivity|]. repeat split. Qed.

(** ** Failed validations and the context *)

Ltac exc_cases :=
  repeat match goal with
    | H : Ret _ = Ret _ |- _ => injection H as H; try subst
    | H : (_, _) = (_, _) |- _ => injection H as H; try subst
    | H : Raise _ = Ret _ |- _ => discriminate H
    | H : ebind ?m _ = Ret _ |- _ =>
        let E := fresh "E" in
        destruct m eqn:E; cbn [ebind] in H
    | H : context [let '(_, _) := ?p in _] |- _ => destruct p
    | H : context [match ?x with _ => _ end] |- _ =>
        let E := fresh "E" in destruct x eqn:E
    | H : success Success = false |- _ => discriminate H
    | H : success (mkFlowResult true _ _) = false |- _ => discriminate H
    end.

(** A failed validation of the drawing phase returns the context it
    was given. *)
Lemma DrawingHandler_validate_intact (c c' : GameContext) (r : FlowResult) :
  DrawingHandler_validate c = Ret (r, c') -> success r = false -> c' = c.
Proof.
  unfold DrawingHandler_validate. intros H Hr.
  exc_cases; try reflexivity; try discriminate.
Qed.

(** So does a failed validation of the melding phase. *)
Lemma MeldingHandler_validate_intact (E : Collab) (c c' : GameContext)
    (r : FlowResult) :
  MeldingHandler_validate E c = Ret (r, c') -> success r = false -> c' = c.
Proof.
  unfold MeldingHandler_validate. intros H Hr.
  exc_cases; try reflexivity; try discriminate.
Qed.

(** In the discarded and self-konging phases a ['bad-context'] failure
    returns the context it was given. *)
Lemma DiscardedHandler_validate_bad_context (E : Collab)
    (c c' : GameContext) (r : FlowResult) :
  DiscardedHandler_validate E c = Ret (r, c') ->
  reason r = Some "bad-context" -> c' = c.
Proof.
  unfold DiscardedHandler_validate, decisions_needed_for. intros H Hr.
  exc_cases; try reflexivity; try discriminate.
Qed.

Lemma SelfKongingHandler_validate_bad_context (E : Collab)
    (c c' : GameContext) (r : FlowResult) :
  SelfKongingHandler_validate E c = Ret (r, c') ->
  reason r = Some "bad-context" -> c' = c.
Proof.
  unfold SelfKongingHandler_validate. intros H Hr.
  exc_cases; try reflexivity; try discriminate.
Qed.

(** C3. The claim fails for ['decisions-needed'] failures of two
    handlers. [DiscardedHandler.validate] on [ctx_discarded] fails with
    ['decisions-needed'] after it has set ['ready'] in the current
    player's annotations; [SelfKongingHandler.validate] on
    [ctx_self_konging] fails with ['decisions-needed'] after it has set
    ['viable_decisions'] in the annotations of the three other players.
    In both cases the returned context differs from the given one. *)
Theorem failed_validate_changes_context :
  (exists r c',
     DiscardedHandler_validate plain_collab ctx_discarded = Ret (r, c') /\
     success r = false /\
     reason r = Some "decisions-needed" /\
     map (fun p => extra p !! "ready") (players ctx_discarded)
     = [None; None; None; None] /\
     map (fun p => extra p !! "ready") (players c')
     = [Some (VBool true); None; None; None] /\
     c' <> ctx_discarded) /\
  (exists r c',
     SelfKongingHandler_validate plain_collab ctx_self_konging
     = Ret (r, c') /\
     success r = false /\
     reason r = Some "decisions-needed" /\
     map (fun p => extra p !! "viable_decisions") (players ctx_self_konging)
     = [None; None; None; None] /\
     map (fun p => extra p !! "viable_decisions") (players c')
     = [None; Some VNone; Some VNone; Some (VStrs ["win"; "skip"])] /\
     c' <> ctx_self_konging).
Proof.
  split.
  - eexists. eexists. split; [vm_compute; reflexivity|].
    do 4 (split; [reflexivity|]).
    intros H.
    apply (f_equal (fun c => map (fun p => extra p !! "ready") (players c)))
      in H.
    vm_compute in H. discriminate H.
  - eexists. eexists. split; [vm_compute; reflexivity|].
    do 4 (split; [reflexivity|]).
    intros H.
    apply (f_equal (fun c => map (fun p => extra p !! "viable_decisions")
                                 (players c))) in H.
    vm_compute in H. discriminate H.
Qed.

(** ** Binary searches of [utils] on a sorted list *)

Lemma py_index_nat {A : Type} (l : list A) (k : nat) (x : A) :
  nth_error l k = Some x -> py_index l (Z.of_nat k) = Ret x.
Proof.
  intros H. assert (Hk : (k < length l)%nat)
    by (apply nth_error_Some; congruence).
  assert (E1 : (Z.of_nat k <? 0) = false) by (apply Z.ltb_ge; lia).
  assert (E2 : (Z.of_nat k >=? Z.of_nat (length l)) = false)
    by (rewrite Z.geb_leb; apply Z.leb_gt; lia).
  unfold py_index. cbv zeta. rewrite !E1, E2. cbn [orb].
  now rewrite Nat2Z.id, H.
Qed.

(** X1. On a sorted list [utils.index] answers -1 exactly for a value
    that is absent, and otherwise the position of the leftmost
    occurrence of the value. *)
Theorem index_leftmost (a : list Tile) (x : Tile) :
  sorted_tiles a ->
  (index a x = -1 <-> ~ In x a) /\
  (In x a ->
     0 <= index a x < Z.of_nat (length a) /\
     nth_error a (Z.to_nat (index a x)) = Some x /\
     forall j, (j < Z.to_nat (index a x))%nat -> nth_error a j <> Some x).
Proof.
  intros Hs. pose proof (index_In a x Hs) as HIn.
  pose proof (tile_in_In x a) as Hin.
  destruct (index_view a x Hs)
    as (pre & suf & Ha & Hlen & Hpre & Hsuf & S1 & S2 & Hidx).
  split.
  - split.
    + intros E Hx. apply Hin in Hx. rewrite E in HIn.
      rewrite Hx in HIn. discriminate HIn.
    + intros Hx. destruct (index_neg_or_pos a x) as [E|E]; [exact E|].
      exfalso. apply Hx, Hin. rewrite <- HIn. now apply Z.geb_le.
  - intros Hx. apply Hin in Hx. rewrite <- HIn in Hx. apply Z.geb_le in Hx.
    destruct suf as [|y s]; [rewrite Hidx in Hx; lia|].
    destruct (tile_eqb y x) eqn:Ey; [|rewrite Hidx in Hx; lia].
    apply tile_eqb_eq in Ey. subst y. rewrite Hidx, Nat2Z.id.
    subst a. rewrite length_app. cbn [length]. split; [lia|]. split.
    + rewrite nth_error_app2 by lia. now rewrite Nat.sub_diag.
    + intros j Hj Hn. rewrite nth_error_app1 in Hn by exact Hj.
      apply nth_error_In in Hn.
      rewrite List.Forall_forall in Hpre. specialize (Hpre x Hn). lia.
Qed.

Lemma index_leftmost_witness :
  let a := [CHAR2; CHAR3; CHAR3; CHAR5; EAST] in
  sorted_tiles a /\
  (index a CHAR3 = -1 <-> ~ In CHAR3 a) /\
  (In CHAR3 a ->
     0 <= index a CHAR3 < Z.of_nat (length a) /\
     nth_error a (Z.to_nat (index a CHAR3)) = Some CHAR3 /\
     forall j, (j < Z.to_nat (index a CHAR3))%nat ->
               nth_error a j <> Some CHAR3).
Proof.
  intros a.
  assert (Hs : sorted_tiles a)
    by (repeat constructor; unfold tile_le; simpl; lia).
  split; [exact Hs|]. exact (index_leftmost a CHAR3 Hs).
Defined.

(** A split of a sorted list at position [r]. *)
Lemma split_In (a : list Tile) (r : nat) (z : Tile) :
  In z a <-> In z (firstn r a) \/ In z (skipn r a).
Proof.
  rewrite <- in_app_iff, firstn_skipn. tauto.
Qed.

Lemma sorted_split_le (a : list Tile) (r : nat) (y z : Tile) :
  sorted_tiles a -> In y (firstn r a) -> In z (skipn r a) ->
  tile_id y <= tile_id z.
Proof.
  intros Hs Hy Hz. rewrite <- (firstn_skipn r a) in Hs.
  apply ss_app in Hs as (_ & _ & H). now apply H.
Qed.

(** The last tile of a non-empty prefix, as [py_index] reads it. *)
Lemma prefix_last (a : list Tile) (r : nat) :
  (0 < r <= length a)%nat ->
  exists y, py_index a (Z.of_nat r - 1) = Ret y /\
            In y (firstn r a) /\
            forall z, sorted_tiles a -> In z (firstn r a) ->
                      tile_id z <= tile_id y.
Proof.
  intros Hr. destruct (nth_error a (r - 1)) as [y|] eqn:E.
  2:{ apply nth_error_None in E. lia. }
  exists y. split.
  { replace (Z.of_nat r - 1) with (Z.of_nat (r - 1)) by lia.
    now apply py_index_nat. }
  assert (Hy : nth_error (firstn r a) (r - 1) = Some y)
    by (rewrite nth_error_firstn;
        destruct (Nat.ltb_spec (r - 1) r); [exact E | lia]).
  split; [eapply nth_error_In; exact Hy|].
  intros z Hs Hz. apply In_nth_error in Hz as (i & Hi).
  assert (Hir : (i < r)%nat).
  { assert (i < length (firstn r a))%nat
      by (apply nth_error_Some; congruence).
    rewrite length_firstn in *. lia. }
  rewrite nth_error_firstn in Hi.
  destruct (Nat.ltb_spec i r); [|lia].
  pose proof (sorted_nth a y Hs i (r - 1) ltac:(lia)) as Hle.
  rewrite (nth_error_nth _ _ _ Hi), (nth_error_nth _ _ _ E) in Hle.
  exact Hle.
Qed.

(** The first tile of a non-empty suffix, as [py_index] reads it. *)
Lemma suffix_first (a : list Tile) (r : nat) :
  (r < length a)%nat ->
  exists y, py_index a (Z.of_nat r) = Ret y /\
            In y (skipn r a) /\
            forall z, sorted_tiles a -> In z (skipn r a) ->
                      tile_id y <= tile_id z.
Proof.
  intros Hr. destruct (nth_error a r) as [y|] eqn:E.
  2:{ apply nth_error_None in E. lia. }
  exists y. split; [now apply py_index_nat|].
  assert (Hy : nth_error (skipn r a) 0 = Some y)
    by (rewrite nth_error_skipn, Nat.add_0_r; exact E).
  split; [eapply nth_error_In; exact Hy|].
  intros z Hs Hz. apply In_nth_error in Hz as (i & Hi).
  rewrite nth_error_skipn in Hi.
  assert (Hil : (r + i < length a)%nat)
    by (apply nth_error_Some; congruence).
  pose proof (sorted_nth a y Hs r (r + i) ltac:(lia)) as Hle.
  rewrite (nth_error_nth _ _ _ Hi), (nth_error_nth _ _ _ E) in Hle.
  exact Hle.
Qed.

Lemma Forall_In {A : Type} (P : A -> Prop) (l : list A) (x : A) :
  Forall P l -> In x l -> P x.
Proof. rewrite List.Forall_forall. auto. Qed.

(** X2. On a sorted list [utils.find_lt] and [utils.find_le] return the
    largest value below [x] (at most [x]), and raise [ValueError]
    exactly when the list has no such value. *)
Theorem find_lt_le_spec (a : list Tile) (x : Tile) :
  sorted_tiles a ->
  (forall y, find_lt a x = Ret y <->
             rightmost (fun z => tile_id z < tile_id x) a y) /\
  (find_lt a x = Raise "ValueError" <->
   forall z, In z a -> tile_id x <= tile_id z) /\
  (forall y, find_le a x = Ret y <->
             rightmost (fun z => tile_id z <= tile_id x) a y) /\
  (find_le a x = Raise "ValueError" <->
   forall z, In z a -> tile_id x < tile_id z).
Proof.
  intros Hs.
  assert (Hgen : forall (P : Tile -> Prop) (r : nat) (f : Exc Tile),
             (r <= length a)%nat ->
             Forall P (firstn r a) ->
             Forall (fun z => ~ P z) (skipn r a) ->
             f = (if negb (r =? 0)%nat then py_index a (Z.of_nat r - 1)
                  else Raise "ValueError") ->
             (forall y, f = Ret y <-> rightmost P a y) /\
             (f = Raise "ValueError" <-> forall z, In z a -> ~ P z)).
  { intros P r f Hr Hpre Hsuf ->.
    destruct (Nat.eqb_spec r 0) as [->|Hr0]; cbn [negb].
    - rewrite skipn_O in Hsuf. split.
      + intros y. split; [discriminate|].
        intros (Hy & HP & _). exfalso. exact (Forall_In _ _ _ Hsuf Hy HP).
      + split; [|reflexivity]. intros _ z Hz.
        exact (Forall_In _ _ _ Hsuf Hz).
    - destruct (prefix_last a r ltac:(lia)) as (y0 & Hidx & Hy0 & Hmax).
      rewrite Hidx. split.
      + intros y. split.
        * intros E. injection E as <-. split; [|split].
          -- apply (split_In a r). now left.
          -- exact (Forall_In _ _ _ Hpre Hy0).
          -- intros z Hz HPz. apply (split_In a r) in Hz as [Hz|Hz].
             ++ now apply Hmax.
             ++ exfalso. exact (Forall_In _ _ _ Hsuf Hz HPz).
        * intros (Hy & HP & Hmaxy). f_equal. apply tile_id_inj.
          assert (Hyp : In y (firstn r a)).
          { apply (split_In a r) in Hy as [Hy|Hy]; [exact Hy|].
            exfalso. exact (Forall_In _ _ _ Hsuf Hy HP). }
          pose proof (Hmax y Hs Hyp).
          pose proof (Hmaxy y0 (proj2 (split_In a r y0) (or_introl Hy0))
                        (Forall_In _ _ _ Hpre Hy0)).
          lia.
      + split; [discriminate|]. intros H. exfalso.
        apply (H y0); [apply (split_In a r); now left|].
        exact (Forall_In _ _ _ Hpre Hy0). }
  destruct (bisect_left_split a x Hs) as (Hr1 & Hp1 & Hs1).
  destruct (bisect_right_split a x Hs) as (Hr2 & Hp2 & Hs2).
  destruct (Hgen (fun z => tile_id z < tile_id x) (bisect_left a x)
              (find_lt a x) Hr1 Hp1) as [A1 A2]; [|reflexivity|].
  { eapply List.Forall_impl; [|exact Hs1]. cbv beta. intros; lia. }
  destruct (Hgen (fun z => tile_id z <= tile_id x) (bisect_right a x)
              (find_le a x) Hr2 Hp2) as [B1 B2]; [|reflexivity|].
  { eapply List.Forall_impl; [|exact Hs2]. cbv beta. intros; lia. }
  split; [exact A1|]. split.
  { rewrite A2. split; intros H z Hz; specialize (H z Hz); lia. }
  split; [exact B1|].
  rewrite B2. split; intros H z Hz; specialize (H z Hz); lia.
Qed.

Lemma find_lt_le_spec_witness :
  find_lt [CHAR2; CHAR3; CHAR3; CHAR5] CHAR3 = Ret CHAR2 /\
  find_le [CHAR2; CHAR3; CHAR3; CHAR5] CHAR4 = Ret CHAR3 /\
  find_le [CHAR2; CHAR3; CHAR3; CHAR5] CHAR1 = Raise "ValueError".
Proof.
  assert (Hs : sorted_tiles [CHAR2; CHAR3; CHAR3; CHAR5]).
  { repeat constructor; unfold tile_le; simpl; lia. }
  destruct (find_lt_le_spec [CHAR2; CHAR3; CHAR3; CHAR5] CHAR3 Hs)
    as (H1 & _).
  destruct (find_lt_le_spec [CHAR2; CHAR3; CHAR3; CHAR5] CHAR4 Hs)
    as (_ & _ & H2 & _).
  destruct (find_lt_le_spec [CHAR2; CHAR3; CHAR3; CHAR5] CHAR1 Hs)
    as (_ & _ & _ & H3).
  split; [|split].
  - apply H1. split; [simpl; auto|]. split; [simpl; lia|].
    intros z [<-|[<-|[<-|[<-|[]]]]]; simpl; lia.
  - apply H2. split; [simpl; auto|]. split; [simpl; lia|].
    intros z [<-|[<-|[<-|[<-|[]]]]]; simpl; lia.
  - apply H3. intros z [<-|[<-|[<-|[<-|[]]]]]; simpl; lia.
Defined.

(** X3. On a sorted list [utils.find_gt] and [utils.find_ge] return the
    smallest value above [x] (at least [x]), and raise [ValueError]
    exactly when the list has no such value. *)
Theorem find_gt_ge_spec (a : list Tile) (x : Tile) :
  sorted_tiles a ->
  (forall y, find_gt a x = Ret y <->
             leftmost (fun z => tile_id x < tile_id z) a y) /\
  (find_gt a x = Raise "ValueError" <->
   forall z, In z a -> tile_id z <= tile_id x) /\
  (forall y, find_ge a x = Ret y <->
             leftmost (fun z => tile_id x <= tile_id z) a y) /\
  (find_ge a x = Raise "ValueError" <->
   forall z, In z a -> tile_id z < tile_id x).
Proof.
  intros Hs.
  assert (Hgen : forall (P : Tile -> Prop) (r : nat) (f : Exc Tile),
             (r <= length a)%nat ->
             Forall (fun z => ~ P z) (firstn r a) ->
             Forall P (skipn r a) ->
             f = (if negb (r =? length a)%nat then py_index a (Z.of_nat r)
                  else Raise "ValueError") ->
             (forall y, f = Ret y <-> leftmost P a y) /\
             (f = Raise "ValueError" <-> forall z, In z a -> ~ P z)).
  { intros P r f Hr Hpre Hsuf ->.
    destruct (Nat.eqb_spec r (length a)) as [->|Hrl]; cbn [negb].
    - rewrite firstn_all in Hpre. split.
      + intros y. split; [discriminate|].
        intros (Hy & HP & _). exfalso. exact (Forall_In _ _ _ Hpre Hy HP).
      + split; [|reflexivity]. intros _ z Hz.
        exact (Forall_In _ _ _ Hpre Hz).
    - destruct (suffix_first a r ltac:(lia)) as (y0 & Hidx & Hy0 & Hmin).
      rewrite Hidx. split.
      + intros y. split.
        * intros E. injection E as <-. split; [|split].
          -- apply (split_In a r). now right.
          -- exact (Forall_In _ _ _ Hsuf Hy0).
          -- intros z Hz HPz. apply (split_In a r) in Hz as [Hz|Hz].
             ++ exfalso. exact (Forall_In _ _ _ Hpre Hz HPz).
             ++ now apply Hmin.
        * intros (Hy & HP & Hminy). f_equal. apply tile_id_inj.
          assert (Hyp : In y (skipn r a)).
          { apply (split_In a r) in Hy as [Hy|Hy]; [|exact Hy].
            exfalso. exact (Forall_In _ _ _ Hpre Hy HP). }
          pose proof (Hmin y Hs Hyp).
          pose proof (Hminy y0 (proj2 (split_In a r y0) (or_intror Hy0))
                        (Forall_In _ _ _ Hsuf Hy0)).
          lia.
      + split; [discriminate|]. intros H. exfalso.
        apply (H y0); [apply (split_In a r); now right|].
        exact (Forall_In _ _ _ Hsuf Hy0). }
  destruct (bisect_left_split a x Hs) as (Hr1 & Hp1 & Hs1).
  destruct (bisect_right_split a x Hs) as (Hr2 & Hp2 & Hs2).
  destruct (Hgen (fun z => tile_id x < tile_id z) (bisect_right a x)
              (find_gt a x) Hr2) as [A1 A2]; [|exact Hs2|reflexivity|].
  { eapply List.Forall_impl; [|exact Hp2]. cbv beta. intros; lia. }
  destruct (Hgen (fun z => tile_id x <= tile_id z) (bisect_left a x)
              (find_ge a x) Hr1) as [B1 B2]; [|exact Hs1|reflexivity|].
  { eapply List.Forall_impl; [|exact Hp1]. cbv beta. intros; lia. }
  split; [exact A1|]. split.
  { rewrite A2. split; intros H z Hz; specialize (H z Hz); lia. }
  split; [exact B1|].
  rewrite B2. split; intros H z Hz; specialize (H z Hz); lia.
Qed.

Lemma find_gt_ge_spec_witness :
  find_gt [CHAR2; CHAR3; CHAR3; CHAR5] CHAR3 = Ret CHAR5 /\
  find_ge [CHAR2; CHAR3; CHAR3; CHAR5] CHAR3 = Ret CHAR3 /\
  find_gt [CHAR2; CHAR3; CHAR3; CHAR5] CHAR5 = Raise "ValueError".
Proof.
  assert (Hs : sorted_tiles [CHAR2; CHAR3; CHAR3; CHAR5]).
  { repeat constructor; unfold tile_le; simpl; lia. }
  destruct (find_gt_ge_spec [CHAR2; CHAR3; CHAR3; CHAR5] CHAR3 Hs)
    as (H1 & _ & H2 & _).
  destruct (find_gt_ge_spec [CHAR2; CHAR3; CHAR3; CHAR5] CHAR5 Hs)
    as (_ & H3 & _).
  split; [|split].
  - apply H1. split; [simpl; auto|]. split; [simpl; lia|].
    intros z [<-|[<-|[<-|[<-|[]]]]]; simpl; lia.
  - apply H2. split; [simpl; auto|]. split; [simpl; lia|].
    intros z [<-|[<-|[<-|[<-|[]]]]]; simpl; lia.
  - apply H3. intros z [<-|[<-|[<-|[<-|[]]]]]; simpl; lia.
Defined.

(** ** Hand operations: what they do to the tiles *)

(** Two sorted arrangements of the same tiles are the same list. *)
Lemma sorted_Permutation_eq (l1 : list Tile) : forall l2,
  sorted_tiles l1 -> sorted_tiles l2 -> Permutation l1 l2 -> l1 = l2.
Proof.
  induction l1 as [|x l1 IH]; intros l2 S1 S2 HP.
  - apply Permutation_nil in HP. now subst.
  - destruct l2 as [|y l2];
      [apply Permutation_sym, Permutation_nil in HP; discriminate|].
    inversion S1 as [|? ? S1' H1]; subst.
    inversion S2 as [|? ? S2' H2]; subst.
    assert (Hxy : x = y).
    { apply tile_id_inj.
      assert (Hx : In x (y :: l2))
        by (eapply Permutation_in; [exact HP | now left]).
      assert (Hy : In y (x :: l1))
        by (eapply Permutation_in; [symmetry; exact HP | now left]).
      rewrite List.Forall_forall in H1, H2. unfold tile_le in *.
      destruct Hx as [->|Hx]; [reflexivity|].
      destruct Hy as [->|Hy]; [reflexivity|].
      specialize (H1 y Hy). specialize (H2 x Hx). lia. }
    subst y. f_equal. apply IH; auto.
    now apply Permutation_cons_inv in HP.
Qed.

Lemma list_count_Permutation (t : Tile) (l1 l2 : list Tile) :
  Permutation l1 l2 -> list_count t l1 = list_count t l2.
Proof.
  intros HP. induction HP; rewrite ?list_count_cons; lia.
Qed.

Lemma sorted_repeat (t : Tile) (n : nat) : sorted_tiles (repeat t n).
Proof.
  induction n as [|n IH]; simpl; constructor; auto.
  apply List.Forall_forall. intros x Hx. apply repeat_spec in Hx. subst.
  unfold tile_le. lia.
Qed.

Lemma list_count_repeat (t : Tile) (n : nat) :
  list_count t (repeat t n) = Z.of_nat n.
Proof.
  induction n as [|n IH]; [reflexivity|].
  cbn [repeat]. rewrite list_count_cons, tile_eqb_refl, IH.
  unfold ind. lia.
Qed.

Lemma Hand_eta (h : Hand) :
  mkHand (free_tiles h) (fixed_groups h) (flowers h) (last_tile h) = h.
Proof. now destruct h. Qed.

(** Removing a tile that is present. *)
Lemma remove_present (ft : list Tile) (t : Tile) :
  sorted_tiles ft -> In t ft ->
  0 <= index ft t /\
  sorted_tiles (del_at (Z.to_nat (index ft t)) ft) /\
  Permutation ft (t :: del_at (Z.to_nat (index ft t)) ft).
Proof.
  intros Hs Hin.
  assert (H0 : 0 <= index ft t).
  { apply Z.geb_le. rewrite (index_In ft t Hs). now apply tile_in_In. }
  split; [exact H0|]. now apply index_del.
Qed.

Lemma index_absent (ft : list Tile) (t : Tile) :
  sorted_tiles ft -> ~ In t ft -> (index ft t <? 0) = true.
Proof.
  intros Hs Hn. apply Z.ltb_lt.
  destruct (index_neg_or_pos ft t) as [E|E]; [lia|].
  exfalso. apply Hn, tile_in_In. rewrite <- (index_In ft t Hs).
  now apply Z.geb_le.
Qed.

(** X4. Adding a free tile and removing it again gives back the hand;
    after the addition the tile is found in the hand and counted once
    more. *)
Theorem add_remove_free_tile (h : Hand) (t : Tile) :
  sorted_tiles (free_tiles h) ->
  remove_free_tile (add_free_tile h t) t = (Ret tt, h) /\
  Hand_contains (add_free_tile h t) t false true false false = true /\
  Hand_count (add_free_tile h t) t false true false
  = Hand_count h t false true false + 1.
Proof.
  intros Hs.
  pose proof (insort_sorted (free_tiles h) t Hs) as Hs'.
  pose proof (insort_Permutation (free_tiles h) t) as HP.
  assert (Hin : In t (insort (free_tiles h) t))
    by (eapply Permutation_in; [symmetry; exact HP | now left]).
  destruct (remove_present _ t Hs' Hin) as (H0 & Hsd & HPd).
  split; [|split].
  - unfold remove_free_tile, add_free_tile. cbn [free_tiles set_free_tiles].
    destruct (Z.ltb_spec (index (insort (free_tiles h) t) t) 0); [lia|].
    assert (E : del_at (Z.to_nat (index (insort (free_tiles h) t) t))
                       (insort (free_tiles h) t) = free_tiles h).
    { apply sorted_Permutation_eq; auto.
      apply Permutation_cons_inv with (a := t).
      transitivity (insort (free_tiles h) t); [now symmetry | exact HP]. }
    rewrite E. now destruct h.
  - rewrite Hand_contains_spec by exact Hs'.
    cbn [andb orb add_free_tile set_free_tiles free_tiles].
    replace (tile_in t (insort (free_tiles h) t)) with true
      by (symmetry; now apply tile_in_In).
    reflexivity.
  - rewrite !Hand_count_spec by assumption.
    cbn [andb add_free_tile set_free_tiles free_tiles].
    rewrite (list_count_Permutation t _ _ HP), list_count_cons,
      tile_eqb_refl.
    unfold ind. lia.
Qed.

Lemma add_remove_free_tile_witness :
  let h := mkHand [CHAR2; CHAR3; CHAR3; CHAR5] [] [] None in
  sorted_tiles (free_tiles h) /\
  remove_free_tile (add_free_tile h CHAR3) CHAR3 = (Ret tt, h) /\
  Hand_contains (add_free_tile h CHAR3) CHAR3 false true false false = true /\
  Hand_count (add_free_tile h CHAR3) CHAR3 false true false
  = Hand_count h CHAR3 false true false + 1.
Proof.
  intros h.
  assert (Hs : sorted_tiles (free_tiles h))
    by (repeat constructor; unfold tile_le; simpl; lia).
  split; [exact Hs|]. exact (add_remove_free_tile h CHAR3 Hs).
Defined.

Lemma remove_free_tile_cases (h : Hand) (t : Tile) :
  sorted_tiles (free_tiles h) ->
  (In t (free_tiles h) ->
   exists h',
     remove_free_tile h t = (Ret tt, h') /\
     Permutation (free_tiles h) (t :: free_tiles h') /\
     fixed_groups h' = fixed_groups h /\ flowers h' = flowers h /\
     last_tile h' = last_tile h) /\
  (~ In t (free_tiles h) ->
   remove_free_tile h t = (Raise "ValueError", h)).
Proof.
  intros Hs. unfold remove_free_tile. split.
  - intros Hin. destruct (remove_present _ t Hs Hin) as (H0 & _ & HP).
    destruct (Z.ltb_spec (index (free_tiles h) t) 0); [lia|].
    eexists. split; [reflexivity|]. repeat split. exact HP.
  - intros Hn. now rewrite (index_absent _ t Hs Hn).
Qed.

(** X5. [Hand.remove_free_tile] removes one copy of a tile that is among
    the free tiles and leaves the rest of the hand alone; for a tile
    that is not among them it raises [ValueError] and the hand is
    unchanged. *)
Theorem remove_free_tile_spec (h : Hand) (t : Tile) :
  sorted_tiles (free_tiles h) ->
  (In t (free_tiles h) ->
   exists h',
     remove_free_tile h t = (Ret tt, h') /\
     Permutation (free_tiles h) (t :: free_tiles h') /\
     fixed_groups h' = fixed_groups h /\ flowers h' = flowers h /\
     last_tile h' = last_tile h) /\
  (~ In t (free_tiles h) ->
   remove_free_tile h t = (Raise "ValueError", h)).
Proof. apply remove_free_tile_cases. Qed.

Lemma remove_free_tile_spec_witness :
  let h := mkHand [CHAR2; CHAR3; CHAR3; CHAR5] [] [PLUM] (Some EAST) in
  sorted_tiles (free_tiles h) /\
  remove_free_tile h CHAR4 = (Raise "ValueError", h).
Proof.
  intros h.
  assert (Hs : sorted_tiles (free_tiles h))
    by (repeat constructor; unfold tile_le; simpl; lia).
  split; [exact Hs|]. apply (remove_free_tile_spec h CHAR4 Hs).
  simpl. intros [H|[H|[H|[H|[]]]]]; discriminate H.
Defined.

Lemma opt_tile_eqb_Some (o : option Tile) (t : Tile) :
  opt_tile_eqb o (Some t) = true <-> o = Some t.
Proof.
  destruct o as [x|]; simpl; [|split; discriminate].
  rewrite tile_eqb_eq. split; congruence.
Qed.

(** X6. [Hand.discard] of a tile the hand contains (as free tile or
    last tile) succeeds: the hand loses exactly that tile, the last
    tile joins the free tiles, and melds and flowers are untouched. For
    a tile the hand does not contain it raises [ValueError] and the
    hand is unchanged. *)
Theorem Hand_discard_spec (h : Hand) (t : Tile) :
  sorted_tiles (free_tiles h) ->
  (Hand_contains h t true true false false = true ->
   exists h',
     Hand_discard h (Some t) = (Ret tt, h') /\
     last_tile h' = None /\
     Permutation (held h) (t :: held h') /\
     sorted_tiles (free_tiles h') /\
     fixed_groups h' = fixed_groups h /\ flowers h' = flowers h) /\
  (Hand_contains h t true true false false = false ->
   Hand_discard h (Some t) = (Raise "ValueError", h)).
Proof.
  intros Hs. rewrite (Hand_contains_spec h t _ _ _ _ Hs).
  cbn [andb orb]. rewrite !orb_false_r. unfold Hand_discard.
  destruct (opt_tile_eqb (last_tile h) (Some t)) eqn:El; cbn [orb].
  - split; [|discriminate]. intros _.
    apply opt_tile_eqb_Some in El.
    eexists. split; [reflexivity|]. split; [reflexivity|].
    unfold held. cbn [set_last_tile free_tiles last_tile].
    rewrite El, app_nil_r. split.
    { rewrite Permutation_app_comm. reflexivity. }
    auto.
  - destruct (remove_free_tile_cases h t Hs) as [Hyes Hno]. split.
    + intros Hin. apply tile_in_In in Hin.
      destruct (Hyes Hin) as (h1 & E1 & HP & Hfg & Hfl & Hlt).
      rewrite E1.
      assert (Hs1 : sorted_tiles (free_tiles h1)).
      { pose proof (remove_free_tile_sorted h t Hs) as H.
        now rewrite E1 in H. }
      eexists. split; [reflexivity|]. unfold move_last_tile, held.
      rewrite Hlt.
      destruct (last_tile h) as [l|] eqn:Ell;
        cbn [snd set_last_tile add_free_tile set_free_tiles free_tiles
             last_tile fixed_groups flowers].
      * split; [reflexivity|]. rewrite app_nil_r. split.
        { rewrite (insort_Permutation (free_tiles h1) l), HP.
          rewrite (Permutation_app_comm _ [l]). simpl.
          apply perm_swap. }
        split; [now apply insort_sorted | auto].
      * split; [exact Hlt|]. rewrite Hlt, !app_nil_r. auto.
    + intros Hn. rewrite Hno; [reflexivity|].
      intros Hin. apply tile_in_In in Hin.
      rewrite Hin in Hn. discriminate Hn.
Qed.

Lemma Hand_discard_spec_witness :
  let h := mkHand [CHAR2; CHAR3; CHAR3; CHAR5] [] [] (Some CHAR4) in
  sorted_tiles (free_tiles h) /\
  Hand_contains h CHAR3 true true false false = true /\
  exists h',
    Hand_discard h (Some CHAR3) = (Ret tt, h') /\
    last_tile h' = None /\
    Permutation (held h) (CHAR3 :: held h') /\
    sorted_tiles (free_tiles h') /\
    fixed_groups h' = fixed_groups h /\ flowers h' = flowers h.
Proof.
  intros h.
  assert (Hs : sorted_tiles (free_tiles h))
    by (repeat constructor; unfold tile_le; simpl; lia).
  split; [exact Hs|]. split; [reflexivity|].
  apply (Hand_discard_spec h CHAR3 Hs). reflexivity.
Defined.

Lemma move_flowers_fold (l : list Tile) : forall h,
  fold_left (fun acc t => if is_general_flower t then add_flower acc t
                          else acc) l h
  = set_flowers h (flowers h ++ List.filter is_general_flower l).
Proof.
  induction l as [|x l IH]; intros h; cbn [fold_left List.filter].
  - rewrite app_nil_r. now destruct h.
  - rewrite IH. destruct (is_general_flower x).
    + unfold add_flower, set_flowers.
      cbn [free_tiles fixed_groups flowers last_tile].
      now rewrite <- app_assoc.
    + reflexivity.
Qed.

Lemma filter_filter_neg {A : Type} (f : A -> bool) (l : list A) :
  List.filter f (List.filter (fun x => negb (f x)) l) = [].
Proof.
  induction l as [|x l IH]; [reflexivity|]. cbn [List.filter].
  destruct (f x) eqn:E; cbn [negb List.filter]; [exact IH|].
  rewrite E. exact IH.
Qed.

Lemma filter_idem {A : Type} (f : A -> bool) (l : list A) :
  List.filter f (List.filter f l) = List.filter f l.
Proof.
  induction l as [|x l IH]; [reflexivity|]. cbn [List.filter].
  destruct (f x) eqn:E; cbn [List.filter]; [rewrite E, IH|]; auto.
Qed.

Lemma filter_split_Permutation {A : Type} (f : A -> bool) (l : list A) :
  Permutation l (List.filter (fun x => negb (f x)) l ++ List.filter f l).
Proof.
  induction l as [|x l IH]; [reflexivity|]. cbn [List.filter].
  destruct (f x); cbn [negb].
  - rewrite <- Permutation_middle. now constructor.
  - simpl. now constructor.
Qed.

(** The flower among the last tile, if any. *)
Lemma move_flowers_eq (h : Hand) :
  move_flowers h =
  mkHand (List.filter (fun x => negb (is_general_flower x)) (free_tiles h))
         (fixed_groups h)
         (flowers h ++ List.filter is_general_flower (free_tiles h)
          ++ match last_tile h with
             | Some t => if is_general_flower t then [t] else []
             | None => []
             end)
         (match last_tile h with
          | Some t => if is_general_flower t then None else Some t
          | None => None
          end).
Proof.
  unfold move_flowers. rewrite move_flowers_fold.
  destruct h as [ft fg fl lt].
  unfold set_free_tiles, set_flowers, add_flower, set_last_tile.
  cbn [free_tiles fixed_groups flowers last_tile].
  destruct lt as [t|]; [destruct (is_general_flower t)|];
    cbn [free_tiles fixed_groups flowers last_tile];
    rewrite ?app_nil_r, <- ?app_assoc; reflexivity.
Qed.

(** X7. [Hand.move_flowers] moves every flower among the free tiles and
    the last tile to the flowers, in that order, and nothing else:
    afterwards the hand holds no flower it could discard, no tile is
    lost, and a second call changes nothing. *)
Theorem move_flowers_spec (h : Hand) :
  let h' := move_flowers h in
  Forall (fun x => is_general_flower x = false) (held h') /\
  free_tiles h'
  = List.filter (fun x => negb (is_general_flower x)) (free_tiles h) /\
  (exists moved,
     flowers h' = flowers h ++ moved /\
     Forall (fun x => is_general_flower x = true) moved /\
     Permutation (held h) (held h' ++ moved)) /\
  fixed_groups h' = fixed_groups h /\
  move_flowers h' = h'.
Proof.
  intros h'. subst h'. rewrite !move_flowers_eq.
  cbn [free_tiles fixed_groups flowers last_tile]. unfold held.
  cbn [free_tiles last_tile].
  split; [|split; [reflexivity|split; [|split; [reflexivity|]]]].
  - apply Forall_app. split.
    + apply List.Forall_forall. intros x Hx. apply filter_In in Hx.
      destruct Hx as [_ Hx]. now apply negb_true_iff in Hx.
    + destruct (last_tile h) as [t|]; [|constructor].
      destruct (is_general_flower t) eqn:E; repeat constructor. exact E.
  - eexists. split; [reflexivity|]. split.
    + apply Forall_app. split.
      * apply List.Forall_forall. intros x Hx. apply filter_In in Hx. tauto.
      * destruct (last_tile h) as [t|]; [|constructor].
        destruct (is_general_flower t) eqn:E; repeat constructor. exact E.
    + rewrite (filter_split_Permutation is_general_flower (free_tiles h))
        at 1.
      destruct (last_tile h) as [t|];
        [destruct (is_general_flower t)|];
        rewrite ?app_nil_r, <- ?app_assoc;
        try reflexivity.
      apply Permutation_app_head, Permutation_app_comm.
  - rewrite filter_idem, filter_filter_neg.
    destruct (last_tile h) as [t|]; [destruct (is_general_flower t) eqn:E|];
      cbn [app]; rewrite ?E, ?app_nil_r; reflexivity.
Qed.

(** *** Melding *)

(** Taking [n] copies of [t] out of sorted free tiles that hold [k]
    copies: the loop of [_meld] removes [min n k] copies, and fails
    exactly when [k < n]. *)
Lemma meld_remove_repeat (t : Tile) (n : nat) : forall ft,
  sorted_tiles ft ->
  exists ft',
    meld_remove ft (repeat t n)
    = (if Z.of_nat n <=? list_count t ft then Ret tt
       else Raise "ValueError", ft') /\
    sorted_tiles ft' /\
    Permutation ft
      (repeat t (Nat.min n (Z.to_nat (list_count t ft))) ++ ft').
Proof.
  induction n as [|n IH]; intros ft Hs.
  - exists ft. cbn [repeat meld_remove Nat.min app].
    pose proof (list_count_nonneg t ft).
    destruct (Z.leb_spec (Z.of_nat 0) (list_count t ft)); [auto|lia].
  - cbn [repeat meld_remove].
    destruct (in_dec Tile_eq_dec t ft) as [Hin|Hn].
    + destruct (remove_present ft t Hs Hin) as (H0 & Hsd & HP).
      destruct (Z.ltb_spec (index ft t) 0); [lia|].
      set (ft1 := del_at (Z.to_nat (index ft t)) ft) in *.
      destruct (IH ft1 Hsd) as (ft' & E & Hs' & HP').
      assert (Hc : list_count t ft = 1 + list_count t ft1).
      { rewrite (list_count_Permutation t _ _ HP), list_count_cons,
          tile_eqb_refl. reflexivity. }
      pose proof (list_count_nonneg t ft1).
      exists ft'. rewrite E. split; [|split; [exact Hs'|]].
      * f_equal.
        destruct (Z.leb_spec (Z.of_nat n) (list_count t ft1));
          destruct (Z.leb_spec (Z.of_nat (S n)) (list_count t ft));
          try reflexivity; lia.
      * rewrite Hc.
        replace (Z.to_nat (1 + list_count t ft1))
          with (S (Z.to_nat (list_count t ft1))) by lia.
        cbn [Nat.min repeat app]. rewrite HP. now constructor.
    + rewrite (index_absent ft t Hs Hn).
      rewrite (list_count_zero t ft Hn). exists ft.
      destruct (Z.leb_spec (Z.of_nat (S n)) 0); [lia|].
      split; [reflexivity|]. split; [exact Hs|].
      change (Z.to_nat 0) with 0%nat. rewrite Nat.min_0_r. reflexivity.
Qed.

Lemma py_sorted_repeat (t : Tile) (n : nat) :
  py_sorted (repeat t n) = repeat t n.
Proof.
  apply sorted_Permutation_eq;
    [apply py_sorted_sorted | apply sorted_repeat
    | apply py_sorted_Permutation].
Qed.

(** [_meld] of [n] copies of a tile with the tile itself. *)
Lemma _meld_repeat (h : Hand) (t : Tile) (n : nat) (gt : Z) :
  sorted_tiles (free_tiles h) ->
  (n = 2 \/ n = 3)%nat -> 0 <= gt <= 3 ->
  exists ft',
    sorted_tiles ft' /\
    Permutation (free_tiles h)
      (repeat t (Nat.min n (Z.to_nat (list_count t (free_tiles h)))) ++ ft') /\
    _meld h (repeat t n) t gt =
    if Z.of_nat n <=? list_count t (free_tiles h)
    then (Ret (mkTileGroup (repeat t (S n)) gt),
          mkHand ft' (fixed_groups h ++ [mkTileGroup (repeat t (S n)) gt])
                 (flowers h) (last_tile h))
    else (Raise "ValueError",
          mkHand ft' (fixed_groups h) (flowers h) (last_tile h)).
Proof.
  intros Hs Hn Hgt.
  destruct (meld_remove_repeat t n (free_tiles h) Hs) as (ft' & E & Hs' & HP).
  exists ft'. split; [exact Hs'|]. split; [exact HP|].
  unfold _meld. rewrite E.
  destruct (Z.of_nat n <=? list_count t (free_tiles h)); [|reflexivity].
  assert (Hrep : repeat t n ++ [t] = repeat t (S n)).
  { change [t] with (repeat t 1). rewrite <- repeat_app.
    f_equal. lia. }
  rewrite Hrep, py_sorted_repeat. unfold TileGroup_init.
  rewrite repeat_length, py_sorted_repeat.
  replace (negb (S n =? 3)%nat && negb (S n =? 4)%nat) with false
    by (destruct Hn as [-> | ->]; reflexivity).
  replace ((gt <? CHOW) || (gt >? KONG_CONCEALED)) with false.
  2:{ unfold CHOW, KONG_CONCEALED. symmetry. apply orb_false_iff. split.
      - apply Z.ltb_ge. lia.
      - rewrite Z.gtb_ltb. apply Z.ltb_ge. lia. }
  reflexivity.
Qed.

(** X8. [Hand.pong] succeeds exactly when [can_pong] holds: it then
    takes two copies of the tile out of the free tiles and appends the
    PONG group of three; otherwise it raises [ValueError] and the melds
    are unchanged. *)
Theorem Hand_pong_spec (h : Hand) (t : Tile) :
  sorted_tiles (free_tiles h) ->
  exists h',
    sorted_tiles (free_tiles h') /\
    flowers h' = flowers h /\ last_tile h' = last_tile h /\
    if can_pong h t then
      Hand_pong h t = (Ret (mkTileGroup [t; t; t] PONG), h') /\
      Permutation (free_tiles h) (t :: t :: free_tiles h') /\
      fixed_groups h' = fixed_groups h ++ [mkTileGroup [t; t; t] PONG]
    else
      Hand_pong h t = (Raise "ValueError", h') /\
      fixed_groups h' = fixed_groups h.
Proof.
  intros Hs.
  destruct (_meld_repeat h t 2 PONG Hs ltac:(auto) ltac:(unfold PONG; lia))
    as (ft' & Hs' & HP & E).
  pose proof (can_pong_spec h t Hs) as Hc.
  unfold Hand_pong. change [t; t] with (repeat t 2). rewrite E.
  change (Z.of_nat 2) with 2 in *.
  destruct (Z.leb_spec 2 (list_count t (free_tiles h))) as [H2|H2].
  - rewrite (proj2 Hc H2).
    exists (mkHand ft' (fixed_groups h ++ [mkTileGroup (repeat t 3) PONG])
                   (flowers h) (last_tile h)).
    split; [exact Hs'|].
    do 2 (split; [reflexivity|]). split; [reflexivity|].
    split; [|reflexivity]. cbn [free_tiles].
    replace (Nat.min 2 (Z.to_nat (list_count t (free_tiles h)))) with 2%nat
      in HP by lia.
    exact HP.
  - destruct (can_pong h t) eqn:Ec; [pose proof (proj1 Hc eq_refl); lia|].
    exists (mkHand ft' (fixed_groups h) (flowers h) (last_tile h)).
    split; [exact Hs'|]. do 2 (split; [reflexivity|]).
    split; reflexivity.
Qed.

Lemma Hand_pong_spec_witness :
  let h := mkHand [CHAR2; CHAR3; CHAR3; CHAR5] [] [] None in
  sorted_tiles (free_tiles h) /\
  exists h',
    sorted_tiles (free_tiles h') /\
    flowers h' = flowers h /\ last_tile h' = last_tile h /\
    if can_pong h CHAR3 then
      Hand_pong h CHAR3 = (Ret (mkTileGroup [CHAR3; CHAR3; CHAR3] PONG), h') /\
      Permutation (free_tiles h) (CHAR3 :: CHAR3 :: free_tiles h') /\
      fixed_groups h'
      = fixed_groups h ++ [mkTileGroup [CHAR3; CHAR3; CHAR3] PONG]
    else
      Hand_pong h CHAR3 = (Raise "ValueError", h') /\
      fixed_groups h' = fixed_groups h.
Proof.
  intros h.
  assert (Hs : sorted_tiles (free_tiles h))
    by (repeat constructor; unfold tile_le; simpl; lia).
  split; [exact Hs|]. exact (Hand_pong_spec h CHAR3 Hs).
Defined.

(** X9. [Hand.kong_from_other] succeeds exactly when [can_kong] holds:
    it then takes three copies of the tile out of the free tiles and
    appends the exposed kong of four; otherwise it raises [ValueError]
    and the melds are unchanged. *)
Theorem kong_from_other_spec (h : Hand) (t : Tile) :
  sorted_tiles (free_tiles h) ->
  exists h',
    sorted_tiles (free_tiles h') /\
    flowers h' = flowers h /\ last_tile h' = last_tile h /\
    if can_kong h t then
      kong_from_other h t
      = (Ret (mkTileGroup [t; t; t; t] KONG_EXPOSED), h') /\
      Permutation (free_tiles h) (t :: t :: t :: free_tiles h') /\
      fixed_groups h'
      = fixed_groups h ++ [mkTileGroup [t; t; t; t] KONG_EXPOSED] /\
      num_kongs h' true true = num_kongs h true true + 1
    else
      kong_from_other h t = (Raise "ValueError", h') /\
      fixed_groups h' = fixed_groups h.
Proof.
  intros Hs.
  destruct (_meld_repeat h t 3 KONG_EXPOSED Hs ltac:(auto)
              ltac:(unfold KONG_EXPOSED; lia))
    as (ft' & Hs' & HP & E).
  pose proof (can_kong_spec h t Hs) as Hc.
  unfold kong_from_other. change [t; t; t] with (repeat t 3). rewrite E.
  change (Z.of_nat 3) with 3 in *.
  destruct (Z.leb_spec 3 (list_count t (free_tiles h))) as [H3|H3].
  - rewrite (proj2 Hc H3).
    exists (mkHand ft'
              (fixed_groups h ++ [mkTileGroup (repeat t 4) KONG_EXPOSED])
              (flowers h) (last_tile h)).
    split; [exact Hs'|].
    do 2 (split; [reflexivity|]). split; [reflexivity|].
    split; [|split; [reflexivity|]].
    + cbn [free_tiles].
      replace (Nat.min 3 (Z.to_nat (list_count t (free_tiles h)))) with 3%nat
        in HP by lia.
      exact HP.
    + unfold num_kongs. cbn [fixed_groups]. rewrite fold_left_app.
      reflexivity.
  - destruct (can_kong h t) eqn:Ec; [pose proof (proj1 Hc eq_refl); lia|].
    exists (mkHand ft' (fixed_groups h) (flowers h) (last_tile h)).
    split; [exact Hs'|]. do 2 (split; [reflexivity|]).
    split; reflexivity.
Qed.

Lemma kong_from_other_spec_witness :
  let h := mkHand [CHAR2; CHAR3; CHAR3; CHAR3] [] [] None in
  sorted_tiles (free_tiles h) /\
  exists h',
    sorted_tiles (free_tiles h') /\
    flowers h' = flowers h /\ last_tile h' = last_tile h /\
    if can_kong h CHAR3 then
      kong_from_other h CHAR3
      = (Ret (mkTileGroup [CHAR3; CHAR3; CHAR3; CHAR3] KONG_EXPOSED), h') /\
      Permutation (free_tiles h) (CHAR3 :: CHAR3 :: CHAR3 :: free_tiles h') /\
      fixed_groups h'
      = fixed_groups h
        ++ [mkTileGroup [CHAR3; CHAR3; CHAR3; CHAR3] KONG_EXPOSED] /\
      num_kongs h' true true = num_kongs h true true + 1
    else
      kong_from_other h CHAR3 = (Raise "ValueError", h') /\
      fixed_groups h' = fixed_groups h.
Proof.
  intros h.
  assert (Hs : sorted_tiles (free_tiles h))
    by (repeat constructor; unfold tile_le; simpl; lia).
  split; [exact Hs|]. exact (kong_from_other_spec h CHAR3 Hs).
Defined.

(** X10. A failed meld is not undone: when the free tiles hold fewer
    copies than [Hand.pong] or [Hand.kong_from_other] needs, the call
    raises [ValueError] after it has removed every copy it found. *)
Theorem failed_meld_removes_copies (h : Hand) (t : Tile) :
  sorted_tiles (free_tiles h) ->
  (list_count t (free_tiles h) < 2 ->
   exists h',
     Hand_pong h t = (Raise "ValueError", h') /\
     ~ In t (free_tiles h') /\
     Permutation (free_tiles h)
       (repeat t (Z.to_nat (list_count t (free_tiles h))) ++ free_tiles h')) /\
  (list_count t (free_tiles h) < 3 ->
   exists h',
     kong_from_other h t = (Raise "ValueError", h') /\
     ~ In t (free_tiles h') /\
     Permutation (free_tiles h)
       (repeat t (Z.to_nat (list_count t (free_tiles h))) ++ free_tiles h')).
Proof.
  intros Hs.
  assert (Hgen : forall n gt, (n = 2 \/ n = 3)%nat -> 0 <= gt <= 3 ->
            list_count t (free_tiles h) < Z.of_nat n ->
            exists h',
              _meld h (repeat t n) t gt = (Raise "ValueError", h') /\
              ~ In t (free_tiles h') /\
              Permutation (free_tiles h)
                (repeat t (Z.to_nat (list_count t (free_tiles h)))
                 ++ free_tiles h')).
  { intros n gt Hn Hgt Hlt.
    destruct (_meld_repeat h t n gt Hs Hn Hgt) as (ft' & Hs' & HP & E).
    pose proof (list_count_nonneg t (free_tiles h)) as Hnn.
    rewrite E. destruct (Z.leb_spec (Z.of_nat n) (list_count t (free_tiles h)));
      [lia|].
    replace (Nat.min n (Z.to_nat (list_count t (free_tiles h))))
      with (Z.to_nat (list_count t (free_tiles h))) in HP by lia.
    eexists. split; [reflexivity|]. cbn [free_tiles]. split; [|exact HP].
    intros Hin. apply list_count_pos in Hin.
    pose proof (list_count_Permutation t _ _ HP) as Hc.
    rewrite list_count_app, list_count_repeat in Hc. lia. }
  split; intros Hlt.
  - apply (Hgen 2%nat PONG); [auto | unfold PONG; lia | exact Hlt].
  - apply (Hgen 3%nat KONG_EXPOSED);
      [auto | unfold KONG_EXPOSED; lia | exact Hlt].
Qed.

Lemma failed_meld_removes_copies_witness :
  let h := mkHand [CHAR2; CHAR3; CHAR5] [] [] None in
  sorted_tiles (free_tiles h) /\
  list_count CHAR3 (free_tiles h) < 2 /\
  exists h',
    Hand_pong h CHAR3 = (Raise "ValueError", h') /\
    ~ In CHAR3 (free_tiles h') /\
    Permutation (free_tiles h)
      (repeat CHAR3 (Z.to_nat (list_count CHAR3 (free_tiles h)))
       ++ free_tiles h').
Proof.
  intros h.
  assert (Hs : sorted_tiles (free_tiles h))
    by (repeat constructor; unfold tile_le; simpl; lia).
  split; [exact Hs|]. split; [vm_compute; reflexivity|].
  apply (failed_meld_removes_copies h CHAR3 Hs). vm_compute. reflexivity.
Defined.

(** The id of a numeric tile from its cell. *)
Lemma cell_of_id (t : Tile) (k : nat) (j : Z) :
  cell_of t = Some (k, j) -> (k < 3)%nat ->
  tile_id t = 256 * 2 ^ Z.of_nat k + j.
Proof.
  intros H Hk. destruct t; cbv in H; try discriminate H;
    injection H as <- <-; try reflexivity; lia.
Qed.

Lemma is_run_increasing (x y z : Tile) :
  is_run [x; y; z] ->
  tile_id y = tile_id x + 1 /\ tile_id z = tile_id x + 2.
Proof.
  intros H. apply run_char in H as (k & j & Hk & Hx & Hy & Hz).
  rewrite (cell_of_id x k j Hx Hk), (cell_of_id y k _ Hy Hk),
    (cell_of_id z k _ Hz Hk). lia.
Qed.

Lemma is_run_sorted (x y z : Tile) :
  is_run [x; y; z] -> sorted_tiles [x; y; z].
Proof.
  intros H. apply is_run_increasing in H as [Hy Hz].
  repeat constructor; unfold tile_le; lia.
Qed.

(** X11. Every pair returned by [Hand.get_chow_combs] can be chowed:
    [Hand.chow] with that pair succeeds, takes the two tiles out of the
    free tiles and appends a CHOW group that is a run holding the
    incoming tile. *)
Theorem chow_from_combs (h : Hand) (t a b : Tile)
    (combs : list (Tile * Tile)) :
  sorted_tiles (free_tiles h) ->
  get_chow_combs h t = Ret combs ->
  In (a, b) combs ->
  exists g h',
    Hand_chow h [a; b] t = (Ret g, h') /\
    group_type g = CHOW /\
    is_run (tiles g) /\ Permutation (tiles g) [a; b; t] /\
    Permutation (free_tiles h) (a :: b :: free_tiles h') /\
    sorted_tiles (free_tiles h') /\
    fixed_groups h' = fixed_groups h ++ [g] /\
    flowers h' = flowers h /\ last_tile h' = last_tile h.
Proof.
  intros Hs Hc Hin.
  destruct (get_chow_combs_spec h t Hs) as (combs' & E & Hspec).
  rewrite Hc in E. injection E as <-.
  apply Hspec in Hin as (Ha & Hb & Hshape).
  assert (Hrun : exists l, is_run l /\ Permutation l [a; b; t] /\
                           sorted_tiles l /\ a <> b).
  { destruct Hshape as [H|[H|H]];
      pose proof (is_run_increasing _ _ _ H) as [H1 H2];
      pose proof (is_run_sorted _ _ _ H) as Hsr;
      (eexists; split; [exact H|]; split; [|split; [exact Hsr|]]);
      try (intros ->; lia).
    - reflexivity.
    - apply perm_skip, perm_swap.
    - rewrite perm_swap. apply perm_skip, perm_swap. }
  destruct Hrun as (l & Hl & HPl & Hsl & Hab).
  destruct (remove_present _ a Hs Ha) as (H0 & Hs1 & HP1).
  set (ft1 := del_at (Z.to_nat (index (free_tiles h) a)) (free_tiles h)) in *.
  assert (Hb1 : In b ft1).
  { eapply Permutation_in in Hb; [|exact HP1].
    destruct Hb as [Hb|Hb]; [congruence | exact Hb]. }
  destruct (remove_present _ b Hs1 Hb1) as (H0' & Hs2 & HP2).
  set (ft2 := del_at (Z.to_nat (index ft1 b)) ft1) in *.
  assert (Hg : py_sorted (py_sorted ([a; b] ++ [t])) = l).
  { apply sorted_Permutation_eq; [apply py_sorted_sorted | exact Hsl|].
    rewrite !py_sorted_Permutation. now symmetry. }
  exists (mkTileGroup l CHOW),
    (mkHand ft2 (fixed_groups h ++ [mkTileGroup l CHOW]) (flowers h)
            (last_tile h)).
  split.
  - unfold Hand_chow, _meld. cbn [meld_remove].
    destruct (Z.ltb_spec (index (free_tiles h) a) 0); [lia|]. fold ft1.
    destruct (Z.ltb_spec (index ft1 b) 0); [lia|]. fold ft2.
    unfold TileGroup_init.
    assert (Hlen : length (py_sorted ([a; b] ++ [t])) = 3%nat)
      by (rewrite (Permutation_length (py_sorted_Permutation _));
          reflexivity).
    rewrite Hlen, Hg. reflexivity.
  - cbn [group_type tiles free_tiles fixed_groups flowers last_tile].
    repeat split; auto.
    rewrite HP1. apply perm_skip. exact HP2.
Qed.

Lemma chow_from_combs_witness :
  let h := mkHand [CHAR2; CHAR3; CHAR5; CHAR6] [] [] None in
  exists g h',
    Hand_chow h [CHAR3; CHAR5] CHAR4 = (Ret g, h') /\
    group_type g = CHOW /\
    is_run (tiles g) /\ Permutation (tiles g) [CHAR3; CHAR5; CHAR4] /\
    Permutation (free_tiles h) (CHAR3 :: CHAR5 :: free_tiles h') /\
    sorted_tiles (free_tiles h') /\
    fixed_groups h' = fixed_groups h ++ [g] /\
    flowers h' = flowers h /\ last_tile h' = last_tile h.
Proof.
  intros h.
  apply (chow_from_combs h CHAR4 CHAR3 CHAR5
           [(CHAR2, CHAR3); (CHAR3, CHAR5); (CHAR5, CHAR6)]).
  - repeat constructor; unfold tile_le; simpl; lia.
  - reflexivity.
  - simpl. auto.
Defined.

(** *** Kongs from the drawn tile *)

Lemma fold_left_shift (f : Z -> TileGroup -> Z) (w : TileGroup -> Z)
    (gs : list TileGroup) :
  (forall c g, f c g = c + w g) ->
  forall c, fold_left f gs c = c + fold_left f gs 0.
Proof.
  intros Hf. induction gs as [|g gs IH]; intros c; cbn [fold_left]; [lia|].
  rewrite IH, (IH (f 0 g)), !Hf. lia.
Qed.

Lemma num_kongs_cons (g : TileGroup) (gs : list TileGroup) ft fl lt :
  num_kongs (mkHand ft (g :: gs) fl lt) true true
  = kong_weight g + num_kongs (mkHand ft gs fl lt) true true.
Proof.
  unfold num_kongs. cbn [fixed_groups fold_left andb].
  rewrite (fold_left_shift _ kong_weight).
  { unfold kong_weight. destruct (group_type g =? KONG_EXPOSED);
      destruct (group_type g =? KONG_CONCEALED); lia. }
  intros c x. unfold kong_weight.
  destruct (group_type x =? KONG_EXPOSED);
    destruct (group_type x =? KONG_CONCEALED); lia.
Qed.

Lemma num_pongs_cons (g : TileGroup) (gs : list TileGroup) ft fl lt :
  num_pongs (mkHand ft (g :: gs) fl lt)
  = pong_weight g + num_pongs (mkHand ft gs fl lt).
Proof.
  unfold num_pongs. cbn [fixed_groups fold_left].
  rewrite (fold_left_shift _ pong_weight).
  { unfold pong_weight. destruct (group_type g =? PONG); lia. }
  intros c x. unfold pong_weight. destruct (group_type x =? PONG); lia.
Qed.

Lemma tiles_eqb_eq (a : list Tile) : forall b,
  tiles_eqb a b = true <-> a = b.
Proof.
  induction a as [|x a IH]; intros [|y b]; cbn [tiles_eqb];
    try (split; [discriminate | discriminate]); [tauto|].
  rewrite andb_true_iff, tile_eqb_eq, IH. split.
  - intros [-> ->]. reflexivity.
  - intros [= -> ->]. auto.
Qed.

Lemma append_to_pong_counts (lt : Tile) (gs : list TileGroup) (g : TileGroup)
    ft fl l1 l2 :
  find (is_pong_of lt) gs = Some g ->
  tiles g = [lt; lt; lt] /\ group_type g = PONG /\
  length (append_to_pong gs lt) = length gs /\
  num_kongs (mkHand ft (append_to_pong gs lt) fl l1) true true
  = num_kongs (mkHand ft gs fl l2) true true + 1 /\
  num_pongs (mkHand ft (append_to_pong gs lt) fl l1)
  = num_pongs (mkHand ft gs fl l2) - 1.
Proof.
  induction gs as [|x gs IH]; [discriminate|].
  cbn [find append_to_pong]. destruct (is_pong_of lt x) eqn:E.
  - intros [= <-]. unfold is_pong_of in E.
    apply andb_true_iff in E as [Et El]. apply Z.eqb_eq in Et.
    assert (Htl : tiles x = [lt; lt; lt]) by now apply tiles_eqb_eq.
    split; [exact Htl|]. split; [exact Et|]. split; [reflexivity|].
    rewrite !num_kongs_cons, !num_pongs_cons.
    unfold kong_weight, pong_weight. cbn [group_type]. rewrite Et.
    change (PONG =? KONG_EXPOSED) with false.
    change (PONG =? KONG_CONCEALED) with false.
    change (KONG_EXPOSED =? KONG_EXPOSED) with true.
    change (KONG_EXPOSED =? PONG) with false.
    change (PONG =? PONG) with true.
    unfold num_kongs, num_pongs. cbn [fixed_groups].
    split; lia.
  - intros Hf. destruct (IH Hf) as (H1 & H2 & H3 & H4 & H5).
    split; [exact H1|]. split; [exact H2|].
    split; [cbn [length]; now rewrite H3|].
    rewrite !num_kongs_cons, !num_pongs_cons, H4, H5. lia.
Qed.

(** X12. [Hand.kong_from_self] succeeds exactly when [can_self_kong]
    holds. With a melded triplet of the drawn tile the triplet becomes
    an exposed kong of four and the free tiles are untouched; otherwise
    three free copies and the drawn tile form a concealed kong. Without
    a drawn tile, or when neither kong is possible, it raises
    [ValueError]. *)
Theorem kong_from_self_spec (h : Hand) :
  sorted_tiles (free_tiles h) ->
  (can_appended_kong h = true ->
   exists lt h',
     last_tile h = Some lt /\
     kong_from_self h
     = (Ret (mkTileGroup [lt; lt; lt; lt] KONG_EXPOSED), h') /\
     last_tile h' = None /\ free_tiles h' = free_tiles h /\
     length (fixed_groups h') = length (fixed_groups h) /\
     num_kongs h' true true = num_kongs h true true + 1 /\
     num_pongs h' = num_pongs h - 1) /\
  (can_appended_kong h = false -> can_concealed_kong h = true ->
   exists lt h',
     last_tile h = Some lt /\
     kong_from_self h
     = (Ret (mkTileGroup [lt; lt; lt; lt] KONG_CONCEALED), h') /\
     last_tile h' = None /\
     Permutation (free_tiles h) (lt :: lt :: lt :: free_tiles h') /\
     fixed_groups h'
     = fixed_groups h ++ [mkTileGroup [lt; lt; lt; lt] KONG_CONCEALED]) /\
  (can_self_kong h = false ->
   exists h', kong_from_self h = (Raise "ValueError", h') /\
              last_tile h' = last_tile h /\
              fixed_groups h' = fixed_groups h).
Proof.
  intros Hs. unfold can_self_kong, can_appended_kong, can_concealed_kong,
               kong_from_self.
  destruct (last_tile h) as [lt|] eqn:Elt.
  2:{ split; [discriminate|]. split; [discriminate|].
      intros _. exists h. rewrite Elt. auto. }
  destruct (_find_pong_group h lt) as [g|] eqn:Ef.
  - split; [|split; [discriminate|discriminate]]. intros _.
    unfold _find_pong_group in Ef.
    destruct h as [ft fg fl l0]. cbn [fixed_groups last_tile] in *.
    destruct (append_to_pong_counts lt fg g ft fl None l0 Ef)
      as (Ht & Hg & Hlen & Hk & Hp).
    exists lt. eexists. split; [reflexivity|].
    split; [rewrite Ht; reflexivity|].
    unfold set_last_tile, set_fixed_groups.
    cbn [free_tiles fixed_groups flowers last_tile].
    repeat split; assumption.
  - destruct (_meld_repeat h lt 3 KONG_CONCEALED Hs ltac:(auto)
                ltac:(unfold KONG_CONCEALED; lia))
      as (ft' & Hs' & HP & E).
    pose proof (can_kong_spec h lt Hs) as Hc.
    change [lt; lt; lt] with (repeat lt 3). rewrite E.
    change (Z.of_nat 3) with 3 in *.
    split; [discriminate|].
    destruct (Z.leb_spec 3 (list_count lt (free_tiles h))) as [H3|H3].
    + split.
      * intros _ _. exists lt. eexists. split; [reflexivity|].
        split; [reflexivity|].
        cbn [set_last_tile free_tiles fixed_groups flowers last_tile].
        split; [reflexivity|]. split; [|reflexivity].
        replace (Nat.min 3 (Z.to_nat (list_count lt (free_tiles h))))
          with 3%nat in HP by lia.
        exact HP.
      * cbn [orb]. intros Hk. rewrite (proj2 Hc H3) in Hk. discriminate Hk.
    + split.
      * intros _ Hk. apply Hc in Hk. lia.
      * intros _. eexists. split; [reflexivity|].
        cbn [last_tile fixed_groups]. auto.
Qed.

Lemma kong_from_self_spec_witness :
  let h := mkHand [CHAR2; EAST]
                  [mkTileGroup [CHAR3; CHAR3; CHAR3] PONG] []
                  (Some CHAR3) in
  sorted_tiles (free_tiles h) /\
  can_appended_kong h = true /\
  exists lt h',
    last_tile h = Some lt /\
    kong_from_self h
    = (Ret (mkTileGroup [lt; lt; lt; lt] KONG_EXPOSED), h') /\
    last_tile h' = None /\ free_tiles h' = free_tiles h /\
    length (fixed_groups h') = length (fixed_groups h) /\
    num_kongs h' true true = num_kongs h true true + 1 /\
    num_pongs h' = num_pongs h - 1.
Proof.
  intros h.
  assert (Hs : sorted_tiles (free_tiles h))
    by (repeat constructor; unfold tile_le; simpl; lia).
  split; [exact Hs|]. split; [reflexivity|].
  apply (kong_from_self_spec h Hs). reflexivity.
Defined.

(** *** Ready hands and winning tiles *)

Lemma existsb_filter_nil {A : Type} (f : A -> bool) (l : list A) :
  existsb f l = true <-> List.filter f l <> [].
Proof.
  induction l as [|x l IH]; cbn [existsb List.filter].
  - split; [discriminate | congruence].
  - destruct (f x); cbn [orb]; [split; [discriminate | reflexivity]|].
    exact IH.
Qed.

(** X13. [Hand.ready] is true exactly when [Hand.waiting_tiles] is not
    empty, in whatever order the tiles are enumerated. *)
Theorem Hand_ready_iff_waiting (all_values : list Tile) (h : Hand) :
  Hand_ready all_values h = true <-> Hand_waiting_tiles all_values h <> [].
Proof.
  unfold Hand_ready, Hand_waiting_tiles.
  destruct (waiting_tiles_fold h all_values [] ltac:(constructor))
    as (_ & HP).
  cbn [app] in HP. rewrite existsb_filter_nil. split; intros H E.
  - rewrite E in HP. apply Permutation_nil in HP. contradiction.
  - rewrite E in HP. apply Permutation_sym, Permutation_nil in HP.
    contradiction.
Qed.

(** X14. [Hand.can_win] depends only on the multiset of the free tiles
    and the candidate that are not flowers: melded groups, collected
    flowers, flower tiles among the free tiles, and which of the tiles
    is the candidate make no difference. *)
Theorem can_win_same_tiles (h1 h2 : Hand) (t1 t2 : Tile) :
  Permutation (non_flowers (t1 :: free_tiles h1))
              (non_flowers (t2 :: free_tiles h2)) ->
  can_win h1 (Some t1) = can_win h2 (Some t2).
Proof.
  intros HP.
  assert (H : can_win h1 (Some t1) = true <-> can_win h2 (Some t2) = true).
  { rewrite !can_win_tiles. split; intros (n & Hn); exists n.
    - eapply melds_and_pair_Permutation; [exact HP | exact Hn].
    - eapply melds_and_pair_Permutation; [symmetry; exact HP | exact Hn]. }
  destruct (can_win h1 (Some t1)), (can_win h2 (Some t2)); try reflexivity.
  - symmetry. now apply H.
  - now apply H.
Qed.

Lemma can_win_same_tiles_witness :
  can_win (mkHand [CHAR1; CHAR2; CHAR3; EAST; PLUM] [] [] None) (Some EAST)
  = can_win (mkHand [CHAR1; CHAR3; EAST; EAST]
                    [mkTileGroup [RED; RED; RED] PONG] [ORCHID] None)
            (Some CHAR2).
Proof.
  apply can_win_same_tiles. vm_compute.
  apply (Permutation_cons_app [CHAR2; CHAR1; CHAR3] [EAST] EAST).
  apply perm_swap.
Defined.

(** ** The wall and the turn *)

(** X15. A wall reset with any choice of the five suit flags holds
    exactly [GameSettings.total_tiles()] tiles for the same flags: four
    copies of every tile of an enabled numeric or honor suit, one copy
    of every flower when flowers are enabled, and nothing else. *)
Theorem Wall_reset_total (chars circles bamboos honors flowers : bool) :
  num_tiles (Wall_reset chars circles bamboos honors flowers)
  = total_tiles bamboos chars circles flowers honors /\
  forall t,
    count_occ Tile_eq_dec
              (Wall_reset chars circles bamboos honors flowers) t
    = if in_wall chars circles bamboos honors flowers t
      then if is_general_flower t then 1%nat else 4%nat
      else 0%nat.
Proof.
  split.
  - destruct chars, circles, bamboos, honors, flowers; vm_compute;
      reflexivity.
  - intros t.
    destruct chars, circles, bamboos, honors, flowers; destruct t;
      vm_compute; reflexivity.
Qed.

(** The tile sets of [Tile] are the sorted catalogue cut by suit. *)
Example Tile_sets_catalog :
  CHARS Tile_sets ++ CIRCLES Tile_sets ++ BAMBOOS Tile_sets
  ++ HONORS Tile_sets ++ FLOWERS Tile_sets = catalog /\
  WINDS Tile_sets ++ DRAGONS Tile_sets = HONORS Tile_sets.
Proof. split; reflexivity. Qed.

(** X16. [GameContext.next_turn] hands the turn to the next seat and
    remembers the previous one; from a seat of the table four calls
    come back to it, with the seat before it as the last player.
    Nothing but the two turn fields changes. *)
Theorem next_turn_cycle (c : GameContext) (s : Z) :
  cur_player_idx c = Some s -> 0 <= s < 4 ->
  cur_player_idx (next_turn c) = Some ((s + 1) mod 4) /\
  last_player_idx (next_turn c) = Some s /\
  cur_player_idx (next_turn (next_turn (next_turn (next_turn c)))) = Some s /\
  last_player_idx (next_turn (next_turn (next_turn (next_turn c))))
  = Some ((s + 3) mod 4) /\
  set_turn_fields (next_turn c) (cur_player_idx c) (last_player_idx c) = c.
Proof.
  intros Hc Hs.
  assert (Hstep : forall c' x, cur_player_idx c' = Some x ->
            cur_player_idx (next_turn c') = Some ((x + 1) mod 4) /\
            last_player_idx (next_turn c') = Some x).
  { intros c' x H. unfold next_turn, set_turn. rewrite H. auto. }
  destruct (Hstep c s Hc) as [H1 L1].
  destruct (Hstep _ _ H1) as [H2 L2].
  destruct (Hstep _ _ H2) as [H3 L3].
  destruct (Hstep _ _ H3) as [H4 L4].
  split; [exact H1|]. split; [exact L1|].
  assert (Hm : (((s + 1) mod 4 + 1) mod 4 + 1) mod 4 = (s + 3) mod 4 /\
               ((((s + 1) mod 4 + 1) mod 4 + 1) mod 4 + 1) mod 4 = s).
  { assert (Hd : s = 0 \/ s = 1 \/ s = 2 \/ s = 3) by lia.
    destruct Hd as [->|[->|[->| ->]]]; split; reflexivity. }
  destruct Hm as [M3 M4].
  split; [rewrite H4, M4; reflexivity|].
  split; [rewrite L4, M3; reflexivity|].
  unfold next_turn, set_turn. destruct c; cbn in *. subst. reflexivity.
Qed.

Lemma next_turn_cycle_witness :
  cur_player_idx (next_turn ctx_wall_tie) = Some ((3 + 1) mod 4) /\
  last_player_idx (next_turn ctx_wall_tie) = Some 3 /\
  cur_player_idx
    (next_turn (next_turn (next_turn (next_turn ctx_wall_tie)))) = Some 3 /\
  last_player_idx
    (next_turn (next_turn (next_turn (next_turn ctx_wall_tie))))
  = Some ((3 + 3) mod 4) /\
  set_turn_fields (next_turn ctx_wall_tie) (cur_player_idx ctx_wall_tie)
                  (last_player_idx ctx_wall_tie) = ctx_wall_tie.
Proof.
  apply (next_turn_cycle ctx_wall_tie 3); [reflexivity | lia].
Defined.

(** ** Discarding on the context and taking the discard back *)

Lemma py_index_range {A : Type} (l : list A) (i : Z) (x : A) :
  py_index l i = Ret x ->
  - Z.of_nat (length l) <= i < Z.of_nat (length l).
Proof.
  unfold py_index. cbv zeta.
  destruct (Z.ltb_spec i 0) as [Hn|Hn].
  - destruct (Z.ltb_spec (i + Z.of_nat (length l)) 0); [discriminate|].
    intros _. lia.
  - destruct (Z.ltb_spec i 0); [lia|]. cbn [orb].
    destruct (Z.geb_spec i (Z.of_nat (length l))); [discriminate|].
    intros _. lia.
Qed.

Lemma seat_cases (s : Z) :
  -4 <= s < 4 ->
  s = -4 \/ s = -3 \/ s = -2 \/ s = -1 \/ s = 0 \/ s = 1 \/ s = 2 \/ s = 3.
Proof. lia. Qed.

(** The position read and written by a valid Python index. *)
Lemma py_index_pos {A : Type} (l : list A) (i : Z) :
  - Z.of_nat (length l) <= i < Z.of_nat (length l) ->
  let k := py_pos (length l) i in
  (k < length l)%nat /\
  py_index l i = match nth_error l k with
                 | Some x => Ret x
                 | None => Raise "IndexError"
                 end /\
  forall y, py_set l i y = Ret (list_set l k y).
Proof.
  intros Hi k. subst k. unfold py_index, py_set, py_pos.
  set (j := if i <? 0 then i + Z.of_nat (length l) else i).
  assert (Hj : 0 <= j < Z.of_nat (length l))
    by (unfold j; destruct (Z.ltb_spec i 0); lia).
  destruct (Z.ltb_spec j 0); [lia|].
  destruct (Z.geb_spec j (Z.of_nat (length l))); [lia|].
  cbn [orb]. split; [lia|]. split; reflexivity.
Qed.

Lemma py_pos_mod4 (i : Z) :
  -4 <= i < 4 -> py_pos 4 ((i + 0) mod 4) = py_pos 4 i.
Proof.
  intros H.
  destruct (seat_cases i H) as [->|[->|[->|[->|[->|[->|[->| ->]]]]]]];
    reflexivity.
Qed.

Lemma nth_error_list_set {A : Type} (l : list A) (k : nat) (y : A) :
  (k < length l)%nat -> nth_error (list_set l k y) k = Some y.
Proof.
  revert k; induction l as [|x l IH]; intros [|k] Hk; cbn in *;
    try lia; [reflexivity|]. apply IH. lia.
Qed.

Lemma list_set_twice {A : Type} (l : list A) (k : nat) (y z : A) :
  list_set (list_set l k y) k z = list_set l k z.
Proof.
  revert k; induction l as [|x l IH]; intros [|k]; cbn; auto.
  now rewrite IH.
Qed.

Lemma list_set_same {A : Type} (l : list A) (k : nat) (x : A) :
  nth_error l k = Some x -> list_set l k x = l.
Proof.
  revert k; induction l as [|y l IH]; intros [|k] H; cbn in *;
    try discriminate; [congruence|]. now rewrite IH.
Qed.

(** X17. After [GameContext.discard] of a tile by the current player of
    a four-seat table, the tile is the last discarded one, and
    [remove_last_discarded] returns it and puts the discard pool and
    every player's discards back as they were before the discard. The
    hands stay as the discard left them. *)
Theorem discard_remove_round_trip (c c1 : GameContext) (t : Tile) :
  length (players c) = 4%nat ->
  GameContext_discard c t None = Ret c1 ->
  last_discarded c1 = Some t /\
  exists c2,
    remove_last_discarded c1 0 = Ret (Some t, c2) /\
    discarded_pool c2 = discarded_pool c /\
    map discarded (players c2) = map discarded (players c) /\
    map hand (players c2) = map hand (players c1) /\
    cur_player_idx c2 = cur_player_idx c.
Proof.
  intros Hlen. unfold GameContext_discard.
  destruct (cur_player_idx c) as [s|] eqn:Hcur; [|discriminate].
  cbn [ebind]. unfold get_player.
  destruct (py_index (players c) s) as [p|e] eqn:Hidx; [|discriminate].
  pose proof (py_index_range _ _ _ Hidx) as Hr.
  destruct (py_index_pos (players c) s Hr) as (Hk & Hidx' & Hset).
  rewrite Hlen in Hr, Hk, Hidx', Hset.
  set (k := py_pos 4 s) in *.
  rewrite Hidx in Hidx'.
  destruct (nth_error (players c) k) as [p'|] eqn:Hnth;
    [|discriminate]. injection Hidx' as <-.
  cbn [ebind]. unfold Player_discard.
  destruct (Hand_discard (hand p) (Some t)) as [[u|e] h'] eqn:Hd;
    [|discriminate].
  cbn [ebind]. unfold put_player. rewrite Hset. cbn [ebind].
  intros [= <-].
  set (p1 := set_discarded (set_hand p h') (discarded p ++ [t])).
  unfold last_discarded, remove_last_discarded, player_idx_at, get_player,
    put_player.
  cbn [players set_players set_discarded_pool discarded_pool cur_player_idx].
  rewrite Hcur, last_snoc. split; [reflexivity|].
  assert (Hlen1 : length (list_set (players c) k p1) = 4%nat)
    by (rewrite length_list_set; exact Hlen).
  assert (Hr1 : - Z.of_nat (length (list_set (players c) k p1))
                <= (s + 0) mod 4
                < Z.of_nat (length (list_set (players c) k p1))).
  { rewrite Hlen1. pose proof (Z.mod_pos_bound (s + 0) 4). lia. }
  destruct (py_index_pos _ _ Hr1) as (_ & Hidx1 & Hset1).
  rewrite Hlen1, (py_pos_mod4 s ltac:(simpl in Hr; lia)) in Hidx1, Hset1.
  fold k in Hidx1, Hset1.
  rewrite nth_error_list_set in Hidx1 by (rewrite Hlen; exact Hk).
  rewrite Hidx1. cbn [ebind]. rewrite rev_unit.
  unfold p1 at 1. cbn [discarded set_discarded]. rewrite rev_unit.
  rewrite tile_eqb_refl.
  cbn [players set_players set_discarded_pool discarded_pool].
  rewrite Hset1. cbn [ebind]. eexists. split; [reflexivity|].
  cbn [players set_players set_discarded_pool discarded_pool cur_player_idx].
  rewrite !rev_involutive, list_set_twice.
  split; [reflexivity|]. split; [|split; [|congruence]].
  - apply (map_list_set discarded _ _ p); [exact Hnth | reflexivity].
  - rewrite <- (list_set_twice (players c) k p1).
    apply map_list_set with (x := p1); [|reflexivity].
    apply nth_error_list_set. rewrite Hlen. exact Hk.
Qed.

Lemma discard_remove_round_trip_witness :
  let c := set_players ctx_wall_tie
             [player_of [CHAR1] []; player_of [CHAR2] [];
              player_of [CHAR3] [];
              mkPlayer (mkHand [CHAR4; EAST] [] [] (Some WEST)) [RED] None ∅]
  in
  exists c1,
    GameContext_discard c EAST None = Ret c1 /\
    last_discarded c1 = Some EAST /\
    exists c2,
      remove_last_discarded c1 0 = Ret (Some EAST, c2) /\
      discarded_pool c2 = discarded_pool c /\
      map discarded (players c2) = map discarded (players c) /\
      map hand (players c2) = map hand (players c1) /\
      cur_player_idx c2 = cur_player_idx c.
Proof.
  intros c. eexists. split; [vm_compute; reflexivity|].
  apply (discard_remove_round_trip c); [reflexivity|].
  vm_compute. reflexivity.
Defined.

(** ** Arbitration without assumptions on the answers *)

Lemma py_index_nonneg {A : Type} (l : list A) (i : Z) (x : A) :
  0 <= i -> py_index l i = Ret x -> nth_error l (Z.to_nat i) = Some x.
Proof.
  intros Hi. unfold py_index. cbv zeta.
  destruct (Z.ltb_spec i 0); [lia|].
  destruct ((i <? 0) || (i >=? Z.of_nat (length l))); [discriminate|].
  destruct (nth_error l (Z.to_nat i)); [congruence | discriminate].
Qed.

Section Soundness.

Variable viable : list (option (list string)).
Variable decisions : list (option Decision).

Lemma pending_entry (s : Z) (v : option (list string)) (d : option Decision)
    (name : string) :
  0 <= s ->
  py_index viable s = Ret v -> py_index decisions s = Ret d ->
  viable_has v name = true -> not_in_viable d v = true ->
  melder_ok viable decisions (s, None).
Proof.
  intros Hs Hv Hd Hhas Hnot. split; [exact Hs|]. cbn [fst snd].
  unfold answered.
  rewrite (py_index_nonneg _ _ _ Hs Hv), (py_index_nonneg _ _ _ Hs Hd).
  destruct v as [[|x l]|]; try discriminate Hhas.
  cbn [not_in_viable] in Hnot. apply negb_true_iff in Hnot.
  rewrite Hnot. discriminate.
Qed.

Lemma claim_entry (s : Z) (v : option (list string)) (d : option Decision)
    (name : string) :
  0 <= s ->
  py_index viable s = Ret v -> py_index decisions s = Ret d ->
  viable_has v name = true -> dec_is d name = true ->
  melder_ok viable decisions (s, Some name).
Proof.
  intros Hs Hv Hd Hhas Hdec. split; [exact Hs|]. cbn [fst snd].
  unfold claims.
  rewrite (py_index_nonneg _ _ _ Hs Hv), (py_index_nonneg _ _ _ Hs Hd).
  now rewrite Hhas, Hdec.
Qed.

Lemma win_loop_sound (seats : list Z) : forall result r,
  (forall s, In s seats -> 0 <= s) ->
  Forall (fun e => melder_ok viable decisions e /\ snd e = Some "win") result ->
  win_loop viable decisions seats result = Ret r ->
  match r with
  | inl early =>
      exists s, early = [(s, None)] /\
                melder_ok viable decisions (s, None)
  | inr res =>
      Forall (fun e => melder_ok viable decisions e /\ snd e = Some "win")
             res
  end.
Proof.
  induction seats as [|s seats IH]; intros result r Hseats Hres;
    cbn [win_loop].
  - intros [= <-]. exact Hres.
  - assert (Hs : 0 <= s) by (apply Hseats; now left).
    assert (Hrest : forall x, In x seats -> 0 <= x)
      by (intros x Hx; apply Hseats; now right).
    destruct (py_index viable s) as [v|] eqn:Ev; [|discriminate].
    cbn [ebind]. destruct (viable_has v "win") eqn:Eh; [|now apply IH].
    destruct (py_index decisions s) as [d|] eqn:Ed; [|discriminate].
    cbn [ebind]. destruct (dec_is d "win") eqn:Ew.
    + apply IH; [exact Hrest|]. apply Forall_app. split; [exact Hres|].
      constructor; [|constructor]. split; [|reflexivity].
      eapply claim_entry; eauto.
    + destruct (not_in_viable d v) eqn:En; [|now apply IH].
      intros [= <-]. exists s. split; [reflexivity|].
      eapply pending_entry; eauto.
Qed.

Lemma meld_loop_sound (name : string) (seats : list Z) : forall m,
  (forall s, In s seats -> 0 <= s) ->
  meld_loop viable decisions name seats = Ret (Some m) ->
  exists s, (m = [(s, None)] \/ m = [(s, Some name)]) /\
            Forall (melder_ok viable decisions) m.
Proof.
  induction seats as [|s seats IH]; intros m Hseats; cbn [meld_loop];
    [discriminate|].
  assert (Hs : 0 <= s) by (apply Hseats; now left).
  assert (Hrest : forall x, In x seats -> 0 <= x)
    by (intros x Hx; apply Hseats; now right).
  destruct (py_index viable s) as [v|] eqn:Ev; [|discriminate].
  cbn [ebind]. destruct (viable_has v name) eqn:Eh; [|now apply IH].
  destruct (py_index decisions s) as [d|] eqn:Ed; [|discriminate].
  cbn [ebind]. destruct (not_in_viable d v) eqn:En.
  - intros [= <-]. exists s. split; [now left|].
    constructor; [|constructor]. eapply pending_entry; eauto.
  - destruct (dec_is d name) eqn:Ew; [|now apply IH].
    intros [= <-]. exists s. split; [now right|].
    constructor; [|constructor]. eapply claim_entry; eauto.
Qed.

Lemma meld_loops_sound (names : list string) (seats : list Z) : forall m,
  (forall s, In s seats -> 0 <= s) ->
  meld_loops viable decisions names seats = Ret (Some m) ->
  exists s name,
    (m = [(s, None)] \/ (m = [(s, Some name)] /\ In name names)) /\
    Forall (melder_ok viable decisions) m.
Proof.
  induction names as [|name names IH]; intros m Hseats; cbn [meld_loops];
    [discriminate|].
  destruct (meld_loop viable decisions name seats) as [[m'|]|] eqn:E;
    cbn [ebind]; [| |discriminate].
  - intros [= <-].
    destruct (meld_loop_sound name seats m' Hseats E) as (s & Hm & Hok).
    exists s, name. split; [|exact Hok].
    destruct Hm as [Hm|Hm]; [now left | right; split; [exact Hm|now left]].
  - intros H. destruct (IH m Hseats H) as (s & n & Hm & Hok).
    exists s, n. split; [|exact Hok].
    destruct Hm as [Hm|[Hm Hn]]; [now left | right; split; [exact Hm|]].
    now right.
Qed.

(** The result of an arbitration: one seat that still has to answer;
    or the seats that claim a win; or one seat with the kong, pong or
    chow it claims. *)
Lemma select_melders_sound_gen (base_offset : Z) (m : Melders) :
  select_melders viable decisions base_offset = Ret (Some m) ->
  m <> [] /\
  Forall (melder_ok viable decisions) m /\
  ((exists s, m = [(s, None)]) \/
   Forall (fun e => snd e = Some "win") m \/
   (exists s name, m = [(s, Some name)] /\
                   In name ["kong"; "pong"; "chow"])).
Proof.
  unfold select_melders.
  set (seats := rotation base_offset (length decisions)).
  assert (Hseats : forall s, In s seats -> 0 <= s)
    by (intros s Hs; apply rotation_range in Hs; lia).
  destruct (win_loop viable decisions seats []) as [r|] eqn:E;
    [|discriminate].
  cbn [ebind].
  pose proof (win_loop_sound seats [] r Hseats ltac:(constructor) E) as Hw.
  destruct r as [early|[|w ws]].
  - intros [= <-]. destruct Hw as (s & -> & Hok).
    split; [discriminate|]. split; [constructor; [exact Hok | constructor]|].
    left. now exists s.
  - intros H.
    destruct (meld_loops_sound _ seats m Hseats H) as (s & n & Hm & Hok).
    split; [destruct Hm as [->|[-> _]]; discriminate|].
    split; [exact Hok|].
    destruct Hm as [->|[-> Hn]]; [left; now exists s|].
    right. right. now exists s, n.
  - intros [= <-]. split; [discriminate|]. split.
    + eapply List.Forall_impl; [|exact Hw]. cbv beta. tauto.
    + right. left. eapply List.Forall_impl; [|exact Hw]. cbv beta. tauto.
Qed.

End Soundness.

(** X18. Whatever the players have answered, a result of
    [select_melders] is never empty and is one of: a single seat that
    has not yet given a viable answer (paired with [None]); the seats
    that chose a viable win; a single seat with the viable kong, pong or
    chow it chose. *)
Theorem select_melders_sound
    (viable : list (option (list string)))
    (decisions : list (option Decision)) (base_offset : Z) (m : Melders) :
  select_melders viable decisions base_offset = Ret (Some m) ->
  m <> [] /\
  (forall s a, In (s, a) m ->
     0 <= s /\
     match a with
     | None => ~ answered viable decisions (Z.to_nat s)
     | Some name => claims viable decisions name s = true
     end) /\
  ((exists s, m = [(s, None)]) \/
   Forall (fun e => snd e = Some "win") m \/
   (exists s name, m = [(s, Some name)] /\
                   In name ["kong"; "pong"; "chow"])).
Proof.
  intros H.
  destruct (select_melders_sound_gen viable decisions base_offset m H)
    as (Hne & Hok & Hshape).
  split; [exact Hne|]. split; [|exact Hshape].
  intros s a Hin. rewrite List.Forall_forall in Hok.
  exact (Hok (s, a) Hin).
Qed.

Lemma select_melders_sound_witness :
  let viable := [None; Some ["chow"; "skip"]; Some ["win"; "pong"; "skip"];
                 Some ["win"; "skip"]] in
  let decisions := [None; Some (DStr "chow"); Some (DStr "win"); None] in
  exists m,
    select_melders viable decisions 0 = Ret (Some m) /\
    m <> [] /\
    (forall s a, In (s, a) m ->
       0 <= s /\
       match a with
       | None => ~ answered viable decisions (Z.to_nat s)
       | Some name => claims viable decisions name s = true
       end) /\
    ((exists s, m = [(s, None)]) \/
     Forall (fun e => snd e = Some "win") m \/
     (exists s name, m = [(s, Some name)] /\
                     In name ["kong"; "pong"; "chow"])).
Proof.
  intros viable decisions. eexists. split; [vm_compute; reflexivity|].
  apply (select_melders_sound viable decisions 0). reflexivity.
Defined.

(** ** The options offered on a discard *)

Ltac sublist_names :=
  repeat first [ apply sublist_nil | apply sublist_skip | apply sublist_cons ].

Ltac in_names :=
  intros; cbn [In app] in *;
  repeat match goal with
    | H : _ \/ _ |- _ => destruct H
    | H : False |- _ => destruct H
    | H : @eq string _ _ |- _ => first [discriminate H | subst]
    end.

(** X19. The options [DiscardedHandler] offers to another seat on a
    discard are drawn, in this order, from win, kong, pong, chow and
    skip. Skip is offered exactly when something else is. Kong and pong
    are offered only to a hand that holds the copies for it, chow only
    to the seat next to the discarder, and a player who has declared
    ready is offered nothing but win and skip. *)
Theorem other_viable_decisions_shape (E : Collab) (c : GameContext)
    (i cur : Z) (tile : Tile) (v : list string) :
  last_discarded c = Some tile ->
  cur_player_idx c = Some cur ->
  _get_other_viable_decisions E c i = Ret v ->
  exists p,
    get_player c i = Ret p /\
    sublist v ["win"; "kong"; "pong"; "chow"; "skip"] /\
    (v = [] \/ (In "skip" v /\ exists a, In a v /\ a <> "skip")) /\
    (In "kong" v -> can_kong (hand p) tile = true) /\
    (In "pong" v -> can_pong (hand p) tile = true) /\
    (In "chow" v ->
       (cur + 1) mod 4 = i /\ can_chow (hand p) tile = Ret true) /\
    (declared_ready p = true ->
     forall a, In a v -> a = "win" \/ a = "skip").
Proof.
  intros Hlast Hcur. unfold _get_other_viable_decisions, declared_ready.
  destruct (get_player c i) as [p|] eqn:Ep; [|discriminate].
  cbn [ebind]. cbv zeta. rewrite Hlast, Hcur.
  destruct (algo_can_win E c (Some i) (Some tile)) as [w|]; [|discriminate].
  cbn [ebind]. intros H. exists p. split; [reflexivity|].
  destruct (truthy (extra p !! "declared_ready")); cbn [negb] in H.
  - destruct w; cbn [ebind app] in H; injection H as <-;
      (split; [sublist_names|]);
      (split; [first [now left | right; split; [cbn; tauto|];
                      exists "win"; split; [cbn; tauto | discriminate]]|]);
      repeat split; try (in_names; fail); in_names; auto.
  - destruct (can_kong (hand p) tile) eqn:Ek;
      destruct (can_4_kong_win E c i tile);
      destruct (can_pong (hand p) tile) eqn:Epg;
      destruct (Z.eqb_spec ((cur + 1) mod 4) i) as [Eq|Eq];
      cbn [andb negb] in H;
      try (destruct (can_chow (hand p) tile) as [[|]|] eqn:Ech;
           [ | |discriminate H]);
      destruct w; cbn [ebind app] in H; injection H as <-;
      (split; [sublist_names|]);
      (split;
        [first [now left
               | right; split; [cbn; tauto|];
                 first [exists "win"; split; [cbn; tauto | discriminate]
                       |exists "kong"; split; [cbn; tauto | discriminate]
                       |exists "pong"; split; [cbn; tauto | discriminate]
                       |exists "chow"; split; [cbn; tauto | discriminate]]]|]);
      repeat split; try (in_names; fail); try discriminate; auto.
Qed.

Lemma other_viable_decisions_shape_witness :
  exists v p,
    _get_other_viable_decisions plain_collab ctx_melding 3 = Ret v /\
    get_player ctx_melding 3 = Ret p /\
    sublist v ["win"; "kong"; "pong"; "chow"; "skip"] /\
    (v = [] \/ (In "skip" v /\ exists a, In a v /\ a <> "skip")) /\
    (In "kong" v -> can_kong (hand p) CHAR6 = true) /\
    (In "pong" v -> can_pong (hand p) CHAR6 = true) /\
    (In "chow" v ->
       (2 + 1) mod 4 = 3 /\ can_chow (hand p) CHAR6 = Ret true) /\
    (declared_ready p = true ->
     forall a, In a v -> a = "win" \/ a = "skip").
Proof.
  eexists.
  destruct (other_viable_decisions_shape plain_collab ctx_melding 3 2 CHAR6
              ["pong"; "skip"] eq_refl eq_refl eq_refl) as (p & H).
  exists p. split; [reflexivity|]. exact H.
Defined.

(** ** Ready hands on a context *)

Lemma waiting_ready_loops (E : Collab) (c : GameContext) (i : Z)
    (l : list Tile) : forall acc ts,
  waiting_loop E c i l acc = Ret ts ->
  (length acc <= length ts)%nat /\
  exists b, ready_loop E c (Some i) l = Ret b /\
            (b = true <-> (length acc < length ts)%nat).
Proof.
  induction l as [|tile l IH]; intros acc ts;
    cbn [waiting_loop ready_loop].
  - intros [= <-]. split; [lia|]. exists false. split; [reflexivity|].
    split; [discriminate | lia].
  - destruct (algo_can_win E c (Some i) (Some tile)) as [w|]; [|discriminate].
    cbn [ebind]. intros H. destruct (IH _ _ H) as (Hle & b & Hb & Hiff).
    destruct w.
    + pose proof (Permutation_length (insort_Permutation acc tile)) as Hl.
      cbn [length] in Hl. rewrite Hl in Hle. split; [lia|].
      exists true. split; [reflexivity|]. split; [lia | reflexivity].
    + split; [exact Hle|]. exists b. split; [exact Hb | exact Hiff].
Qed.

(** X25. For a player without a cached list of waiting tiles, whenever
    [algo.waiting_tiles] returns, [algo.ready] returns too, and it is
    true exactly when the list of waiting tiles is not empty. *)
Theorem algo_ready_iff_waiting (E : Collab) (c : GameContext) (i : Z)
    (p : Player) (v : PyVal) :
  get_player c i = Ret p ->
  truthy (extra p !! "declared_ready")
  && is_not_none (extra p !! "waiting_tiles") = false ->
  algo_waiting_tiles E c (Some i) = Ret v ->
  exists ts,
    v = VTiles ts /\
    algo_ready E c (Some i)
    = Ret (match ts with [] => false | _ => true end).
Proof.
  intros Hp Hcache. unfold algo_waiting_tiles, algo_ready.
  cbn [ebind]. rewrite Hp. cbn [ebind]. rewrite Hcache.
  destruct (waiting_loop E c i (ALL_values E) []) as [ts|] eqn:Ew;
    [|discriminate].
  cbn [ebind]. intros [= <-]. exists ts. split; [reflexivity|].
  destruct (waiting_ready_loops E c i _ _ _ Ew) as (_ & b & Hb & Hiff).
  rewrite Hb. f_equal. cbn [length] in Hiff.
  destruct ts as [|t ts]; destruct b; try reflexivity.
  - pose proof (proj1 Hiff eq_refl) as Hlt. cbn in Hlt. lia.
  - apply Hiff. cbn. lia.
Qed.

Lemma algo_ready_iff_waiting_witness :
  exists ts,
    VTiles [CHAR1] = VTiles ts /\
    algo_ready plain_collab ctx_discarded (Some 0)
    = Ret (match ts with [] => false | _ => true end).
Proof.
  apply (algo_ready_iff_waiting plain_collab ctx_discarded 0
           (player_of [CHAR1] [EAST]) (VTiles [CHAR1]));
    vm_compute; reflexivity.
Defined.

(** ** Steps of the state machine *)

(** X20. A failed validation of the drawing phase or of the melding
    phase, whatever its reason, returns the context it was given. *)
Theorem drawing_melding_validate_intact (E : Collab) (c c' : GameContext)
    (r : FlowResult) :
  success r = false ->
  (DrawingHandler_validate c = Ret (r, c') -> c' = c) /\
  (MeldingHandler_validate E c = Ret (r, c') -> c' = c).
Proof.
  intros Hr. split; intros H.
  - eapply DrawingHandler_validate_intact; eauto.
  - eapply MeldingHandler_validate_intact; eauto.
Qed.

Lemma drawing_melding_validate_intact_witness :
  (exists r c',
     DrawingHandler_validate ctx_flower_pending = Ret (r, c') /\
     reason r = Some "decisions-needed" /\ c' = ctx_flower_pending) /\
  (exists r c',
     MeldingHandler_validate plain_collab ctx_melding_pending = Ret (r, c') /\
     reason r = Some "decisions-needed" /\ c' = ctx_melding_pending).
Proof.
  split.
  - eexists. eexists. split; [vm_compute; reflexivity|].
    split; [reflexivity|].
    refine (proj1 (drawing_melding_validate_intact plain_collab ctx_flower_pending _ _ _) _);
      [|vm_compute; reflexivity]; reflexivity.
  - eexists. eexists. split; [vm_compute; reflexivity|].
    split; [reflexivity|].
    refine (proj2 (drawing_melding_validate_intact plain_collab ctx_melding_pending _ _ _) _);
      [|vm_compute; reflexivity]; reflexivity.
Defined.

(** X21. A ['bad-context'] failure of the validation of the discarded
    phase or of the self-konging phase returns the context it was
    given. *)
Theorem bad_context_intact (E : Collab) (c c' : GameContext)
    (r : FlowResult) :
  reason r = Some "bad-context" ->
  (DiscardedHandler_validate E c = Ret (r, c') -> c' = c) /\
  (SelfKongingHandler_validate E c = Ret (r, c') -> c' = c).
Proof.
  intros Hr. split; intros H.
  - eapply DiscardedHandler_validate_bad_context; eauto.
  - eapply SelfKongingHandler_validate_bad_context; eauto.
Qed.

Lemma bad_context_intact_witness :
  (exists r c',
     DiscardedHandler_validate plain_collab ctx_discarded_empty
     = Ret (r, c') /\
     reason r = Some "bad-context" /\ c' = ctx_discarded_empty) /\
  (exists r c',
     SelfKongingHandler_validate plain_collab ctx_wall_tie = Ret (r, c') /\
     reason r = Some "bad-context" /\ c' = ctx_wall_tie).
Proof.
  split.
  - eexists. eexists. split; [vm_compute; reflexivity|].
    split; [reflexivity|].
    refine (proj1 (bad_context_intact plain_collab ctx_discarded_empty _ _ _) _);
      [|vm_compute; reflexivity]; reflexivity.
  - eexists. eexists. split; [vm_compute; reflexivity|].
    split; [reflexivity|].
    refine (proj2 (bad_context_intact plain_collab ctx_wall_tie _ _ _) _);
      [|vm_compute; reflexivity]; reflexivity.
Defined.

(** X22. [ScoredHandler.next] clears the table for the next match:
    every player is as new, the discard pool and the annotations are
    empty, the turn is at seat 0, there are no winners and the state is
    ['start']. The wall, the settings and the number of players are
    kept, and a dealer that is a seat of the table stays one. *)
Theorem scored_next_resets (c : GameContext) :
  exists c',
    ScoredHandler_next c = Ret c' /\
    state c' = "start" /\ winners c' = None /\ cextra c' = ∅ /\
    discarded_pool c' = [] /\
    cur_player_idx c' = Some 0 /\ last_player_idx c' = None /\
    Forall (fun p => p = new_player) (players c') /\
    length (players c') = length (players c) /\
    wall c' = wall c /\ settings c' = settings c /\
    (0 <= dealer c < 4 -> 0 <= dealer c' < 4) /\
    (0 <= dealer_defended c -> 0 <= dealer_defended c').
Proof.
  eexists. split; [reflexivity|].
  assert (Hupd : forall x, let y := _update_round_and_match x in
            players y = players x /\ discarded_pool y = discarded_pool x /\
            cur_player_idx y = cur_player_idx x /\
            last_player_idx y = last_player_idx x /\
            wall y = wall x /\ settings y = settings x /\
            dealer y = dealer x /\ dealer_defended y = dealer_defended x).
  { intros x y. subst y. unfold _update_round_and_match.
    destruct (_should_goto_next_round x); repeat split. }
  assert (Hset : forall x, let y := _set_next_dealer x in
            players y = players x /\ discarded_pool y = discarded_pool x /\
            cur_player_idx y = cur_player_idx x /\
            last_player_idx y = last_player_idx x /\
            wall y = wall x /\ settings y = settings x /\
            (0 <= dealer x < 4 -> 0 <= dealer y < 4) /\
            (0 <= dealer_defended x -> 0 <= dealer_defended y)).
  { intros x y. subst y. unfold _set_next_dealer, _get_next_dealer.
    destruct (_ && _); [rewrite Z.eqb_refl|];
      [|destruct (Z.eqb_spec ((dealer x + 1) mod 4) (dealer x))];
      cbn [players discarded_pool cur_player_idx last_player_idx wall
           settings dealer dealer_defended set_dealer];
      repeat split; try lia;
      pose proof (Z.mod_pos_bound (dealer x + 1) 4); lia. }
  cbn [state winners cextra discarded_pool cur_player_idx last_player_idx
       players wall settings dealer dealer_defended set_cextra set_state
       set_winners].
  destruct (Hset (_update_round_and_match (_clear_hands c)))
    as (S1 & S2 & S3 & S4 & S5 & S6 & S7 & S8).
  destruct (Hupd (_clear_hands c)) as (U1 & U2 & U3 & U4 & U5 & U6 & U7 & U8).
  rewrite S1, S2, S3, S4, S5, S6, U1, U2, U3, U4, U5, U6.
  rewrite U7 in S7. rewrite U8 in S8.
  cbn [_clear_hands players discarded_pool cur_player_idx last_player_idx
       wall settings set_turn_fields set_discarded_pool set_players].
  do 6 (split; [reflexivity|]).
  split; [|split; [apply length_map|]].
  - apply List.Forall_forall. intros p Hp. apply in_map_iff in Hp.
    destruct Hp as (q & <- & _). reflexivity.
  - split; [reflexivity|]. split; [reflexivity|]. split; assumption.
Qed.

(** What [DrawingHandler._cleanup] leaves alone. *)
Lemma DrawingHandler_cleanup_frame (c : GameContext) :
  flower_winner_ok c ->
  exists c',
    DrawingHandler_cleanup c = Ret c' /\
    state c' = state c /\ winners c' = winners c /\ wall c' = wall c /\
    discarded_pool c' = discarded_pool c /\
    cur_player_idx c' = cur_player_idx c /\
    last_player_idx c' = last_player_idx c /\
    map hand (players c') = map hand (players c) /\
    map discarded (players c') = map discarded (players c).
Proof.
  unfold flower_winner_ok, DrawingHandler_cleanup.
  destruct (cextra c !! "flower_winner") as [[| | i | | | | | |]|];
    cbn [is_not_none opt_int]; try contradiction;
    try (intros _; eexists; repeat split; reflexivity).
  intros Hi. unfold player_extra_pop, get_player, put_player.
  cbn [players set_cextra].
  destruct (py_index_valid (players c) i Hi) as (k & p & Hk & Hidx & Hset).
  rewrite Hidx. cbn [ebind]. rewrite Hset. cbn [ebind].
  eexists. split; [reflexivity|]. cbn [players set_players].
  repeat split; now apply (map_list_set _ _ _ p).
Qed.

Lemma map_list_set_gen {A B : Type} (f : A -> B) (l : list A) (k : nat)
    (y : A) :
  map f (list_set l k y) = list_set (map f l) k (f y).
Proof.
  revert k; induction l as [|x l IH]; intros [|k]; cbn; auto.
  now rewrite IH.
Qed.

Lemma drawing_next_draws_gen (c : GameContext) (w' : list Tile) (t : Tile)
    (seat : Z) (p : Player) :
  length (players c) = 4%nat ->
  cur_player_idx c = Some seat ->
  get_player c (seat mod 4) = Ret p ->
  state c = "drawing" ->
  wall c = Some (w' ++ [t]) ->
  tie_wall (settings c) + total_kongs c * tie_wall_per_kong (settings c)
  < Z.of_nat (length (w' ++ [t])) ->
  truthy (extra p !! "flowered") = false ->
  flower_winner_ok c ->
  exists c',
    DrawingHandler_next c = Ret c' /\
    state c' = "drawn" /\ wall c' = Some w' /\
    map hand (players c')
    = list_set (map hand (players c)) (Z.to_nat (seat mod 4))
               (set_last_tile (hand p) (Some t)) /\
    map discarded (players c') = map discarded (players c) /\
    discarded_pool c' = discarded_pool c /\
    cur_player_idx c' = Some seat /\ winners c' = winners c.
Proof.
  intros Hlen Hcur Hp Hstate Hwall Habove Hfl Hfw.
  unfold DrawingHandler_next, is_tie. rewrite Hstate, Hwall.
  cbn [andb String.eqb Ascii.eqb Bool.eqb ebind].
  destruct (Z.leb_spec (Z.of_nat (length (w' ++ [t])))
              (tie_wall (settings c)
               + total_kongs c * tie_wall_per_kong (settings c))) as [Hle|_];
    [exfalso; exact (Z.lt_irrefl _ (Z.lt_le_trans _ _ _ Habove Hle))|].
  cbn [ebind]. unfold _player_who_wants_to_flower_win, cur_player,
                 player_idx_at.
  rewrite Hcur, Z.add_0_r, Hp. cbn [ebind]. rewrite Hfl. cbn [ebind].
  rewrite Hwall. unfold Wall_draw. rewrite rev_unit, rev_involutive.
  cbn [set_wall cur_player_idx players].
  rewrite Hcur, Z.add_0_r.
  change (get_player (set_wall c (Some w')) (seat mod 4))
    with (get_player c (seat mod 4)).
  rewrite Hp. cbn [ebind]. unfold put_player. cbn [players set_wall].
  pose proof (seat_valid c seat Hlen) as Hr.
  destruct (py_index_pos (players c) (seat mod 4) Hr) as (Hk & Hidx & Hset).
  assert (Hpos : py_pos (length (players c)) (seat mod 4)
                 = Z.to_nat (seat mod 4)).
  { unfold py_pos. pose proof (Z.mod_pos_bound seat 4 ltac:(lia)).
    destruct (Z.ltb_spec (seat mod 4) 0); [lia|reflexivity]. }
  rewrite Hpos in Hk, Hidx, Hset. unfold get_player in Hp.
  rewrite Hp in Hidx.
  destruct (nth_error (players c) (Z.to_nat (seat mod 4))) as [q|] eqn:Hn;
    [|discriminate]. injection Hidx as ->.
  rewrite Hset. cbn [ebind].
  set (c3 := set_state _ "drawn").
  destruct (DrawingHandler_cleanup_frame c3)
    as (c' & Hc & Hs & Hw & Hwl & Hpool & Hc1 & Hl1 & Hh & Hd).
  { unfold flower_winner_ok, c3.
    cbn [cextra set_state set_players set_wall players].
    rewrite length_list_set. exact Hfw. }
  exists c'. split; [exact Hc|].
  rewrite Hs, Hw, Hwl, Hpool, Hc1, Hh, Hd. unfold c3.
  cbn [state wall players discarded_pool cur_player_idx winners set_state
       set_players set_wall].
  rewrite map_list_set_gen.
  repeat split; auto.
  apply (map_list_set discarded _ _ q); [exact Hn | reflexivity].
Qed.

(** X23. In the drawing phase, with the wall above the tie threshold and
    no flower just drawn by the current player, the step draws the last
    tile of the wall: it becomes the current player's last tile, the
    wall loses it, and the state is ['drawn']. The other hands, the
    discards and the turn are unchanged. *)
Theorem drawing_next_draws (c : GameContext) (w' : list Tile) (t : Tile)
    (seat : Z) (p : Player) :
  length (players c) = 4%nat ->
  cur_player_idx c = Some seat ->
  get_player c (seat mod 4) = Ret p ->
  state c = "drawing" ->
  wall c = Some (w' ++ [t]) ->
  tie_wall (settings c) + total_kongs c * tie_wall_per_kong (settings c)
  < Z.of_nat (length (w' ++ [t])) ->
  truthy (extra p !! "flowered") = false ->
  flower_winner_ok c ->
  exists c',
    DrawingHandler_next c = Ret c' /\
    state c' = "drawn" /\ wall c' = Some w' /\
    map hand (players c')
    = list_set (map hand (players c)) (Z.to_nat (seat mod 4))
               (set_last_tile (hand p) (Some t)) /\
    map discarded (players c') = map discarded (players c) /\
    discarded_pool c' = discarded_pool c /\
    cur_player_idx c' = Some seat /\ winners c' = winners c.
Proof. apply drawing_next_draws_gen. Qed.

Lemma drawing_next_draws_witness :
  exists c',
    DrawingHandler_next ctx_drawing = Ret c' /\
    state c' = "drawn" /\
    wall c' = Some [CHAR1; CHAR2; CHAR3; CHAR4; CHAR5; CHAR6; CHAR7; CHAR8;
                    CHAR9; CIRCLE1; CIRCLE2; CIRCLE3; CIRCLE4; CIRCLE5;
                    CIRCLE6; CIRCLE7; CIRCLE8] /\
    map hand (players c')
    = list_set (map hand (players ctx_drawing)) (Z.to_nat (3 mod 4))
               (set_last_tile (hand (player_of [CHAR4] [])) (Some CIRCLE9)) /\
    map discarded (players c') = map discarded (players ctx_drawing) /\
    discarded_pool c' = discarded_pool ctx_drawing /\
    cur_player_idx c' = Some 3 /\ winners c' = winners ctx_drawing.
Proof.
  apply (drawing_next_draws ctx_drawing _ CIRCLE9 3 (player_of [CHAR4] []));
    first [reflexivity | exact I].
Defined.

(** *** Leaving the discarded phase *)

Lemma py_set_length {A : Type} (l l' : list A) (i : Z) (x : A) :
  py_set l i x = Ret l' -> length l' = length l.
Proof.
  unfold py_set. cbv zeta. destruct (_ || _); [discriminate|].
  intros [= <-]. apply length_list_set.
Qed.

Lemma viable_loop_length (E : Collab) (c : GameContext) (cur : Z)
    (offsets : list Z) : forall ds v,
  DiscardedHandler_viable_loop E c cur offsets ds = Ret v ->
  length v = length ds.
Proof.
  induction offsets as [|i offs IH]; intros ds v; cbn [DiscardedHandler_viable_loop].
  - now intros [= <-].
  - destruct (_get_other_viable_decisions E c _); [|discriminate].
    cbn [ebind].
    destruct (py_set ds _ _) as [ds'|] eqn:Es; [|discriminate].
    cbn [ebind]. intros H. rewrite (IH _ _ H).
    eapply py_set_length; eauto.
Qed.

Lemma four_elements {A : Type} (l : list A) :
  length l = 4%nat -> exists a b c d, l = [a; b; c; d].
Proof.
  destruct l as [|a [|b [|c [|d [|e l]]]]]; try discriminate.
  intros _. now exists a, b, c, d.
Qed.

(** The loop of [DiscardedHandler.next] that stores the options. *)
Lemma store_viable_four (c : GameContext) (p0 p1 p2 p3 : Player)
    (v0 v1 v2 v3 : option (list string)) :
  players c = [p0; p1; p2; p3] ->
  store_viable c [0; 1; 2; 3] [v0; v1; v2; v3]
  = Ret (set_players c [with_viable p0 v0; with_viable p1 v1;
                        with_viable p2 v2; with_viable p3 v3]).
Proof.
  intros Hps. destruct c as [st wl ps pool cu la rd mt dl dd wn se ce].
  simpl in Hps. subst ps.
  destruct v0 as [[|x0 l0]|], v1 as [[|x1 l1]|], v2 as [[|x2 l2]|],
    v3 as [[|x3 l3]|]; reflexivity.
Qed.

Lemma nth_error_list_set_ne {A : Type} (l : list A) (k j : nat) (y : A) :
  k <> j -> nth_error (list_set l k y) j = nth_error l j.
Proof.
  revert k j; induction l as [|x l IH]; intros [|k] [|j] H; cbn; auto;
    try congruence.
Qed.

Lemma py_pos_seat (len : nat) (seat : Z) :
  py_pos len (seat mod 4) = Z.to_nat (seat mod 4).
Proof.
  unfold py_pos. pose proof (Z.mod_pos_bound seat 4 ltac:(lia)).
  destruct (Z.ltb_spec (seat mod 4) 0); [lia | reflexivity].
Qed.

(** [DiscardedHandler._cleanup] on a four-seat table. *)
Lemma DiscardedHandler_cleanup_players (c : GameContext) (seat : Z)
    (p : Player) :
  length (players c) = 4%nat ->
  cur_player_idx c = Some seat ->
  nth_error (players c) (Z.to_nat (seat mod 4)) = Some p ->
  exists c',
    DiscardedHandler_cleanup c = Ret c' /\
    players c'
    = map (fun q => set_decision q None)
          (list_set (players c) (Z.to_nat (seat mod 4)) (without_flags p)) /\
    state c' = state c /\ cur_player_idx c' = cur_player_idx c /\
    last_player_idx c' = last_player_idx c /\
    discarded_pool c' = discarded_pool c /\ wall c' = wall c.
Proof.
  intros Hlen Hcur Hp.
  unfold DiscardedHandler_cleanup, cur_player, player_idx_at, get_player,
    put_player.
  rewrite Hcur, Z.add_0_r.
  destruct (py_index_pos (players c) (seat mod 4) (seat_valid c seat Hlen))
    as (_ & Hidx & Hset).
  rewrite py_pos_seat in Hidx, Hset. rewrite Hp in Hidx.
  rewrite Hidx. cbn [ebind]. rewrite Hset. cbn [ebind].
  eexists. split; [reflexivity|].
  unfold clear_decisions.
  cbn [players state cur_player_idx last_player_idx discarded_pool wall
       set_cextra set_players].
  repeat split; auto.
Qed.

Lemma with_viable_frame (q : Player) (v : option (list string)) :
  hand (with_viable q v) = hand q /\
  discarded (with_viable q v) = discarded q.
Proof. destruct v as [[|x l]|]; split; reflexivity. Qed.

Lemma map_clear_frame (ps : list Player) :
  Forall (fun q => decision q = None)
         (map (fun q => set_decision q None) ps) /\
  map hand (map (fun q => set_decision q None) ps) = map hand ps /\
  map discarded (map (fun q => set_decision q None) ps) = map discarded ps.
Proof.
  split; [|split].
  - apply List.Forall_forall. intros q Hq. apply in_map_iff in Hq.
    destruct Hq as (q' & <- & _). reflexivity.
  - rewrite map_map. apply map_ext. reflexivity.
  - rewrite map_map. apply map_ext. reflexivity.
Qed.

Lemma seat_next_ne (seat : Z) :
  Z.to_nat (((seat + 1) mod 4) mod 4) <> Z.to_nat (seat mod 4).
Proof.
  rewrite Z.mod_mod by lia.
  pose proof (Z.mod_pos_bound seat 4 ltac:(lia)).
  pose proof (Z.mod_pos_bound (seat + 1) 4 ltac:(lia)).
  pose proof (next_seat_differs (seat mod 4)) as Hne.
  rewrite Zplus_mod_idemp_l in Hne. lia.
Qed.

(** X24. In the discarded phase, when there is no tie and the discarder
    has no pending ready question, the step computes the options of the
    other seats. If some seat has options, the state becomes
    ['melding'], the turn stays, and each seat with options finds them
    under ['viable_decisions']. Otherwise the state becomes ['drawing']
    and the turn passes to the next seat; the discarder's annotations
    are then left as they were. Either way every decision is cleared
    and hands, discards and the wall are untouched. *)
Theorem discarded_next_routes (E : Collab) (c : GameContext) (seat : Z)
    (p : Player) (viable : list (option (list string))) :
  length (players c) = 4%nat ->
  cur_player_idx c = Some seat ->
  nth_error (players c) (Z.to_nat (seat mod 4)) = Some p ->
  truthy (cextra c !! "tie") = false ->
  truthy (extra p !! "ready") && negb (truthy (extra p !! "asked")) = false ->
  DiscardedHandler_get_viable_decisions E c = Ret viable ->
  exists c',
    DiscardedHandler_next E c = Ret c' /\
    Forall (fun q => decision q = None) (players c') /\
    map hand (players c') = map hand (players c) /\
    map discarded (players c') = map discarded (players c) /\
    discarded_pool c' = discarded_pool c /\ wall c' = wall c /\
    if existsb nonempty viable then
      state c' = "melding" /\
      cur_player_idx c' = Some seat /\
      last_player_idx c' = last_player_idx c /\
      (forall i x l,
         nth_error viable i = Some (Some (x :: l)) ->
         exists q, nth_error (players c') i = Some q /\
                   extra q !! "viable_decisions" = Some (VStrs (x :: l)))
    else
      state c' = "drawing" /\
      cur_player_idx c' = Some ((seat + 1) mod 4) /\
      last_player_idx c' = Some seat /\
      (exists q, nth_error (players c') (Z.to_nat (seat mod 4)) = Some q /\
                 extra q = extra p).
Proof.
  intros Hlen Hcur Hp Htie Hready Hv.
  assert (Hvl : length viable = 4%nat).
  { unfold DiscardedHandler_get_viable_decisions in Hv. rewrite Hcur in Hv.
    now apply viable_loop_length in Hv. }
  unfold DiscardedHandler_next, cur_player, player_idx_at, get_player.
  rewrite Hcur, Z.add_0_r.
  destruct (py_index_pos (players c) (seat mod 4) (seat_valid c seat Hlen))
    as (_ & Hidx & _).
  rewrite py_pos_seat, Hp in Hidx. rewrite Hidx. cbn [ebind].
  rewrite Htie, Hready, Hv. cbn [ebind].
  destruct (existsb nonempty viable) eqn:Eany.
  - destruct (four_players c Hlen) as (p0 & p1 & p2 & p3 & Hps).
    destruct (four_elements viable Hvl) as (v0 & v1 & v2 & v3 & ->).
    rewrite (store_viable_four (set_state c "melding") p0 p1 p2 p3)
      by exact Hps.
    cbn [ebind].
    set (ps1 := [with_viable p0 v0; with_viable p1 v1; with_viable p2 v2;
                 with_viable p3 v3]).
    set (c1 := set_players (set_state c "melding") ps1).
    assert (Hlen1 : length (players c1) = 4%nat) by reflexivity.
    assert (Hk : (Z.to_nat (seat mod 4) < 4)%nat)
      by (pose proof (Z.mod_pos_bound seat 4 ltac:(lia)); lia).
    destruct (nth_error (players c1) (Z.to_nat (seat mod 4))) as [q1|] eqn:Hq1.
    2:{ apply nth_error_None in Hq1. rewrite Hlen1 in Hq1. lia. }
    destruct (DiscardedHandler_cleanup_players c1 seat q1 Hlen1 Hcur Hq1)
      as (c' & Hc & Hpl & Hst & Hcu & Hla & Hpo & Hwa).
    exists c'. split; [exact Hc|]. rewrite Hpl, Hst, Hcu, Hla, Hpo, Hwa.
    destruct (map_clear_frame
                (list_set (players c1) (Z.to_nat (seat mod 4))
                          (without_flags q1))) as (F1 & F2 & F3).
    split; [exact F1|]. rewrite F2, F3.
    assert (Hh1 : map hand (players c1) = map hand (players c)).
    { unfold c1, ps1. cbn [players set_players]. rewrite Hps. cbn [map].
      now rewrite !(proj1 (with_viable_frame _ _)). }
    assert (Hd1 : map discarded (players c1) = map discarded (players c)).
    { unfold c1, ps1. cbn [players set_players]. rewrite Hps. cbn [map].
      now rewrite !(proj2 (with_viable_frame _ _)). }
    split; [rewrite <- Hh1; now apply (map_list_set hand _ _ q1)|].
    split; [rewrite <- Hd1; now apply (map_list_set discarded _ _ q1)|].
    split; [reflexivity|]. split; [reflexivity|].
    split; [reflexivity|]. split; [exact Hcur|]. split; [reflexivity|].
    intros i x l Hi.
    assert (Hi4 : (i < 4)%nat)
      by (change 4%nat with (length [v0; v1; v2; v3]);
          apply nth_error_Some; congruence).
    assert (Hw : exists q0, nth_error ps1 i = Some q0 /\
               extra q0 !! "viable_decisions" = Some (VStrs (x :: l))).
    { unfold ps1.
      destruct i as [|[|[|[|i]]]]; [| | | |lia]; cbn in Hi;
        injection Hi as ->; (eexists; split; [reflexivity|]);
        cbn [with_viable extra set_extra]; apply lookup_insert_eq. }
    destruct Hw as (q0 & Hq0 & Hex).
    rewrite nth_error_map.
    destruct (Nat.eq_dec (Z.to_nat (seat mod 4)) i) as [<-|Hne].
    + rewrite nth_error_list_set by (rewrite Hlen1; exact Hk).
      cbn [option_map]. eexists. split; [reflexivity|].
      cbn [extra set_decision without_flags set_extra].
      rewrite !lookup_delete_ne by discriminate.
      unfold c1 in Hq1. cbn [players set_players] in Hq1.
      rewrite Hq0 in Hq1. injection Hq1 as <-. exact Hex.
    + rewrite nth_error_list_set_ne by exact Hne.
      unfold c1. cbn [players set_players]. rewrite Hq0.
      cbn [option_map]. eexists. split; [reflexivity|]. exact Hex.
  - set (c1 := next_turn (set_state c "drawing")).
    assert (Hlen1 : length (players c1) = 4%nat).
    { unfold c1, next_turn. cbn [cur_player_idx set_state]. rewrite Hcur.
      exact Hlen. }
    assert (Hcur1 : cur_player_idx c1 = Some ((seat + 1) mod 4)).
    { unfold c1, next_turn. cbn [cur_player_idx set_state]. rewrite Hcur.
      reflexivity. }
    assert (Hpl1 : players c1 = players c).
    { unfold c1, next_turn. cbn [cur_player_idx set_state]. rewrite Hcur.
      reflexivity. }
    assert (Hfr : state c1 = "drawing" /\ last_player_idx c1 = Some seat /\
                  discarded_pool c1 = discarded_pool c /\ wall c1 = wall c).
    { unfold c1, next_turn, set_turn. cbn [cur_player_idx set_state].
      rewrite Hcur. cbn. auto. }
    destruct Hfr as (Hst1 & Hla1 & Hpo1 & Hwa1).
    assert (Hk : (Z.to_nat (((seat + 1) mod 4) mod 4) < 4)%nat)
      by (pose proof (Z.mod_pos_bound ((seat + 1) mod 4) 4 ltac:(lia)); lia).
    destruct (nth_error (players c1) (Z.to_nat (((seat + 1) mod 4) mod 4)))
      as [q1|] eqn:Hq1.
    2:{ apply nth_error_None in Hq1. rewrite Hlen1 in Hq1. lia. }
    destruct (DiscardedHandler_cleanup_players c1 _ q1 Hlen1 Hcur1 Hq1)
      as (c' & Hc & Hpl & Hst & Hcu & Hla & Hpo & Hwa).
    exists c'. split; [exact Hc|].
    rewrite Hpl, Hst, Hcu, Hla, Hpo, Hwa, Hst1, Hla1, Hpo1, Hwa1, Hcur1.
    destruct (map_clear_frame
                (list_set (players c1)
                          (Z.to_nat (((seat + 1) mod 4) mod 4))
                          (without_flags q1))) as (F1 & F2 & F3).
    split; [exact F1|]. rewrite F2, F3. rewrite <- Hpl1.
    split; [now apply (map_list_set hand _ _ q1)|].
    split; [now apply (map_list_set discarded _ _ q1)|].
    do 5 (split; [reflexivity|]).
    rewrite nth_error_map, nth_error_list_set_ne by apply seat_next_ne.
    rewrite Hpl1, Hp. cbn [option_map]. eexists. split; reflexivity.
Qed.

Lemma discarded_next_routes_witness :
  exists c',
    DiscardedHandler_next plain_collab ctx_discarded_pong = Ret c' /\
    Forall (fun q => decision q = None) (players c') /\
    map hand (players c') = map hand (players ctx_discarded_pong) /\
    map discarded (players c') = map discarded (players ctx_discarded_pong) /\
    discarded_pool c' = discarded_pool ctx_discarded_pong /\
    wall c' = wall ctx_discarded_pong /\
    state c' = "melding" /\
    cur_player_idx c' = Some 2 /\
    last_player_idx c' = last_player_idx ctx_discarded_pong /\
    (forall i x l,
       nth_error [Some []; Some ["pong"; "skip"]; None;
                  Some ["pong"; "skip"]] i = Some (Some (x :: l)) ->
       exists q, nth_error (players c') i = Some q /\
                 extra q !! "viable_decisions" = Some (VStrs (x :: l))).
Proof.
  exact (discarded_next_routes plain_collab ctx_discarded_pong 2
           (player_of [GREEN] [CHAR6])
           [Some []; Some ["pong"; "skip"]; None; Some ["pong"; "skip"]]
           eq_refl eq_refl eq_refl eq_refl eq_refl eq_refl).
Defined.

(** ** No tile is lost or made up *)

Lemma bs_loop_bounds (P : nat -> bool) (fuel : nat) : forall lo hi,
  (lo <= hi)%nat -> (lo <= bs_loop P fuel lo hi <= hi)%nat.
Proof.
  induction fuel as [|fuel IH]; intros lo hi Hle; cbn [bs_loop]; [lia|].
  destruct (Nat.ltb_spec lo hi) as [Hlt|]; [|lia].
  pose proof (mid_bounds lo hi Hlt) as Hm.
  destruct (P ((lo + hi) / 2)%nat).
  - specialize (IH ((lo + hi) / 2 + 1)%nat hi ltac:(lia)). lia.
  - specialize (IH lo ((lo + hi) / 2)%nat ltac:(lia)). lia.
Qed.

(** Whatever the order of the list, a position answered by
    [utils.index] holds the value. *)
Lemma index_found (a : list Tile) (x : Tile) :
  0 <= index a x ->
  Permutation a (x :: del_at (Z.to_nat (index a x)) a).
Proof.
  unfold index.
  pose proof (bs_loop_bounds (fun mid => tile_ltb (nth mid a x) x)
                (length a) 0 (length a) ltac:(lia)) as Hb.
  rewrite <- bisect_left_loop_bs in Hb. fold (bisect_left a x) in Hb.
  set (i := bisect_left a x) in *.
  destruct (Nat.eqb_spec i (length a)) as [|Hne]; cbn [negb andb]; [lia|].
  destruct (tile_eqb (nth i a x) x) eqn:E; [|lia]. intros _.
  apply tile_eqb_eq in E. rewrite Nat2Z.id.
  assert (Hi : (i < length a)%nat) by lia.
  destruct (nth_split a x Hi) as (pre & suf & Ha & Hlen).
  rewrite E in Ha. rewrite Ha at 1 2. rewrite <- Hlen, del_at_app.
  symmetry. apply Permutation_middle.
Qed.

Lemma meld_remove_Permutation (l : list Tile) : forall ft ft',
  meld_remove ft l = (Ret tt, ft') -> Permutation ft (l ++ ft').
Proof.
  induction l as [|t l IH]; intros ft ft'; cbn [meld_remove app].
  - now intros [= <-].
  - destruct (Z.ltb_spec (index ft t) 0) as [|Hge]; [discriminate|].
    intros Hm. rewrite (index_found ft t) at 1 by lia.
    apply perm_skip. now apply IH.
Qed.

Lemma _meld_conserves (h h' : Hand) (fts : list Tile) (t : Tile) (gt : Z)
    (g : TileGroup) :
  _meld h fts t gt = (Ret g, h') ->
  Permutation (hand_tiles h') (t :: hand_tiles h).
Proof.
  unfold _meld.
  destruct (meld_remove (free_tiles h) fts) as [[u|e] ft'] eqn:Em;
    [|discriminate].
  destruct u. apply meld_remove_Permutation in Em.
  unfold TileGroup_init.
  destruct (negb _ && negb _); [discriminate|].
  destruct (_ || _); [discriminate|]. intros [= <- <-].
  unfold hand_tiles, held. simpl.
  rewrite map_app, concat_app. simpl. rewrite app_nil_r.
  apply Permutation_count_occ with (eq_dec := Tile_eq_dec). intros x.
  pose proof (proj1 (Permutation_count_occ Tile_eq_dec _ _) Em x) as C1.
  pose proof (proj1 (Permutation_count_occ Tile_eq_dec _ _)
                (py_sorted_Permutation (py_sorted (fts ++ [t]))) x) as C2.
  pose proof (proj1 (Permutation_count_occ Tile_eq_dec _ _)
                (py_sorted_Permutation (fts ++ [t])) x) as C3.
  cbn [count_occ]. rewrite !count_occ_app in *. cbn [count_occ] in *.
  destruct (Tile_eq_dec t x); lia.
Qed.

Ltac count_tiles :=
  apply Permutation_count_occ with (eq_dec := Tile_eq_dec);
  let x := fresh "x" in
  intros x;
  repeat match goal with
    | H : Permutation _ _ |- _ =>
        pose proof (proj1 (Permutation_count_occ Tile_eq_dec _ _) H x);
        clear H
    end;
  cbn [count_occ app] in *;
  repeat (progress (repeat rewrite count_occ_app in *;
                    cbn [count_occ app] in *));
  repeat match goal with
    | |- context [Tile_eq_dec ?a x] => destruct (Tile_eq_dec a x)
    | H : context [Tile_eq_dec ?a x] |- _ => destruct (Tile_eq_dec a x)
    end;
  try lia.

Lemma append_to_pong_tiles (lt : Tile) (gs : list TileGroup)
    (g : TileGroup) :
  find (is_pong_of lt) gs = Some g ->
  Permutation (concat (map tiles (append_to_pong gs lt)))
              (lt :: concat (map tiles gs)).
Proof.
  induction gs as [|g0 gs IH]; [discriminate|].
  cbn [find append_to_pong]. destruct (is_pong_of lt g0).
  - intros _. simpl. count_tiles.
  - intros H. simpl.
    pose proof (fun y => proj1 (Permutation_count_occ Tile_eq_dec _ _)
                               (IH H) y) as C.
    apply Permutation_count_occ with (eq_dec := Tile_eq_dec). intros y.
    specialize (C y). cbn [count_occ] in *. rewrite !count_occ_app.
    destruct (Tile_eq_dec lt y); lia.
Qed.

Lemma hand_ops_conserve_tiles_gen (h : Hand) :
  (forall t, Permutation (hand_tiles (add_free_tile h t))
                         (t :: hand_tiles h)) /\
  (forall t h', remove_free_tile h t = (Ret tt, h') ->
                Permutation (hand_tiles h) (t :: hand_tiles h')) /\
  Permutation (hand_tiles (snd (move_last_tile h))) (hand_tiles h) /\
  Permutation (hand_tiles (move_flowers h)) (hand_tiles h) /\
  (forall t h', Hand_discard h (Some t) = (Ret tt, h') ->
                Permutation (hand_tiles h) (t :: hand_tiles h')) /\
  (forall fts t g h', Hand_chow h fts t = (Ret g, h') ->
                      Permutation (hand_tiles h') (t :: hand_tiles h)) /\
  (forall t g h', Hand_pong h t = (Ret g, h') ->
                  Permutation (hand_tiles h') (t :: hand_tiles h)) /\
  (forall t g h', kong_from_other h t = (Ret g, h') ->
                  Permutation (hand_tiles h') (t :: hand_tiles h)) /\
  (forall g h', kong_from_self h = (Ret g, h') ->
                Permutation (hand_tiles h') (hand_tiles h)).
Proof.
  assert (Hadd : forall h0 t, Permutation (hand_tiles (add_free_tile h0 t))
                                          (t :: hand_tiles h0)).
  { intros h0 t. unfold hand_tiles, held, add_free_tile.
    cbn [free_tiles fixed_groups flowers last_tile set_free_tiles].
    pose proof (insort_Permutation (free_tiles h0) t). count_tiles. }
  assert (Hrem : forall h0 t h', remove_free_tile h0 t = (Ret tt, h') ->
                   Permutation (hand_tiles h0) (t :: hand_tiles h')).
  { intros h0 t h'. unfold remove_free_tile.
    destruct (Z.ltb_spec (index (free_tiles h0) t) 0) as [|Hge];
      [discriminate|].
    intros [= <-]. unfold hand_tiles, held.
    cbn [free_tiles fixed_groups flowers last_tile set_free_tiles].
    pose proof (index_found (free_tiles h0) t Hge). count_tiles. }
  assert (Hmove : forall h0, Permutation (hand_tiles (snd (move_last_tile h0)))
                                         (hand_tiles h0)).
  { intros h0. unfold move_last_tile.
    destruct (last_tile h0) as [l|] eqn:El; cbn [snd]; [|reflexivity].
    unfold hand_tiles, held, add_free_tile.
    cbn [free_tiles fixed_groups flowers last_tile set_free_tiles
         set_last_tile].
    rewrite El. pose proof (insort_Permutation (free_tiles h0) l).
    count_tiles. }
  split; [apply Hadd|]. split; [apply Hrem|]. split; [apply Hmove|].
  split; [|split; [|split; [|split; [|split]]]].
  - rewrite move_flowers_eq. unfold hand_tiles, held.
    cbn [free_tiles fixed_groups flowers last_tile].
    pose proof (filter_split_Permutation is_general_flower (free_tiles h)).
    destruct (last_tile h) as [t|]; [destruct (is_general_flower t)|];
      count_tiles.
  - intros t h'. unfold Hand_discard.
    destruct (opt_tile_eqb (last_tile h) (Some t)) eqn:El.
    + apply opt_tile_eqb_Some in El. intros [= <-].
      unfold hand_tiles, held.
      cbn [free_tiles fixed_groups flowers last_tile set_last_tile].
      rewrite El. count_tiles.
    + destruct (remove_free_tile h t) as [[u|e] h1] eqn:Er; [|discriminate].
      destruct u. intros [= <-].
      pose proof (Hrem h t h1 Er). pose proof (Hmove h1).
      clear Hadd Hrem Hmove. count_tiles.
  - intros fts t g h'. apply _meld_conserves.
  - intros t g h'. apply _meld_conserves.
  - intros t g h'. apply _meld_conserves.
  - intros g h'. unfold kong_from_self.
    destruct (last_tile h) as [lt|] eqn:El; [|discriminate].
    destruct (_find_pong_group h lt) as [pg|] eqn:Ef.
    + intros [= _ <-]. unfold hand_tiles, held.
      cbn [free_tiles fixed_groups flowers last_tile set_last_tile
           set_fixed_groups].
      rewrite El. pose proof (append_to_pong_tiles lt _ pg Ef).
      count_tiles.
    + destruct (_meld h [lt; lt; lt] lt KONG_CONCEALED) as [[g0|e] h1] eqn:Em;
        [|discriminate].
      intros [= _ <-]. pose proof (_meld_conserves _ _ _ _ _ _ Em) as HP.
      assert (Hl1 : last_tile h1 = Some lt).
      { unfold _meld in Em.
        destruct (meld_remove _ _) as [[u|e] ft']; [|discriminate].
        destruct (TileGroup_init _ _); [|discriminate].
        injection Em as _ <-. exact El. }
      revert HP. unfold hand_tiles, held.
      cbn [free_tiles fixed_groups flowers last_tile set_last_tile].
      rewrite Hl1, El. intros HP. count_tiles.
Qed.

(** X26. No operation of [Hand] loses or makes up a tile: counted over
    free tiles, drawn tile, melds and flowers, a hand gains exactly the
    tile added or melded in, loses exactly the tile removed or
    discarded, and keeps its tiles when the drawn tile or the flowers
    are moved or a kong is made from the drawn tile. This holds for
    every successful call, sorted free tiles or not. *)
Theorem hand_ops_conserve_tiles (h : Hand) :
  (forall t, Permutation (hand_tiles (add_free_tile h t))
                         (t :: hand_tiles h)) /\
  (forall t h', remove_free_tile h t = (Ret tt, h') ->
                Permutation (hand_tiles h) (t :: hand_tiles h')) /\
  Permutation (hand_tiles (snd (move_last_tile h))) (hand_tiles h) /\
  Permutation (hand_tiles (move_flowers h)) (hand_tiles h) /\
  (forall t h', Hand_discard h (Some t) = (Ret tt, h') ->
                Permutation (hand_tiles h) (t :: hand_tiles h')) /\
  (forall fts t g h', Hand_chow h fts t = (Ret g, h') ->
                      Permutation (hand_tiles h') (t :: hand_tiles h)) /\
  (forall t g h', Hand_pong h t = (Ret g, h') ->
                  Permutation (hand_tiles h') (t :: hand_tiles h)) /\
  (forall t g h', kong_from_other h t = (Ret g, h') ->
                  Permutation (hand_tiles h') (t :: hand_tiles h)) /\
  (forall g h', kong_from_self h = (Ret g, h') ->
                Permutation (hand_tiles h') (hand_tiles h)).
Proof. apply hand_ops_conserve_tiles_gen. Qed.

Lemma hand_ops_conserve_tiles_witness :
  let h := mkHand [CHAR2; CHAR3; CHAR3] [] [PLUM] (Some EAST) in
  exists g h',
    Hand_pong h CHAR3 = (Ret g, h') /\
    Permutation (hand_tiles h') (CHAR3 :: hand_tiles h).
Proof.
  intros h. eexists. eexists. split; [vm_compute; reflexivity|].
  destruct (hand_ops_conserve_tiles h) as (_ & _ & _ & _ & _ & _ & Hp & _).
  apply (Hp CHAR3 (mkTileGroup [CHAR3; CHAR3; CHAR3] PONG)).
  vm_compute. reflexivity.
Defined.

(** Replacing one element of a list of hands. *)
Lemma concat_list_set (l : list Hand) (k : nat) (x y : Hand) :
  nth_error l k = Some x ->
  Permutation (hand_tiles x ++ concat (map hand_tiles (list_set l k y)))
              (hand_tiles y ++ concat (map hand_tiles l)).
Proof.
  revert k; induction l as [|z l IH]; intros [|k] Hk; cbn in Hk;
    try discriminate.
  - injection Hk as ->. cbn [list_set map concat].
    apply Permutation_app_swap_app.
  - cbn [list_set map concat]. specialize (IH k Hk).
    rewrite Permutation_app_swap_app, IH.
    apply Permutation_app_swap_app.
Qed.

Lemma table_tiles_hands (c : GameContext) :
  table_tiles c
  = match wall c with Some w => w | None => [] end
    ++ discarded_pool c ++ concat (map hand_tiles (map hand (players c))).
Proof. unfold table_tiles. now rewrite map_map. Qed.

(** X27. A discard on the context moves the tile from the hand to the
    discard pool, and taking the last discard back takes it off the
    table: counted over wall, discard pool and hands, the tiles on the
    table are the same after [GameContext.discard], and after
    [remove_last_discarded] has returned a tile they are the same less
    that tile. *)
Theorem discard_conserves_table (c c1 : GameContext) :
  (forall t i, GameContext_discard c t i = Ret c1 ->
               Permutation (table_tiles c1) (table_tiles c)) /\
  (forall t off, remove_last_discarded c off = Ret (Some t, c1) ->
                 Permutation (table_tiles c) (t :: table_tiles c1)).
Proof.
  split.
  - intros t i. unfold GameContext_discard.
    destruct (match i with
              | Some i0 => Ret i0
              | None => match cur_player_idx c with
                        | Some i0 => Ret i0
                        | None => Raise "TypeError"
                        end
              end) as [s|]; [|discriminate].
    cbn [ebind]. unfold get_player.
    destruct (py_index (players c) s) as [p|e] eqn:Hidx; [|discriminate].
    pose proof (py_index_range _ _ _ Hidx) as Hr.
    destruct (py_index_pos (players c) s Hr) as (Hk & Hidx' & Hset).
    set (k := py_pos (length (players c)) s) in *.
    rewrite Hidx in Hidx'.
    destruct (nth_error (players c) k) as [p'|] eqn:Hnth;
      [|discriminate]. injection Hidx' as <-.
    cbn [ebind]. unfold Player_discard.
    destruct (Hand_discard (hand p) (Some t)) as [[u|e] h'] eqn:Hd;
      [|discriminate].
    destruct u. cbn [ebind]. unfold put_player. rewrite Hset. cbn [ebind].
    intros [= <-]. rewrite !table_tiles_hands.
    cbn [wall discarded_pool players set_players set_discarded_pool].
    rewrite map_list_set_gen. cbn [hand set_hand set_discarded].
    destruct (hand_ops_conserve_tiles_gen (hand p))
      as (_ & _ & _ & _ & Hdis & _).
    pose proof (Hdis t h' Hd) as HP.
    pose proof (concat_list_set (map hand (players c)) k (hand p) h'
                  ltac:(rewrite nth_error_map, Hnth; reflexivity)) as HC.
    count_tiles.
  - intros t off. unfold remove_last_discarded.
    destruct (match player_idx_at c off with
              | Some i => ebind (get_player c i) (fun p => Ret (Some (i, p)))
              | None => Ret None
              end) as [[[i p]|]|] eqn:Epl; cbn [ebind]; [| |discriminate].
    + destruct (rev (discarded_pool c)) as [|t1 pool] eqn:Erev;
        [discriminate|].
      destruct (rev (discarded p)) as [|t2 rest]; [discriminate|].
      destruct (tile_eqb t1 t2); [|discriminate].
      unfold put_player. cbn [players set_discarded_pool].
      destruct (py_set (players c) i _) as [ps'|] eqn:Eset; [|discriminate].
      cbn [ebind]. intros [= -> <-].
      destruct (player_idx_at c off) as [j|]; [|discriminate].
      unfold get_player in Epl.
      destruct (py_index (players c) j) as [q|] eqn:Eidx; [|discriminate].
      cbn [ebind] in Epl. injection Epl as -> ->.
      pose proof (py_index_range _ _ _ Eidx) as Hr.
      destruct (py_index_pos (players c) i Hr) as (Hk & Hidx' & Hset).
      rewrite Hset in Eset. injection Eset as <-.
      rewrite Eidx in Hidx'.
      destruct (nth_error (players c) (py_pos (length (players c)) i))
        as [p'|] eqn:Hnth; [|discriminate]. injection Hidx' as <-.
      rewrite !table_tiles_hands.
      cbn [wall discarded_pool players set_players set_discarded_pool].
      rewrite (map_list_set hand _ _ p) by (auto; reflexivity).
      assert (Hpool : discarded_pool c = rev pool ++ [t]).
      { rewrite <- (rev_involutive (discarded_pool c)), Erev. reflexivity. }
      rewrite Hpool. count_tiles.
    + destruct (rev (discarded_pool c)); discriminate.
Qed.

Lemma discard_conserves_table_witness :
  exists c1,
    GameContext_discard ctx_discarded_pong GREEN None = Ret c1 /\
    Permutation (table_tiles c1) (table_tiles ctx_discarded_pong).
Proof.
  eexists. split; [vm_compute; reflexivity|].
  apply (proj1 (discard_conserves_table ctx_discarded_pong _) GREEN None).
  vm_compute. reflexivity.
Defined.

(** X28. A draw conserves the tiles on the table: in the drawing phase,
    with the wall above the tie threshold, no flower just drawn and, as
    the validation requires, no last tile in the current player's hand,
    the tiles counted over wall, discard pool and hands are the same
    after the step. *)
Theorem drawing_next_conserves (c : GameContext) (w' : list Tile) (t : Tile)
    (seat : Z) (p : Player) :
  length (players c) = 4%nat ->
  cur_player_idx c = Some seat ->
  get_player c (seat mod 4) = Ret p ->
  last_tile (hand p) = None ->
  state c = "drawing" ->
  wall c = Some (w' ++ [t]) ->
  tie_wall (settings c) + total_kongs c * tie_wall_per_kong (settings c)
  < Z.of_nat (length (w' ++ [t])) ->
  truthy (extra p !! "flowered") = false ->
  flower_winner_ok c ->
  exists c',
    DrawingHandler_next c = Ret c' /\
    Permutation (table_tiles c') (table_tiles c).
Proof.
  intros Hlen Hcur Hp Hlast Hstate Hwall Habove Hfl Hfw.
  destruct (drawing_next_draws_gen c w' t seat p Hlen Hcur Hp Hstate Hwall
              Habove Hfl Hfw)
    as (c' & Hc & _ & Hw' & Hh & _ & Hpool & _).
  exists c'. split; [exact Hc|].
  rewrite !table_tiles_hands, Hw', Hwall, Hpool, Hh.
  assert (Hn : nth_error (map hand (players c)) (Z.to_nat (seat mod 4))
               = Some (hand p)).
  { unfold get_player in Hp.
    assert (H0 : 0 <= seat mod 4)
      by (pose proof (Z.mod_pos_bound seat 4 ltac:(lia)); lia).
    rewrite nth_error_map, (py_index_nonneg _ _ _ H0 Hp). reflexivity. }
  pose proof (concat_list_set _ _ _ (set_last_tile (hand p) (Some t)) Hn)
    as HC.
  assert (Hht : hand_tiles (set_last_tile (hand p) (Some t))
                = free_tiles (hand p) ++ [t]
                  ++ concat (map tiles (fixed_groups (hand p)))
                  ++ flowers (hand p)).
  { unfold hand_tiles, held.
    cbn [set_last_tile free_tiles last_tile fixed_groups flowers].
    now rewrite <- app_assoc. }
  assert (Hh0 : hand_tiles (hand p)
                = free_tiles (hand p)
                  ++ concat (map tiles (fixed_groups (hand p)))
                  ++ flowers (hand p)).
  { unfold hand_tiles, held. rewrite Hlast. now rewrite app_nil_r. }
  rewrite Hht, Hh0 in HC. clear - HC. count_tiles.
Qed.

Lemma drawing_next_conserves_witness :
  exists c',
    DrawingHandler_next ctx_drawing = Ret c' /\
    Permutation (table_tiles c') (table_tiles ctx_drawing).
Proof.
  apply (drawing_next_conserves ctx_drawing
           [CHAR1; CHAR2; CHAR3; CHAR4; CHAR5; CHAR6; CHAR7; CHAR8; CHAR9;
            CIRCLE1; CIRCLE2; CIRCLE3; CIRCLE4; CIRCLE5; CIRCLE6; CIRCLE7;
            CIRCLE8]
           CIRCLE9 3 (player_of [CHAR4] []));
    first [reflexivity | exact I].
Defined.

(** ** Leaving the melding phase *)

Lemma seat_access (c : GameContext) (i : Z) (x : Player) :
  length (players c) = 4%nat -> 0 <= i < 4 ->
  nth_error (players c) (Z.to_nat i) = Some x ->
  get_player c i = Ret x /\
  forall y, put_player c i y
            = Ret (set_players c (list_set (players c) (Z.to_nat i) y)).
Proof.
  intros Hlen Hi Hn. unfold get_player, put_player.
  destruct (py_index_pos (players c) i ltac:(rewrite Hlen; lia))
    as (_ & Hidx & Hset).
  assert (Hpos : py_pos (length (players c)) i = Z.to_nat i).
  { unfold py_pos. destruct (Z.ltb_spec i 0); [lia | reflexivity]. }
  rewrite Hpos in Hidx, Hset. rewrite Hn in Hidx.
  split; [exact Hidx|]. intros y. now rewrite Hset.
Qed.

Lemma Forall_list_set {A : Type} (P : A -> Prop) (l : list A) (k : nat)
    (y : A) :
  Forall P l -> P y -> Forall P (list_set l k y).
Proof.
  intros Hl Hy. revert k. induction Hl as [|x l Hx Hl IH]; intros [|k];
    cbn [list_set]; constructor; auto.
Qed.

(** [MeldingHandler._cleanup] on a four-seat table. *)
Lemma MeldingHandler_cleanup_players (c : GameContext) (m : Z) (x : Player) :
  length (players c) = 4%nat ->
  cur_player_idx c = Some m -> 0 <= m < 4 ->
  nth_error (players c) (Z.to_nat m) = Some x ->
  state c <> "win" ->
  exists c',
    MeldingHandler_cleanup c = Ret c' /\
    players c'
    = list_set (map melding_clear (players c)) (Z.to_nat m)
               (set_extra (melding_clear x)
                          (delete "konged" (extra (melding_clear x)))) /\
    state c' = state c /\ cur_player_idx c' = Some m /\
    last_player_idx c' = last_player_idx c /\
    discarded_pool c' = discarded_pool c /\ wall c' = wall c /\
    cextra c' = delete "melders" (cextra c).
Proof.
  intros Hlen Hcur Hm Hn Hst. unfold MeldingHandler_cleanup.
  cbn [state set_players set_cextra].
  destruct (String.eqb_spec (state c) "win") as [E|_]; [contradiction|].
  cbn [negb]. unfold cur_player, player_idx_at.
  cbn [cur_player_idx set_players set_cextra]. rewrite Hcur, Z.add_0_r.
  rewrite (Z.mod_small m 4) by lia.
  set (c2 := set_players _ _).
  destruct (seat_access c2 m (melding_clear x)) as [Hg Hp]; [| exact Hm | |].
  { unfold c2. cbn [players set_players]. now rewrite length_map. }
  { unfold c2. cbn [players set_players set_cextra].
    change (map _ (players c)) with (map melding_clear (players c)).
    rewrite nth_error_map, Hn. reflexivity. }
  rewrite Hg. cbn [ebind]. rewrite Hp.
  eexists. split; [reflexivity|]. unfold c2.
  cbn [players state cur_player_idx last_player_idx discarded_pool wall
       cextra set_players set_cextra].
  repeat split; auto.
Qed.

Lemma melding_clear_frame (ps : list Player) (k : nat) (x : Player) :
  nth_error ps k = Some x ->
  Forall (fun p => decision p = None /\
                   extra p !! "viable_decisions" = None)
         (list_set (map melding_clear ps) k
            (set_extra (melding_clear x)
                       (delete "konged" (extra (melding_clear x))))) /\
  map hand
      (list_set (map melding_clear ps) k
         (set_extra (melding_clear x)
                    (delete "konged" (extra (melding_clear x)))))
  = map hand ps /\
  map discarded
      (list_set (map melding_clear ps) k
         (set_extra (melding_clear x)
                    (delete "konged" (extra (melding_clear x)))))
  = map discarded ps.
Proof.
  intros Hn. split; [|split].
  - apply Forall_list_set.
    + apply List.Forall_forall. intros p Hp. apply in_map_iff in Hp.
      destruct Hp as (p0 & <- & _). split; [reflexivity|].
      cbn [melding_clear extra set_extra set_decision].
      apply lookup_delete_eq.
    + split; [reflexivity|].
      cbn [melding_clear extra set_extra set_decision].
      rewrite lookup_delete_ne by discriminate. apply lookup_delete_eq.
  - rewrite map_list_set_gen, map_map.
    cbn [melding_clear hand set_extra set_decision].
    apply list_set_same. rewrite nth_error_map, Hn. reflexivity.
  - rewrite map_list_set_gen, map_map.
    cbn [melding_clear discarded set_extra set_decision].
    apply list_set_same. rewrite nth_error_map, Hn. reflexivity.
Qed.

(** X29. In the melding phase, when the arbitration has selected
    nobody, the step passes the turn: the state becomes ['drawing'],
    the next seat is the current player, every decision and every list
    of options is cleared, and hands, discards and the wall are
    untouched. *)
Theorem melding_next_no_melders (c : GameContext) (seat : Z) :
  length (players c) = 4%nat ->
  cur_player_idx c = Some seat ->
  truthy (cextra c !! "melders") = false ->
  exists c',
    MeldingHandler_next c = Ret c' /\
    state c' = "drawing" /\
    cur_player_idx c' = Some ((seat + 1) mod 4) /\
    last_player_idx c' = Some seat /\
    Forall (fun p => decision p = None /\
                     extra p !! "viable_decisions" = None) (players c') /\
    map hand (players c') = map hand (players c) /\
    map discarded (players c') = map discarded (players c) /\
    discarded_pool c' = discarded_pool c /\ wall c' = wall c /\
    cextra c' !! "melders" = None.
Proof.
  intros Hlen Hcur Hno. unfold MeldingHandler_next. rewrite Hno.
  cbn [negb]. set (c1 := MeldingHandler_next_turn c).
  assert (H1 : players c1 = players c /\
               cur_player_idx c1 = Some ((seat + 1) mod 4) /\
               last_player_idx c1 = Some seat /\ state c1 = "drawing" /\
               discarded_pool c1 = discarded_pool c /\ wall c1 = wall c /\
               cextra c1 = cextra c).
  { unfold c1, MeldingHandler_next_turn, next_turn, set_turn.
    cbn [cur_player_idx set_state]. rewrite Hcur. repeat split. }
  destruct H1 as (Hps & Hc1 & Hl1 & Hs1 & Hp1 & Hw1 & He1).
  pose proof (Z.mod_pos_bound (seat + 1) 4 ltac:(lia)) as Hb.
  destruct (nth_error (players c1) (Z.to_nat ((seat + 1) mod 4)))
    as [x|] eqn:Hx.
  2:{ apply nth_error_None in Hx. rewrite Hps, Hlen in Hx. lia. }
  destruct (MeldingHandler_cleanup_players c1 _ x
              ltac:(rewrite Hps; exact Hlen) Hc1 Hb Hx
              ltac:(rewrite Hs1; discriminate))
    as (c' & Hc & Hpl & Hst & Hcu & Hla & Hpo & Hwa & Hex).
  exists c'. split; [exact Hc|].
  rewrite Hpl, Hst, Hcu, Hla, Hpo, Hwa, Hex, Hs1, Hl1, Hp1, Hw1.
  destruct (melding_clear_frame (players c1) _ x Hx) as (F1 & F2 & F3).
  do 3 (split; [reflexivity|]). split; [exact F1|].
  rewrite F2, F3, Hps.
  do 4 (split; [reflexivity|]). apply lookup_delete_eq.
Qed.

Lemma melding_next_no_melders_witness :
  exists c',
    MeldingHandler_next ctx_melding = Ret c' /\
    state c' = "drawing" /\
    cur_player_idx c' = Some ((2 + 1) mod 4) /\
    last_player_idx c' = Some 2 /\
    Forall (fun p => decision p = None /\
                     extra p !! "viable_decisions" = None) (players c') /\
    map hand (players c') = map hand (players ctx_melding) /\
    map discarded (players c') = map discarded (players ctx_melding) /\
    discarded_pool c' = discarded_pool ctx_melding /\
    wall c' = wall ctx_melding /\
    cextra c' !! "melders" = None.
Proof.
  apply (melding_next_no_melders ctx_melding 2); reflexivity.
Defined.

(** [remove_last_discarded] when pool and current player agree on the
    last discard. *)
Lemma remove_last_discarded_seat (c : GameContext) (seat : Z) (p : Player)
    (pool d : list Tile) (t : Tile) :
  length (players c) = 4%nat ->
  cur_player_idx c = Some seat -> 0 <= seat < 4 ->
  nth_error (players c) (Z.to_nat seat) = Some p ->
  discarded_pool c = pool ++ [t] ->
  discarded p = d ++ [t] ->
  remove_last_discarded c 0
  = Ret (Some t,
         set_players (set_discarded_pool c pool)
                     (list_set (players c) (Z.to_nat seat)
                               (set_discarded p d))).
Proof.
  intros Hlen Hcur Hs Hn Hpool Hd.
  unfold remove_last_discarded, player_idx_at.
  rewrite Hcur, Z.add_0_r, (Z.mod_small seat 4) by lia.
  destruct (seat_access c seat p Hlen Hs Hn) as [Hg _].
  rewrite Hg. cbn [ebind]. rewrite Hpool, rev_unit, Hd, rev_unit.
  rewrite tile_eqb_refl, !rev_involutive.
  destruct (seat_access (set_discarded_pool c pool) seat p Hlen Hs Hn)
    as [_ Hp].
  rewrite Hp. reflexivity.
Qed.

(** X30. In the melding phase, when the arbitration has given the
    discard to a seat for a pong and that seat holds two copies of it,
    the step takes the tile off the discard pool and off the
    discarder's own discards, makes the claimant the current player in
    state ['discarding'], and melds the triplet in the claimant's hand.
    Counted over wall, discard pool and hands, the tiles on the table
    are the same as before. *)
Theorem melding_next_pong (c : GameContext) (seat m : Z) (p q : Player)
    (pool d : list Tile) (t : Tile) (rest : list (Z * option string)) :
  length (players c) = 4%nat ->
  cur_player_idx c = Some seat -> 0 <= seat < 4 -> 0 <= m < 4 ->
  cextra c !! "melders" = Some (VMelders ((m, Some "pong") :: rest)) ->
  nth_error (players c) (Z.to_nat seat) = Some p ->
  nth_error (players c) (Z.to_nat m) = Some q ->
  discarded_pool c = pool ++ [t] ->
  discarded p = d ++ [t] ->
  sorted_tiles (free_tiles (hand q)) ->
  can_pong (hand q) t = true ->
  exists c' h',
    MeldingHandler_next c = Ret c' /\
    Hand_pong (hand q) t = (Ret (mkTileGroup [t; t; t] PONG), h') /\
    state c' = "discarding" /\
    cur_player_idx c' = Some m /\ last_player_idx c' = Some seat /\
    discarded_pool c' = pool /\ wall c' = wall c /\
    map hand (players c') = list_set (map hand (players c)) (Z.to_nat m) h' /\
    map discarded (players c')
    = list_set (map discarded (players c)) (Z.to_nat seat) d /\
    Forall (fun p => decision p = None /\
                     extra p !! "viable_decisions" = None) (players c') /\
    cextra c' !! "melders" = None /\
    Permutation (table_tiles c') (table_tiles c).
Proof.
  intros Hlen Hcur Hs Hm Hmel Hp Hq Hpool Hd Hsort Hcan.
  (* the meld on the claimant's hand *)
  destruct (_meld_repeat (hand q) t 2 PONG Hsort ltac:(auto)
              ltac:(unfold PONG; lia)) as (ft' & _ & _ & E).
  apply (can_pong_spec _ _ Hsort) in Hcan.
  change (Z.of_nat 2) with 2 in E.
  destruct (Z.leb_spec 2 (list_count t (free_tiles (hand q)))); [|lia].
  change (repeat t 2) with [t; t] in E.
  change (repeat t 3) with [t; t; t] in E.
  set (h' := mkHand ft' _ _ _) in E.
  assert (Epong : Hand_pong (hand q) t
                  = (Ret (mkTileGroup [t; t; t] PONG), h')) by exact E.
  pose proof (proj1 (proj2 (proj2 (proj2 (proj2 (proj2 (proj2
                (hand_ops_conserve_tiles_gen (hand q))))))))
                t _ h' Epong) as Hcons.
  (* the discard leaves the table *)
  pose proof (remove_last_discarded_seat c seat p pool d t Hlen Hcur Hs Hp
                Hpool Hd) as Hrem.
  set (ps1 := list_set (players c) (Z.to_nat seat) (set_discarded p d))
    in Hrem.
  assert (Hlen1 : length ps1 = 4%nat)
    by (unfold ps1; now rewrite length_list_set).
  assert (Hh1 : map hand ps1 = map hand (players c))
    by (unfold ps1; now apply (map_list_set hand _ _ p)).
  assert (Hd1 : map discarded ps1
                = list_set (map discarded (players c)) (Z.to_nat seat) d)
    by (unfold ps1; now rewrite map_list_set_gen).
  destruct (nth_error ps1 (Z.to_nat m)) as [q1|] eqn:Hq1.
  2:{ apply nth_error_None in Hq1. lia. }
  assert (Hhq : hand q1 = hand q).
  { pose proof (f_equal (fun l => nth_error l (Z.to_nat m)) Hh1) as H1.
    cbn beta in H1. rewrite !nth_error_map, Hq1, Hq in H1.
    now injection H1. }
  (* the route *)
  unfold MeldingHandler_next. rewrite Hmel.
  cbn [truthy negb opt_str_is String.eqb Ascii.eqb Bool.eqb].
  cbn [negb]. unfold MeldingHandler_pong. rewrite Hrem. cbn [ebind].
  set (c2 := set_turn _ m).
  assert (Hl2 : length (players c2) = 4%nat) by exact Hlen1.
  assert (Hq2 : nth_error (players c2) (Z.to_nat m) = Some q1) by exact Hq1.
  destruct (seat_access c2 m q1 Hl2 Hm Hq2) as [Hg2 Hp2].
  unfold meld_on_cur, cur_player, player_idx_at.
  change (cur_player_idx c2) with (Some m). cbv beta iota.
  rewrite Z.add_0_r, (Z.mod_small m 4) by lia.
  rewrite Hg2. cbn [ebind pong_opt]. rewrite Hhq, Epong, Hp2.
  cbn [ebind].
  set (c3 := set_players c2 _).
  destruct (MeldingHandler_cleanup_players c3 m (set_hand q1 h'))
    as (c' & Hc & Hpl & Hst & Hcu & Hla & Hpo & Hwa & Hex).
  { unfold c3. cbn [players set_players]. now rewrite length_list_set. }
  { reflexivity. }
  { exact Hm. }
  { unfold c3. cbn [players set_players].
    apply nth_error_list_set. rewrite Hl2. lia. }
  { discriminate. }
  exists c', h'. split; [exact Hc|]. split; [reflexivity|].
  destruct (melding_clear_frame (players c3) (Z.to_nat m) (set_hand q1 h'))
    as (F1 & F2 & F3).
  { unfold c3. cbn [players set_players].
    apply nth_error_list_set. rewrite Hl2. lia. }
  assert (Hh3 : map hand (players c3)
                = list_set (map hand (players c)) (Z.to_nat m) h').
  { unfold c3. cbn [players set_players]. rewrite map_list_set_gen.
    change (players c2) with ps1. now rewrite Hh1. }
  assert (Hd3 : map discarded (players c3)
                = list_set (map discarded (players c)) (Z.to_nat seat) d).
  { unfold c3. cbn [players set_players].
    change (players c2) with ps1. rewrite <- Hd1.
    now apply (map_list_set discarded _ _ q1). }
  assert (Hhands : map hand (players c')
                   = list_set (map hand (players c)) (Z.to_nat m) h')
    by (rewrite Hpl, F2; exact Hh3).
  split; [rewrite Hst; reflexivity|].
  split; [exact Hcu|].
  split; [rewrite Hla; unfold c3, c2; cbn; exact Hcur|].
  split; [rewrite Hpo; reflexivity|].
  split; [rewrite Hwa; reflexivity|].
  split; [exact Hhands|].
  split; [rewrite Hpl, F3; exact Hd3|].
  split; [rewrite Hpl; exact F1|].
  split; [rewrite Hex; apply lookup_delete_eq|].
  rewrite !table_tiles_hands, Hhands, Hwa, Hpo, Hpool.
  change (wall c3) with (wall c). change (discarded_pool c3) with pool.
  pose proof (concat_list_set (map hand (players c)) (Z.to_nat m) (hand q) h'
                ltac:(rewrite nth_error_map, Hq; reflexivity)) as Hswap.
  clear - Hswap Hcons. count_tiles.
Qed.

Lemma melding_next_pong_witness :
  exists c' h',
    MeldingHandler_next ctx_melding_pong = Ret c' /\
    Hand_pong (hand pong_claimant) CHAR6
    = (Ret (mkTileGroup [CHAR6; CHAR6; CHAR6] PONG), h') /\
    state c' = "discarding" /\
    cur_player_idx c' = Some 1 /\ last_player_idx c' = Some 2 /\
    discarded_pool c' = [] /\ wall c' = wall ctx_melding_pong /\
    map hand (players c')
    = list_set (map hand (players ctx_melding_pong)) (Z.to_nat 1) h' /\
    map discarded (players c')
    = list_set (map discarded (players ctx_melding_pong)) (Z.to_nat 2) [] /\
    Forall (fun p => decision p = None /\
                     extra p !! "viable_decisions" = None) (players c') /\
    cextra c' !! "melders" = None /\
    Permutation (table_tiles c') (table_tiles ctx_melding_pong).
Proof.
  apply (melding_next_pong ctx_melding_pong 2 1 (player_of [GREEN] [CHAR6])
           pong_claimant [] [] CHAR6 []);
    try reflexivity; try lia.
  repeat constructor; unfold tile_le; simpl; lia.
Defined.

(** ** The drawing step at the wall threshold *)

Lemma total_kongs_hands (c1 c : GameContext) :
  map hand (players c1) = map hand (players c) ->
  total_kongs c1 = total_kongs c.
Proof.
  unfold total_kongs.
  assert (H : forall ps a,
            fold_left (fun total p => total + num_kongs (hand p) true true)
                      ps a
            = fold_left (fun total h => total + num_kongs h true true)
                        (map hand ps) a).
  { induction ps as [|p ps IH]; intros a; simpl; [reflexivity | apply IH]. }
  intros E. now rewrite !H, E.
Qed.

(** What a successful [DrawingHandler.validate] leaves alone. *)
Lemma DrawingHandler_validate_frame (c c1 : GameContext) (r : FlowResult) :
  DrawingHandler_validate c = Ret (r, c1) ->
  success r = true ->
  flower_winner_ok c ->
  wall c1 = wall c /\ settings c1 = settings c /\
  map hand (players c1) = map hand (players c) /\
  flower_winner_ok c1.
Proof.
  unfold DrawingHandler_validate, decisions_needed_for. intros H Hr Hok.
  destruct (cur_player c) as [[cur player]|] eqn:Ecur; [|discriminate].
  cbn [ebind] in H.
  destruct (last_tile (hand player)); [injection H as <- <-; discriminate|].
  destruct (truthy (extra player !! "flowered"));
    [|injection H as <- <-; auto].
  destruct (flowers (hand player));
    [injection H as <- <-; discriminate|].
  destruct (_player_who_can_flower_win c) as [[[robber|] [chucker|]]|];
    cbn [ebind] in H; try discriminate;
    try (injection H as <- <-; auto; fail).
  destruct (get_player c robber) as [q|] eqn:Eq; [|discriminate].
  cbn [ebind] in H.
  destruct (get_decision c robber (Some ["win"; "skip"])) as [[d|]|];
    cbn [ebind] in H; try discriminate.
  2:{ destruct (py_set _ robber _); cbn [ebind] in H; [|discriminate].
      injection H as <- <-. discriminate. }
  set (c0 := set_cextra c _) in H.
  unfold player_extra_set, get_player, put_player in H, Eq.
  change (players c0) with (players c) in H.
  rewrite Eq in H. cbn [ebind] in H.
  pose proof (py_index_range _ _ _ Eq) as Hrange.
  destruct (py_index_pos (players c) robber Hrange) as (Hk & Hidx & Hset).
  rewrite Hset in H. cbn [ebind] in H. injection H as <- <-.
  rewrite Eq in Hidx.
  destruct (nth_error (players c) (py_pos (length (players c)) robber))
    as [q'|] eqn:Hq; [|discriminate]. injection Hidx as ->.
  cbn [wall settings players set_players set_cextra].
  split; [reflexivity|]. split; [reflexivity|].
  split; [now apply (map_list_set hand _ _ q')|].
  unfold flower_winner_ok, c0.
  cbn [cextra players set_players set_cextra].
  rewrite lookup_insert_ne by discriminate. rewrite lookup_insert_eq.
  now rewrite length_list_set.
Qed.

(** The step on a context whose validation succeeds. *)
Lemma drawing_step_validated (c c1 : GameContext) (w : list Tile)
    (r : FlowResult) :
  wall c = Some w ->
  total_kongs c = 0 ->
  Z.of_nat (length w) = tie_wall (settings c) ->
  flower_winner_ok c ->
  DrawingHandler_validate c = Ret (r, c1) ->
  success r = true ->
  exists c',
    handle DrawingHandler_validate DrawingHandler_next c = Ret (r, c') /\
    state c' = "end" /\
    cextra c' !! "tie_type" = Some (VStr "wall") /\
    winners c' = None /\
    wall c' = Some w /\
    map hand (players c') = map hand (players c).
Proof.
  intros Hw Hk Hlen Hfw Hval Hr.
  destruct (DrawingHandler_validate_frame c c1 r Hval Hr Hfw)
    as (Hw1 & Hs1 & Hh1 & Hfw1).
  destruct (DrawingHandler_next_wall_tie c1 w) as (c' & Hn & Hst & Htie
                                                    & Hwin & Hwall & Hh).
  - now rewrite Hw1.
  - rewrite Hs1, (total_kongs_hands c1 c Hh1), Hk. lia.
  - exact Hfw1.
  - exists c'. unfold handle. rewrite Hval. cbn [ebind]. rewrite Hr.
    cbn [negb]. rewrite Hn. cbn [ebind].
    repeat (split; [assumption || reflexivity|]). now rewrite Hh.
Qed.

(** The validation succeeds for a current player who holds no drawn
    tile and has not just drawn a flower. *)
Lemma DrawingHandler_validate_plain (c : GameContext) (seat : Z)
    (p : Player) :
  cur_player_idx c = Some seat ->
  get_player c (seat mod 4) = Ret p ->
  last_tile (hand p) = None ->
  truthy (extra p !! "flowered") = false ->
  DrawingHandler_validate c = Ret (Success, c).
Proof.
  intros Hcur Hp Hlast Hfl.
  unfold DrawingHandler_validate, cur_player, player_idx_at.
  rewrite Hcur, Z.add_0_r, Hp. cbn [ebind]. now rewrite Hlast, Hfl.
Qed.

(** C6 (amended). When the drawing phase is entered with the wall at
    exactly the tie threshold and no quad on the table, and the
    validation of the step succeeds, the step ends the match: state
    ['end'], tie type ["wall"], no winners, and nothing drawn from the
    wall. The validation succeeds in particular when the current player
    holds no drawn tile and has not just drawn a flower. *)
Theorem drawing_step_wall_tie (c : GameContext) (w : list Tile) :
  wall c = Some w ->
  total_kongs c = 0 ->
  Z.of_nat (length w) = tie_wall (settings c) ->
  flower_winner_ok c ->
  (forall r c1,
     DrawingHandler_validate c = Ret (r, c1) ->
     success r = true ->
     exists c',
       handle DrawingHandler_validate DrawingHandler_next c = Ret (r, c') /\
       state c' = "end" /\
       cextra c' !! "tie_type" = Some (VStr "wall") /\
       winners c' = None /\
       wall c' = Some w /\
       map hand (players c') = map hand (players c)) /\
  (forall seat p,
     cur_player_idx c = Some seat ->
     get_player c (seat mod 4) = Ret p ->
     last_tile (hand p) = None ->
     truthy (extra p !! "flowered") = false ->
     exists c',
       handle DrawingHandler_validate DrawingHandler_next c
       = Ret (Success, c') /\
       state c' = "end" /\
       cextra c' !! "tie_type" = Some (VStr "wall") /\
       winners c' = None /\
       wall c' = Some w /\
       map hand (players c') = map hand (players c)).
Proof.
  intros Hw Hk Hlen Hfw. split.
  - intros r c1 Hval Hr.
    now apply (drawing_step_validated c c1 w r).
  - intros seat p Hcur Hp Hlast Hfl.
    apply (drawing_step_validated c c w Success); auto.
    now apply (DrawingHandler_validate_plain c seat p).
Qed.

Lemma drawing_step_wall_tie_witness :
  exists c',
    handle DrawingHandler_validate DrawingHandler_next ctx_wall_tie
    = Ret (Success, c') /\
    state c' = "end" /\
    cextra c' !! "tie_type" = Some (VStr "wall") /\
    winners c' = None /\
    wall c' = wall ctx_wall_tie /\
    map hand (players c') = map hand (players ctx_wall_tie).
Proof.
  refine (proj2 (drawing_step_wall_tie ctx_wall_tie _ eq_refl eq_refl
                   eq_refl I)
                3 (player_of [CHAR4] []) eq_refl eq_refl eq_refl eq_refl).
Defined.

(** C6, as stated, fails while a flower win is being offered. At
    [ctx_flower_pending_tie] the phase is ['drawing'], the wall holds
    exactly [tie_wall] tiles and no quad is on the table; seat 1, who
    may rob the flower seat 0 has just drawn, has not answered. The
    step fails with ['decisions-needed'] and leaves the context as it
    is: the state is still ['drawing'] and no tie is recorded. *)
Lemma drawing_step_pending_counterexample :
  state ctx_flower_pending_tie = "drawing" /\
  (exists w,
     wall ctx_flower_pending_tie = Some w /\
     Z.of_nat (length w) = tie_wall (settings ctx_flower_pending_tie)) /\
  total_kongs ctx_flower_pending_tie = 0 /\
  flower_winner_ok ctx_flower_pending_tie /\
  exists r,
    handle DrawingHandler_validate DrawingHandler_next ctx_flower_pending_tie
    = Ret (r, ctx_flower_pending_tie) /\
    success r = false /\
    reason r = Some "decisions-needed" /\
    state ctx_flower_pending_tie <> "end" /\
    cextra ctx_flower_pending_tie !! "tie_type" = None.
Proof.
  split; [reflexivity|]. split; [eexists; split; reflexivity|].
  split; [reflexivity|]. split; [exact I|].
  eexists. split; [vm_compute; reflexivity|].
  repeat split. discriminate.
Qed.
